(** * sdjsongrab: the fingerprint-gated cache of a Schedules Direct grabber

    A shallow embedding of the parts of [sdjsongrab.py], [lib/sqlhelper.py]
    and [lib/util.py] that decide what is written to the local cache:
    the batch splitter, the generic insert-or-update primitive, the artwork
    resolver, the three store operations of the schedule and program stages
    and the control flow of the main program around them.

    Python values that reach SQLite are modelled by [sqlval]; a table is the
    list of its rows in rowid order; Python dicts whose order is observable
    are association lists; exceptions are an explicit result type and the
    database cursor is threaded through a state-and-exception monad. *)

From Stdlib Require Import ZArith Lia Bool String Ascii DecimalString Arith PeanoNat List.
Import ListNotations.
Local Open Scope string_scope.
Local Open Scope list_scope.
Local Open Scope Z_scope.

Set Implicit Arguments.

(** ** Python exceptions that the modelled code can raise *)

Inductive exn : Type :=
| ValueError
| IndexError
| KeyError
| TypeError
| AttributeError
| AssertionError
| OverflowError          (* sqlite3: Python int too large for an INTEGER *)
| ProgrammingError       (* sqlite3: wrong number of bindings *)
| OperationalError.      (* sqlite3: the statement cannot be prepared *)

Inductive result (A : Type) : Type :=
| Ok (a : A)
| Raise (e : exn).

Arguments Ok {A} a.
Arguments Raise {A} e.

(** ** lib/util.py *)

Module Util.

Definition is_digit (c : ascii) : bool :=
  ((48 <=? nat_of_ascii c)%nat && (nat_of_ascii c <=? 57)%nat)%bool.

Definition digit (c : ascii) : Z := Z.of_nat (nat_of_ascii c) - 48.

Definition is_leap (y : Z) : bool :=
  ((y mod 4 =? 0) && (negb (y mod 100 =? 0) || (y mod 400 =? 0)))%bool.

Definition days_in_month (y m : Z) : Z :=
  if m =? 2 then (if is_leap y then 29 else 28)
  else if (m =? 4) || (m =? 6) || (m =? 9) || (m =? 11) then 30
  else 31.

Definition days_before_year (y : Z) : Z :=
  let y1 := y - 1 in y1 * 365 + y1 / 4 - y1 / 100 + y1 / 400.

Definition days_before_month (y m : Z) : Z :=
  fold_right Z.add 0
    (map (fun i => days_in_month y (Z.of_nat i)) (seq 1 (Z.to_nat (m - 1)))).

(** [datetime.date(y, m, d).toordinal()]; the constructor raises
    [ValueError] outside the calendar. *)
Definition date_toordinal (y m d : Z) : result Z :=
  if ((1 <=? y) && (1 <=? m) && (m <=? 12) && (1 <=? d) && (d <=? days_in_month y m))%bool
  then Ok (days_before_year y + days_before_month y m + d)
  else Raise ValueError.

(** [date_to_int(daystring)]: the pattern [(\d\d\d\d)-(\d\d)-(\d\d)]
    is matched at the start of the string; no match gives Python's [None].
    The strings of this development are byte strings and a digit is an
    ASCII digit, as in the dates the service sends.  (On a [str] Python's
    [\d] and [int()] also accept the decimal digits of other scripts; such
    a string is outside what is modelled here.) *)
Definition date_to_int (daystring : string) : result (option Z) :=
  match daystring with
  | String y1 (String y2 (String y3 (String y4 (String s1
      (String m1 (String m2 (String s2 (String d1 (String d2 _))))))))) =>
      if (forallb is_digit [y1; y2; y3; y4; m1; m2; d1; d2]
          && Ascii.eqb s1 "-" && Ascii.eqb s2 "-")%bool
      then
        match date_toordinal
                (digit y1 * 1000 + digit y2 * 100 + digit y3 * 10 + digit y4)
                (digit m1 * 10 + digit m2) (digit d1 * 10 + digit d2) with
        | Ok o => Ok (Some o)
        | Raise e => Raise e
        end
      else Ok None
  | _ => Ok None
  end.

(** Number of elements of [range(start, stop, step)] for a non-zero step. *)
Definition range_len (start stop step : Z) : Z :=
  if 0 <? step then
    if start <? stop then (stop - start - 1) / step + 1 else 0
  else
    if stop <? start then (start - stop - 1) / (- step) + 1 else 0.

(** [range(start, stop, step)]: a zero step raises [ValueError]. *)
Definition py_range (start stop step : Z) : result (list Z) :=
  if step =? 0 then Raise ValueError
  else Ok (map (fun i => start + Z.of_nat i * step)
               (seq 0 (Z.to_nat (range_len start stop step)))).

(** Normalisation of one slice bound against a sequence of length [len]:
    negative bounds count from the end, and everything is clamped. *)
Definition slice_bound (len i : Z) : Z :=
  if i <? 0 then Z.max 0 (i + len) else Z.min i len.

(** [l[lo:hi]] *)
Definition py_slice {A : Type} (l : list A) (lo hi : Z) : list A :=
  let len := Z.of_nat (length l) in
  let a := slice_bound len lo in
  let b := slice_bound len hi in
  firstn (Z.to_nat (b - a)) (skipn (Z.to_nat a) l).

(** [chunker(seq, size)]:
    [(seq[pos:pos + size] for pos in range(0, len(seq), size))].
    The range is built when the generator expression is created, so the
    [ValueError] of a zero size is raised by the call itself; the chunks are
    listed in the order in which the generator yields them. *)
Definition chunker {A : Type} (seq : list A) (size : Z) : result (list (list A)) :=
  match py_range 0 (Z.of_nat (length seq)) size with
  | Raise e => Raise e
  | Ok positions => Ok (map (fun pos => py_slice seq pos (pos + size)) positions)
  end.

End Util.

(** The chunks of [l] for a positive size [s], when there are [k] of them:
    the closed form against which [Util.chunker] is checked. *)
Definition chunks_nat (A : Type) (l : list A) (s : nat) (k : nat) : list (list A) :=
  map (fun i => firstn s (skipn (i * s) l)) (seq 0 k).

(** ** The SQLite cache as seen through a cursor *)

(** Python values bound to [?] placeholders and read back from a row:
    [None], [int] and [str].  Columns are taken to return a value as it was
    stored (no affinity conversion). *)
Inductive sqlval : Type :=
| VNull
| VInt (z : Z)
| VText (s : string).

Definition sqlval_eqb (a b : sqlval) : bool :=
  match a, b with
  | VNull, VNull => true
  | VInt x, VInt y => x =? y
  | VText x, VText y => String.eqb x y
  | _, _ => false
  end.

(** Python's [==] on values read from a row. *)
Definition py_eq (a b : sqlval) : bool := sqlval_eqb a b.

(** SQL's [column = ?]: a comparison with NULL is never true. *)
Definition sql_match (stored param : sqlval) : bool :=
  match stored, param with
  | VNull, _ => false
  | _, VNull => false
  | _, _ => sqlval_eqb stored param
  end.

(** Python dicts, in insertion order. *)
Section Dict.

Variable V : Type.

Definition dict : Type := list (string * V).

Fixpoint dict_get (d : dict) (k : string) : option V :=
  match d with
  | [] => None
  | (k', v) :: d' => if String.eqb k' k then Some v else dict_get d' k
  end.

(** [d[k] = v]: an existing key keeps its position. *)
Fixpoint dict_set (d : dict) (k : string) (v : V) : dict :=
  match d with
  | [] => [(k, v)]
  | (k', v') :: d' =>
      if String.eqb k' k then (k', v) :: d' else (k', v') :: dict_set d' k v
  end.

Definition dict_keys (d : dict) : list string := map fst d.

Definition dict_mem (d : dict) (k : string) : bool :=
  match dict_get d k with Some _ => true | None => false end.

End Dict.

Arguments dict_get {V} d k.
Arguments dict_set {V} d k v.
Arguments dict_keys {V} d.
Arguments dict_mem {V} d k.

(** A row: SQLite's rowid and the explicitly stored cells.  A column no
    statement ever set reads as NULL. *)
Record row : Type := mkRow {
  rowid : Z;
  cells : dict sqlval
}.

(** Modelled from the spec: the schema file [sql/database.sql] is not among
    the sources.  The spec gives ScheduleEntry a "generated id" and the code
    reads [res["id"]] from [scheduleindex] without ever writing it; the
    column [id] is therefore taken to be an [INTEGER PRIMARY KEY], that is
    an alias of the rowid. *)
Definition id_column : string := "id".

Definition row_get (r : row) (col : string) : sqlval :=
  if String.eqb col id_column then VInt (rowid r)
  else match dict_get (cells r) col with
       | Some v => v
       | None => VNull
       end.

Definition row_set (r : row) (col : string) (v : sqlval) : row :=
  if String.eqb col id_column then
    match v with
    | VInt z => mkRow z (cells r)
    | _ => r
    end
  else mkRow (rowid r) (dict_set (cells r) col v).

Definition row_set_all (r : row) (sets : list (string * sqlval)) : row :=
  fold_left (fun acc fv => row_set acc (fst fv) (snd fv)) sets r.

(** Write statements, in the order in which the cursor executed them. *)
Inductive stmt : Type :=
| SInsert (table : string)
| SUpdate (table : string)
| SDelete (table : string).

(** The database file as one connection sees it: the tables, the write
    statements executed so far and [PRAGMA user_version]. *)
Record db : Type := mkDb {
  tables : dict (list row);
  journal : list stmt;
  user_version : Z
}.

(** The rows of a table; the schema is taken to declare every table and
    column that the program names. *)
Definition get_table (d : db) (t : string) : list row :=
  match dict_get (tables d) t with
  | Some rows => rows
  | None => []
  end.

Definition set_table (d : db) (t : string) (rows : list row) (s : stmt) : db :=
  mkDb (dict_set (tables d) t rows) (journal d ++ [s]) (user_version d).

(** The rowid SQLite gives a new row: one more than the largest in use. *)
Definition next_rowid (rows : list row) : Z :=
  1 + fold_right (fun r m => Z.max (rowid r) m) 0 rows.

(** ** State and exceptions *)

Definition M (A : Type) : Type := db -> result A * db.

Definition ret {A : Type} (a : A) : M A := fun d => (Ok a, d).

Definition raise {A : Type} (e : exn) : M A := fun d => (Raise e, d).

Definition bind {A B : Type} (m : M A) (k : A -> M B) : M B :=
  fun d =>
    match m d with
    | (Ok a, d') => k a d'
    | (Raise e, d') => (Raise e, d')
    end.

(** A computation that cannot touch the cursor. *)
Definition lift {A : Type} (r : result A) : M A := fun d => (r, d).

Definition rbind {A B : Type} (r : result A) (k : A -> result B) : result B :=
  match r with
  | Ok a => k a
  | Raise e => Raise e
  end.

Declare Scope monad_scope.
Delimit Scope monad_scope with monad.
Notation "x <- m ;; k" := (bind m (fun x => k))
  (at level 61, m at next level, right associativity) : monad_scope.
Notation "m ;;; k" := (bind m (fun _ => k))
  (at level 61, right associativity) : monad_scope.
Local Open Scope monad_scope.

(** [for x in xs: acc = body(acc, x)] *)
Fixpoint for_each {X S : Type} (xs : list X) (body : S -> X -> M S) (acc : S) : M S :=
  match xs with
  | [] => ret acc
  | x :: xs' => acc' <- body acc x ;; for_each xs' body acc'
  end.

(** [assert c] *)
Definition py_assert (c : bool) : M unit :=
  if c then ret tt else raise AssertionError.

(** The statements the program sends through a cursor. *)
Module Sql.

(** [SELECT * FROM t WHERE ...] followed by [fetchone()]. *)
Definition select_first (t : string) (cond : row -> bool) : M (option row) :=
  fun d => (Ok (find cond (get_table d t)), d).

(** [INSERT INTO t (fields) VALUES (values)] *)
Definition insert (t : string) (fv : list (string * sqlval)) : M unit :=
  fun d =>
    let rows := get_table d t in
    let r := row_set_all (mkRow (next_rowid rows) []) fv in
    (Ok tt, set_table d t (rows ++ [r]) (SInsert t)).

(** [UPDATE t SET field=value, ... WHERE ...] *)
Definition update (t : string) (fv : list (string * sqlval)) (cond : row -> bool) : M unit :=
  fun d =>
    let rows := get_table d t in
    (Ok tt,
     set_table d t (map (fun r => if cond r then row_set_all r fv else r) rows)
               (SUpdate t)).

(** [DELETE FROM t WHERE ...] *)
Definition delete (t : string) (cond : row -> bool) : M unit :=
  fun d =>
    let rows := get_table d t in
    (Ok tt, set_table d t (filter (fun r => negb (cond r)) rows) (SDelete t)).

(** [column = ?] *)
Definition col_eq (col : string) (v : sqlval) : row -> bool :=
  fun r => sql_match (row_get r col) v.

End Sql.

(** ** lib/sqlhelper.py: the query builder *)

Record Query_builder : Type := mkQb {
  fields : list string;
  values : list sqlval;
  table : string
}.

Module Qb.

Definition new (table : string) : Query_builder := mkQb [] [] table.

(** [list.index]: position of the first occurrence. *)
Fixpoint index (l : list string) (x : string) : option nat :=
  match l with
  | [] => None
  | y :: l' => if String.eqb y x then Some O
               else match index l' x with
                    | Some n => Some (S n)
                    | None => None
                    end
  end.

(** [list.pop(po)] as far as the remaining list is concerned. *)
Fixpoint pop {A : Type} (l : list A) (po : nat) : list A :=
  match l, po with
  | [], _ => []
  | _ :: l', O => l'
  | x :: l', S n => x :: pop l' n
  end.

(** [add(field, value, override)] *)
Definition add (qb : Query_builder) (field : string) (value : sqlval)
    (override : bool) : result Query_builder :=
  match index (fields qb) field with
  | Some po =>
      if override then
        Ok (mkQb (pop (fields qb) po ++ [field]) (pop (values qb) po ++ [value])
                 (table qb))
      else Raise IndexError
  | None => Ok (mkQb (fields qb ++ [field]) (values qb ++ [value]) (table qb))
  end.

(** The (field, value) pairs of an INSERT or of the SET part of an UPDATE,
    for a builder as [add] leaves it: as many values as fields. *)
Definition pairs (qb : Query_builder) : list (string * sqlval) :=
  combine (fields qb) (values qb).

(** The three execution methods as the store operations below use them: on
    a builder filled by [add] and dropped after the call, with values that
    SQLite can bind.  [Builder.execute_insert], [Builder.execute_update] and
    [Builder.insert_or_update] further down are the methods in full, with
    the exceptions of [cursor.execute] and the builder as the call leaves
    it; [insert_or_update_agrees] relates the two. *)

(** [execute_insert(cursor)] *)
Definition execute_insert (qb : Query_builder) : M unit :=
  Sql.insert (table qb) (pairs qb).

(** [execute_update(cursor, whereclause, whereparam)]: the where clause is
    given as the predicate it denotes.  ([get_update] also appends the where
    parameters to [self.values]; the builder is not used again afterwards
    by any caller.) *)
Definition execute_update (qb : Query_builder) (cond : row -> bool) : M unit :=
  Sql.update (table qb) (pairs qb) cond.

(** [self.values[self.fields.index(name)]]: [ValueError] when the name is not
    a field. *)
Definition value_of (qb : Query_builder) (name : string) : result sqlval :=
  match index (fields qb) name with
  | None => Raise ValueError
  | Some ix => match nth_error (values qb) ix with
               | Some v => Ok v
               | None => Raise IndexError
               end
  end.

(** [insert_or_update(cursor, select_database_field, compare_query_field)] *)
Definition insert_or_update (qb : Query_builder) (select_database_field : string)
    (compare_query_field : option string) : M bool :=
  selval <- lift (value_of qb select_database_field) ;;
  compval <- lift (match compare_query_field with
                   | Some c => value_of qb c
                   | None => Ok VNull
                   end) ;;
  r <- Sql.select_first (table qb) (Sql.col_eq select_database_field selval) ;;
  match r with
  | None => execute_insert qb ;;; ret true
  | Some r =>
      let same := match compare_query_field with
                  | Some c => py_eq (row_get r c) compval
                  | None => false
                  end in
      if same then ret false
      else execute_update qb (Sql.col_eq select_database_field selval) ;;; ret true
  end.

(** The builder holding a given list of field/value pairs. *)
Definition of_pairs (table : string) (fv : list (string * sqlval)) : Query_builder :=
  mkQb (map fst fv) (map snd fv) table.

End Qb.

(** ** The artwork resolver ([SD_API.proc_program_artwork_info]) *)

Module Artwork.

(** One element of the ["data"] list of an artwork response.  [caption] is
    [item.get('caption')]: absent, or an object whose ['content'] may be
    absent in turn. *)
Record item : Type := mkItem {
  caption : option (option string);
  category : option string;
  size : option string;
  uri : string;
  width : option Z;
  height : option Z
}.

(** The ["data"] field is a list, or (on an error) something else. *)
Inductive art_data : Type :=
| ArtList (items : list item)
| ArtOther.

Record program_art : Type := mkProgramArt {
  programID : string;
  data : art_data
}.

(** [(uri, caption, width, height)] *)
Definition asset : Type := (string * option string * option Z * option Z)%type.

(** category -> size -> assets, both levels in insertion order. *)
Definition asset_map : Type := dict (dict (list asset)).

Definition category_preference : list string :=
  ["Iconic"; "Banner-L1"; "Cast Ensemble"; "Cast in Character"].

Definition size_preference : list string := ["Md"; "Sm"; "Lg"; "Xs"; "Ms"].

(** [view == []] for a dict keys view: a view is never equal to a list,
    whatever the dict holds. *)
Definition keys_view_is_empty_list (view : list string) : bool := false.

(** The local function [best_match], as it is called here: on a keys view.
    [None] is Python's [None]; [list(current_list)[0]] raises [IndexError]
    on an empty view. *)
Definition best_match (current_list preferred_list : list string)
  : result (option string) :=
  if keys_view_is_empty_list current_list then Ok None
  else
    match find (fun item => existsb (String.eqb item) current_list) preferred_list with
    | Some item => Ok (Some item)
    | None => match current_list with
              | first :: _ => Ok (Some first)
              | [] => Raise IndexError
              end
    end.

(** One round of the loop that fills [assets]. *)
Definition add_item (assets : asset_map) (it : item) : asset_map :=
  let caption := match caption it with
                 | Some c => c
                 | None => None
                 end in
  match category it, size it with
  | Some category, Some size =>
      let uri :=
        if (String.prefix "http:" (uri it) || String.prefix "https:" (uri it))%bool
        then uri it
        else ("https://json.schedulesdirect.org/20141201/image/" ++ uri it)%string in
      (* create new entry for new category *)
      let assets1 := if dict_mem assets category then assets
                     else dict_set assets category [] in
      let sizes := match dict_get assets1 category with
                   | Some sizes => sizes
                   | None => []
                   end in
      (* create new entry within category for new size *)
      let sizes1 := if dict_mem sizes size then sizes
                    else dict_set sizes size [] in
      let bucket := match dict_get sizes1 size with
                    | Some bucket => bucket
                    | None => []
                    end in
      (* save uri + caption: the list held by the dicts is extended in place *)
      dict_set assets1 category
        (dict_set sizes1 size (bucket ++ [(uri, caption, width it, height it)]))
  | _, _ => assets
  end.

Definition build_assets (dat : list item) : asset_map :=
  fold_left add_item dat [].

(** [d[k]] *)
Definition subscript {V : Type} (d : dict V) (k : option string) : result V :=
  match k with
  | None => Raise KeyError
  | Some k => match dict_get d k with
              | Some v => Ok v
              | None => Raise KeyError
              end
  end.

(** The selection at the end of a round: [None] stands for the [continue]
    of the empty-keys guard, [Some a] for [res[program_id_short] = a]. *)
Definition select_best (assets : asset_map) : result (option asset) :=
  let assetskeys := dict_keys assets in
  if keys_view_is_empty_list assetskeys then Ok None
  else
    rbind (best_match assetskeys category_preference) (fun best_cat =>
    rbind (subscript assets best_cat) (fun sizes =>
    rbind (best_match (dict_keys sizes) size_preference) (fun best_size =>
    rbind (subscript sizes best_size) (fun bucket =>
    match bucket with
    | first :: _ => Ok (Some first)
    | [] => Raise IndexError
    end)))).

(** One round of the outer loop. *)
Definition proc_entry (res : dict asset) (program_art : program_art)
  : result (dict asset) :=
  match data program_art with
  | ArtOther => Ok res
  | ArtList dat =>
      rbind (select_best (build_assets dat)) (fun best =>
      match best with
      | None => Ok res
      | Some a => Ok (dict_set res (programID program_art) a)
      end)
  end.

Fixpoint proc_entries (res : dict asset) (data : list program_art)
  : result (dict asset) :=
  match data with
  | [] => Ok res
  | program_art :: rest =>
      rbind (proc_entry res program_art) (fun res' => proc_entries res' rest)
  end.

Definition proc_program_artwork_info (data : list program_art) : result (dict asset) :=
  proc_entries [] data.

(** [shorten_program_id]: [program_id[:10]] *)
Definition shorten_program_id (program_id : string) : string :=
  String.substring 0 10 program_id.

(** [calc_short_program_ids] *)
Definition calc_short_program_ids (program_ids : list string) : list string :=
  fold_left
    (fun shortend_progids item =>
       let short := shorten_program_id item in
       if existsb (String.eqb short) shortend_progids then shortend_progids
       else shortend_progids ++ [short])
    program_ids [].

(** [calc_program_artwork_info] *)
Definition calc_program_artwork_info (program_id : string) (artworkinfo : dict asset)
  : option asset :=
  dict_get artworkinfo (shorten_program_id program_id).

End Artwork.

(** ** Payloads of the guide service

    The records follow the example responses quoted in the docstrings of
    [SD_API]; a field the code reads with [x["key"]] is mandatory, a field
    it reads with [.get] or [optional=True] is an [option]. *)

(** [POST /schedules/md5]: station -> day -> fingerprint. *)
Module Md5.

Record entry : Type := mkEntry {
  lastModified : string;
  md5 : string
}.

(** Both levels are Python dicts: their keys are pairwise different, and
    the loops visit the entries in listing order. *)
Definition response : Type := dict (dict entry).

End Md5.

(** [POST /schedules]: the entries of one station and day. *)
Module Sched.

Record program : Type := mkProgram {
  programID : string;
  md5 : string;
  airDateTime : string;
  duration : Z;
  audioProperties : option (list string);
  videoProperties : option (list string)
}.

Record item : Type := mkItem {
  stationID : string;
  startDate : string;            (* item["metadata"]["startDate"] *)
  programs : list program
}.

End Sched.

(** [POST /programs]: one program.  [columns] stands for the columns
    [title120], [description100], [description1000], [genres100],
    [episodetitle158], [cast1000], [crew1000], [entity_type], [show_type]
    and [movie_year] with the values that [store_programs] derives, in this
    order, from the descriptive part of the payload. *)
Module Prog.

Record item : Type := mkItem {
  programID : string;
  md5 : string;
  columns : list (string * sqlval)
}.

End Prog.

(** ** The cache store ([SDDB]) *)

Module Cache.

Section WithClock.

(** [lib.util.sdtime_to_unixtime]: [strptime] followed by [timestamp()] in
    the local time zone; it raises on a string of another shape. *)
Variable sdtime_to_unixtime : string -> result Z.

(** The reserved fingerprint of a day without schedule. *)
Definition sentinel : string := "CAFEDEADBEEFCAFEDEADBE".

Definition of_option_int (o : option Z) : sqlval :=
  match o with
  | Some z => VInt z
  | None => VNull
  end.

(** [calc_string_from_stringlist] *)
Definition calc_string_from_stringlist (stringlist : list string) : sqlval :=
  VText (String.concat (String (ascii_of_nat 9) EmptyString) stringlist).

(** [qb.add(field, value)] on the way to a statement. *)
Definition add (field : string) (value : sqlval) (qb : Query_builder)
  : result Query_builder :=
  Qb.add qb field value false.

(** [qb.add2(field, key, optional=True, conv_fun=...)] for a key that may be
    absent. *)
Definition add_optional (field : string) (value : option sqlval) (qb : Query_builder)
  : result Query_builder :=
  match value with
  | Some v => Qb.add qb field v false
  | None => Ok qb
  end.

Fixpoint add_all (fv : list (string * sqlval)) (qb : Query_builder)
  : result Query_builder :=
  match fv with
  | [] => Ok qb
  | (f, v) :: rest => rbind (Qb.add qb f v false) (add_all rest)
  end.

(** [WHERE station_id=? AND startdate=?] *)
Definition station_day (station_id : string) (startdate_ord : option Z) : row -> bool :=
  fun r => (sql_match (row_get r "station_id") (VText station_id)
            && sql_match (row_get r "startdate") (of_option_int startdate_ord))%bool.

(** [new_schedules[station_id].append(startdate)], after creating the list
    for a station seen for the first time. *)
Definition note_schedule (new_schedules : dict (list string))
    (station_id startdate : string) : dict (list string) :=
  let new_schedules1 :=
    if dict_mem new_schedules station_id then new_schedules
    else dict_set new_schedules station_id [] in
  let days := match dict_get new_schedules1 station_id with
              | Some days => days
              | None => []
              end in
  dict_set new_schedules1 station_id (days ++ [startdate]).

(** The fields of a [scheduleindex] row. *)
Definition schedule_index_fields (station_id : string) (startdate_ord : option Z)
    (e : Md5.entry) : result Query_builder :=
  rbind (add "station_id" (VText station_id) (Qb.new "scheduleindex")) (fun qb =>
  rbind (add "startdate" (of_option_int startdate_ord) qb) (fun qb =>
  rbind (sdtime_to_unixtime (Md5.lastModified e)) (fun last_modified =>
  rbind (add "last_modified" (VInt last_modified) qb) (fun qb =>
  add "md5" (VText (Md5.md5 e)) qb)))).

(** The body of the inner loop of [store_schedule_index], for one station
    and day.  (The [print] of a changed schedule looks up the station name
    with a SELECT of its own and writes nothing.) *)
Definition store_schedule_day (station_id : string)
    (acc : dict (list string) * Z) (day : string * Md5.entry)
  : M (dict (list string) * Z) :=
  let '(new_schedules, count_invalid_schedules) := acc in
  let '(startdate, e) := day in
  startdate_ord <- lift (Util.date_to_int startdate) ;;
  let day_md5 := Md5.md5 e in
  if String.eqb day_md5 sentinel then
    ret (new_schedules, count_invalid_schedules + 1)
  else
    res <- Sql.select_first "scheduleindex" (station_day station_id startdate_ord) ;;
    decision <-
      match res with
      | Some r =>
          if negb (py_eq (row_get r "md5") (VText day_md5)) then
            (* schedule changed *)
            Sql.delete "schedule" (Sql.col_eq "scheduleindex" (row_get r "id")) ;;;
            ret (false, Some (row_get r "id"))
          else ret (true, None)
      | None => ret (false, None)
      end ;;
    let '(skip_processing, schedindex_to_update) := decision in
    if skip_processing : bool then ret (new_schedules, count_invalid_schedules)
    else
      qb <- lift (schedule_index_fields station_id startdate_ord e) ;;
      match schedindex_to_update with
      | None => Qb.execute_insert qb
      | Some id => Qb.execute_update qb (Sql.col_eq "id" id)
      end ;;;
      ret (note_schedule new_schedules station_id startdate, count_invalid_schedules).

Definition store_schedule_station (acc : dict (list string) * Z)
    (station : string * dict Md5.entry) : M (dict (list string) * Z) :=
  for_each (snd station) (store_schedule_day (fst station)) acc.

(** [store_schedule_index(data)]: the dirty days per station and the number
    of days without schedule. *)
Definition store_schedule_index (data : Md5.response) : M (dict (list string) * Z) :=
  for_each data store_schedule_station ([], 0).

(** [fetchone(query, param, retparam=col)] *)
Definition fetchone (t : string) (cond : row -> bool) (retparam : string)
  : M (option sqlval) :=
  res <- Sql.select_first t cond ;;
  match res with
  | None => ret None
  | Some r => match row_get r retparam with
              | VNull => ret None
              | v => ret (Some v)
              end
  end.

(** [get_schedule_index(station_id, startdate)] *)
Definition get_schedule_index (station_id startdate : string) : M (option sqlval) :=
  startdate_org <- lift (Util.date_to_int startdate) ;;
  fetchone "scheduleindex" (station_day station_id startdate_org) "id".

(** The fields of a [schedule] row. *)
Definition schedule_fields (station_id : string) (schedule_index : sqlval)
    (program : Sched.program) : result Query_builder :=
  rbind (add "station_id" (VText station_id) (Qb.new "schedule")) (fun qb =>
  rbind (add "scheduleindex" schedule_index qb) (fun qb =>
  rbind (add "program_id" (VText (Sched.programID program)) qb) (fun qb =>
  rbind (sdtime_to_unixtime (Sched.airDateTime program)) (fun airtime =>
  rbind (add "airtime" (VInt airtime) qb) (fun qb =>
  rbind (add "duration" (VInt (Sched.duration program)) qb) (fun qb =>
  rbind (add_optional "audioProperties"
           (option_map calc_string_from_stringlist (Sched.audioProperties program)) qb)
        (fun qb =>
  add_optional "videoProperties"
    (option_map calc_string_from_stringlist (Sched.videoProperties program)) qb))))))).

(** The body of the inner loop of [store_schedules], for one entry. *)
Definition store_schedule_entry (station_id : string) (schedule_index : sqlval)
    (update_programs : list string) (program : Sched.program) : M (list string) :=
  let program_id := Sched.programID program in
  let program_md5 := Sched.md5 program in
  qb <- lift (schedule_fields station_id schedule_index program) ;;
  Qb.execute_insert qb ;;;
  (* do we have this program in cache or has it changed? *)
  pmd5 <- fetchone "programdata" (Sql.col_eq "program_id" (VText program_id)) "md5" ;;
  let stale := match pmd5 with
               | None => true
               | Some v => negb (py_eq v (VText program_md5))
               end in
  if (stale && negb (existsb (String.eqb program_id) update_programs))%bool
  then ret (update_programs ++ [program_id])
  else ret update_programs.

Definition store_schedule_item (update_programs : list string) (item : Sched.item)
  : M (list string) :=
  schedule_index <- get_schedule_index (Sched.stationID item) (Sched.startDate item) ;;
  match schedule_index with
  | None => raise AssertionError          (* assert schedule_index is not None *)
  | Some schedule_index =>
      for_each (Sched.programs item)
               (store_schedule_entry (Sched.stationID item) schedule_index)
               update_programs
  end.

(** [store_schedules(data)]: the programs still to download. *)
Definition store_schedules (data : list Sched.item) : M (list string) :=
  for_each data store_schedule_item [].

(** The fields of a [programdata] row. *)
Definition program_fields (now : Z) (artwork_info : option (dict Artwork.asset))
    (item : Prog.item) : result Query_builder :=
  rbind (add "md5" (VText (Prog.md5 item)) (Qb.new "programdata")) (fun qb =>
  rbind (add "program_id" (VText (Prog.programID item)) qb) (fun qb =>
  rbind (add "last_access" (VInt now) qb) (fun qb =>
  rbind (add_all (Prog.columns item) qb) (fun qb =>
  match artwork_info with
  | None => Ok qb
  | Some artwork_info =>
      match Artwork.calc_program_artwork_info (Prog.programID item) artwork_info with
      | None => Ok qb
      | Some (art_uri, art_caption, art_width, art_height) =>
          rbind (add "artwork_uri" (VText art_uri) qb) (fun qb =>
          rbind (add "artwort_caption"
                     (match art_caption with Some c => VText c | None => VNull end) qb)
                (fun qb =>
          rbind (add "artwork_width" (of_option_int art_width) qb) (fun qb =>
          add "artwork_height" (of_option_int art_height) qb)))
      end
  end)))).

Definition store_program (now : Z) (artwork_info : option (dict Artwork.asset))
    (_ : unit) (item : Prog.item) : M unit :=
  qb <- lift (program_fields now artwork_info item) ;;
  _ <- Qb.insert_or_update qb "program_id" (Some "md5") ;;
  ret tt.

(** [store_programs(data, artwork_info)]; [now] is the reading of
    [time.time()]. *)
Definition store_programs (now : Z) (data : list Prog.item)
    (artwork_info : option (dict Artwork.asset)) : M unit :=
  for_each data (store_program now artwork_info) tt.

End WithClock.

End Cache.

(** ** The main program *)

Module Main.

Definition CURRENT_DATABASE_SCHEMA_VERSION : Z := 0.
Definition MAX_STATIONS_IDS : Z := 5000.
Definition MAX_PROGRAM_IDS : Z := 5000.
Definition MAX_ARTWORK_IDS : Z := 500.

(** [GET /status] as far as the program looks at it. *)
Record system_status : Type := mkSystemStatus {
  status : string;
  message : string
}.

Record status_reply : Type := mkStatus {
  code : Z;
  notifications : list string;
  systemStatus : list system_status;
  expires : string                  (* status["account"]["expires"] *)
}.

(** What [get_token] ends with: no payload at all, a payload with a
    non-zero code (the method then calls [sys.exit(1)]) or a token. *)
Inductive token_reply : Type :=
| TokenMissing
| TokenRefused
| TokenGranted.

(** The guide service: the payload each call returns; [None] is what
    [api_access] hands back when the transport failed. *)
Record remote : Type := mkRemote {
  get_token : token_reply;
  get_status : option status_reply;
  get_schedules_md5 : list string -> option Md5.response;
  get_schedules : dict (list string) -> option (list Sched.item);
  get_program_artwork : list string -> option (list Artwork.program_art);
  get_programs : list string -> option (list Prog.item);
  check_newer_version_available : result bool
}.

(** [sdjson.ini] as far as the program looks at it: [waituntil] is
    [cfg.get_int('server', 'waituntil', default=0)]. *)
Record config : Type := mkConfig {
  username : string;
  waituntil : Z
}.

(** The objects handed to [int(...)]: a number, or a function object. *)
Inductive pyobj : Type :=
| PyNumber (z : Z)
| PyFunction.

Definition py_int (x : pyobj) : result Z :=
  match x with
  | PyNumber z => Ok z
  | PyFunction => Raise TypeError
  end.

(** [time.time] is the function; only [time.time()] is a number. *)
Definition time_time : pyobj := PyFunction.

(** [payload] where the code goes on to use it as a container: on [None]
    the first use raises [e]. *)
Definition received {A : Type} (payload : option A) (e : exn) : M A :=
  match payload with
  | Some a => ret a
  | None => raise e
  end.

(** The loop of [upgrade_database_schema] over the plan.  [files] maps the
    name of an existing script to what running it does to the database. *)
Fixpoint upgrade_steps (files : string -> option (db -> db)) (vers : Z)
    (upgrade_plan : list (Z * string)) : M bool :=
  match upgrade_plan with
  | [] => ret true
  | (uvers, ufnm) :: rest =>
      if vers <? uvers then
        match files ufnm with
        | None => ret false
        | Some additional_schema =>
            (fun d => (Ok tt, additional_schema d)) ;;;
            upgrade_steps files vers rest
        end
      else upgrade_steps files vers rest
  end.

(** [upgrade_database_schema(current_schema_version, upgrade_plan)] *)
Definition upgrade_database_schema (files : string -> option (db -> db))
    (current_schema_version : Z) (upgrade_plan : option (list (Z * string)))
  : M bool :=
  vers <- (fun d => (Ok (user_version d), d)) ;;
  if vers =? current_schema_version then ret true
  else
    match upgrade_plan with
    | None => ret false
    | Some plan => upgrade_steps files vers plan
    end.

(** [check_status()] *)
Definition check_status (st : status_reply) : bool :=
  ((code st =? 0)
   && forallb (fun s => String.eqb (status s) "Online") (systemStatus st))%bool.

(** [get_active_query_stations(withname=False)] *)
Definition get_active_query_stations : M (list string) :=
  fun d =>
    (Ok (map (fun r => match row_get r "station_id" with
                       | VText s => s
                       | _ => ""
                       end)
             (filter (fun r => (sql_match (row_get r "query_from_sd") (VInt 1)
                                && sql_match (row_get r "active") (VInt 1))%bool)
                     (get_table d "stations"))),
     d).

Section WithClock.

Variable sdtime_to_unixtime : string -> result Z.

(** Stage A, [refresh_lineups_and_stations_if_needed()], is left open: it
    writes to [lineups] and [stations] and nothing below depends on how. *)
Variable refresh_lineups_and_stations_if_needed : status_reply -> M bool.

(** [has_expired()] *)
Definition has_expired (now : Z) (st : status_reply) : result bool :=
  rbind (sdtime_to_unixtime (expires st)) (fun exp => Ok (exp <? now)).

(** The artwork requests: one per chunk of shortened ids. *)
Definition fetch_artwork (r : remote) (all_artwork_dat : list Artwork.program_art)
    (chunk : list string) : M (list Artwork.program_art) :=
  artwork_dat <- received (get_program_artwork r chunk) TypeError ;;
  ret (all_artwork_dat ++ artwork_dat).

(** The program requests: one per chunk of program ids. *)
Definition fetch_programs (r : remote) (now : Z) (artwork_info : dict Artwork.asset)
    (_ : unit) (chunk : list string) : M unit :=
  py_assert (Z.of_nat (length chunk) <=? MAX_PROGRAM_IDS) ;;;
  dat <- received (get_programs r chunk) TypeError ;;
  Cache.store_programs now dat (Some artwork_info).

(** The body of the loop over the chunks of watched stations. *)
Definition process_chunk (r : remote) (now : Z) (_ : unit)
    (query_stations_chunk : list string) : M unit :=
  py_assert (Z.of_nat (length query_stations_chunk) <=? MAX_STATIONS_IDS) ;;;
  dat <- received (get_schedules_md5 r query_stations_chunk) AttributeError ;;
  found <- Cache.store_schedule_index sdtime_to_unixtime dat ;;
  let '(open_schedules, count_invalid_schedules) := found in
  (if negb (count_invalid_schedules =? 0)
   then raise AttributeError             (* cfg.printNad_log: no such method *)
   else ret tt) ;;;
  if (0 <? length open_schedules)%nat then
    py_assert (Z.of_nat (length open_schedules) <=? 500) ;;;   (* get_schedules *)
    dat <- received (get_schedules r open_schedules) TypeError ;;
    open_programs <- Cache.store_schedules sdtime_to_unixtime dat ;;
    if (0 <? length open_programs)%nat then
      let open_programs_shorts := Artwork.calc_short_program_ids open_programs in
      chunks <- lift (Util.chunker open_programs_shorts MAX_ARTWORK_IDS) ;;
      all_artwork_dat <- for_each chunks (fetch_artwork r) [] ;;
      artwork_info <- lift (Artwork.proc_program_artwork_info all_artwork_dat) ;;
      chunks <- lift (Util.chunker open_programs MAX_PROGRAM_IDS) ;;
      for_each chunks (fetch_programs r now artwork_info) tt
    else ret tt
  else ret tt.

(** Stages B to D: the loop over [chunker(query_stations, MAX_STATIONS_IDS)]. *)
Definition stage_b_to_d (r : remote) (now : Z) (query_stations : list string) : M unit :=
  match query_stations with
  | [] => ret tt
  | _ =>
      chunks <- lift (Util.chunker query_stations MAX_STATIONS_IDS) ;;
      for_each chunks (process_chunk r now) tt
  end.

(** How a run ends: the exit status, the configuration file on disk, the
    database as the process last saw it and the database as last
    committed. *)
Record run : Type := mkRun {
  exit_code : Z;
  config_file : config;
  session : db;
  committed : db
}.

(** The main program.  [now] is the clock; a [Raise] inside the [try] block
    ends in the handler, which exits with 100 without a commit. *)
Definition main (cfg : config) (now : Z) (r : remote) (d : db) : run :=
  if (negb (waituntil cfg =? 0) && (now <? waituntil cfg))%bool then
    mkRun 10 cfg d d
  else if String.eqb (username cfg) "" then mkRun 1 cfg d d
  else
    (* the result of the upgrade is not looked at *)
    let '(_, d) := upgrade_database_schema (fun _ => None)
                     CURRENT_DATABASE_SCHEMA_VERSION None d in
    match get_token r with
    | TokenRefused => mkRun 1 cfg d d
    | TokenMissing => mkRun 2 cfg d d
    | TokenGranted =>
        match get_status r with
        | None => mkRun 100 cfg d d
        | Some st =>
            match has_expired now st with
            | Raise _ => mkRun 100 cfg d d
            | Ok true => mkRun 12 cfg d d
            | Ok false =>
                if negb (check_status st) then
                  (* cfg.cfg['server']['waituntil'] = int(time.time) + 3600 *)
                  match py_int time_time with
                  | Raise _ => mkRun 100 cfg d d
                  | Ok t => mkRun 11 (mkConfig (username cfg) (t + 3600)) d d
                  end
                else
                  match refresh_lineups_and_stations_if_needed st d with
                  | (Raise _, d1) => mkRun 100 cfg d1 d
                  | (Ok _, d1) =>
                      (* db.commit() *)
                      match bind get_active_query_stations (stage_b_to_d r now) d1 with
                      | (Raise _, d2) => mkRun 100 cfg d2 d1
                      | (Ok _, d2) =>
                          (* db.commit() *)
                          match check_newer_version_available r with
                          | Raise _ => mkRun 100 cfg d2 d2
                          | Ok _ => mkRun 0 cfg d2 d2
                          end
                      end
                  end
            end
        end
    end.

End WithClock.

End Main.

(** ** Vocabulary of the statements below *)

Module Spec.

(** The rows of [schedule] owned by the [scheduleindex] row with id [i]. *)
Definition owned (d : db) (i : Z) : list row :=
  filter (Sql.col_eq "scheduleindex" (VInt i)) (get_table d "schedule").

(** The [scheduleindex] row that the program finds for a station and day. *)
Definition index_row (d : db) (station_id : string) (ord : option Z) : option row :=
  find (Cache.station_day station_id ord) (get_table d "scheduleindex").

(** The fingerprint stored for a station and day. *)
Definition stored_md5 (d : db) (station_id : string) (ord : option Z) : option sqlval :=
  option_map (fun r => row_get r "md5") (index_row d station_id ord).

(** The columns written for a station and day. *)
Definition index_pairs (station_id : string) (ord : option Z) (last_modified : Z)
    (e : Md5.entry) : list (string * sqlval) :=
  [("station_id", VText station_id);
   ("startdate", Cache.of_option_int ord);
   ("last_modified", VInt last_modified);
   ("md5", VText (Md5.md5 e))].

(** The database after the DELETE of the entries owned by [r]. *)
Definition entries_deleted (d : db) (r : row) : db :=
  set_table d "schedule"
    (filter (fun x => negb (Sql.col_eq "scheduleindex" (row_get r "id") x))
            (get_table d "schedule"))
    (SDelete "schedule").

(** The database after the UPDATE of the row with the id of [r]. *)
Definition index_updated (d : db) (r : row) (fv : list (string * sqlval)) : db :=
  set_table d "scheduleindex"
    (map (fun x => if Sql.col_eq "id" (row_get r "id") x then row_set_all x fv else x)
         (get_table d "scheduleindex"))
    (SUpdate "scheduleindex").

(** The database after the INSERT of a row into [t]. *)
Definition row_inserted (d : db) (t : string) (fv : list (string * sqlval)) : db :=
  set_table d t
    (get_table d t ++ [row_set_all (mkRow (next_rowid (get_table d t)) []) fv])
    (SInsert t).

(** Number of days that carry the reserved fingerprint. *)
Definition count_sentinel_days (days : dict Md5.entry) : Z :=
  Z.of_nat (length (filter (fun day => String.eqb (Md5.md5 (snd day)) Cache.sentinel) days)).

Definition count_sentinel (data : Md5.response) : Z :=
  fold_right (fun station n => count_sentinel_days (snd station) + n) 0 data.

(** The response without the days that carry the reserved fingerprint. *)
Definition without_sentinel (data : Md5.response) : Md5.response :=
  map (fun station =>
         (fst station,
          filter (fun day => negb (String.eqb (Md5.md5 (snd day)) Cache.sentinel))
                 (snd station)))
      data.

(** A fetched day that is not the sentinel has a stored row with the same
    fingerprint. *)
Definition day_unchanged (d : db) (s : string) (day : string * Md5.entry) : Prop :=
  Md5.md5 (snd day) <> Cache.sentinel ->
  forall ord, Util.date_to_int (fst day) = Ok ord ->
  exists r, index_row d s ord = Some r /\ row_get r "md5" = VText (Md5.md5 (snd day)).

(** Every fetched day that is not the sentinel has a stored row with the
    same fingerprint. *)
Definition fingerprints_unchanged (d : db) (data : Md5.response) : Prop :=
  forall station_id days startdate e ord,
    In (station_id, days) data -> In (startdate, e) days ->
    Md5.md5 e <> Cache.sentinel ->
    Util.date_to_int startdate = Ok ord ->
    exists r, index_row d station_id ord = Some r /\
              row_get r "md5" = VText (Md5.md5 e).

(** Every fetched program has a stored row with the same fingerprint. *)
Definition programs_unchanged (d : db) (data : list Prog.item) : Prop :=
  forall item, In item data ->
    exists r,
      find (Sql.col_eq "program_id" (VText (Prog.programID item)))
           (get_table d "programdata") = Some r /\
      row_get r "md5" = VText (Prog.md5 item).

(** [qb'] still holds every field of [qb], with its value, on the same
    table. *)
Definition keeps (qb qb' : Query_builder) : Prop :=
  table qb' = table qb /\
  forall k x, Qb.value_of qb k = Ok x -> Qb.value_of qb' k = Ok x.

(** How a key fares in one round: it finds the row with the same id as
    before, either untouched or (when it is the key of the round) carrying
    the fetched fingerprint; a key that found nothing finds nothing, unless
    it is the key of the round. *)
Definition key_fares (d d' : db) (s day : string) (e : Md5.entry)
    (s2 : string) (o2 : option Z) : Prop :=
  match index_row d s2 o2 with
  | Some x =>
      exists x', index_row d' s2 o2 = Some x' /\ rowid x' = rowid x /\
                 (x' = x \/
                  (s2 = s /\ Util.date_to_int day = Ok o2 /\
                   row_get x' "md5" = VText (Md5.md5 e)))
  | None =>
      index_row d' s2 o2 = None \/
      (s2 = s /\ Util.date_to_int day = Ok o2 /\
       exists x', index_row d' s2 o2 = Some x' /\
                  row_get x' "md5" = VText (Md5.md5 e))
  end.

(** The fetched days, station by station, in the order of the loops. *)
Definition days_of (data : Md5.response) : list (string * (string * Md5.entry)) :=
  flat_map (fun st => map (pair (fst st)) (snd st)) data.

(** The key under which a fetched day is looked up: the station and the
    converted date. *)
Definition day_key (x : string * (string * Md5.entry)) : string * result (option Z) :=
  (fst x, Util.date_to_int (fst (snd x))).

(** The body of the loops of [store_schedule_index] on a fetched day. *)
Definition day_round (tm : string -> result Z) (acc : dict (list string) * Z)
    (x : string * (string * Md5.entry)) : M (dict (list string) * Z) :=
  Cache.store_schedule_day tm (fst x) acc (snd x).

(** The columns written for one entry of a fetched schedule. *)
Definition entry_pairs (station_id : string) (schedule_index : sqlval) (airtime : Z)
    (p : Sched.program) : list (string * sqlval) :=
  [("station_id", VText station_id);
   ("scheduleindex", schedule_index);
   ("program_id", VText (Sched.programID p));
   ("airtime", VInt airtime);
   ("duration", VInt (Sched.duration p))]
  ++ match Sched.audioProperties p with
     | Some l => [("audioProperties", Cache.calc_string_from_stringlist l)]
     | None => []
     end
  ++ match Sched.videoProperties p with
     | Some l => [("videoProperties", Cache.calc_string_from_stringlist l)]
     | None => []
     end.

(** The fetched entries, item by item, in the order of the loops. *)
Definition fetched_entries (data : list Sched.item) : list (Sched.item * Sched.program) :=
  flat_map (fun item => map (pair item) (Sched.programs item)) data.

(** The id that [get_schedule_index] finds for an item. *)
Definition resolved_id (d : db) (item : Sched.item) : option Z :=
  match Util.date_to_int (Sched.startDate item) with
  | Ok ord => option_map rowid (index_row d (Sched.stationID item) ord)
  | Raise _ => None
  end.

(** [row] is the [schedule] row of the fetched entry [x]: it carries the
    columns of the entry, under the id resolved for its item. *)
Definition entry_row (tm : string -> result Z) (d : db) (r : row)
    (x : Sched.item * Sched.program) : Prop :=
  exists i airtime,
    resolved_id d (fst x) = Some i /\
    tm (Sched.airDateTime (snd x)) = Ok airtime /\
    cells r = entry_pairs (Sched.stationID (fst x)) (VInt i) airtime (snd x).

(** The item is for station [s] and the day with ordinal [o]. *)
Definition for_station_day (s : string) (o : Z) (x : Sched.item * Sched.program) : bool :=
  (String.eqb (Sched.stationID (fst x)) s
   && match Util.date_to_int (Sched.startDate (fst x)) with
      | Ok (Some z) => z =? o
      | _ => false
      end)%bool.

(** A computation that leaves the table [scheduleindex] as it is. *)
Definition keeps_index (A : Type) (m : M A) : Prop :=
  forall d, get_table (snd (m d)) "scheduleindex" = get_table d "scheduleindex".

(** The responses to the fingerprint requests of a run, chunk by chunk. *)
Definition responses (r : Main.remote) (chunks : list (list string)) : list Md5.response :=
  flat_map (fun chunk => match Main.get_schedules_md5 r chunk with
                         | Some dat => [dat]
                         | None => []
                         end) chunks.

(** The keys of all the days fetched in a run. *)
Definition run_keys (r : Main.remote) (chunks : list (list string))
  : list (string * result (option Z)) :=
  flat_map (fun dat => map day_key (days_of dat)) (responses r chunks).

(** The key is a station with a date of the calendar. *)
Definition proper_key (k : string * result (option Z)) : Prop :=
  exists o, snd k = Ok (Some o).

(** SQLite keeps the rowids of a table pairwise different. *)
Definition rowids_unique (d : db) (t : string) : Prop :=
  NoDup (map rowid (get_table d t)).

End Spec.

(** ** Concrete runs *)

Module Scenario.

(** A clock for which every time string is midnight of day zero. *)
Definition clock (s : string) : result Z := Ok 0.

(** Stage A when no lineup has changed: nothing is written. *)
Definition lineups_unchanged (st : Main.status_reply) : M bool := ret false.

Definition station_name (n : nat) : string :=
  ("1" ++ NilEmpty.string_of_uint (Nat.to_uint n))%string.

(** A [stations] table of [n] stations, all watched. *)
Definition watched (n : nat) : list row :=
  map (fun i => mkRow (Z.of_nat i)
                  [("station_id", VText (station_name i));
                   ("name", VText "Station");
                   ("query_from_sd", VInt 1);
                   ("active", VInt 1)])
      (seq 1 n).

(** A cache that knows [n] watched stations and no schedule yet. *)
Definition fresh_cache (n : nat) (version : Z) : db :=
  mkDb [("stations", watched n)] [] version.

Definition healthy : Main.status_reply :=
  Main.mkStatus 0 [] [Main.mkSystemStatus "Online" "No known issues."]
                "2031-01-09T12:18:31Z".

Definition offline : Main.status_reply :=
  Main.mkStatus 0 [] [Main.mkSystemStatus "Offline" "Maintenance."]
                "2031-01-09T12:18:31Z".

Definition a_day : Md5.entry :=
  Md5.mkEntry "2015-03-02T15:54:58Z" "90OhzuWDRZ/3pDA8kiD/3Q".

Definition no_schedule : Md5.entry :=
  Md5.mkEntry "2015-03-02T15:54:58Z" "CAFEDEADBEEFCAFEDEADBE".

Definition an_entry : Sched.program :=
  Sched.mkProgram "EP012345670001" "p1md5" "2015-03-02T20:00:00Z" 30
                  (Some ["stereo"; "cc"]) None.

(** A service that reports one day, with fingerprint [e], for every station
    asked for, that day's schedule with the entries [entries], no artwork
    and a program with a title for every program id asked for. *)
Definition service (st : Main.status_reply) (e : Md5.entry)
    (entries : list Sched.program) : Main.remote :=
  Main.mkRemote
    Main.TokenGranted
    (Some st)
    (fun chunk => Some (map (fun s => (s, [("2015-03-02", e)])) chunk))
    (fun open_schedules =>
       Some (map (fun sd => Sched.mkItem (fst sd) "2015-03-02" entries) open_schedules))
    (fun _ => Some [])
    (fun ids => Some (map (fun i => Prog.mkItem i "p1md5" [("title120", VText "Title")])
                          ids))
    (Ok false).

(** A later change of the same day. *)
Definition a_day_again : Md5.entry :=
  Md5.mkEntry "2015-03-02T18:00:00Z" "tEwwDx7EmvdCH+ETczOKPg".

(** A service that lists one date of the first station under two keys,
    ["2015-03-02"] and ["2015-03-02T00:00"], with different fingerprints,
    and is otherwise as [service]. *)
Definition same_date_twice (entries : list Sched.program) : Main.remote :=
  Main.mkRemote
    Main.TokenGranted
    (Some healthy)
    (fun chunk =>
       Some (map (fun s =>
                    (s, if String.eqb s (station_name 1)
                        then [("2015-03-02", a_day); ("2015-03-02T00:00", a_day_again)]
                        else [("2015-03-02", a_day)]))
                 chunk))
    (fun open_schedules =>
       Some (map (fun sd => Sched.mkItem (fst sd) "2015-03-02" entries) open_schedules))
    (fun _ => Some [])
    (fun ids => Some (map (fun i => Prog.mkItem i "p1md5" [("title120", VText "Title")])
                          ids))
    (Ok false).

Definition configured : Main.config := Main.mkConfig "user" 0.

(** A cache that holds station 10021 on 2015-03-02 under an old
    fingerprint, with one entry of that day. *)
Definition stale_index_row : row :=
  mkRow 1 [("station_id", VText "10021"); ("startdate", VInt 735659);
           ("last_modified", VInt 0); ("md5", VText "old-fingerprint")].

Definition stale_cache : db :=
  mkDb [("scheduleindex", [stale_index_row]);
        ("schedule", [mkRow 1 [("station_id", VText "10021");
                               ("scheduleindex", VInt 1);
                               ("program_id", VText "EP000000000001")]])]
       [] 0.

(** A cache that holds the same day under the fingerprint of [a_day], and
    the program of [an_entry] under its fingerprint. *)
Definition settled_cache : db :=
  mkDb [("scheduleindex",
         [mkRow 1 [("station_id", VText "10021"); ("startdate", VInt 735659);
                   ("last_modified", VInt 0);
                   ("md5", VText "90OhzuWDRZ/3pDA8kiD/3Q")]]);
        ("programdata",
         [mkRow 1 [("md5", VText "p1md5"); ("program_id", VText "EP012345670001");
                   ("last_access", VInt 7)]])]
       [] 0.

Definition one_day (e : Md5.entry) : Md5.response :=
  [("10021", [("2015-03-02", e)])].

Definition two_days : Md5.response :=
  [("10021", [("2015-03-02", no_schedule); ("2015-03-03", a_day)])].

Definition new_schedule : list Sched.item :=
  [Sched.mkItem "10021" "2015-03-02" [an_entry]].

Definition a_program : Prog.item :=
  Prog.mkItem "EP012345670001" "p1md5" [("title120", VText "Title")].

End Scenario.

(** ** lib/util.py: text helpers

    Strings are sequences of bytes (UTF-8); the characters the helpers look
    for are ASCII, and an ASCII byte never occurs inside the encoding of
    another character. *)

Module Text.

(** The string holds ASCII characters only. *)
Fixpoint is_ascii (s : string) : bool :=
  match s with
  | EmptyString => true
  | String c s' => ((nat_of_ascii c <? 128)%nat && is_ascii s')%bool
  end.

Definition tab : ascii := ascii_of_nat 9.

Definition bar : ascii := "|"%char.

(** [s.replace(old, new)] for a one-character [old]. *)
Fixpoint replace (old : ascii) (new : string) (s : string) : string :=
  match s with
  | EmptyString => EmptyString
  | String c s' =>
      if Ascii.eqb c old then (new ++ replace old new s')%string
      else String c (replace old new s')
  end.

(** [xml_escape(s)] *)
Definition xml_escape (s : string) : string :=
  replace ">" "&gt;" (replace "<" "&lt;" (replace "&" "&amp;" s)).

(** [s.split(sep)] for a one-character [sep]: the pieces between the
    separators, empty pieces included; a string without separator is the
    only piece. *)
Fixpoint split (sep : ascii) (s : string) : list string :=
  match s with
  | EmptyString => [EmptyString]
  | String c s' =>
      if Ascii.eqb c sep then EmptyString :: split sep s'
      else match split sep s' with
           | first :: rest => String c first :: rest
           | [] => [String c EmptyString]
           end
  end.

(** [sep.join(l)] for a one-character [sep]. *)
Definition join (sep : ascii) (l : list string) : string :=
  String.concat (String sep EmptyString) l.

(** An element of the list that [tab_and_vertical_splitter] returns: a
    string, or (with [make_single=False]) the list of the bar-separated
    parts. *)
Inductive piece : Type :=
| Str (s : string)
| Strs (l : list string).

(** One round of the loop of [tab_and_vertical_splitter]. *)
Definition splitter_item (make_single : bool) (item : string) : result piece :=
  let y := split bar item in
  match y with
  | y0 :: y1 :: _ =>
      if make_single then Ok (Str (y0 ++ " (" ++ y1 ++ ")")%string)
      else Ok (Strs y)
  | [y0] => Ok (Str y0)
  | [] => Raise IndexError                  (* y[0] *)
  end.

Fixpoint splitter_items (make_single : bool) (dat : list string) : result (list piece) :=
  match dat with
  | [] => Ok []
  | item :: rest =>
      rbind (splitter_item make_single item) (fun sres =>
      rbind (splitter_items make_single rest) (fun res => Ok (sres :: res)))
  end.

(** [tab_and_vertical_splitter(basestring, make_single)] *)
Definition tab_and_vertical_splitter (basestring : string) (make_single : bool)
  : result (list piece) :=
  splitter_items make_single (split tab basestring).

(** [c in s] for a character [c]. *)
Fixpoint occurs (c : ascii) (s : string) : bool :=
  match s with
  | EmptyString => false
  | String c' s' => (Ascii.eqb c' c || occurs c s')%bool
  end.

(** The replacement of one character by [xml_escape]. *)
Definition entity (c : ascii) : string :=
  if Ascii.eqb c "&" then "&amp;"
  else if Ascii.eqb c "<" then "&lt;"
  else if Ascii.eqb c ">" then "&gt;"
  else String c EmptyString.

(** Every ampersand of [s] starts one of the three entities. *)
Fixpoint ampersands_start_entities (s : string) : bool :=
  match s with
  | EmptyString => true
  | String c s' =>
      ((negb (Ascii.eqb c "&")
        || String.prefix "amp;" s' || String.prefix "lt;" s' || String.prefix "gt;" s')
       && ampersands_start_entities s')%bool
  end.

End Text.

(** ** Cast and crew ([_get_cast_crew_string]) *)

Module People.

(** The loop of [_get_cast_crew_string]: [item[name_key]] raises [KeyError]
    on an item without the key; [item.get(role_key)] does not. *)
Fixpoint clist (list_of_dicts : list (dict string)) (name_key role_key : string)
  : result (list string) :=
  match list_of_dicts with
  | [] => Ok []
  | item :: rest =>
      match dict_get item name_key with
      | None => Raise KeyError
      | Some s =>
          let s := match dict_get item role_key with
                   | Some s1 => (s ++ "|" ++ s1)%string     (* "name|role" *)
                   | None => s
                   end in
          rbind (clist rest name_key role_key) (fun l => Ok (s :: l))
      end
  end.

(** [_get_cast_crew_string(list_of_dicts, name_key, role_key)] *)
Definition _get_cast_crew_string (list_of_dicts : option (list (dict string)))
    (name_key role_key : string) : result (option string) :=
  match list_of_dicts with
  | None => Ok None
  | Some l =>
      rbind (clist l name_key role_key) (fun clist =>
      match clist with
      | [] => Ok None
      | _ => Ok (Some (Text.join Text.tab clist))
      end)
  end.

Definition get_casts_string (list_of_dicts : option (list (dict string)))
  : result (option string) :=
  _get_cast_crew_string list_of_dicts "name" "characterName".

Definition get_crew_string (list_of_dicts : option (list (dict string)))
  : result (option string) :=
  _get_cast_crew_string list_of_dicts "name" "role".

(** The string that stands for one person. *)
Definition encoded (name_key role_key : string) (item : dict string) : string :=
  let name := match dict_get item name_key with Some s => s | None => "" end in
  match dict_get item role_key with
  | Some role => (name ++ "|" ++ role)%string
  | None => name
  end.

(** What the splitter gives back for one person. *)
Definition decoded (make_single : bool) (name_key role_key : string) (item : dict string)
  : Text.piece :=
  let name := match dict_get item name_key with Some s => s | None => "" end in
  match dict_get item role_key with
  | Some role =>
      if make_single then Text.Str (name ++ " (" ++ role ++ ")")%string
      else Text.Strs [name; role]
  | None => Text.Str name
  end.

(** Neither the name nor the role of the item holds a tab or a bar. *)
Definition plain (s : string) : Prop :=
  Text.occurs Text.tab s = false /\ Text.occurs Text.bar s = false.

Definition plain_item (name_key role_key : string) (item : dict string) : Prop :=
  (exists name, dict_get item name_key = Some name /\ plain name) /\
  (forall role, dict_get item role_key = Some role -> plain role).

End People.

(** ** lib/sqlhelper.py: the builder as an object *)

Module Builder.

(** The builders that [__init__] followed by calls of [add] can produce. *)
Inductive built : Query_builder -> Prop :=
| built_new (table : string) : built (Qb.new table)
| built_add (qb qb' : Query_builder) (field : string) (value : sqlval) (override : bool) :
    built qb -> Qb.add qb field value override = Ok qb' -> built qb'.

(** A method that changes the builder in place: what it returns or raises,
    and the builder as it is afterwards. *)
Definition method (A : Type) : Type := Query_builder -> result A * Query_builder.

(** [self.add(field, value)]: nothing is changed when it raises. *)
Definition add (field : string) (value : sqlval) : method unit :=
  fun qb =>
    match Qb.add qb field value false with
    | Ok qb' => (Ok tt, qb')
    | Raise e => (Raise e, qb)
    end.

(** [self.add(field, datadict[key])] *)
Definition add_item (datadict : dict sqlval) (field key : string) : method unit :=
  fun qb =>
    match dict_get datadict key with
    | Some value => add field value qb
    | None => (Raise KeyError, qb)
    end.

(** The loop of [add_dict] over [list(datadict.keys())]. *)
Fixpoint add_dict_keys (keys : list string) (datadict : dict sqlval)
    (transfer : option (dict string)) : method unit :=
  fun qb =>
    match keys with
    | [] => (Ok tt, qb)
    | key :: rest =>
        let round :=
          match transfer with
          | None => add_item datadict key key qb
          | Some transfer =>
              match dict_get transfer key with
              | Some nkey => add_item datadict nkey key qb
              | None => (Ok tt, qb)
              end
          end in
        match round with
        | (Ok _, qb') => add_dict_keys rest datadict transfer qb'
        | (Raise e, qb') => (Raise e, qb')
        end
    end.

(** [add_dict(datadict, transfer)] *)
Definition add_dict (datadict : dict sqlval) (transfer : option (dict string))
  : method unit :=
  add_dict_keys (dict_keys datadict) datadict transfer.

(** The loop of [add_dict_filter]. *)
Fixpoint add_dict_filter_keys (keys : list string) (datadict : dict sqlval)
    (filter : list string) (rename : option (dict string)) : method unit :=
  fun qb =>
    match keys with
    | [] => (Ok tt, qb)
    | key :: rest =>
        let sqlkey :=
          match rename with
          | Some rename => match dict_get rename key with
                           | Some k => k
                           | None => key
                           end
          | None => key
          end in
        let round :=
          if existsb (String.eqb sqlkey) filter then add_item datadict sqlkey key qb
          else (Ok tt, qb) in
        match round with
        | (Ok _, qb') => add_dict_filter_keys rest datadict filter rename qb'
        | (Raise e, qb') => (Raise e, qb')
        end
    end.

(** [add_dict_filter(datadict, filter, rename)] *)
Definition add_dict_filter (datadict : dict sqlval) (filter : list string)
    (rename : option (dict string)) : method unit :=
  add_dict_filter_keys (dict_keys datadict) datadict filter rename.

(** The pairs that [add_dict] is to add: the items of the dict, renamed by
    [transfer]; an item whose key [transfer] does not name is left out. *)
Definition transferred (transfer : option (dict string)) (items : dict sqlval)
  : list (string * sqlval) :=
  match transfer with
  | None => items
  | Some transfer =>
      flat_map (fun kv => match dict_get transfer (fst kv) with
                          | Some nkey => [(nkey, snd kv)]
                          | None => []
                          end) items
  end.

(** The pairs that [add_dict_filter] is to add: the items of the dict,
    renamed by [rename] where it names the key, whose name is in
    [filter]. *)
Definition filtered (filter : list string) (rename : option (dict string))
    (items : dict sqlval) : list (string * sqlval) :=
  List.filter (fun kv => existsb (String.eqb (fst kv)) filter)
    (map (fun kv => (match rename with
                     | Some rename => match dict_get rename (fst kv) with
                                      | Some k => k
                                      | None => fst kv
                                      end
                     | None => fst kv
                     end, snd kv)) items).

(** The builder with the pairs [fv] appended. *)
Definition extended (qb : Query_builder) (fv : list (string * sqlval)) : Query_builder :=
  mkQb (fields qb ++ map fst fv) (values qb ++ map snd fv) (table qb).

(** The placeholder; every builder of the program is created with the
    default [joker='?']. *)
Definition joker : string := "?".

(** [", ".join(l)] *)
Definition comma_join (l : list string) : string := String.concat ", " l.

(** [get_insert(addclause)]: the statement and its parameters. *)
Definition get_insert (addclause : option string) (qb : Query_builder)
  : string * list sqlval :=
  let s := ("INSERT INTO " ++ table qb ++ " (")%string in
  let s := (s ++ comma_join (fields qb))%string in
  let s := (s ++ ") VALUES (")%string in
  let s := (s ++ comma_join (repeat joker (length (values qb))))%string in
  let addclause := match addclause with Some a => a | None => "" end in
  let s := (s ++ ") " ++ addclause)%string in
  (s, values qb).

(** [get_update(whereclause, whereparam)]: the statement and its
    parameters; the parameters of the where clause are appended to
    [self.values], which is the list that is returned. *)
Definition get_update (whereclause : string) (whereparam : option (list sqlval))
  : method (string * list sqlval) :=
  fun qb =>
    let s := ("UPDATE " ++ table qb ++ " SET ")%string in
    let s := (s ++ comma_join (map (fun x => x ++ "=" ++ joker) (fields qb)))%string in
    let s := (s ++ " WHERE " ++ whereclause)%string in
    let values' := match whereparam with
                   | Some p => values qb ++ p
                   | None => values qb
                   end in
    (Ok (s, values'), mkQb (fields qb) values' (table qb)).

(** Number of placeholders of a statement. *)
Fixpoint placeholders (s : string) : nat :=
  match s with
  | EmptyString => O
  | String c s' => ((if Ascii.eqb c "?" then 1 else 0) + placeholders s')%nat
  end.

(** *** The execution methods in full *)

(** Whether sqlite3 can bind the value to a placeholder: a Python int must
    fit SQLite's signed 64-bit INTEGER. *)
Definition bindable (v : sqlval) : bool :=
  match v with
  | VInt z => ((- 2 ^ 63 <=? z) && (z <? 2 ^ 63))%bool
  | _ => true
  end.

(** [cursor.execute(query, param)]: SQLite prepares the statement
    ([OperationalError] when it rejects the text), sqlite3 compares the
    number of parameters with the number of placeholders
    ([ProgrammingError]) and binds the parameters one by one
    ([OverflowError]); only then is the statement run. *)
Definition cursor_execute (prepares : bool) (jokers : nat) (param : list sqlval)
    (statement : M unit) : M unit :=
  if negb prepares then raise OperationalError
  else if negb (Nat.eqb (length param) jokers) then raise ProgrammingError
  else if negb (forallb bindable param) then raise OverflowError
  else statement.

(** A method that uses the cursor: what it returns or raises, the builder
    as it is afterwards, and the database. *)
Definition action (A : Type) : Type :=
  Query_builder -> db -> (result A * Query_builder) * db.

(** [execute_insert(cursor)].  The statement of [get_insert] names
    [len(self.fields)] columns and holds [len(self.values)] placeholders:
    SQLite prepares it when there is a column and as many placeholders as
    columns.  (Table and field names are taken to be plain names.) *)
Definition execute_insert : action unit :=
  fun qb d =>
    let param := snd (get_insert None qb) in
    let columns := length (fields qb) in
    let jokers := length (values qb) in
    let '(res, d') :=
      cursor_execute ((0 <? columns)%nat && (jokers =? columns)%nat) jokers param
        (Sql.insert (table qb) (combine (fields qb) param)) d in
    ((res, qb), d').

(** [execute_update(cursor, column + "=" + self.joker, (whereparam,))], the
    one form in which [insert_or_update] calls it.  [get_update] has
    appended the where parameter to [self.values] before the statement is
    executed; the statement holds one placeholder per field and one for the
    where clause, which gets the parameter after those of the fields. *)
Definition execute_update (column : string) (whereparam : sqlval) : action unit :=
  fun qb d =>
    match get_update (column ++ "=" ++ joker) (Some [whereparam]) qb with
    | (Ok (_, param), qb') =>
        let columns := length (fields qb) in
        let '(res, d') :=
          cursor_execute (0 <? columns)%nat (columns + 1) param
            (Sql.update (table qb) (combine (fields qb) param)
                        (Sql.col_eq column (nth columns param VNull))) d in
        ((res, qb'), d')
    | (Raise e, qb') => ((Raise e, qb'), d)
    end.

(** [insert_or_update(cursor, select_database_field, compare_query_field)] *)
Definition insert_or_update (select_database_field : string)
    (compare_query_field : option string) : action bool :=
  fun qb d =>
    match Qb.value_of qb select_database_field with
    | Raise e => ((Raise e, qb), d)
    | Ok selval =>
        match match compare_query_field with
              | Some c => Qb.value_of qb c
              | None => Ok VNull
              end with
        | Raise e => ((Raise e, qb), d)
        | Ok compval =>
            (* SELECT * FROM table WHERE field=? with (selval,), then fetchone() *)
            match cursor_execute true 1 [selval] (ret tt) d with
            | (Raise e, d') => ((Raise e, qb), d')
            | (Ok _, d') =>
                match find (Sql.col_eq select_database_field selval)
                           (get_table d' (table qb)) with
                | None =>
                    let '((res, qb'), d'') := execute_insert qb d' in
                    ((rbind res (fun _ => Ok true), qb'), d'')
                | Some r =>
                    let same := match compare_query_field with
                                | Some c => py_eq (row_get r c) compval
                                | None => false
                                end in
                    if same then ((Ok false, qb), d')
                    else
                      let '((res, qb'), d'') :=
                        execute_update select_database_field selval qb d' in
                      ((rbind res (fun _ => Ok true), qb'), d'')
                end
            end
        end
    end.

End Builder.

(** ** More of the cache store ([SDDB]): programs, stations, lineups *)

Module Store.

(** [SELECT ... FROM t WHERE ...] followed by [fetchall()]. *)
Definition select_all (t : string) (cond : row -> bool) : M (list row) :=
  fun d => (Ok (filter cond (get_table d t)), d).

(** [get_program(program_id)]; [curtime] is the reading of [time.time()].
    The row that is returned was fetched before the UPDATE. *)
Definition get_program (curtime : Z) (program_id : option string) : M (option row) :=
  match program_id with
  | None => ret None
  | Some program_id =>
      res <- Sql.select_first "programdata" (Sql.col_eq "program_id" (VText program_id)) ;;
      match res with
      | None => ret None
      | Some r =>
          Sql.update "programdata" [("last_access", VInt curtime)]
                     (Sql.col_eq "program_id" (VText program_id)) ;;;
          ret (Some r)
      end
  end.

(** [WHERE query_from_sd=? and active=?] *)
Definition query_active (q a : Z) : row -> bool :=
  fun r => (sql_match (row_get r "query_from_sd") (VInt q)
            && sql_match (row_get r "active") (VInt a))%bool.

(** [[(x["station_id"], x["name"]) for x in cursor.fetchall()]] *)
Definition id_and_name (rows : list row) : list (sqlval * sqlval) :=
  map (fun x => (row_get x "station_id", row_get x "name")) rows.

(** [get_active_query_stations(withname=True)] *)
Definition get_active_query_stations_withname : M (list (sqlval * sqlval)) :=
  rows <- select_all "stations" (query_active 1 1) ;;
  ret (id_and_name rows).

(** [get_unactive_query_stations()] *)
Definition get_unactive_query_stations : M (list (sqlval * sqlval)) :=
  rows <- select_all "stations" (query_active 1 0) ;;
  ret (id_and_name rows).

(** [set_query_station(station_id, do_query)] *)
Definition set_query_station (station_id : string) (do_query : bool) : M string :=
  res <- Sql.select_first "stations" (Sql.col_eq "station_id" (VText station_id)) ;;
  match res with
  | None => ret ("station " ++ station_id ++ " not found")%string
  | Some _ =>
      let qv := if do_query then 1 else 0 in
      Sql.update "stations" [("query_from_sd", VInt qv)]
                 (Sql.col_eq "station_id" (VText station_id)) ;;;
      ret "ok"
  end.

(** [get_station_name_from_station_id(station_id)] *)
Definition get_station_name_from_station_id (station_id : string) : M (option sqlval) :=
  Cache.fetchone "stations" (Sql.col_eq "station_id" (VText station_id)) "name".

(** [get_lineups_and_modified_date()] *)
Definition get_lineups_and_modified_date : M (list (sqlval * sqlval)) :=
  rows <- select_all "lineups" (fun _ => true) ;;
  ret (map (fun x => (row_get x "lineupname", row_get x "modified")) rows).

(** [deactivate_all_stations()] *)
Definition deactivate_all_stations : M unit :=
  Sql.update "stations" [("active", VInt 0)] (fun _ => true).

(** [delete_lineup_from_db(lineup_id)] *)
Definition delete_lineup_from_db (lineup_id : sqlval) : M unit :=
  Sql.delete "lineups" (Sql.col_eq "lineupname" lineup_id).

End Store.

(** One element of [status["lineups"]]. *)
Module Lineup.

Record entry : Type := mkEntry {
  lineup : string;
  name : string;
  modified : string;
  uri : string
}.

End Lineup.

(** [GET /lineups/...]: the stations of a lineup. *)
Module Station.

Record logo : Type := mkLogo {
  URL : string;
  width : Z;
  height : Z;
  md5 : string
}.

Record station : Type := mkStation {
  stationID : string;
  name : string;
  broadcastLanguage : list string;
  logo_of : option logo             (* item.get("logo") *)
}.

(** An element of the ["stations"] list: a dict, or (a known fault of the
    service) something else. *)
Inductive item : Type :=
| Dict (s : station)
| Other.

Record reply : Type := mkReply {
  stations : list item
}.

End Station.

(** ** Stage A: lineups and stations *)

Module StageA.

Section WithClock.

Variable sdtime_to_unixtime : string -> result Z.

(** The reading of [time.time()] in [store_lineup_station], for the
    lineup at each position of [status["lineups"]]. *)
Variable now : nat -> Z.

(** [status["lineups"]] *)
Variable lineups : list Lineup.entry.

(** [get_lineup_stations(uri)] for the URI that [get_lineup_mapping] gives;
    [None] is what [api_access] hands back when the transport failed. *)
Variable get_lineup_stations : option string -> option Station.reply.

(** [calc_lineups_and_modified_date_from_status()] *)
Fixpoint calc_lineups_and_modified_date_from_status (l : list Lineup.entry)
  : result (list (string * Z)) :=
  match l with
  | [] => Ok []
  | x :: rest =>
      rbind (sdtime_to_unixtime (Lineup.modified x)) (fun m =>
      rbind (calc_lineups_and_modified_date_from_status rest) (fun res =>
      Ok ((Lineup.lineup x, m) :: res)))
  end.

(** [lineup_uri_mapping], as [get_status] fills it. *)
Definition lineup_uri_mapping : dict string :=
  fold_left (fun m ldat => dict_set m (Lineup.lineup ldat) (Lineup.uri ldat)) lineups [].

(** [get_lineup_mapping(lineup_id)] *)
Definition get_lineup_mapping (lineup_id : string) : option string :=
  dict_get lineup_uri_mapping lineup_id.

(** Python sets of values, as lists without repetition. *)
Definition mem (x : sqlval) (s : list sqlval) : bool := existsb (py_eq x) s.

Definition to_set (l : list sqlval) : list sqlval :=
  fold_left (fun s x => if mem x s then s else s ++ [x]) l [].

Definition difference (a b : list sqlval) : list sqlval :=
  filter (fun x => negb (mem x b)) a.

Definition intersection (a b : list sqlval) : list sqlval :=
  filter (fun x => mem x b) a.

(** [list(filter(lambda x: x[0] == name, data))[0][1]] *)
Definition stamp_of (data : list (sqlval * sqlval)) (name : sqlval) : result sqlval :=
  match find (fun x => py_eq (fst x) name) data with
  | Some x => Ok (snd x)
  | None => Raise IndexError
  end.

(** The loop that collects the lineups whose stamp differs. *)
Fixpoint modified_loop (same_lineups : list sqlval)
    (old_lineup_data new_lineup_data : list (sqlval * sqlval))
    (modified_lineups : list sqlval) : result (list sqlval) :=
  match same_lineups with
  | [] => Ok modified_lineups
  | same_lineup :: rest =>
      rbind (stamp_of old_lineup_data same_lineup) (fun timeold =>
      rbind (stamp_of new_lineup_data same_lineup) (fun timenew =>
      modified_loop rest old_lineup_data new_lineup_data
        (if negb (py_eq timeold timenew) then modified_lineups ++ [same_lineup]
         else modified_lineups)))
  end.

(** The fields of a [lineups] row. *)
Definition lineup_fields (lineup : Lineup.entry) : result Query_builder :=
  rbind (Cache.add "lineupname" (VText (Lineup.lineup lineup)) (Qb.new "lineups"))
        (fun qb =>
  rbind (Cache.add "name" (VText (Lineup.name lineup)) qb) (fun qb =>
  rbind (sdtime_to_unixtime (Lineup.modified lineup)) (fun modified =>
  Cache.add "modified" (VInt modified) qb))).

Definition store_lineup (new_lineups : list Lineup.entry) (lineup : Lineup.entry)
  : M (list Lineup.entry) :=
  qb <- lift (lineup_fields lineup) ;;
  res <- Qb.insert_or_update qb "lineupname" (Some "modified") ;;
  ret (if res : bool then new_lineups ++ [lineup] else new_lineups).

(** [store_lineups_from_status(data)] *)
Definition store_lineups_from_status (l : list Lineup.entry) : M (list Lineup.entry) :=
  for_each l store_lineup [].

(** The fields of a [stations] row. *)
Definition station_fields (now : Z) (item : Station.station) : result Query_builder :=
  rbind (Cache.add "station_id" (VText (Station.stationID item)) (Qb.new "stations"))
        (fun qb =>
  rbind (Cache.add "name" (VText (Station.name item)) qb) (fun qb =>
  rbind (Cache.add "broadcast_language"
           (Cache.calc_string_from_stringlist (Station.broadcastLanguage item)) qb)
        (fun qb =>
  rbind (Cache.add "last_modified" (VInt now) qb) (fun qb =>
  rbind (Cache.add "active" (VInt 1) qb) (fun qb =>
  match Station.logo_of item with
  | None => Ok qb
  | Some logo =>
      rbind (Cache.add "logo_uri" (VText (Station.URL logo)) qb) (fun qb =>
      rbind (Cache.add "logo_width" (VInt (Station.width logo)) qb) (fun qb =>
      rbind (Cache.add "logo_height" (VInt (Station.height logo)) qb) (fun qb =>
      Cache.add "logo_md5" (VText (Station.md5 logo)) qb)))
  end))))).

(** One round of the loop of [store_lineup_station]. *)
Definition store_station (now : Z) (_ : unit) (item : Station.item) : M unit :=
  match item with
  | Station.Other => ret tt              (* type(item) is not dict: continue *)
  | Station.Dict item =>
      qb <- lift (station_fields now item) ;;
      _ <- Qb.insert_or_update qb "station_id" None ;;
      ret tt
  end.

(** [store_lineup_station(data)] *)
Definition store_lineup_station (now : Z) (data : Station.reply) : M unit :=
  for_each (Station.stations data) (store_station now) tt.

(** One round of the loop over [new_lineup_data]: the stations of the
    lineup are fetched and stored. *)
Definition refresh_stations (_ : unit) (lineup_item : nat * (string * Z)) : M unit :=
  dat <- Main.received
           (get_lineup_stations (get_lineup_mapping (fst (snd lineup_item)))) TypeError ;;
  store_lineup_station (now (fst lineup_item)) dat.

Definition as_values (x : string * Z) : sqlval * sqlval :=
  (VText (fst x), VInt (snd x)).

Definition is_empty {A : Type} (l : list A) : bool :=
  match l with [] => true | _ => false end.

(** [refresh_lineups_and_stations_if_needed()].  The loop over the set of
    deleted lineups runs in the order in which the stored lineups are
    listed; Python fixes no order for it. *)
Definition refresh_lineups_and_stations_if_needed : M bool :=
  (* compare stored lineup with the one from SD *)
  old_lineup_data <- Store.get_lineups_and_modified_date ;;
  new_lineup_data <- lift (calc_lineups_and_modified_date_from_status lineups) ;;
  let old_lineup_set := to_set (map fst old_lineup_data) in
  let new_lineup_set := to_set (map (fun x => VText (fst x)) new_lineup_data) in
  (* new/del/same based on lineupID alone *)
  let deleted_lineups := difference old_lineup_set new_lineup_set in
  let new_lineups := difference new_lineup_set old_lineup_set in
  let same_lineups := intersection old_lineup_set new_lineup_set in
  (* checking timestamp in same_lineups *)
  modified_lineups <- lift (modified_loop same_lineups old_lineup_data
                              (map as_values new_lineup_data) []) ;;
  for_each deleted_lineups (fun _ lineupID => Store.delete_lineup_from_db lineupID) tt ;;;
  let refresh_lineups :=
    (negb (is_empty new_lineups) || negb (is_empty deleted_lineups)
     || negb (is_empty modified_lineups))%bool in
  (if refresh_lineups then
     store_lineups_from_status lineups ;;;
     Store.deactivate_all_stations ;;;
     for_each (combine (seq 0 (length new_lineup_data)) new_lineup_data)
              refresh_stations tt
   else ret tt) ;;;
  ret refresh_lineups.

End WithClock.

End StageA.

(** ** Vocabulary of the further statements *)

Module Terms.

(** The station is watched: [get_active_query_stations] lists it. *)
Definition watched (d : db) (station_id : string) : Prop :=
  In (VText station_id)
     (match Store.get_active_query_stations_withname d with
      | (Ok l, _) => map fst l
      | (Raise _, _) => []
      end).

(** The stations that a run asks the service about. *)
Definition query_stations (d : db) : list string :=
  match Main.get_active_query_stations d with
  | (Ok l, _) => l
  | (Raise _, _) => []
  end.

(** What a column holds, row by row. *)
Definition column (d : db) (t col : string) : list sqlval :=
  map (fun r => row_get r col) (get_table d t).

(** The station ids of a reply, in order. *)
Definition station_ids (reply : Station.reply) : list string :=
  flat_map (fun item => match item with
                        | Station.Dict s => [Station.stationID s]
                        | Station.Other => []
                        end) (Station.stations reply).

(** The station ids of all the lineups of a status, as the refresh fetches
    them. *)
Definition fetched_station_ids (lineups : list Lineup.entry)
    (get_lineup_stations : option string -> option Station.reply) : list string :=
  flat_map (fun x =>
              match get_lineup_stations
                      (StageA.get_lineup_mapping lineups (Lineup.lineup x)) with
              | Some reply => station_ids reply
              | None => []
              end) lineups.

(** The row carries this station id. *)
Definition is_station (station_id : string) (r : row) : bool :=
  Sql.col_eq "station_id" (VText station_id) r.

(** The first [lineups] row with this name. *)
Definition lineup_row (d : db) (name : string) : option row :=
  find (Sql.col_eq "lineupname" (VText name)) (get_table d "lineups").

(** The stored lineups are those of the status, with the stamps of the
    status. *)
Definition lineups_in_step (tm : string -> result Z) (d : db)
    (lineups : list Lineup.entry) : Prop :=
  (forall r, In r (get_table d "lineups") ->
     exists x, In x lineups /\ row_get r "lineupname" = VText (Lineup.lineup x)) /\
  (forall x, In x lineups ->
     exists r m, lineup_row d (Lineup.lineup x) = Some r /\
                 tm (Lineup.modified x) = Ok m /\
                 row_get r "modified" = VInt m).

(** The pair that [calc_lineups_and_modified_date_from_status] makes of a
    lineup of the status. *)
Definition lineup_stamped (tm : string -> result Z) (x : Lineup.entry) (p : string * Z)
  : Prop :=
  fst p = Lineup.lineup x /\ tm (Lineup.modified x) = Ok (snd p).

(** The stored lineups, as [get_lineups_and_modified_date] lists them. *)
Definition stored_lineups (d : db) : list (sqlval * sqlval) :=
  map (fun x => (row_get x "lineupname", row_get x "modified")) (get_table d "lineups").

(** The first lineup of the status with this name. *)
Definition first_lineup (lineups : list Lineup.entry) (name : string)
  : option Lineup.entry :=
  find (fun x => String.eqb (Lineup.lineup x) name) lineups.

(** A computation that keeps a property of the database, however it
    ends. *)
Definition preserves (A : Type) (P : db -> Prop) (m : M A) : Prop :=
  forall d, P d -> P (snd (m d)).

(** The table [t] is as it is in [d]. *)
Definition same_table (t : string) (d : db) : db -> Prop :=
  fun d0 => get_table d0 t = get_table d t.

(** The stations of [d'] are those of [d], each with the id and the query
    flag it had, followed by stations without a query flag. *)
Definition stations_kept (d d' : db) : Prop :=
  exists added,
    column d' "stations" "station_id" = column d "stations" "station_id" ++ added /\
    column d' "stations" "query_from_sd"
    = column d "stations" "query_from_sd" ++ repeat VNull (length added).

(** The columns written for a station. *)
Definition station_pairs (now : Z) (item : Station.station) : list (string * sqlval) :=
  [("station_id", VText (Station.stationID item));
   ("name", VText (Station.name item));
   ("broadcast_language",
    Cache.calc_string_from_stringlist (Station.broadcastLanguage item));
   ("last_modified", VInt now);
   ("active", VInt 1)]
  ++ match Station.logo_of item with
     | Some logo => [("logo_uri", VText (Station.URL logo));
                     ("logo_width", VInt (Station.width logo));
                     ("logo_height", VInt (Station.height logo));
                     ("logo_md5", VText (Station.md5 logo))]
     | None => []
     end.

(** Every stored lineup carries the name of a lineup of the status. *)
Definition named_in_status (lineups : list Lineup.entry) (d : db) : Prop :=
  forall r, In r (get_table d "lineups") ->
    exists x, In x lineups /\ row_get r "lineupname" = VText (Lineup.lineup x).

(** The lineup of the status is stored under the stamp of the status. *)
Definition lineup_settled (tm : string -> result Z) (lineups : list Lineup.entry)
    (x : Lineup.entry) (d : db) : Prop :=
  In x lineups ->
  exists r m, lineup_row d (Lineup.lineup x) = Some r /\
              tm (Lineup.modified x) = Ok m /\
              row_get r "modified" = VInt m.

(** The columns written for a lineup of the status. *)
Definition lineup_pairs (x : Lineup.entry) (modified : Z) : list (string * sqlval) :=
  [("lineupname", VText (Lineup.lineup x));
   ("name", VText (Lineup.name x));
   ("modified", VInt modified)].

(** The station has a row, and every row of the station is active. *)
Definition station_settled (station_id : string) (d : db) : Prop :=
  (exists r, In r (get_table d "stations") /\ is_station station_id r = true) /\
  (forall r, In r (get_table d "stations") -> is_station station_id r = true ->
             row_get r "active" = VInt 1).

(** Every row of [stations] is inactive, or active and the row of one of
    the stations [ids]. *)
Definition stations_sound (ids : list string) (d : db) : Prop :=
  forall r, In r (get_table d "stations") ->
    row_get r "active" = VInt 0 \/
    (row_get r "active" = VInt 1 /\
     exists s, In s ids /\ row_get r "station_id" = VText s).

(** The first [programdata] row of a program. *)
Definition program_row (d : db) (program_id : string) : option row :=
  find (Sql.col_eq "program_id" (VText program_id)) (get_table d "programdata").

(** The fetched entry names a program that is not stored under the
    fingerprint of the entry. *)
Definition stale (d : db) (p : Sched.program) : bool :=
  match program_row d (Sched.programID p) with
  | None => true
  | Some r => match row_get r "md5" with
              | VNull => true
              | v => negb (py_eq v (VText (Sched.md5 p)))
              end
  end.

(** The fetched day is to be downloaded: its fingerprint is not the
    reserved one and the index holds no row for the station and day, or a
    row with another fingerprint. *)
Definition dirty (d : db) (station_id : string) (day : string * Md5.entry) : bool :=
  (negb (String.eqb (Md5.md5 (snd day)) Cache.sentinel)
   && match Util.date_to_int (fst day) with
      | Ok ord =>
          match Spec.stored_md5 d station_id ord with
          | Some v => negb (py_eq v (VText (Md5.md5 (snd day))))
          | None => true
          end
      | Raise _ => false
      end)%bool.

(** [new_schedules.get(station_id, [])] *)
Definition days_listed (new_schedules : dict (list string)) (station_id : string)
  : list string :=
  match dict_get new_schedules station_id with
  | Some days => days
  | None => []
  end.

(** [if not x in seen: seen.append(x)] *)
Definition note_seen (seen : list string) (x : string) : list string :=
  if existsb (String.eqb x) seen then seen else seen ++ [x].

(** The elements of a list without repetition, each at its first
    position. *)
Definition first_seen (l : list string) : list string :=
  fold_left note_seen l [].

End Terms.

(** ** The artwork resolver, from the payload's point of view *)

Module Art.

(** [calc_artwork_uri(uri)] *)
Definition calc_artwork_uri (uri : string) : string :=
  if negb (String.prefix "http:" uri || String.prefix "https:" uri)%bool
  then ("https://json.schedulesdirect.org/20141201/image/" ++ uri)%string
  else uri.

(** The item has a category and a size. *)
Definition usable (it : Artwork.item) : bool :=
  match Artwork.category it, Artwork.size it with
  | Some _, Some _ => true
  | _, _ => false
  end.

(** The item has this category and this size. *)
Definition in_bucket (cat sz : string) (it : Artwork.item) : bool :=
  match Artwork.category it, Artwork.size it with
  | Some c, Some z => (String.eqb c cat && String.eqb z sz)%bool
  | _, _ => false
  end.

(** The asset that the resolver stores for an item. *)
Definition asset_of (it : Artwork.item) : Artwork.asset :=
  (calc_artwork_uri (Artwork.uri it),
   match Artwork.caption it with Some c => c | None => None end,
   Artwork.width it, Artwork.height it).

(** The categories of the usable items, and their sizes in a category, in
    the order of their first occurrence in the payload. *)
Definition category_list (dat : list Artwork.item) : list string :=
  flat_map (fun it => match Artwork.category it, Artwork.size it with
                      | Some c, Some _ => [c]
                      | _, _ => []
                      end) dat.

Definition size_list (cat : string) (dat : list Artwork.item) : list string :=
  flat_map (fun it => match Artwork.category it, Artwork.size it with
                      | Some c, Some z => if String.eqb c cat then [z] else []
                      | _, _ => []
                      end) dat.

Definition categories (dat : list Artwork.item) : list string :=
  Terms.first_seen (category_list dat).

Definition sizes (cat : string) (dat : list Artwork.item) : list string :=
  Terms.first_seen (size_list cat dat).

(** The preference rule: [x] is the best of the names [present] when it is
    the first name of the preference list that is present or, when no name
    of the preference list is present, the first of the names present. *)
Definition best_of (present preferred : list string) (x : string) : Prop :=
  (exists before after,
      preferred = before ++ x :: after /\ In x present /\
      forall y, In y before -> ~ In y present) \/
  ((forall y, In y preferred -> ~ In y present) /\
   exists rest, present = x :: rest).

(** The item that stands for a program: the first item of the payload in
    the best category and, within it, the best size. *)
Definition chosen (dat : list Artwork.item) : option Artwork.item :=
  match Artwork.best_match (categories dat) Artwork.category_preference with
  | Ok (Some c) =>
      match Artwork.best_match (sizes c dat) Artwork.size_preference with
      | Ok (Some z) => find (in_bucket c z) dat
      | _ => None
      end
  | _ => None
  end.

(** The asset dict holds the usable items of [dat]: its keys are the
    categories, the keys of a category its sizes, and a bucket the assets
    of the items of that category and size, all in payload order. *)
Definition represents (assets : Artwork.asset_map) (dat : list Artwork.item) : Prop :=
  dict_keys assets = categories dat /\
  forall cat, In cat (categories dat) ->
    exists szs,
      dict_get assets cat = Some szs /\
      dict_keys szs = sizes cat dat /\
      forall sz, In sz (sizes cat dat) ->
        dict_get szs sz = Some (map asset_of (filter (in_bucket cat sz) dat)).

(** The entry is an error entry, or a list with a usable item. *)
Definition resolvable (e : Artwork.program_art) : Prop :=
  match Artwork.data e with
  | Artwork.ArtList dat => existsb usable dat = true
  | Artwork.ArtOther => True
  end.

End Art.

(** ** Sample data for the refresh and the artwork resolver *)

Module Sample.

(** A status with one lineup, and the service's answer for its URI. *)
Definition lineups : list Lineup.entry :=
  [Lineup.mkEntry "USA-OTA-12345" "Local Over the Air Broadcast"
                  "2015-03-02T15:54:58Z" "/20141201/lineups/USA-OTA-12345"].

Definition lineup_stations (uri : option string) : option Station.reply :=
  match uri with
  | Some _ =>
      Some (Station.mkReply
              [Station.Dict (Station.mkStation (Scenario.station_name 1) "Station"
                                               ["en"] None)])
  | None => None
  end.

(** A clock that reads 0 at every lineup. *)
Definition at_zero (n : nat) : Z := 0.

(** A cache that holds the lineup under the stamp of the status. *)
Definition cache_in_step : db :=
  mkDb [("lineups", [mkRow 1 [("lineupname", VText "USA-OTA-12345");
                              ("name", VText "Local Over the Air Broadcast");
                              ("modified", VInt 0)]])]
       [] 0.

(** An artwork payload: a banner, then two Iconic images. *)
Definition iconic_md : Artwork.item :=
  Artwork.mkItem (Some (Some "Poster")) (Some "Iconic") (Some "Md")
                 "assets/p1_i_md.jpg" (Some 240) (Some 360).

Definition artwork : list Artwork.item :=
  [Artwork.mkItem None (Some "Banner-L1") (Some "Lg") "assets/p1_b_lg.jpg"
                  (Some 1080) (Some 1440);
   Artwork.mkItem None (Some "Iconic") (Some "Sm") "https://example.org/p1_i_sm.jpg"
                  (Some 120) (Some 180);
   iconic_md].

Definition banner_only : list Artwork.item :=
  [Artwork.mkItem None (Some "Banner-L1") (Some "Lg") "assets/p1_b_lg.jpg"
                  (Some 1080) (Some 1440)].

Definition artwork_payload_before : list Artwork.program_art :=
  [Artwork.mkProgramArt "EP01234567" (Artwork.ArtList banner_only)].

Definition artwork_entry : Artwork.program_art :=
  Artwork.mkProgramArt "EP01234567" (Artwork.ArtList artwork).

Definition artwork_payload_after : list Artwork.program_art :=
  [Artwork.mkProgramArt "SH00000001" Artwork.ArtOther].

Definition artwork_info : dict Artwork.asset :=
  match Artwork.proc_program_artwork_info
          (artwork_payload_before ++ artwork_entry :: artwork_payload_after) with
  | Ok res => res
  | Raise _ => []
  end.

End Sample.
Unset Implicit Arguments.

(** ** Dates *)

Example date_to_int_2015_03_02 : Util.date_to_int "2015-03-02" = Ok (Some 735659).
Proof. reflexivity. Qed.

Example date_to_int_leap_day : Util.date_to_int "2024-02-29" = Ok (Some 738945).
Proof. reflexivity. Qed.

Example date_to_int_no_match : Util.date_to_int "tomorrow" = Ok None.
Proof. reflexivity. Qed.

Example date_to_int_month_13 : Util.date_to_int "2015-13-02" = Raise ValueError.
Proof. reflexivity. Qed.

(** ** Properties of the batch splitter *)

Section ChunkerFacts.

Variable A : Type.

Lemma py_slice_nat (l : list A) (p s : nat) :
  (p <= length l)%nat ->
  Util.py_slice l (Z.of_nat p) (Z.of_nat p + Z.of_nat s) = firstn s (skipn p l).
Proof.
  intros Hp. unfold Util.py_slice, Util.slice_bound.
  destruct (Z.of_nat p <? 0) eqn:E1; [apply Z.ltb_lt in E1; lia|].
  destruct (Z.of_nat p + Z.of_nat s <? 0) eqn:E2; [apply Z.ltb_lt in E2; lia|].
  rewrite (Z.min_l (Z.of_nat p)) by lia.
  rewrite Nat2Z.id.
  destruct (Z.min_spec (Z.of_nat p + Z.of_nat s) (Z.of_nat (length l))) as [[Hlt ->]|[Hge ->]].
  - replace (Z.to_nat (Z.of_nat p + Z.of_nat s - Z.of_nat p)) with s by lia.
    reflexivity.
  - rewrite !firstn_all2; try reflexivity; rewrite length_skipn; lia.
Qed.

Lemma range_len_pos (n s : nat) :
  (0 < s)%nat ->
  exists k, Z.to_nat (Util.range_len 0 (Z.of_nat n) (Z.of_nat s)) = k /\
            (n <= k * s)%nat /\ (forall i, (i < k)%nat -> (i * s < n)%nat).
Proof.
  intros Hs. unfold Util.range_len.
  destruct (0 <? Z.of_nat s) eqn:E; [|apply Z.ltb_ge in E; lia].
  destruct (0 <? Z.of_nat n) eqn:En.
  - apply Z.ltb_lt in En.
    set (q := (Z.of_nat n - 0 - 1) / Z.of_nat s).
    assert (Hq : 0 <= q) by (apply Z.div_pos; lia).
    assert (Hd : Z.of_nat n - 0 - 1 = Z.of_nat s * q + (Z.of_nat n - 0 - 1) mod Z.of_nat s)
      by (apply Z.div_mod; lia).
    assert (Hm : 0 <= (Z.of_nat n - 0 - 1) mod Z.of_nat s < Z.of_nat s)
      by (apply Z.mod_pos_bound; lia).
    exists (Z.to_nat (q + 1)). split; [reflexivity|]. split.
    + apply Nat2Z.inj_le. rewrite Nat2Z.inj_mul, Z2Nat.id by lia. nia.
    + intros i Hi. apply Nat2Z.inj_lt. rewrite Nat2Z.inj_mul.
      assert (Z.of_nat i <= q) by lia. nia.
  - apply Z.ltb_ge in En. exists O. split; [reflexivity|]. split; [lia|].
    intros i Hi; lia.
Qed.

Lemma chunker_nat (l : list A) (s : nat) :
  (0 < s)%nat ->
  exists k, Util.chunker l (Z.of_nat s) = Ok (chunks_nat l s k) /\
            (length l <= k * s)%nat /\
            (forall i, (i < k)%nat -> (i * s < length l)%nat).
Proof.
  intros Hs. destruct (range_len_pos (length l) s Hs) as (k & Hk & Hcov & Hin).
  exists k. split; [|split; assumption].
  unfold Util.chunker, Util.py_range.
  destruct (Z.of_nat s =? 0) eqn:E; [apply Z.eqb_eq in E; lia|].
  rewrite Hk. f_equal. unfold chunks_nat. rewrite map_map.
  apply map_ext_in. intros i Hi. apply in_seq in Hi.
  replace (0 + Z.of_nat i * Z.of_nat s) with (Z.of_nat (i * s)) by lia.
  apply py_slice_nat. specialize (Hin i). lia.
Qed.

Lemma firstn_plus (n m : nat) (l : list A) :
  firstn (n + m) l = firstn n l ++ firstn m (skipn n l).
Proof.
  revert l. induction n as [|n IH]; intros l.
  - reflexivity.
  - destruct l as [|x l]; simpl.
    + rewrite firstn_nil. reflexivity.
    + rewrite IH. reflexivity.
Qed.

Lemma concat_chunks_nat (l : list A) (s k : nat) :
  concat (chunks_nat l s k) = firstn (k * s) l.
Proof.
  unfold chunks_nat. induction k as [|k IH].
  - reflexivity.
  - rewrite seq_S, map_app, concat_app, IH. simpl.
    rewrite app_nil_r.
    replace (s + k * s)%nat with (k * s + s)%nat by lia.
    rewrite firstn_plus. reflexivity.
Qed.

Lemma length_chunk_nat (l : list A) (s i : nat) :
  length (firstn s (skipn (i * s) l)) = Nat.min s (length l - i * s).
Proof. rewrite length_firstn, length_skipn. reflexivity. Qed.

End ChunkerFacts.

(** The requests that are split with [chunker] stay within their ceiling:
    no chunk is longer than the size asked for. *)
Lemma chunks_within_ceiling (A : Type) (l : list A) (size : Z) (chunks : list (list A)) :
  0 < size -> Util.chunker l size = Ok chunks ->
  Forall (fun c => (Z.of_nat (length c) <=? size) = true) chunks.
Proof.
  intros Hsize Hc.
  assert (Hs : (0 < Z.to_nat size)%nat) by lia.
  destruct (chunker_nat A l (Z.to_nat size) Hs) as (k & Hk & _ & _).
  rewrite Z2Nat.id in Hk by lia. rewrite Hk in Hc. inversion Hc; subst chunks.
  apply Forall_forall. intros c Hin. unfold chunks_nat in Hin.
  apply in_map_iff in Hin as (i & <- & _).
  rewrite length_chunk_nat. apply Z.leb_le. lia.
Qed.

(** C10. For every list and every chunk size greater than zero, the chunks
    that [chunker] yields concatenate, in order, to the original list; no
    chunk is longer than the chunk size; and every chunk except possibly the
    last has exactly the chunk size. *)
Theorem chunker_partition (A : Type) (l : list A) (size : Z) :
  0 < size ->
  exists chunks,
    Util.chunker l size = Ok chunks /\
    concat chunks = l /\
    Forall (fun c => Z.of_nat (length c) <= size) chunks /\
    (forall i, (i + 1 < length chunks)%nat ->
               Z.of_nat (length (nth i chunks [])) = size).
Proof.
  intros Hsize.
  assert (Hs : (0 < Z.to_nat size)%nat) by lia.
  destruct (chunker_nat A l (Z.to_nat size) Hs) as (k & Hc & Hcov & Hin).
  rewrite Z2Nat.id in Hc by lia.
  exists (chunks_nat l (Z.to_nat size) k). split; [exact Hc|]. split; [|split].
  - rewrite concat_chunks_nat. apply firstn_all2. exact Hcov.
  - apply Forall_forall. intros c Hc'. unfold chunks_nat in Hc'.
    apply in_map_iff in Hc' as (i & <- & _).
    rewrite length_chunk_nat. lia.
  - intros i Hi. unfold chunks_nat in *. rewrite length_map, length_seq in Hi.
    rewrite (nth_indep _ [] (firstn (Z.to_nat size) (skipn (0 * Z.to_nat size) l)))
      by (rewrite length_map, length_seq; lia).
    rewrite (map_nth (fun j => firstn (Z.to_nat size) (skipn (j * Z.to_nat size) l))).
    rewrite seq_nth by lia. simpl Nat.add.
    rewrite length_chunk_nat.
    specialize (Hin (S i) ltac:(lia)). simpl in Hin. lia.
Qed.

Lemma chunker_partition_witness :
  exists chunks,
    Util.chunker [1; 2; 3; 4; 5; 6; 7] 3 = Ok chunks /\
    concat chunks = [1; 2; 3; 4; 5; 6; 7] /\
    Forall (fun c => Z.of_nat (length c) <= 3) chunks /\
    (forall i, (i + 1 < length chunks)%nat ->
               Z.of_nat (length (nth i chunks [])) = 3).
Proof. apply (chunker_partition Z [1; 2; 3; 4; 5; 6; 7] 3). lia. Defined.


(** ** The merge engine *)

Section MergeEngine.

Lemma sqlval_eqb_eq (a b : sqlval) : sqlval_eqb a b = true <-> a = b.
Proof.
  destruct a, b; simpl; split; intro H; try congruence; try discriminate.
  - apply Z.eqb_eq in H. congruence.
  - inversion H. apply Z.eqb_refl.
  - apply String.eqb_eq in H. congruence.
  - inversion H. apply String.eqb_refl.
Qed.

Lemma sqlval_eqb_refl (a : sqlval) : sqlval_eqb a a = true.
Proof. apply sqlval_eqb_eq. reflexivity. Qed.

Lemma pairs_of_pairs (t : string) (fv : list (string * sqlval)) :
  Qb.pairs (Qb.of_pairs t fv) = fv.
Proof.
  unfold Qb.pairs, Qb.of_pairs; simpl.
  induction fv as [|[f v] fv IH]; simpl; [reflexivity|]. rewrite IH. reflexivity.
Qed.

Lemma value_of_of_pairs (t : string) (fv : list (string * sqlval)) (k : string) :
  Qb.value_of (Qb.of_pairs t fv) k =
  match dict_get fv k with
  | Some v => Ok v
  | None => Raise ValueError
  end.
Proof.
  unfold Qb.value_of, Qb.of_pairs; simpl.
  induction fv as [|[f v] fv IH]; simpl; [reflexivity|].
  destruct (String.eqb f k); simpl; [reflexivity|].
  destruct (Qb.index (map fst fv) k) as [ix|]; simpl in *.
  - destruct (dict_get fv k); exact IH.
  - destruct (dict_get fv k); [discriminate IH | reflexivity].
Qed.

Lemma dict_get_in (V : Type) (d : dict V) (k : string) (v : V) :
  dict_get d k = Some v -> In k (dict_keys d).
Proof.
  induction d as [|[k' v'] d IH]; simpl; [discriminate|].
  destruct (String.eqb k' k) eqn:E.
  - apply String.eqb_eq in E. intros _. left. exact E.
  - intros H. right. apply IH. exact H.
Qed.

Lemma in_dict_get (V : Type) (d : dict V) (k : string) :
  In k (dict_keys d) -> exists v, dict_get d k = Some v.
Proof.
  induction d as [|[k' v'] d IH]; simpl; [tauto|].
  intros [H|H].
  - subst. rewrite String.eqb_refl. eauto.
  - destruct (String.eqb k' k); eauto.
Qed.

End MergeEngine.

(** *** The execution methods in full and on values that can be bound *)

Section FullMethods.

Lemma cursor_execute_ok (prepares : bool) (jokers : nat) (param : list sqlval)
    (statement : M unit) :
  prepares = true -> length param = jokers -> forallb Builder.bindable param = true ->
  Builder.cursor_execute prepares jokers param statement = statement.
Proof.
  intros -> <- Hb. unfold Builder.cursor_execute. rewrite Nat.eqb_refl, Hb. reflexivity.
Qed.

Lemma cursor_execute_overflow (jokers : nat) (param : list sqlval)
    (statement : M unit) (d : db) :
  length param = jokers -> forallb Builder.bindable param = false ->
  Builder.cursor_execute true jokers param statement d = (Raise OverflowError, d).
Proof.
  intros <- Hb. unfold Builder.cursor_execute. rewrite Nat.eqb_refl, Hb. reflexivity.
Qed.

Lemma combine_surplus (A B : Type) (l : list A) (l' extra : list B) :
  length l = length l' -> combine l (l' ++ extra) = combine l l'.
Proof.
  revert l'. induction l as [|a l IH]; intros [|b l'] H; simpl in *;
    try discriminate; [reflexivity|].
  rewrite IH by (injection H; auto). reflexivity.
Qed.

Lemma nth_surplus (B : Type) (l : list B) (x dflt : B) :
  nth (length l) (l ++ [x]) dflt = x.
Proof. induction l as [|b l IH]; simpl; auto. Qed.

Lemma index_in (l : list string) (k : string) (ix : nat) :
  Qb.index l k = Some ix -> (ix < length l)%nat.
Proof.
  revert ix. induction l as [|y l IH]; intros ix; simpl; [discriminate|].
  destruct (String.eqb y k).
  - intros H; inversion H. lia.
  - destruct (Qb.index l k) as [n|]; [|discriminate].
    intros H; inversion H. specialize (IH n eq_refl). lia.
Qed.

Lemma value_of_in (qb : Query_builder) (k : string) (v : sqlval) :
  Qb.value_of qb k = Ok v -> In v (values qb) /\ (0 < length (fields qb))%nat.
Proof.
  unfold Qb.value_of. destruct (Qb.index (fields qb) k) as [ix|] eqn:E; [|discriminate].
  destruct (nth_error (values qb) ix) as [x|] eqn:N; [|discriminate].
  intros H; inversion H; subst. split.
  - eapply nth_error_In, N.
  - apply index_in in E. lia.
Qed.

Lemma bindable_member (l : list sqlval) (v : sqlval) :
  forallb Builder.bindable l = true -> In v l -> Builder.bindable v = true.
Proof. intros H Hin. rewrite forallb_forall in H. apply H, Hin. Qed.

(** The builder as [get_update] leaves it after an UPDATE keyed by
    [whereparam]. *)
Lemma execute_insert_bound (qb : Query_builder) (d : db) :
  length (fields qb) = length (values qb) -> (0 < length (fields qb))%nat ->
  forallb Builder.bindable (values qb) = true ->
  Builder.execute_insert qb d = ((Ok tt, qb), snd (Qb.execute_insert qb d)).
Proof.
  intros Hlen Hpos Hb. unfold Builder.execute_insert, Builder.get_insert. cbn [snd].
  rewrite cursor_execute_ok.
  - reflexivity.
  - apply andb_true_iff. split; [apply Nat.ltb_lt, Hpos|apply Nat.eqb_eq; auto].
  - reflexivity.
  - exact Hb.
Qed.

Lemma execute_update_bound (qb : Query_builder) (column : string) (whereparam : sqlval)
    (d : db) :
  length (fields qb) = length (values qb) -> (0 < length (fields qb))%nat ->
  forallb Builder.bindable (values qb) = true -> Builder.bindable whereparam = true ->
  Builder.execute_update column whereparam qb d
  = ((Ok tt, mkQb (fields qb) (values qb ++ [whereparam]) (table qb)),
     snd (Qb.execute_update qb (Sql.col_eq column whereparam) d)).
Proof.
  intros Hlen Hpos Hb Hw. unfold Builder.execute_update, Builder.get_update.
  rewrite cursor_execute_ok.
  - rewrite combine_surplus by exact Hlen. rewrite Hlen, nth_surplus. reflexivity.
  - apply Nat.ltb_lt, Hpos.
  - rewrite length_app. simpl. lia.
  - rewrite forallb_app, Hb. simpl. rewrite Hw. reflexivity.
Qed.

(** On a builder with as many values as fields, all of which SQLite can
    bind, the method in full returns what [Qb.insert_or_update] returns and
    leaves the same database. *)
Lemma insert_or_update_agrees (qb : Query_builder) (sel : string) (cmp : option string)
    (d : db) :
  length (fields qb) = length (values qb) ->
  forallb Builder.bindable (values qb) = true ->
  fst (fst (Builder.insert_or_update sel cmp qb d)) = fst (Qb.insert_or_update qb sel cmp d) /\
  snd (Builder.insert_or_update sel cmp qb d) = snd (Qb.insert_or_update qb sel cmp d).
Proof.
  intros Hlen Hb. unfold Builder.insert_or_update, Qb.insert_or_update, bind, lift.
  destruct (Qb.value_of qb sel) as [selval|x] eqn:Hs; [|split; reflexivity].
  destruct (value_of_in _ _ _ Hs) as [Hin Hpos].
  pose proof (bindable_member _ _ Hb Hin) as Hbs.
  destruct (match cmp with Some c => Qb.value_of qb c | None => Ok VNull end)
    as [compval|x]; [|split; reflexivity].
  rewrite cursor_execute_ok by (simpl; rewrite ?Hbs; reflexivity).
  unfold ret, Sql.select_first.
  destruct (find (Sql.col_eq sel selval) (get_table d (table qb))) as [r|].
  - destruct (match cmp with Some c => py_eq (row_get r c) compval | None => false end);
      [split; reflexivity|].
    rewrite execute_update_bound by assumption. split; reflexivity.
  - rewrite execute_insert_bound by assumption. split; reflexivity.
Qed.


End FullMethods.



(** ** The artwork resolver *)

Section ArtworkFacts.

Import Artwork.

(** An item that lacks a category or a size leaves the asset dict alone. *)
Lemma add_item_skipped (assets : asset_map) (it : item) :
  category it = None \/ size it = None -> add_item assets it = assets.
Proof.
  unfold add_item. intros [H|H]; rewrite H; [reflexivity|].
  destruct (category it); reflexivity.
Qed.

Lemma build_assets_skipped (dat : list item) :
  Forall (fun it => category it = None \/ size it = None) dat ->
  build_assets dat = [].
Proof.
  unfold build_assets. generalize (@nil (string * dict (list asset))).
  induction dat as [|it dat IH]; intros acc Hall; simpl.
  - reflexivity.
  - inversion Hall as [|? ? Hit Hrest]; subst.
    rewrite add_item_skipped by exact Hit. apply IH. exact Hrest.
Qed.

Lemma find_preferred_nil (preferred : list string) :
  find (fun item => existsb (String.eqb item) []) preferred = None.
Proof. induction preferred; simpl; auto. Qed.

Lemma best_match_nil (preferred : list string) :
  best_match [] preferred = Raise IndexError.
Proof. unfold best_match. simpl. rewrite find_preferred_nil. reflexivity. Qed.

Lemma select_best_nil : select_best [] = Raise IndexError.
Proof.
  unfold select_best, keys_view_is_empty_list.
  change (dict_keys (@nil (string * dict (list asset)))) with (@nil string).
  rewrite best_match_nil. reflexivity.
Qed.

Lemma best_match_cases (current preferred : list string) :
  best_match current preferred = Raise IndexError \/
  exists k, best_match current preferred = Ok (Some k) /\ In k current.
Proof.
  unfold best_match. simpl.
  destruct (find _ preferred) as [k|] eqn:E.
  - right. exists k. split; [reflexivity|].
    apply find_some in E as [_ E]. apply existsb_exists in E as (x & Hx & Hk).
    apply String.eqb_eq in Hk. subst. exact Hx.
  - destruct current as [|k ?]; [left; reflexivity|].
    right. exists k. split; [reflexivity | left; reflexivity].
Qed.

(** Whatever the asset dict, the selection returns an asset or raises
    [IndexError]; no other exception and no [continue]. *)
Lemma select_best_cases (assets : asset_map) :
  select_best assets = Raise IndexError \/ exists a, select_best assets = Ok (Some a).
Proof.
  unfold select_best, keys_view_is_empty_list.
  destruct (best_match_cases (dict_keys assets) category_preference)
    as [->|(cat & -> & Hcat)]; [left; reflexivity|]. cbn [rbind subscript].
  destruct (in_dict_get _ assets cat Hcat) as (sizes & ->). cbn [rbind].
  destruct (best_match_cases (dict_keys sizes) size_preference)
    as [->|(sz & -> & Hsz)]; [left; reflexivity|]. cbn [rbind subscript].
  destruct (in_dict_get _ sizes sz Hsz) as (bucket & ->). cbn [rbind].
  destruct bucket as [|a ?]; [left; reflexivity | right; eauto].
Qed.

Lemma proc_entry_cases (res : dict asset) (e : program_art) :
  proc_entry res e = Raise IndexError \/ exists res', proc_entry res e = Ok res'.
Proof.
  unfold proc_entry. destruct (data e) as [dat|]; [|right; eauto].
  destruct (select_best_cases (build_assets dat)) as [->|(a & ->)]; simpl; eauto.
Qed.

Lemma proc_entries_raises (pre post : list program_art) (e : program_art) :
  (forall res, proc_entry res e = Raise IndexError) ->
  forall res, proc_entries res (pre ++ e :: post) = Raise IndexError.
Proof.
  intros He. induction pre as [|p pre IH]; intros res; simpl.
  - rewrite He. reflexivity.
  - destruct (proc_entry_cases res p) as [->|(res' & ->)]; simpl; auto.
Qed.

End ArtworkFacts.

(** The mapping of the example as it is built from a payload: three items
    in listing order, the resolver returns the Iconic asset of size Md. *)
Example artwork_payload_selected :
  let item cat sz u :=
    Artwork.mkItem None (Some cat) (Some sz) u (Some 240) (Some 360) in
  Artwork.build_assets
    [item "Cast Ensemble" "Lg" "https://example.org/u1.jpg";
     item "Iconic" "Md" "assets/u2.jpg";
     item "Iconic" "Sm" "https://example.org/u3.jpg"]
  = [("Cast Ensemble",
      [("Lg", [("https://example.org/u1.jpg", None, Some 240, Some 360)])]);
     ("Iconic",
      [("Md", [("https://json.schedulesdirect.org/20141201/image/assets/u2.jpg",
                None, Some 240, Some 360)]);
       ("Sm", [("https://example.org/u3.jpg", None, Some 240, Some 360)])])] /\
  Artwork.proc_program_artwork_info
    [Artwork.mkProgramArt "EP01234567"
       (Artwork.ArtList
          [item "Cast Ensemble" "Lg" "https://example.org/u1.jpg";
           item "Iconic" "Md" "assets/u2.jpg";
           item "Iconic" "Sm" "https://example.org/u3.jpg"])]
  = Ok [("EP01234567",
         ("https://json.schedulesdirect.org/20141201/image/assets/u2.jpg",
          None, Some 240, Some 360))].
Proof. split; reflexivity. Qed.

(** C8. For the asset mapping
    [{"Cast Ensemble": {"Lg": [u1]}, "Iconic": {"Md": [u2], "Sm": [u3]}}]
    the resolver picks category Iconic, then size Md, and returns [u2];
    and the selection is a function of the mapping (contents and listing
    order) alone: equal mappings give equal selections, and equal payloads
    give equal results. *)
Theorem artwork_resolver_selects_and_is_deterministic :
  (forall u1 u2 u3 : Artwork.asset,
     let assets := [("Cast Ensemble", [("Lg", [u1])]);
                    ("Iconic", [("Md", [u2]); ("Sm", [u3])])] in
     Artwork.best_match (dict_keys assets) Artwork.category_preference
       = Ok (Some "Iconic") /\
     Artwork.best_match ["Md"; "Sm"] Artwork.size_preference = Ok (Some "Md") /\
     Artwork.select_best assets = Ok (Some u2)) /\
  (forall m1 m2 : Artwork.asset_map,
     m1 = m2 -> Artwork.select_best m1 = Artwork.select_best m2) /\
  (forall d1 d2 : list Artwork.program_art,
     d1 = d2 ->
     Artwork.proc_program_artwork_info d1 = Artwork.proc_program_artwork_info d2).
Proof.
  split; [|split].
  - intros u1 u2 u3. cbv zeta. repeat split; reflexivity.
  - intros m1 m2 ->. reflexivity.
  - intros d1 d2 ->. reflexivity.
Qed.

(** C9. A payload entry whose ["data"] is a list in which every item lacks
    a category or a size (the list may hold any number of such items) makes
    [proc_program_artwork_info] raise [IndexError], wherever the entry
    stands in the payload: the keys view of the empty asset dict is not
    equal to [[]], so the entry is not skipped and [best_match] indexes the
    first element of an empty collection. *)
Theorem artwork_without_category_or_size_raises
    (pre post : list Artwork.program_art) (pid : string) (dat : list Artwork.item) :
  dat <> [] ->
  Forall (fun it => Artwork.category it = None \/ Artwork.size it = None) dat ->
  Artwork.build_assets dat = [] /\
  Artwork.proc_program_artwork_info
    (pre ++ Artwork.mkProgramArt pid (Artwork.ArtList dat) :: post)
  = Raise IndexError.
Proof.
  intros _ Hall.
  assert (Hb : Artwork.build_assets dat = []) by (apply build_assets_skipped; exact Hall).
  split; [exact Hb|].
  unfold Artwork.proc_program_artwork_info. apply proc_entries_raises.
  intros res. unfold Artwork.proc_entry. simpl. rewrite Hb, select_best_nil.
  reflexivity.
Qed.

(** ** Tables and rows *)

Section StoreFacts.

Lemma dict_get_set_same (V : Type) (d : dict V) (k : string) (v : V) :
  dict_get (dict_set d k v) k = Some v.
Proof.
  induction d as [|[k' v'] d IH]; simpl.
  - rewrite String.eqb_refl. reflexivity.
  - destruct (String.eqb k' k) eqn:E; simpl; rewrite E; auto.
Qed.

Lemma dict_get_set_other (V : Type) (d : dict V) (k k2 : string) (v : V) :
  k <> k2 -> dict_get (dict_set d k v) k2 = dict_get d k2.
Proof.
  intros Hne. induction d as [|[k' v'] d IH]; simpl.
  - destruct (String.eqb k k2) eqn:E; [apply String.eqb_eq in E; contradiction|].
    reflexivity.
  - destruct (String.eqb k' k) eqn:E; simpl.
    + apply String.eqb_eq in E. subst k'.
      destruct (String.eqb k k2) eqn:E2; [apply String.eqb_eq in E2; contradiction|].
      reflexivity.
    + destruct (String.eqb k' k2); auto.
Qed.

Lemma get_set_table_same (d : db) (t : string) (rows : list row) (s : stmt) :
  get_table (set_table d t rows s) t = rows.
Proof. unfold get_table, set_table; simpl. rewrite dict_get_set_same. reflexivity. Qed.

Lemma get_set_table_other (d : db) (t t2 : string) (rows : list row) (s : stmt) :
  t <> t2 -> get_table (set_table d t rows s) t2 = get_table d t2.
Proof.
  intros H. unfold get_table, set_table; simpl.
  rewrite dict_get_set_other by exact H. reflexivity.
Qed.

Lemma find_map_stable (A : Type) (p : A -> bool) (f : A -> A) (l : list A) :
  (forall x, In x l -> p (f x) = p x) ->
  find p (map f l) = option_map f (find p l).
Proof.
  induction l as [|x l IH]; intros H; simpl; [reflexivity|].
  rewrite (H x) by (left; reflexivity).
  destruct (p x); [reflexivity|]. apply IH. intros y Hy. apply H. right. exact Hy.
Qed.

Lemma find_app (A : Type) (p : A -> bool) (l1 l2 : list A) :
  find p (l1 ++ l2) = match find p l1 with
                      | Some x => Some x
                      | None => find p l2
                      end.
Proof.
  induction l1 as [|x l1 IH]; simpl; [reflexivity|].
  destruct (p x); [reflexivity | exact IH].
Qed.

Lemma sql_match_eq (a b : sqlval) : sql_match a b = true -> a = b.
Proof.
  destruct a, b; simpl; try discriminate.
  - intros H. apply Z.eqb_eq in H. congruence.
  - intros H. apply String.eqb_eq in H. congruence.
Qed.

Lemma sql_match_text (a : sqlval) (s : string) :
  sql_match a (VText s) = true <-> a = VText s.
Proof.
  split; [apply sql_match_eq|]. intros ->. simpl. apply String.eqb_refl.
Qed.

Lemma sql_match_int (a : sqlval) (z : Z) :
  sql_match a (VInt z) = true <-> a = VInt z.
Proof.
  split; [apply sql_match_eq|]. intros ->. simpl. apply Z.eqb_refl.
Qed.

Lemma sql_match_null (a : sqlval) : sql_match a VNull = false.
Proof. destruct a; reflexivity. Qed.

End StoreFacts.

(** ** Loops *)

Section LoopFacts.

Variables X S : Type.

Lemma for_each_nil (body : S -> X -> M S) (acc : S) (d : db) :
  for_each [] body acc d = (Ok acc, d).
Proof. reflexivity. Qed.

Lemma for_each_cons (x : X) (xs : list X) (body : S -> X -> M S) (acc : S) (d : db) :
  for_each (x :: xs) body acc d =
  match body acc x d with
  | (Ok acc', d') => for_each xs body acc' d'
  | (Raise e, d') => (Raise e, d')
  end.
Proof. reflexivity. Qed.

(** A loop whose rounds all keep a property of the database keeps it,
    however the loop ends. *)
Lemma for_each_invariant (P : db -> Prop) (body : S -> X -> M S) (xs : list X) :
  (forall acc x d, In x xs -> P d -> P (snd (body acc x d))) ->
  forall acc d, P d -> P (snd (for_each xs body acc d)).
Proof.
  induction xs as [|x xs IH]; intros Hbody acc d Hd.
  - exact Hd.
  - rewrite for_each_cons.
    pose proof (Hbody acc x d (or_introl eq_refl) Hd) as H1.
    destruct (body acc x d) as [[acc'|e] d']; simpl in *.
    + apply IH; [|exact H1]. intros a y d0 Hy. apply Hbody. right. exact Hy.
    + exact H1.
Qed.

End LoopFacts.

Arguments Cache.store_schedule_day : simpl never.
Arguments Cache.store_schedule_station : simpl never.
Arguments Cache.store_schedule_item : simpl never.
Arguments Cache.store_schedule_entry : simpl never.
Arguments Cache.store_program : simpl never.

(** ** The schedule stage, one day at a time *)

Section ScheduleIndexFacts.

Variable tm : string -> result Z.

Import Spec.

Lemma schedule_index_fields_eq (s : string) (ord : option Z) (e : Md5.entry) :
  Cache.schedule_index_fields tm s ord e =
  match tm (Md5.lastModified e) with
  | Ok lm => Ok (Qb.of_pairs "scheduleindex" (index_pairs s ord lm e))
  | Raise x => Raise x
  end.
Proof.
  unfold Cache.schedule_index_fields, Cache.add, Qb.add, Qb.new. simpl.
  destruct (tm (Md5.lastModified e)); reflexivity.
Qed.

(** What one round of the inner loop does, case by case. *)
Lemma store_schedule_day_eq (s : string) (ns : dict (list string)) (c : Z)
    (day : string) (e : Md5.entry) (d : db) :
  Cache.store_schedule_day tm s (ns, c) (day, e) d =
  match Util.date_to_int day with
  | Raise x => (Raise x, d)
  | Ok ord =>
      if String.eqb (Md5.md5 e) Cache.sentinel then (Ok (ns, c + 1), d)
      else
        match index_row d s ord with
        | Some r =>
            if py_eq (row_get r "md5") (VText (Md5.md5 e)) then (Ok (ns, c), d)
            else
              match tm (Md5.lastModified e) with
              | Raise x => (Raise x, entries_deleted d r)
              | Ok lm =>
                  (Ok (Cache.note_schedule ns s day, c),
                   index_updated (entries_deleted d r) r (index_pairs s ord lm e))
              end
        | None =>
            match tm (Md5.lastModified e) with
            | Raise x => (Raise x, d)
            | Ok lm =>
                (Ok (Cache.note_schedule ns s day, c),
                 row_inserted d "scheduleindex" (index_pairs s ord lm e))
            end
        end
  end.
Proof.
  unfold Cache.store_schedule_day, bind, lift.
  destruct (Util.date_to_int day) as [ord|x]; [|reflexivity].
  destruct (String.eqb (Md5.md5 e) Cache.sentinel); [reflexivity|].
  unfold Sql.select_first, index_row.
  destruct (find (Cache.station_day s ord) (get_table d "scheduleindex")) as [r|].
  - destruct (py_eq (row_get r "md5") (VText (Md5.md5 e))); simpl; [reflexivity|].
    rewrite schedule_index_fields_eq.
    destruct (tm (Md5.lastModified e)) as [lm|x]; [|reflexivity].
    unfold Qb.execute_update, Sql.update, ret. rewrite pairs_of_pairs. reflexivity.
  - simpl. rewrite schedule_index_fields_eq.
    destruct (tm (Md5.lastModified e)) as [lm|x]; [|reflexivity].
    unfold Qb.execute_insert, Sql.insert, ret. rewrite pairs_of_pairs. reflexivity.
Qed.

End ScheduleIndexFacts.

(** ** Days without schedule *)

Section SentinelFacts.

Variable tm : string -> result Z.

Import Spec.

Lemma sentinel_day_step (s : string) (ns : dict (list string)) (c : Z)
    (day : string) (e : Md5.entry) (d : db) :
  Md5.md5 e = Cache.sentinel ->
  Cache.store_schedule_day tm s (ns, c) (day, e) d =
  match Util.date_to_int day with
  | Ok _ => (Ok (ns, c + 1), d)
  | Raise x => (Raise x, d)
  end.
Proof.
  intros H. rewrite store_schedule_day_eq, H, String.eqb_refl. reflexivity.
Qed.

Lemma other_day_step (s : string) (ns ns' : dict (list string)) (c c' : Z)
    (day : string) (e : Md5.entry) (d d' : db) :
  String.eqb (Md5.md5 e) Cache.sentinel = false ->
  Cache.store_schedule_day tm s (ns, c) (day, e) d = (Ok (ns', c'), d') ->
  c' = c /\
  forall c0, Cache.store_schedule_day tm s (ns, c0) (day, e) d = (Ok (ns', c0), d').
Proof.
  intros Hs. rewrite store_schedule_day_eq, Hs.
  destruct (Util.date_to_int day) as [ord|x] eqn:Hd; [|discriminate].
  destruct (index_row d s ord) as [r|] eqn:Hr.
  - destruct (py_eq (row_get r "md5") (VText (Md5.md5 e))) eqn:Hp.
    + intros H; inversion H; subst. split; [reflexivity|]. intros c0.
      rewrite store_schedule_day_eq, Hd, Hs, Hr, Hp. reflexivity.
    + destruct (tm (Md5.lastModified e)) as [lm|x] eqn:Ht; [|discriminate].
      intros H; inversion H; subst. split; [reflexivity|]. intros c0.
      rewrite store_schedule_day_eq, Hd, Hs, Hr, Hp, Ht. reflexivity.
  - destruct (tm (Md5.lastModified e)) as [lm|x] eqn:Ht; [|discriminate].
    intros H; inversion H; subst. split; [reflexivity|]. intros c0.
    rewrite store_schedule_day_eq, Hd, Hs, Hr, Ht. reflexivity.
Qed.

Lemma days_counter (s : string) (days : dict Md5.entry) :
  forall ns c d ns' c' d',
    for_each days (Cache.store_schedule_day tm s) (ns, c) d = (Ok (ns', c'), d') ->
    c' = c + count_sentinel_days days /\
    forall c0,
      for_each (filter (fun day => negb (String.eqb (Md5.md5 (snd day)) Cache.sentinel))
                       days)
               (Cache.store_schedule_day tm s) (ns, c0) d = (Ok (ns', c0), d').
Proof.
  unfold count_sentinel_days.
  induction days as [|[day e] days IH]; intros ns c d ns' c' d'.
  - simpl. unfold ret. intros H; inversion H; subst. split; [lia | reflexivity].
  - rewrite for_each_cons.
    destruct (Cache.store_schedule_day tm s (ns, c) (day, e) d) as [[[ns1 c1]|x] d1] eqn:Hstep;
      [|discriminate].
    intros Hrest. apply IH in Hrest as [Hc Hfil]. simpl filter. simpl snd.
    destruct (String.eqb (Md5.md5 e) Cache.sentinel) eqn:Hs; simpl negb; cbv iota.
    + apply String.eqb_eq in Hs. rewrite sentinel_day_step in Hstep by exact Hs.
      destruct (Util.date_to_int day); [|discriminate].
      inversion Hstep; subst. split; [simpl length; lia | exact Hfil].
    + apply other_day_step in Hstep as [-> Hany]; [|exact Hs]. split; [lia|].
      intros c0. rewrite for_each_cons, Hany. apply Hfil.
Qed.

Lemma stations_counter (data : Md5.response) :
  forall ns c d ns' c' d',
    for_each data (Cache.store_schedule_station tm) (ns, c) d = (Ok (ns', c'), d') ->
    c' = c + count_sentinel data /\
    forall c0,
      for_each (without_sentinel data) (Cache.store_schedule_station tm) (ns, c0) d
      = (Ok (ns', c0), d').
Proof.
  induction data as [|[s days] data IH]; intros ns c d ns' c' d'.
  - simpl. unfold ret. intros H; inversion H; subst. split; [lia | reflexivity].
  - rewrite for_each_cons. unfold Cache.store_schedule_station at 1. simpl fst. simpl snd.
    destruct (for_each days (Cache.store_schedule_day tm s) (ns, c) d)
      as [[[ns1 c1]|x] d1] eqn:Hdays; [|discriminate].
    intros Hrest. apply IH in Hrest as [Hc Hfil].
    apply days_counter in Hdays as [Hc1 Hfil1]. split; [simpl; lia|].
    intros c0. simpl without_sentinel. rewrite for_each_cons.
    unfold Cache.store_schedule_station at 1. simpl fst. simpl snd.
    rewrite Hfil1. apply Hfil.
Qed.

End SentinelFacts.

(** ** Unchanged fingerprints *)

Section UnchangedFacts.

Variable tm : string -> result Z.

Import Spec.

Lemma unchanged_day_step (s : string) (ns : dict (list string)) (c : Z)
    (day : string * Md5.entry) (d : db) :
  day_unchanged d s day ->
  exists res, Cache.store_schedule_day tm s (ns, c) day d = (res, d) /\
              forall ns' c', res = Ok (ns', c') -> ns' = ns.
Proof.
  destruct day as [day e]. unfold day_unchanged; simpl. intros H.
  rewrite store_schedule_day_eq.
  destruct (Util.date_to_int day) as [ord|x]; [|eexists; split; [reflexivity|discriminate]].
  destruct (String.eqb (Md5.md5 e) Cache.sentinel) eqn:Hs.
  - eexists; split; [reflexivity|]. intros ? ? E; inversion E; reflexivity.
  - assert (Hne : Md5.md5 e <> Cache.sentinel).
    { intros E. rewrite E, String.eqb_refl in Hs. discriminate. }
    destruct (H Hne ord eq_refl) as (r & -> & Hmd5).
    unfold py_eq. rewrite Hmd5, sqlval_eqb_refl.
    eexists; split; [reflexivity|]. intros ? ? E; inversion E; reflexivity.
Qed.

Lemma unchanged_days (s : string) (d : db) (days : dict Md5.entry) :
  (forall day, In day days -> day_unchanged d s day) ->
  forall ns c,
  exists res, for_each days (Cache.store_schedule_day tm s) (ns, c) d = (res, d) /\
              forall ns' c', res = Ok (ns', c') -> ns' = ns.
Proof.
  induction days as [|day days IH]; intros H ns c.
  - eexists; split; [reflexivity|]. intros ? ? E; inversion E; reflexivity.
  - rewrite for_each_cons.
    destruct (@unchanged_day_step s ns c day d (H day (or_introl eq_refl))) as (res & -> & Hns).
    destruct res as [[ns1 c1]|x].
    + rewrite (Hns ns1 c1 eq_refl). apply IH. intros y Hy. apply H. right. exact Hy.
    + eexists; split; [reflexivity|discriminate].
Qed.

Lemma unchanged_stations (d : db) (data : Md5.response) :
  fingerprints_unchanged d data ->
  forall ns c,
  exists res, for_each data (Cache.store_schedule_station tm) (ns, c) d = (res, d) /\
              forall ns' c', res = Ok (ns', c') -> ns' = ns.
Proof.
  induction data as [|[s days] data IH]; intros H ns c.
  - eexists; split; [reflexivity|]. intros ? ? E; inversion E; reflexivity.
  - rewrite for_each_cons. unfold Cache.store_schedule_station at 1. simpl fst; simpl snd.
    assert (Hd : forall day, In day days -> day_unchanged d s day).
    { intros [day e] Hin Hne ord Hord. simpl in *.
      apply (H s days day e ord); auto. left. reflexivity. }
    destruct (@unchanged_days s d days Hd ns c) as (res & -> & Hns).
    destruct res as [[ns1 c1]|x].
    + rewrite (Hns ns1 c1 eq_refl). apply IH.
      intros s' days' day e ord Hin. apply H. right. exact Hin.
    + eexists; split; [reflexivity|discriminate].
Qed.

Lemma store_schedule_index_unchanged (d : db) (data : Md5.response) :
  fingerprints_unchanged d data ->
  exists res, Cache.store_schedule_index tm data d = (res, d) /\
              forall ns c, res = Ok (ns, c) -> ns = [].
Proof. intros H. apply unchanged_stations. exact H. Qed.

Lemma process_chunk_unchanged (r : Main.remote) (now : Z) (chunk : list string) (d : db) :
  (forall dat, Main.get_schedules_md5 r chunk = Some dat -> fingerprints_unchanged d dat) ->
  snd (Main.process_chunk tm r now tt chunk d) = d.
Proof.
  intros H. unfold Main.process_chunk, bind, py_assert, Main.received.
  destruct (Z.of_nat (length chunk) <=? Main.MAX_STATIONS_IDS); [|reflexivity].
  unfold ret at 1.
  destruct (Main.get_schedules_md5 r chunk) as [dat|]; [|reflexivity].
  unfold ret at 1.
  destruct (@store_schedule_index_unchanged d dat (H dat eq_refl)) as (res & -> & Hns).
  destruct res as [[ns c]|x]; [|reflexivity].
  rewrite (Hns ns c eq_refl).
  destruct (negb (c =? 0)); reflexivity.
Qed.

Lemma stage_b_to_d_unchanged (r : Main.remote) (now : Z) (stations : list string) (d : db) :
  (forall chunks chunk dat,
     Util.chunker stations Main.MAX_STATIONS_IDS = Ok chunks -> In chunk chunks ->
     Main.get_schedules_md5 r chunk = Some dat -> fingerprints_unchanged d dat) ->
  snd (Main.stage_b_to_d tm r now stations d) = d.
Proof.
  intros H. unfold Main.stage_b_to_d.
  destruct stations as [|s stations]; [reflexivity|].
  unfold bind, lift.
  destruct (Util.chunker (s :: stations) Main.MAX_STATIONS_IDS) as [chunks|x] eqn:Hc;
    [|reflexivity].
  apply (for_each_invariant _ _ (fun d' => d' = d)); [|reflexivity].
  intros [] chunk d0 Hin ->. apply process_chunk_unchanged. intros dat.
  apply (H chunks chunk dat eq_refl Hin).
Qed.

End UnchangedFacts.

(** ** Builders grow at the end *)

Section BuilderFacts.

Import Spec.

Lemma keeps_refl (qb : Query_builder) : keeps qb qb.
Proof. split; auto. Qed.

Lemma keeps_trans (a b c : Query_builder) : keeps a b -> keeps b c -> keeps a c.
Proof. intros [T1 V1] [T2 V2]. split; [congruence | auto]. Qed.

Lemma index_app_some (l : list string) (f k : string) (ix : nat) :
  Qb.index l k = Some ix -> Qb.index (l ++ [f]) k = Some ix.
Proof.
  revert ix. induction l as [|y l IH]; intros ix; simpl; [discriminate|].
  destruct (String.eqb y k); [auto|].
  destruct (Qb.index l k) as [n|]; [|discriminate].
  intros H. rewrite (IH n eq_refl). exact H.
Qed.

Lemma add_keeps (qb qb' : Query_builder) (f : string) (v : sqlval) :
  Qb.add qb f v false = Ok qb' -> keeps qb qb'.
Proof.
  unfold Qb.add. destruct (Qb.index (fields qb) f); [discriminate|].
  intros H; inversion H; subst; clear H. split; [reflexivity|].
  intros k x. unfold Qb.value_of; simpl.
  destruct (Qb.index (fields qb) k) as [ix|] eqn:E; [|discriminate].
  rewrite (index_app_some _ f _ _ E).
  destruct (nth_error (values qb) ix) as [y|] eqn:N; [|discriminate].
  rewrite nth_error_app1 by (apply nth_error_Some; congruence).
  rewrite N. auto.
Qed.

Lemma add_optional_keeps (qb qb' : Query_builder) (f : string) (v : option sqlval) :
  Cache.add_optional f v qb = Ok qb' -> keeps qb qb'.
Proof.
  destruct v as [v|]; simpl.
  - apply add_keeps.
  - intros H; inversion H. apply keeps_refl.
Qed.

Lemma add_all_keeps (fv : list (string * sqlval)) :
  forall qb qb', Cache.add_all fv qb = Ok qb' -> keeps qb qb'.
Proof.
  induction fv as [|[f v] fv IH]; intros qb qb'; simpl.
  - intros H; inversion H. apply keeps_refl.
  - destruct (Qb.add qb f v false) as [qb1|x] eqn:E; simpl; [|discriminate].
    intros H. eapply keeps_trans; [eapply add_keeps; exact E | apply IH; exact H].
Qed.

Lemma program_fields_keep (now : Z) (art : option (dict Artwork.asset))
    (item : Prog.item) (qb : Query_builder) :
  Cache.program_fields now art item = Ok qb ->
  table qb = "programdata" /\
  Qb.value_of qb "program_id" = Ok (VText (Prog.programID item)) /\
  Qb.value_of qb "md5" = Ok (VText (Prog.md5 item)).
Proof.
  unfold Cache.program_fields, Cache.add. simpl.
  set (qb3 := mkQb ["md5"; "program_id"; "last_access"]
                   [VText (Prog.md5 item); VText (Prog.programID item); VInt now]
                   "programdata").
  destruct (Cache.add_all (Prog.columns item) qb3) as [qb4|x] eqn:E4; simpl; [|discriminate].
  apply add_all_keeps in E4.
  assert (K : forall q, keeps qb4 q ->
              table q = "programdata" /\
              Qb.value_of q "program_id" = Ok (VText (Prog.programID item)) /\
              Qb.value_of q "md5" = Ok (VText (Prog.md5 item))).
  { intros q Hq. destruct (keeps_trans _ _ _ E4 Hq) as [T V]. split; [exact T|].
    split; apply V; reflexivity. }
  destruct art as [art|]; [|intros H; inversion H; subst; apply K, keeps_refl].
  destruct (Artwork.calc_program_artwork_info (Prog.programID item) art)
    as [[[[u cap] w] h]|]; [|intros H; inversion H; subst; apply K, keeps_refl].
  destruct (Qb.add qb4 "artwork_uri" (VText u) false) as [q5|] eqn:E5; simpl; [|discriminate].
  destruct (Qb.add q5 "artwort_caption" _ false) as [q6|] eqn:E6; simpl; [|discriminate].
  destruct (Qb.add q6 "artwork_width" _ false) as [q7|] eqn:E7; simpl; [|discriminate].
  intros E8. apply K.
  apply add_keeps in E5, E6, E7, E8.
  eapply keeps_trans; [exact E5|]. eapply keeps_trans; [exact E6|].
  eapply keeps_trans; [exact E7 | exact E8].
Qed.

(** The third step of the merge contract, for any builder. *)
Lemma insert_or_update_same (qb : Query_builder) (sel c : string)
    (selval compval : sqlval) (r : row) (d : db) :
  Qb.value_of qb sel = Ok selval ->
  Qb.value_of qb c = Ok compval ->
  find (Sql.col_eq sel selval) (get_table d (table qb)) = Some r ->
  row_get r c = compval ->
  Qb.insert_or_update qb sel (Some c) d = (Ok false, d).
Proof.
  intros Hs Hc Hf Hr. unfold Qb.insert_or_update, bind, lift, Sql.select_first.
  rewrite Hs, Hc, Hf. unfold py_eq. rewrite Hr, sqlval_eqb_refl. reflexivity.
Qed.

Lemma store_programs_unchanged (now : Z) (art : option (dict Artwork.asset))
    (data : list Prog.item) (d : db) :
  Spec.programs_unchanged d data ->
  snd (Cache.store_programs now data art d) = d.
Proof.
  intros H. unfold Cache.store_programs.
  apply (for_each_invariant _ _ (fun d' => d' = d)); [|reflexivity].
  intros [] item d0 Hin ->. unfold Cache.store_program, bind, lift.
  destruct (Cache.program_fields now art item) as [qb|x] eqn:E; [|reflexivity].
  apply program_fields_keep in E as (T & Vp & Vm).
  destruct (H item Hin) as (r & Hf & Hr).
  rewrite (insert_or_update_same qb "program_id" "md5" _ _ r d Vp Vm); [reflexivity| |exact Hr].
  rewrite T. exact Hf.
Qed.

End BuilderFacts.

(** ** Rows of [scheduleindex] under INSERT and UPDATE *)

Section IndexRowFacts.

Import Spec.

Lemma row_get_set_same (r : row) (col : string) (v : sqlval) :
  col <> "id" -> row_get (row_set r col v) col = v.
Proof.
  intros H. unfold row_get, row_set, id_column.
  destruct (String.eqb col "id") eqn:E; [apply String.eqb_eq in E; contradiction|].
  simpl. rewrite dict_get_set_same. reflexivity.
Qed.

Lemma row_get_set_other (r : row) (col col2 : string) (v : sqlval) :
  col <> col2 -> col <> "id" -> row_get (row_set r col v) col2 = row_get r col2.
Proof.
  intros H Hid. unfold row_get, row_set, id_column.
  destruct (String.eqb col "id") eqn:E; [apply String.eqb_eq in E; contradiction|].
  simpl. destruct (String.eqb col2 "id"); [reflexivity|].
  rewrite dict_get_set_other by exact H. reflexivity.
Qed.

Lemma index_pairs_read (r : row) (s : string) (ord : option Z) (lm : Z) (e : Md5.entry) :
  let r' := row_set_all r (index_pairs s ord lm e) in
  rowid r' = rowid r /\
  row_get r' "station_id" = VText s /\
  row_get r' "startdate" = Cache.of_option_int ord /\
  row_get r' "md5" = VText (Md5.md5 e).
Proof.
  unfold row_set_all, index_pairs. simpl fold_left.
  repeat split.
  - rewrite row_get_set_other, row_get_set_other, row_get_set_other by discriminate.
    apply row_get_set_same. discriminate.
  - rewrite row_get_set_other, row_get_set_other by discriminate.
    apply row_get_set_same. discriminate.
  - apply row_get_set_same. discriminate.
Qed.

Lemma station_day_spec (s : string) (ord : option Z) (r : row) :
  Cache.station_day s ord r = true <->
  row_get r "station_id" = VText s /\
  exists o, ord = Some o /\ row_get r "startdate" = VInt o.
Proof.
  unfold Cache.station_day. rewrite andb_true_iff, sql_match_text. split.
  - intros [Hs Hd]. split; [exact Hs|]. destruct ord as [o|]; simpl in Hd.
    + exists o. split; [reflexivity|]. apply sql_match_int. exact Hd.
    + rewrite sql_match_null in Hd. discriminate.
  - intros [Hs (o & -> & Hd)]. split; [exact Hs|]. simpl. apply sql_match_int. exact Hd.
Qed.

(** Rewriting the key columns of a row with the key that found it does not
    change which keys find it. *)
Lemma station_day_rewritten (s : string) (ord : option Z) (lm : Z) (e : Md5.entry)
    (r : row) (s2 : string) (o2 : option Z) :
  Cache.station_day s ord r = true ->
  Cache.station_day s2 o2 (row_set_all r (index_pairs s ord lm e))
  = Cache.station_day s2 o2 r.
Proof.
  intros H. apply station_day_spec in H as [Hs (o & -> & Hd)].
  destruct (index_pairs_read r s (Some o) lm e) as (_ & Hs' & Hd' & _).
  unfold Cache.station_day. rewrite Hs', Hd', Hs, Hd. reflexivity.
Qed.

Lemma station_day_key (s s2 : string) (ord o2 : option Z) (r : row) :
  Cache.station_day s ord r = true -> Cache.station_day s2 o2 r = true ->
  s2 = s /\ o2 = ord.
Proof.
  intros H1 H2. apply station_day_spec in H1 as [Hs (o & -> & Hd)].
  apply station_day_spec in H2 as [Hs2 (o' & -> & Hd2)].
  split; congruence.
Qed.

Lemma rowid_injective (rows : list row) (x y : row) :
  NoDup (map rowid rows) -> In x rows -> In y rows -> rowid x = rowid y -> x = y.
Proof.
  induction rows as [|z rows IH]; simpl; [tauto|].
  intros Hnd [Hx|Hx] [Hy|Hy] Heq; inversion Hnd as [|? ? Hnot Hrest]; subst.
  - reflexivity.
  - exfalso. apply Hnot. rewrite Heq. apply in_map. exact Hy.
  - exfalso. apply Hnot. rewrite <- Heq. apply in_map. exact Hx.
  - apply IH; assumption.
Qed.

Lemma next_rowid_fresh (rows : list row) : ~ In (next_rowid rows) (map rowid rows).
Proof.
  unfold next_rowid.
  assert (H : forall x, In x (map rowid rows) ->
                        x <= fold_right (fun r m => Z.max (rowid r) m) 0 rows).
  { induction rows as [|r rows IH]; simpl; [tauto|].
    intros x [<-|Hx]; [lia|]. specialize (IH x Hx). lia. }
  intros Hin. apply H in Hin. lia.
Qed.

Lemma col_eq_id (r x : row) :
  Sql.col_eq "id" (row_get r "id") x = (rowid x =? rowid r).
Proof. reflexivity. Qed.

End IndexRowFacts.

Section IndexTableFacts.

Import Spec.

Lemma index_row_entries_deleted (d : db) (r : row) (s : string) (o : option Z) :
  index_row (entries_deleted d r) s o = index_row d s o.
Proof.
  unfold index_row, entries_deleted. rewrite get_set_table_other by discriminate.
  reflexivity.
Qed.

Lemma index_table_entries_deleted (d : db) (r : row) :
  get_table (entries_deleted d r) "scheduleindex" = get_table d "scheduleindex".
Proof. unfold entries_deleted. apply get_set_table_other. discriminate. Qed.

Lemma index_row_in (d : db) (s : string) (o : option Z) (r : row) :
  index_row d s o = Some r ->
  In r (get_table d "scheduleindex") /\ Cache.station_day s o r = true.
Proof. unfold index_row. apply find_some. Qed.

(** After the UPDATE of the row that the key [(s, ord)] found, every key
    finds the row it found before; the row of [(s, ord)] has been
    rewritten, the others are as they were. *)
Lemma index_row_updated (d : db) (s : string) (ord : option Z) (lm : Z)
    (e : Md5.entry) (r : row) (s2 : string) (o2 : option Z) :
  rowids_unique d "scheduleindex" ->
  index_row d s ord = Some r ->
  index_row (index_updated (entries_deleted d r) r (index_pairs s ord lm e)) s2 o2 =
  match index_row d s2 o2 with
  | Some x => if rowid x =? rowid r
              then Some (row_set_all r (index_pairs s ord lm e))
              else Some x
  | None => None
  end.
Proof.
  intros Hu Hr. destruct (index_row_in _ _ _ _ Hr) as [Hin Hkey].
  unfold index_row at 1. unfold index_updated.
  rewrite get_set_table_same, index_table_entries_deleted.
  rewrite find_map_stable.
  - fold (index_row d s2 o2). destruct (index_row d s2 o2) as [x|] eqn:Hx; [|reflexivity].
    simpl. rewrite col_eq_id. destruct (rowid x =? rowid r) eqn:E; [|reflexivity].
    apply Z.eqb_eq in E. destruct (index_row_in _ _ _ _ Hx) as [Hxin _].
    rewrite (rowid_injective _ _ _ Hu Hxin Hin E). reflexivity.
  - intros x Hxin. rewrite col_eq_id. destruct (rowid x =? rowid r) eqn:E; [|reflexivity].
    apply Z.eqb_eq in E. rewrite (rowid_injective _ _ _ Hu Hxin Hin E).
    apply station_day_rewritten. exact Hkey.
Qed.

Lemma index_row_inserted (d : db) (fv : list (string * sqlval)) (s2 : string)
    (o2 : option Z) :
  index_row (row_inserted d "scheduleindex" fv) s2 o2 =
  match index_row d s2 o2 with
  | Some x => Some x
  | None =>
      let new := row_set_all (mkRow (next_rowid (get_table d "scheduleindex")) []) fv in
      if Cache.station_day s2 o2 new then Some new else None
  end.
Proof.
  unfold index_row, row_inserted. rewrite get_set_table_same, find_app. simpl.
  destruct (find _ (get_table d "scheduleindex")); [reflexivity|].
  destruct (Cache.station_day s2 o2 _); reflexivity.
Qed.

Lemma rowids_unique_entries_deleted (d : db) (r : row) :
  rowids_unique d "scheduleindex" -> rowids_unique (entries_deleted d r) "scheduleindex".
Proof. unfold rowids_unique. rewrite index_table_entries_deleted. auto. Qed.

Lemma rowids_unique_updated (d : db) (r : row) (s : string) (ord : option Z) (lm : Z)
    (e : Md5.entry) :
  rowids_unique d "scheduleindex" ->
  rowids_unique (index_updated d r (index_pairs s ord lm e)) "scheduleindex".
Proof.
  unfold rowids_unique, index_updated. rewrite get_set_table_same, map_map.
  intros H. erewrite map_ext; [exact H|].
  intros x. simpl. destruct (Sql.col_eq "id" (row_get r "id") x); [|reflexivity].
  apply (index_pairs_read x s ord lm e).
Qed.

Lemma rowids_unique_inserted (d : db) (s : string) (ord : option Z) (lm : Z)
    (e : Md5.entry) :
  rowids_unique d "scheduleindex" ->
  rowids_unique (row_inserted d "scheduleindex" (index_pairs s ord lm e)) "scheduleindex".
Proof.
  unfold rowids_unique, row_inserted. rewrite get_set_table_same, map_app. simpl.
  intros H.
  apply NoDup_app; [exact H | repeat constructor; simpl; tauto |].
  intros x Hx [Hn|[]]. subst x. exact (next_rowid_fresh _ Hx).
Qed.

End IndexTableFacts.

(** ** What one day does to the index *)

Section DayStepFacts.

Variable tm : string -> result Z.

Import Spec.

Lemma key_fares_same (d d' : db) (s day : string) (e : Md5.entry) :
  (forall s2 o2, index_row d' s2 o2 = index_row d s2 o2) ->
  forall s2 o2, key_fares d d' s day e s2 o2.
Proof.
  intros H s2 o2. unfold key_fares. rewrite H.
  destruct (index_row d s2 o2) as [x|]; [|left; reflexivity].
  exists x. auto.
Qed.

Lemma day_step_index (s : string) (ns : dict (list string)) (c : Z) (day : string)
    (e : Md5.entry) (d : db) (res : result (dict (list string) * Z)) (d' : db) :
  Cache.store_schedule_day tm s (ns, c) (day, e) d = (res, d') ->
  rowids_unique d "scheduleindex" ->
  rowids_unique d' "scheduleindex" /\
  (forall s2 o2, key_fares d d' s day e s2 o2) /\
  (forall ns' c' o,
     res = Ok (ns', c') -> Md5.md5 e <> Cache.sentinel ->
     Util.date_to_int day = Ok (Some o) ->
     stored_md5 d' s (Some o) = Some (VText (Md5.md5 e))).
Proof.
  rewrite store_schedule_day_eq. intros Hstep Hu.
  destruct (Util.date_to_int day) as [ord|x] eqn:Hd.
  2:{ inversion Hstep; subst. split; [exact Hu|]. split.
      - apply key_fares_same. reflexivity.
      - discriminate. }
  destruct (String.eqb (Md5.md5 e) Cache.sentinel) eqn:Hs.
  { inversion Hstep; subst. split; [exact Hu|]. split.
    - apply key_fares_same. reflexivity.
    - intros ? ? ? _ Hne _. apply String.eqb_eq in Hs. contradiction. }
  destruct (index_row d s ord) as [r|] eqn:Hr.
  - destruct (py_eq (row_get r "md5") (VText (Md5.md5 e))) eqn:Hp.
    { inversion Hstep; subst. split; [exact Hu|]. split.
      - apply key_fares_same. reflexivity.
      - intros ns' c' o _ _ Ho. inversion Ho; subst.
        unfold stored_md5. rewrite Hr. simpl. f_equal.
        apply sqlval_eqb_eq. exact Hp. }
    destruct (tm (Md5.lastModified e)) as [lm|x] eqn:Ht.
    + inversion Hstep; subst; clear Hstep.
      assert (Hrows : forall s2 o2,
        index_row (index_updated (entries_deleted d r) r (index_pairs s ord lm e)) s2 o2 =
        match index_row d s2 o2 with
        | Some x => if rowid x =? rowid r
                    then Some (row_set_all r (index_pairs s ord lm e))
                    else Some x
        | None => None
        end).
      { intros. apply index_row_updated; assumption. }
      destruct (index_pairs_read r s ord lm e) as (Hid & _ & _ & Hm).
      split; [|split].
      * apply rowids_unique_updated, rowids_unique_entries_deleted, Hu.
      * intros s2 o2. unfold key_fares. rewrite Hrows.
        destruct (index_row d s2 o2) as [x|] eqn:Hx; [|left; reflexivity].
        destruct (rowid x =? rowid r) eqn:E.
        -- apply Z.eqb_eq in E.
           destruct (index_row_in _ _ _ _ Hx) as [Hxin Hxk].
           destruct (index_row_in _ _ _ _ Hr) as [Hrin Hrk].
           assert (x = r) by (apply (rowid_injective _ _ _ Hu Hxin Hrin E)). subst x.
           destruct (station_day_key _ _ _ _ _ Hrk Hxk) as [-> ->].
           eexists. split; [reflexivity|]. split; [exact Hid|]. right. auto.
        -- exists x. auto.
      * intros ns' c' o _ _ Ho. inversion Ho; subst.
        unfold stored_md5. rewrite Hrows, Hr, Z.eqb_refl. simpl. f_equal. exact Hm.
    + inversion Hstep; subst; clear Hstep. split; [|split].
      * apply rowids_unique_entries_deleted, Hu.
      * apply key_fares_same. intros. apply index_row_entries_deleted.
      * discriminate.
  - destruct (tm (Md5.lastModified e)) as [lm|x] eqn:Ht.
    + inversion Hstep; subst; clear Hstep.
      set (new := row_set_all (mkRow (next_rowid (get_table d "scheduleindex")) [])
                              (index_pairs s ord lm e)).
      destruct (index_pairs_read (mkRow (next_rowid (get_table d "scheduleindex")) [])
                  s ord lm e) as (_ & Hns & Hnd & Hnm). fold new in Hns, Hnd, Hnm.
      split; [|split].
      * apply rowids_unique_inserted, Hu.
      * intros s2 o2. unfold key_fares. rewrite index_row_inserted. fold new.
        destruct (index_row d s2 o2) as [x|] eqn:Hx; [exists x; auto|].
        cbv zeta. destruct (Cache.station_day s2 o2 new) eqn:Hk; [|left; reflexivity].
        right. apply station_day_spec in Hk as [Hs2 (o & -> & Ho)].
        rewrite Hns in Hs2. rewrite Hnd in Ho. inversion Hs2; subst s2.
        destruct ord as [o'|]; simpl in Ho; [|discriminate]. inversion Ho; subst o'.
        split; [reflexivity|]. split; [exact Hd|]. exists new. auto.
      * intros ns' c' o _ _ Ho. inversion Ho; subst.
        unfold stored_md5. rewrite index_row_inserted, Hr. fold new. cbv zeta.
        assert (Hk : Cache.station_day s (Some o) new = true).
        { apply station_day_spec. split; [exact Hns|]. exists o. auto. }
        rewrite Hk. cbn [option_map]. rewrite Hnm. reflexivity.
    + inversion Hstep; subst. split; [exact Hu|]. split.
      * apply key_fares_same. reflexivity.
      * discriminate.
Qed.

End DayStepFacts.

(** ** The index after a whole response *)

Section FlatLoops.

Variables X Y S : Type.

Lemma for_each_app (l1 l2 : list X) (body : S -> X -> M S) (acc : S) (d : db) :
  for_each (l1 ++ l2) body acc d =
  match for_each l1 body acc d with
  | (Ok a, d') => for_each l2 body a d'
  | (Raise e, d') => (Raise e, d')
  end.
Proof.
  revert acc d. induction l1 as [|x l1 IH]; intros acc d; [reflexivity|].
  simpl app. rewrite !for_each_cons.
  destruct (body acc x d) as [[a|e] d1]; [apply IH | reflexivity].
Qed.

Lemma for_each_map (f : Y -> X) (l : list Y) (body : S -> X -> M S) (acc : S) (d : db) :
  for_each (map f l) body acc d = for_each l (fun a y => body a (f y)) acc d.
Proof.
  revert acc d. induction l as [|y l IH]; intros acc d; [reflexivity|].
  simpl map. rewrite !for_each_cons.
  destruct (body acc (f y) d) as [[a|e] d1]; [apply IH | reflexivity].
Qed.

End FlatLoops.

Section ResponseFacts.

Variable tm : string -> result Z.

Import Spec.

Lemma store_schedule_index_flat (data : Md5.response) (acc : dict (list string) * Z)
    (d : db) :
  for_each data (Cache.store_schedule_station tm) acc d =
  for_each (days_of data) (day_round tm) acc d.
Proof.
  revert acc d. induction data as [|[s days] data IH]; intros acc d; [reflexivity|].
  unfold days_of. simpl flat_map. fold (days_of data).
  rewrite for_each_cons, for_each_app, for_each_map.
  unfold Cache.store_schedule_station at 1. simpl fst. simpl snd.
  unfold day_round at 1. simpl fst. simpl snd.
  destruct (for_each days _ acc d) as [[a|e] d1]; [apply IH | reflexivity].
Qed.

Lemma in_days_of (data : Md5.response) (s day : string) (e : Md5.entry) :
  In (s, (day, e)) (days_of data) <->
  exists days, In (s, days) data /\ In (day, e) days.
Proof.
  unfold days_of. rewrite in_flat_map. split.
  - intros ([s' days] & Hin & Hx). simpl in Hx. apply in_map_iff in Hx as (y & Hy & Hin2).
    inversion Hy; subst. eauto.
  - intros (days & Hin & Hin2). exists (s, days). split; [exact Hin|].
    simpl. apply in_map. exact Hin2.
Qed.

Lemma key_fares_frame (d d' : db) (s day : string) (e : Md5.entry)
    (s2 : string) (o2 : option Z) :
  key_fares d d' s day e s2 o2 ->
  (s2, Ok o2) <> (s, Util.date_to_int day) ->
  stored_md5 d' s2 o2 = stored_md5 d s2 o2.
Proof.
  unfold key_fares, stored_md5. intros H Hne.
  destruct (index_row d s2 o2) as [x|].
  - destruct H as (x' & -> & _ & [->|(-> & Hd & _)]); [reflexivity|].
    exfalso. apply Hne. rewrite Hd. reflexivity.
  - destruct H as [->|(-> & Hd & _)]; [reflexivity|].
    exfalso. apply Hne. rewrite Hd. reflexivity.
Qed.

Lemma key_fares_id (d d' : db) (s day : string) (e : Md5.entry)
    (s2 : string) (o2 : option Z) (x : row) :
  key_fares d d' s day e s2 o2 ->
  index_row d s2 o2 = Some x ->
  exists x', index_row d' s2 o2 = Some x' /\ rowid x' = rowid x.
Proof.
  unfold key_fares. intros H Hx. rewrite Hx in H.
  destruct H as (x' & H1 & H2 & _). eauto.
Qed.

(** The loops over a response: rowids stay unique, keys keep their rows,
    keys that are not fetched keep their fingerprint, and (when the keys of
    the response are pairwise different and the call returns) every fetched
    day that is not the sentinel ends with its fetched fingerprint. *)
Lemma days_settle (l : list (string * (string * Md5.entry))) :
  forall acc d res d',
    for_each l (day_round tm) acc d = (res, d') ->
    rowids_unique d "scheduleindex" ->
    rowids_unique d' "scheduleindex" /\
    (forall s2 o2 x, index_row d s2 o2 = Some x ->
                     exists x', index_row d' s2 o2 = Some x' /\ rowid x' = rowid x) /\
    (forall s2 o2, ~ In (s2, Ok o2) (map day_key l) ->
                   stored_md5 d' s2 o2 = stored_md5 d s2 o2) /\
    (forall acc', res = Ok acc' -> NoDup (map day_key l) ->
       forall s day e o,
         In (s, (day, e)) l -> Md5.md5 e <> Cache.sentinel ->
         Util.date_to_int day = Ok (Some o) ->
         stored_md5 d' s (Some o) = Some (VText (Md5.md5 e))).
Proof.
  induction l as [|[s [day e]] l IH]; intros [ns c] d res d' Hrun Hu.
  - inversion Hrun; subst. split; [exact Hu|]. split; [eauto|]. split; [reflexivity|].
    intros ? _ _ ? ? ? ? [].
  - rewrite for_each_cons in Hrun. unfold day_round at 1 in Hrun. simpl fst in Hrun.
    simpl snd in Hrun.
    destruct (Cache.store_schedule_day tm s (ns, c) (day, e) d) as [r1 d1] eqn:Hstep.
    destruct (day_step_index tm _ _ _ _ _ _ _ _ Hstep Hu) as (Hu1 & Hk1 & Hm1).
    destruct r1 as [[ns1 c1]|x1].
    + destruct (IH _ _ _ _ Hrun Hu1) as (Hu' & Hid' & Hfr' & Hset').
      split; [exact Hu'|]. split; [|split].
      * intros s2 o2 x Hx.
        destruct (key_fares_id _ _ _ _ _ _ _ _ (Hk1 s2 o2) Hx) as (x1 & Hx1 & E1).
        destruct (Hid' _ _ _ Hx1) as (x' & Hx' & E'). exists x'. split; [exact Hx'|].
        congruence.
      * intros s2 o2 Hnot. simpl in Hnot.
        rewrite Hfr' by tauto.
        apply (key_fares_frame _ _ _ _ _ _ _ (Hk1 s2 o2)).
        intros E. apply Hnot. left. unfold day_key. simpl. symmetry. exact E.
      * intros acc' Hres Hnd s0 day0 e0 o Hin Hne Ho.
        simpl in Hnd. inversion Hnd as [|? ? Hnotin Hnd']; subst.
        destruct Hin as [Hin|Hin].
        -- inversion Hin; subst.
           rewrite Hfr'.
           ++ apply (Hm1 ns1 c1 o eq_refl Hne Ho).
           ++ unfold day_key in Hnotin. simpl in Hnotin. rewrite Ho in Hnotin.
              exact Hnotin.
        -- apply (Hset' acc' eq_refl Hnd' s0 day0 e0 o Hin Hne Ho).
    + inversion Hrun; subst. split; [exact Hu1|]. split; [|split].
      * intros s2 o2 x Hx. apply (key_fares_id _ _ _ _ _ _ _ _ (Hk1 s2 o2) Hx).
      * intros s2 o2 Hnot. simpl in Hnot.
        apply (key_fares_frame _ _ _ _ _ _ _ (Hk1 s2 o2)).
        intros E. apply Hnot. left. unfold day_key. simpl. symmetry. exact E.
      * discriminate.
Qed.

End ResponseFacts.

(** ** The entries of a fetched schedule *)

Section ScheduleEntryFacts.

Variable tm : string -> result Z.

Import Spec.

Lemma schedule_fields_eq (s : string) (i : sqlval) (p : Sched.program) :
  Cache.schedule_fields tm s i p =
  match tm (Sched.airDateTime p) with
  | Ok t => Ok (Qb.of_pairs "schedule" (entry_pairs s i t p))
  | Raise x => Raise x
  end.
Proof.
  unfold Cache.schedule_fields, Cache.add, Cache.add_optional, Qb.add, Qb.new,
    entry_pairs. simpl.
  destruct (tm (Sched.airDateTime p)); [|reflexivity]. simpl.
  destruct (Sched.audioProperties p), (Sched.videoProperties p); reflexivity.
Qed.

Lemma entry_pairs_cells (n : Z) (s : string) (i : sqlval) (t : Z) (p : Sched.program) :
  let r := row_set_all (mkRow n []) (entry_pairs s i t p) in
  cells r = entry_pairs s i t p /\ rowid r = n /\ row_get r "scheduleindex" = i.
Proof.
  unfold entry_pairs.
  destruct (Sched.audioProperties p), (Sched.videoProperties p); repeat split.
Qed.

(** What one round of the inner loop of [store_schedules] does. *)
Lemma store_schedule_entry_eq (s : string) (i : sqlval) (ups : list string)
    (p : Sched.program) (d : db) :
  exists ups',
  Cache.store_schedule_entry tm s i ups p d =
  match tm (Sched.airDateTime p) with
  | Ok t => (Ok ups', row_inserted d "schedule" (entry_pairs s i t p))
  | Raise x => (Raise x, d)
  end.
Proof.
  unfold Cache.store_schedule_entry, bind, lift. rewrite schedule_fields_eq.
  destruct (tm (Sched.airDateTime p)) as [t|x]; [|exists ups; reflexivity].
  unfold Qb.execute_insert, Sql.insert. rewrite pairs_of_pairs. simpl table.
  fold (row_inserted d "schedule" (entry_pairs s i t p)).
  unfold Cache.fetchone, bind, Sql.select_first.
  destruct (find _ _) as [r|].
  - destruct (row_get r "md5") eqn:E; unfold ret;
      match goal with
      | |- context [if ?b then _ else _] => destruct b
      end; eexists; reflexivity.
  - unfold ret. match goal with
      | |- context [if ?b then _ else _] => destruct b
      end; eexists; reflexivity.
Qed.

End ScheduleEntryFacts.

Section StoreSchedulesFacts.

Variable tm : string -> result Z.

Import Spec.

Lemma get_schedule_index_eq (sid sd : string) (d : db) :
  Cache.get_schedule_index sid sd d =
  match Util.date_to_int sd with
  | Ok ord => (Ok (option_map (fun r => VInt (rowid r)) (index_row d sid ord)), d)
  | Raise x => (Raise x, d)
  end.
Proof.
  unfold Cache.get_schedule_index, bind, lift.
  destruct (Util.date_to_int sd) as [ord|x]; [|reflexivity].
  unfold Cache.fetchone, bind, Sql.select_first, index_row.
  destruct (find _ _); reflexivity.
Qed.

Lemma table_row_inserted_other (d : db) (t t2 : string) (fv : list (string * sqlval)) :
  t <> t2 -> get_table (row_inserted d t fv) t2 = get_table d t2.
Proof. intros H. unfold row_inserted. apply get_set_table_other. exact H. Qed.

Lemma entries_loop (s : string) (i : Z) (progs : list Sched.program) :
  forall ups d res d',
    for_each progs (Cache.store_schedule_entry tm s (VInt i)) ups d = (res, d') ->
    get_table d' "scheduleindex" = get_table d "scheduleindex" /\
    exists new,
      get_table d' "schedule" = get_table d "schedule" ++ new /\
      (forall ups', res = Ok ups' ->
         Forall2 (fun r p => exists t, tm (Sched.airDateTime p) = Ok t /\
                                       cells r = entry_pairs s (VInt i) t p)
                 new progs).
Proof.
  induction progs as [|p progs IH]; intros ups d res d' Hrun.
  - inversion Hrun; subst. split; [reflexivity|]. exists []. rewrite app_nil_r.
    split; [reflexivity|]. intros. constructor.
  - rewrite for_each_cons in Hrun.
    destruct (store_schedule_entry_eq tm s (VInt i) ups p d) as (ups1 & Heq).
    rewrite Heq in Hrun. clear Heq.
    destruct (tm (Sched.airDateTime p)) as [t|x] eqn:Ht.
    + destruct (IH _ _ _ _ Hrun) as (Hsi & new & Hsch & Hall).
      split.
      * rewrite Hsi. apply table_row_inserted_other. discriminate.
      * eexists. split.
        -- rewrite Hsch. unfold row_inserted at 1. rewrite get_set_table_same.
           rewrite <- app_assoc. reflexivity.
        -- intros ups' Hres. simpl. constructor; [|apply (Hall ups' Hres)].
           exists t. split; [exact Ht|].
           apply (entry_pairs_cells _ s (VInt i) t p).
    + inversion Hrun; subst. split; [reflexivity|]. exists []. rewrite app_nil_r.
      split; [reflexivity | discriminate].
Qed.

Lemma resolved_id_table (d1 d2 : db) (item : Sched.item) :
  get_table d1 "scheduleindex" = get_table d2 "scheduleindex" ->
  resolved_id d1 item = resolved_id d2 item.
Proof. unfold resolved_id, index_row. intros ->. reflexivity. Qed.

Lemma Forall2_app_both (A B : Type) (R : A -> B -> Prop) (l1 l2 : list A)
    (m1 m2 : list B) :
  Forall2 R l1 m1 -> Forall2 R l2 m2 -> Forall2 R (l1 ++ l2) (m1 ++ m2).
Proof. induction 1; simpl; auto. Qed.

Lemma items_loop (dat : list Sched.item) :
  forall ups d res d',
    for_each dat (Cache.store_schedule_item tm) ups d = (res, d') ->
    get_table d' "scheduleindex" = get_table d "scheduleindex" /\
    exists new,
      get_table d' "schedule" = get_table d "schedule" ++ new /\
      (forall ups', res = Ok ups' -> Forall2 (entry_row tm d) new (fetched_entries dat)).
Proof.
  induction dat as [|item dat IH]; intros ups d res d' Hrun.
  - inversion Hrun; subst. split; [reflexivity|]. exists []. rewrite app_nil_r.
    split; [reflexivity|]. intros. constructor.
  - rewrite for_each_cons in Hrun. unfold Cache.store_schedule_item at 1 in Hrun.
    unfold bind at 1 in Hrun. rewrite get_schedule_index_eq in Hrun.
    assert (Hstop : forall x (d0 : db),
              (@Raise (list string) x, d0) = (res, d') -> d0 = d ->
              get_table d' "scheduleindex" = get_table d "scheduleindex" /\
              exists new,
                get_table d' "schedule" = get_table d "schedule" ++ new /\
                (forall ups', res = Ok ups' ->
                   Forall2 (entry_row tm d) new (fetched_entries (item :: dat)))).
    { intros x d0 E ->. inversion E; subst. split; [reflexivity|]. exists [].
      rewrite app_nil_r. split; [reflexivity | discriminate]. }
    destruct (Util.date_to_int (Sched.startDate item)) as [ord|x] eqn:Hd;
      [|eapply Hstop; [exact Hrun | reflexivity]].
    destruct (index_row d (Sched.stationID item) ord) as [r|] eqn:Hr; simpl in Hrun;
      [|eapply Hstop; [exact Hrun | reflexivity]].
    destruct (for_each (Sched.programs item)
                (Cache.store_schedule_entry tm (Sched.stationID item) (VInt (rowid r)))
                ups d) as [[ups1|x] d1] eqn:Hent.
    + destruct (entries_loop _ _ _ _ _ _ _ Hent) as (Hsi1 & new1 & Hsch1 & Hall1).
      destruct (IH _ _ _ _ Hrun) as (Hsi & new & Hsch & Hall).
      split; [congruence|]. exists (new1 ++ new). split.
      * rewrite Hsch, Hsch1, app_assoc. reflexivity.
      * intros ups' Hres. unfold fetched_entries. simpl flat_map.
        apply Forall2_app_both.
        -- specialize (Hall1 ups1 eq_refl). clear - Hall1 Hd Hr.
           induction Hall1 as [|a p l l' (t & Ht & Hc) _ IH2]; simpl; constructor; auto.
           exists (rowid r), t. simpl. split; [|split; assumption].
           unfold resolved_id. rewrite Hd, Hr. reflexivity.
        -- specialize (Hall ups' Hres). fold (fetched_entries dat).
           eapply Forall2_impl; [|exact Hall].
           intros a b (i & t & Hi & Ht & Hc). exists i, t. split; [|auto].
           rewrite <- Hi. apply resolved_id_table. symmetry. exact Hsi1.
    + inversion Hrun; subst.
      destruct (entries_loop _ _ _ _ _ _ _ Hent) as (Hsi1 & new1 & Hsch1 & _).
      split; [exact Hsi1|]. exists new1. split; [exact Hsch1 | discriminate].
Qed.

End StoreSchedulesFacts.

(** ** Entries of a changed day *)

Section CascadeFacts.

Variable tm : string -> result Z.

Import Spec.

Lemma filter_filter_nil (A : Type) (p q : A -> bool) (l : list A) :
  filter p l = [] -> filter p (filter q l) = [].
Proof.
  induction l as [|x l IH]; simpl; [reflexivity|].
  destruct (p x) eqn:Hp; [discriminate|]. intros H.
  destruct (q x); simpl; [rewrite Hp|]; auto.
Qed.

Lemma filter_negb_self (A : Type) (p : A -> bool) (l : list A) :
  filter p (filter (fun x => negb (p x)) l) = [].
Proof.
  induction l as [|x l IH]; simpl; [reflexivity|].
  destruct (p x) eqn:Hp; simpl; [|rewrite Hp]; exact IH.
Qed.

Lemma owned_entries_deleted_self (d : db) (r : row) :
  owned (entries_deleted d r) (rowid r) = [].
Proof.
  unfold owned, entries_deleted. rewrite get_set_table_same.
  apply (filter_negb_self _ (Sql.col_eq "scheduleindex" (VInt (rowid r)))).
Qed.

Lemma owned_entries_deleted_nil (d : db) (r : row) (i : Z) :
  owned d i = [] -> owned (entries_deleted d r) i = [].
Proof.
  unfold owned, entries_deleted. rewrite get_set_table_same. apply filter_filter_nil.
Qed.

Lemma owned_index_updated (d : db) (r : row) (fv : list (string * sqlval)) (i : Z) :
  owned (index_updated d r fv) i = owned d i.
Proof.
  unfold owned, index_updated. rewrite get_set_table_other by discriminate. reflexivity.
Qed.

Lemma owned_index_inserted (d : db) (fv : list (string * sqlval)) (i : Z) :
  owned (row_inserted d "scheduleindex" fv) i = owned d i.
Proof.
  unfold owned. rewrite table_row_inserted_other by discriminate. reflexivity.
Qed.

(** One round and the entries: entries are only ever deleted; a row that a
    key found is still found, untouched, or has lost its entries; and the
    round of a changed day deletes the entries of its row, then updates the
    row. *)
Lemma day_step_owned (s : string) (ns : dict (list string)) (c : Z) (day : string)
    (e : Md5.entry) (d : db) (res : result (dict (list string) * Z)) (d' : db) :
  Cache.store_schedule_day tm s (ns, c) (day, e) d = (res, d') ->
  rowids_unique d "scheduleindex" ->
  (forall i, owned d i = [] -> owned d' i = []) /\
  (forall s2 o2 r, index_row d s2 o2 = Some r ->
                   owned d' (rowid r) = [] \/ index_row d' s2 o2 = Some r) /\
  (forall r ns' c' ord,
     res = Ok (ns', c') -> Md5.md5 e <> Cache.sentinel ->
     Util.date_to_int day = Ok ord -> index_row d s ord = Some r ->
     row_get r "md5" <> VText (Md5.md5 e) ->
     owned d' (rowid r) = [] /\
     journal d' = journal d ++ [SDelete "schedule"; SUpdate "scheduleindex"] /\
     exists lm, d' = index_updated (entries_deleted d r) r (index_pairs s ord lm e)).
Proof.
  rewrite store_schedule_day_eq. intros Hstep Hu.
  assert (Hsame : (res, d') = (res, d) ->
    (forall i, owned d i = [] -> owned d' i = []) /\
    (forall s2 o2 r, index_row d s2 o2 = Some r ->
                     owned d' (rowid r) = [] \/ index_row d' s2 o2 = Some r)).
  { intros E; inversion E; subst. split; auto. }
  destruct (Util.date_to_int day) as [ord|x] eqn:Hd.
  2:{ inversion Hstep; subst. destruct (Hsame eq_refl) as [H1 H2].
      split; [exact H1|]. split; [exact H2|]. discriminate. }
  destruct (String.eqb (Md5.md5 e) Cache.sentinel) eqn:Hs.
  { inversion Hstep; subst. destruct (Hsame eq_refl) as [H1 H2].
    split; [exact H1|]. split; [exact H2|].
    intros ? ? ? ? _ Hne. apply String.eqb_eq in Hs. contradiction. }
  destruct (index_row d s ord) as [r|] eqn:Hr.
  - destruct (py_eq (row_get r "md5") (VText (Md5.md5 e))) eqn:Hp.
    { inversion Hstep; subst. destruct (Hsame eq_refl) as [H1 H2].
      split; [exact H1|]. split; [exact H2|].
      intros r0 ? ? ord0 _ _ Ho Hr0 Hne. inversion Ho; subst ord0.
      rewrite Hr in Hr0. inversion Hr0; subst r0.
      exfalso. apply Hne. apply sqlval_eqb_eq. exact Hp. }
    destruct (tm (Md5.lastModified e)) as [lm|x] eqn:Ht.
    + inversion Hstep; subst; clear Hstep. split; [|split].
      * intros i Hi. rewrite owned_index_updated. apply owned_entries_deleted_nil, Hi.
      * intros s2 o2 r2 Hr2. rewrite owned_index_updated.
        rewrite (index_row_updated d s ord lm e r s2 o2 Hu Hr), Hr2.
        destruct (rowid r2 =? rowid r) eqn:E; [|right; reflexivity].
        left. apply Z.eqb_eq in E. rewrite E. apply owned_entries_deleted_self.
      * intros r0 ns' c' ord0 _ _ Ho Hr0 _. inversion Ho; subst ord0.
        rewrite Hr in Hr0. inversion Hr0; subst r0.
        split; [rewrite owned_index_updated; apply owned_entries_deleted_self|].
        split; [|exists lm; reflexivity].
        simpl. rewrite <- app_assoc. reflexivity.
    + inversion Hstep; subst; clear Hstep. split; [|split].
      * intros i Hi. apply owned_entries_deleted_nil, Hi.
      * intros s2 o2 r2 Hr2. right. rewrite index_row_entries_deleted. exact Hr2.
      * discriminate.
  - destruct (tm (Md5.lastModified e)) as [lm|x] eqn:Ht.
    + inversion Hstep; subst; clear Hstep. split; [|split].
      * intros i Hi. rewrite owned_index_inserted. exact Hi.
      * intros s2 o2 r2 Hr2. right. rewrite index_row_inserted, Hr2. reflexivity.
      * intros r0 ? ? ord0 _ _ Ho Hr0. inversion Ho; subst ord0.
        rewrite Hr in Hr0. discriminate.
    + inversion Hstep; subst. destruct (Hsame eq_refl) as [H1 H2].
      split; [exact H1|]. split; [exact H2|]. discriminate.
Qed.

Lemma days_owned (l : list (string * (string * Md5.entry))) :
  forall acc d res d',
    for_each l (day_round tm) acc d = (res, d') ->
    rowids_unique d "scheduleindex" ->
    (forall i, owned d i = [] -> owned d' i = []) /\
    (forall s2 o2 r, index_row d s2 o2 = Some r ->
                     owned d' (rowid r) = [] \/ index_row d' s2 o2 = Some r).
Proof.
  induction l as [|[s [day e]] l IH]; intros [ns c] d res d' Hrun Hu.
  - inversion Hrun; subst. split; auto.
  - rewrite for_each_cons in Hrun. unfold day_round at 1 in Hrun.
    simpl fst in Hrun. simpl snd in Hrun.
    destruct (Cache.store_schedule_day tm s (ns, c) (day, e) d) as [r1 d1] eqn:Hstep.
    destruct (day_step_index tm _ _ _ _ _ _ _ _ Hstep Hu) as (Hu1 & _).
    destruct (day_step_owned _ _ _ _ _ _ _ _ Hstep Hu) as (Hn1 & Hk1 & _).
    destruct r1 as [acc1|x1].
    + destruct (IH _ _ _ _ Hrun Hu1) as (Hn' & Hk'). split.
      * intros i Hi. apply Hn', Hn1, Hi.
      * intros s2 o2 r Hr. destruct (Hk1 _ _ _ Hr) as [H|H].
        -- left. apply Hn', H.
        -- apply Hk', H.
    + inversion Hrun; subst. split; assumption.
Qed.

(** After a call that returns, the row of a day whose stored fingerprint
    differed from the fetched one owns no entry. *)
Lemma changed_day_loses_entries (l : list (string * (string * Md5.entry)))
    (acc acc' : dict (list string) * Z) (d d' : db) (s day : string) (e : Md5.entry)
    (ord : option Z) (r : row) :
  for_each l (day_round tm) acc d = (Ok acc', d') ->
  rowids_unique d "scheduleindex" ->
  In (s, (day, e)) l -> Md5.md5 e <> Cache.sentinel ->
  Util.date_to_int day = Ok ord -> index_row d s ord = Some r ->
  row_get r "md5" <> VText (Md5.md5 e) ->
  owned d' (rowid r) = [].
Proof.
  intros Hrun Hu Hin Hne Hd Hr Hmd5.
  apply in_split in Hin as (l1 & l2 & ->).
  rewrite for_each_app in Hrun.
  destruct (for_each l1 (day_round tm) acc d) as [[[ns1 c1]|x] da] eqn:H1; [|discriminate].
  destruct (days_settle tm _ _ _ _ _ H1 Hu) as (Hua & _).
  destruct (days_owned _ _ _ _ _ H1 Hu) as (_ & Hka).
  rewrite for_each_cons in Hrun. unfold day_round at 1 in Hrun.
  simpl fst in Hrun. simpl snd in Hrun.
  destruct (Cache.store_schedule_day tm s (ns1, c1) (day, e) da) as [[[ns2 c2]|x] db'] eqn:Hstep;
    [|discriminate].
  destruct (day_step_index tm _ _ _ _ _ _ _ _ Hstep Hua) as (Hub & _).
  destruct (day_step_owned _ _ _ _ _ _ _ _ Hstep Hua) as (Hnb & _ & Hcb).
  destruct (days_owned _ _ _ _ _ Hrun Hub) as (Hn2 & _).
  apply Hn2. destruct (Hka _ _ _ Hr) as [H|H].
  - apply Hnb, H.
  - apply (Hcb r ns2 c2 ord eq_refl Hne Hd H Hmd5).
Qed.

End CascadeFacts.

Section ReplacementFacts.

Variable tm : string -> result Z.

Import Spec.

Lemma Forall2_filter (A B : Type) (R : A -> B -> Prop) (p : A -> bool) (q : B -> bool)
    (l : list A) (m : list B) :
  Forall2 R l m -> (forall a b, R a b -> p a = q b) ->
  Forall2 R (filter p l) (filter q m).
Proof.
  intros H Hpq. induction H as [|a b l m Hab _ IH]; simpl; [constructor|].
  rewrite (Hpq a b Hab). destruct (q b); [constructor; assumption | exact IH].
Qed.

Lemma entry_row_owner (d : db) (s : string) (o : Z) (r1 : row) (a : row)
    (x : Sched.item * Sched.program) :
  rowids_unique d "scheduleindex" ->
  index_row d s (Some o) = Some r1 ->
  entry_row tm d a x ->
  Sql.col_eq "scheduleindex" (VInt (rowid r1)) a = for_station_day s o x.
Proof.
  intros Hu Hr1 (i & t & Hres & _ & Hcells).
  assert (Hget : row_get a "scheduleindex" = VInt i).
  { unfold row_get, id_column. simpl String.eqb. cbv iota. rewrite Hcells. reflexivity. }
  unfold Sql.col_eq. rewrite Hget. simpl sql_match.
  unfold resolved_id in Hres. unfold for_station_day.
  destruct (Util.date_to_int (Sched.startDate (fst x))) as [ord|] eqn:Hd; [|discriminate].
  destruct (index_row d (Sched.stationID (fst x)) ord) as [x'|] eqn:Hx; [|discriminate].
  simpl in Hres. inversion Hres; subst i.
  destruct (index_row_in _ _ _ _ Hx) as [Hxin Hxk].
  destruct (index_row_in _ _ _ _ Hr1) as [Hrin Hrk].
  destruct (rowid x' =? rowid r1) eqn:E.
  - apply Z.eqb_eq in E. rewrite (rowid_injective _ _ _ Hu Hxin Hrin E) in Hxk.
    destruct (station_day_key _ _ _ _ _ Hrk Hxk) as [-> ->].
    rewrite String.eqb_refl, Z.eqb_refl. reflexivity.
  - symmetry. apply andb_false_iff.
    destruct (String.eqb (Sched.stationID (fst x)) s) eqn:Es; [right | left; reflexivity].
    apply String.eqb_eq in Es.
    destruct ord as [z|]; [|reflexivity].
    destruct (z =? o) eqn:Ez; [|reflexivity].
    apply Z.eqb_eq in Ez. subst z. rewrite Es, Hr1 in Hx. inversion Hx; subst x'.
    rewrite Z.eqb_refl in E. discriminate.
Qed.

Lemma store_schedules_owned (dat : list Sched.item) (d d' : db) (progs : list string)
    (s : string) (o : Z) (r1 : row) :
  Cache.store_schedules tm dat d = (Ok progs, d') ->
  rowids_unique d "scheduleindex" ->
  index_row d s (Some o) = Some r1 ->
  owned d (rowid r1) = [] ->
  Forall2 (entry_row tm d) (owned d' (rowid r1))
          (filter (for_station_day s o) (fetched_entries dat)).
Proof.
  unfold Cache.store_schedules. intros Hrun Hu Hr1 Hempty.
  destruct (items_loop tm _ _ _ _ _ Hrun) as (_ & new & Hsch & Hall).
  unfold owned in *. rewrite Hsch, filter_app, Hempty. simpl app.
  apply Forall2_filter; [apply (Hall progs eq_refl)|].
  intros a x Hax. apply (entry_row_owner d s o r1 a x Hu Hr1 Hax).
Qed.

End ReplacementFacts.

(** The claim C2 fails on the code when the fetched fingerprint is the
    reserved value: the stored fingerprint differs from it, and yet
    [store_schedule_index] deletes and updates nothing, so that the entry
    recorded under the old fingerprint is still there after a
    [store_schedules] call for a fetch without entries. *)
Lemma sentinel_day_keeps_old_entries :
  let d := Scenario.stale_cache in
  let data := Scenario.one_day Scenario.no_schedule in
  Spec.stored_md5 d "10021" (Some 735659) = Some (VText "old-fingerprint") /\
  "old-fingerprint" <> Md5.md5 Scenario.no_schedule /\
  Cache.store_schedule_index Scenario.clock data d = (Ok ([], 1), d) /\
  Cache.store_schedules Scenario.clock [] d = (Ok [], d) /\
  length (Spec.owned d 1) = 1%nat /\
  Spec.fetched_entries [] = [].
Proof.
  intros d data. split; [reflexivity|]. split; [discriminate|].
  repeat split; reflexivity.
Qed.

(** C2, as the code has it.  A day whose stored fingerprint differs from the
    fetched one, the fetched one not being the reserved value, has its
    entries replaced.
    - The round of [store_schedule_index] for such a day executes the
      DELETE of the entries owned by the id of its row and then the UPDATE
      of the row, after which the row owns no entry.
    - When [store_schedule_index] and then [store_schedules] return: after
      the first call the row (still found under the same id) owns no entry
      and, the keys of the response being pairwise different, carries the
      fetched fingerprint; after the second call the entries it owns are, in
      order and one for one, the fetched entries for that station and day,
      each with the columns of its entry. *)
Theorem changed_day_entries_replaced (tm : string -> result Z) :
  (forall s ns c day e d ord r lm,
     Util.date_to_int day = Ok ord -> Md5.md5 e <> Cache.sentinel ->
     Spec.index_row d s ord = Some r -> row_get r "md5" <> VText (Md5.md5 e) ->
     tm (Md5.lastModified e) = Ok lm ->
     let d' := Spec.index_updated (Spec.entries_deleted d r) r
                 (Spec.index_pairs s ord lm e) in
     Cache.store_schedule_day tm s (ns, c) (day, e) d
       = (Ok (Cache.note_schedule ns s day, c), d') /\
     journal d' = journal d ++ [SDelete "schedule"; SUpdate "scheduleindex"] /\
     Spec.owned d' (rowid r) = []) /\
  (forall data d ns c d1 dat progs d2 s days day e o r,
     Spec.rowids_unique d "scheduleindex" ->
     Cache.store_schedule_index tm data d = (Ok (ns, c), d1) ->
     Cache.store_schedules tm dat d1 = (Ok progs, d2) ->
     In (s, days) data -> In (day, e) days ->
     Md5.md5 e <> Cache.sentinel ->
     Util.date_to_int day = Ok (Some o) ->
     Spec.index_row d s (Some o) = Some r ->
     row_get r "md5" <> VText (Md5.md5 e) ->
     Spec.owned d1 (rowid r) = [] /\
     (exists r1, Spec.index_row d1 s (Some o) = Some r1 /\ rowid r1 = rowid r) /\
     (NoDup (map Spec.day_key (Spec.days_of data)) ->
      Spec.stored_md5 d1 s (Some o) = Some (VText (Md5.md5 e))) /\
     Forall2 (Spec.entry_row tm d1) (Spec.owned d2 (rowid r))
             (filter (Spec.for_station_day s o) (Spec.fetched_entries dat))).
Proof.
  split.
  - intros s ns c day e d ord r lm Hd Hne Hr Hmd5 Ht d'.
    assert (Hp : py_eq (row_get r "md5") (VText (Md5.md5 e)) = false).
    { unfold py_eq. destruct (sqlval_eqb _ _) eqn:E; [|reflexivity].
      apply sqlval_eqb_eq in E. contradiction. }
    assert (Hs : String.eqb (Md5.md5 e) Cache.sentinel = false).
    { apply String.eqb_neq. exact Hne. }
    rewrite store_schedule_day_eq, Hd, Hs, Hr, Hp, Ht. split; [reflexivity|]. split.
    + unfold d'. simpl. rewrite <- app_assoc. reflexivity.
    + unfold d'. rewrite owned_index_updated. apply owned_entries_deleted_self.
  - intros data d ns c d1 dat progs d2 s days day e o r
           Hu Hidx Hsch Hs Hday Hne Hd Hr Hmd5.
    unfold Cache.store_schedule_index in Hidx. rewrite store_schedule_index_flat in Hidx.
    assert (Hin : In (s, (day, e)) (Spec.days_of data)).
    { apply in_days_of. exists days. auto. }
    destruct (days_settle tm _ _ _ _ _ Hidx Hu) as (Hu1 & Hid & _ & Hset).
    destruct (Hid _ _ _ Hr) as (r1 & Hr1 & Hrid).
    assert (Hempty : Spec.owned d1 (rowid r) = []).
    { apply (changed_day_loses_entries tm _ _ _ _ _ _ _ _ _ _ Hidx Hu Hin Hne Hd Hr Hmd5). }
    split; [exact Hempty|]. split; [exists r1; auto|]. split.
    + intros Hnd. apply (Hset _ eq_refl Hnd s day e o Hin Hne Hd).
    + rewrite <- Hrid in *.
      apply (store_schedules_owned tm dat d1 d2 progs s o r1 Hsch Hu1 Hr1 Hempty).
Qed.

Section ReturnFacts.

Variable tm : string -> result Z.

Import Spec.

Lemma day_returns (s : string) (ns : dict (list string)) (c : Z) (day : string)
    (e : Md5.entry) (d : db) :
  (exists o, Util.date_to_int day = Ok o) ->
  (exists t, tm (Md5.lastModified e) = Ok t) ->
  exists acc' d', Cache.store_schedule_day tm s (ns, c) (day, e) d = (Ok acc', d').
Proof.
  intros (o & Ho) (t & Ht). rewrite store_schedule_day_eq, Ho, Ht.
  destruct (String.eqb (Md5.md5 e) Cache.sentinel); [eauto|].
  destruct (index_row d s o) as [r|]; [|eauto].
  destruct (py_eq (row_get r "md5") (VText (Md5.md5 e))); eauto.
Qed.

Lemma days_return (l : list (string * (string * Md5.entry))) :
  (forall x, In x l ->
     (exists o, Util.date_to_int (fst (snd x)) = Ok o) /\
     (exists t, tm (Md5.lastModified (snd (snd x))) = Ok t)) ->
  forall acc d, exists acc' d', for_each l (day_round tm) acc d = (Ok acc', d').
Proof.
  induction l as [|[s [day e]] l IH]; intros H [ns c] d.
  - exists (ns, c), d. reflexivity.
  - rewrite for_each_cons. unfold day_round at 1. simpl fst. simpl snd.
    destruct (H _ (or_introl eq_refl)) as (Ho & Ht). simpl in Ho, Ht.
    destruct (day_returns s ns c day e d Ho Ht) as (acc1 & d1 & ->).
    apply IH. intros y Hy. apply H. right. exact Hy.
Qed.

End ReturnFacts.

(** C3. A fetched day whose fingerprint is the reserved value
    [CAFEDEADBEEFCAFEDEADBE] is not persisted and is counted once:
    - the round of [store_schedule_index] for such a day leaves the tables
      and the journal of write statements as they were and returns the
      counter plus one (the date string is converted first, so a date
      outside the calendar still raises, and also then nothing is
      written);
    - when [store_schedule_index] returns, its counter is the number of
      such days in the input, and the database and the dirty days are those
      of the same call on the input without these days;
    - and it does return, with that counter, whenever the date strings and
      time stamps of the response can be converted. *)
Theorem sentinel_days_skipped_and_counted (tm : string -> result Z) :
  (forall station_id new_schedules count startdate e d,
     Md5.md5 e = Cache.sentinel ->
     Cache.store_schedule_day tm station_id (new_schedules, count) (startdate, e) d =
     match Util.date_to_int startdate with
     | Ok _ => (Ok (new_schedules, count + 1), d)
     | Raise x => (Raise x, d)
     end) /\
  (forall data d new_schedules count d',
     Cache.store_schedule_index tm data d = (Ok (new_schedules, count), d') ->
     count = Spec.count_sentinel data /\
     Cache.store_schedule_index tm (Spec.without_sentinel data) d
     = (Ok (new_schedules, 0), d')) /\
  (forall data d,
     (forall s days day e,
        In (s, days) data -> In (day, e) days ->
        (exists o, Util.date_to_int day = Ok o) /\
        (exists t, tm (Md5.lastModified e) = Ok t)) ->
     exists new_schedules d',
       Cache.store_schedule_index tm data d
       = (Ok (new_schedules, Spec.count_sentinel data), d')).
Proof.
  split; [|split].
  - intros. apply sentinel_day_step. assumption.
  - unfold Cache.store_schedule_index. intros data d ns c d' H.
    apply stations_counter in H as [Hc Hf]. split; [lia | apply Hf].
  - intros data d H. unfold Cache.store_schedule_index.
    destruct (days_return tm (Spec.days_of data)) with (acc := (@nil (string * list string), 0))
                                                       (d := d)
      as ([ns c] & d' & Hrun).
    + intros [s [day e]] Hin. apply in_days_of in Hin as (days & H1 & H2).
      apply (H s days day e H1 H2).
    + rewrite <- store_schedule_index_flat in Hrun.
      pose proof Hrun as Hc. apply stations_counter in Hc as [Hc _].
      exists ns, d'. rewrite Hrun. f_equal. f_equal. f_equal. lia.
Qed.

(** ** What the later stages leave alone *)

Section FrameFacts.

Variable tm : string -> result Z.

Import Spec.

Lemma bind_ok (A B : Type) (m : M A) (k : A -> M B) (d d' : db) (b : B) :
  bind m k d = (Ok b, d') ->
  exists a d1, m d = (Ok a, d1) /\ k a d1 = (Ok b, d').
Proof.
  unfold bind. destruct (m d) as [[a|e] d1]; [eauto | discriminate].
Qed.

Lemma bind_eq (A B : Type) (m : M A) (k : A -> M B) (d d1 : db) (a : A) :
  m d = (Ok a, d1) -> bind m k d = k a d1.
Proof. unfold bind. intros ->. reflexivity. Qed.

Lemma keeps_ret (A : Type) (a : A) : keeps_index (ret a).
Proof. intros d. reflexivity. Qed.

Lemma keeps_raise (A : Type) (e : exn) : keeps_index (@raise A e).
Proof. intros d. reflexivity. Qed.

Lemma keeps_lift (A : Type) (r : result A) : keeps_index (lift r).
Proof. intros d. reflexivity. Qed.

Lemma keeps_assert (b : bool) : keeps_index (py_assert b).
Proof. intros d. destruct b; reflexivity. Qed.

Lemma keeps_received (A : Type) (p : option A) (e : exn) :
  keeps_index (Main.received p e).
Proof. intros d. destruct p; reflexivity. Qed.

Lemma keeps_bind (A B : Type) (m : M A) (k : A -> M B) :
  keeps_index m -> (forall a, keeps_index (k a)) -> keeps_index (bind m k).
Proof.
  intros Hm Hk d. unfold bind. specialize (Hm d).
  destruct (m d) as [[a|e] d1]; simpl in *; [|exact Hm].
  rewrite Hk. exact Hm.
Qed.

Lemma keeps_for_each (X S : Type) (xs : list X) (body : S -> X -> M S) :
  (forall acc x, keeps_index (body acc x)) ->
  forall acc, keeps_index (for_each xs body acc).
Proof.
  intros Hb acc d.
  apply (for_each_invariant _ _
           (fun d' => get_table d' "scheduleindex" = get_table d "scheduleindex"));
    [|reflexivity].
  intros a x d0 _ H. rewrite Hb. exact H.
Qed.

Lemma keeps_store_schedules (dat : list Sched.item) :
  keeps_index (Cache.store_schedules tm dat).
Proof.
  intros d. unfold Cache.store_schedules.
  destruct (for_each dat (Cache.store_schedule_item tm) [] d) as [res d'] eqn:E.
  apply (items_loop tm _ _ _ _ _ E).
Qed.

Lemma keeps_insert_or_update (qb : Query_builder) (sel : string) (cmp : option string) :
  table qb <> "scheduleindex" -> keeps_index (Qb.insert_or_update qb sel cmp).
Proof.
  intros Ht d. unfold Qb.insert_or_update, bind, lift, Sql.select_first.
  destruct (Qb.value_of qb sel); [|reflexivity].
  destruct (match cmp with Some c => Qb.value_of qb c | None => Ok VNull end);
    [|reflexivity].
  destruct (find _ _) as [r|].
  - destruct (match cmp with Some c => _ | None => false end); [reflexivity|].
    unfold Qb.execute_update, Sql.update, ret. simpl.
    apply get_set_table_other. exact Ht.
  - unfold Qb.execute_insert, Sql.insert, ret. simpl.
    apply get_set_table_other. exact Ht.
Qed.

Lemma keeps_store_programs (now : Z) (dat : list Prog.item)
    (art : option (dict Artwork.asset)) :
  keeps_index (Cache.store_programs now dat art).
Proof.
  unfold Cache.store_programs. apply keeps_for_each. intros [] item.
  unfold Cache.store_program. intros d. unfold bind at 1. unfold lift.
  destruct (Cache.program_fields now art item) as [qb|x] eqn:E; [|reflexivity].
  apply program_fields_keep in E as (T & _ & _).
  revert d. apply keeps_bind; [|intros; apply keeps_ret].
  apply keeps_insert_or_update. rewrite T. discriminate.
Qed.

(** Everything in the round of a chunk that follows [store_schedule_index]
    leaves the index alone. *)
Lemma process_chunk_index (r : Main.remote) (now : Z) (chunk : list string)
    (dat : Md5.response) (d d' : db) :
  Main.process_chunk tm r now tt chunk d = (Ok tt, d') ->
  Main.get_schedules_md5 r chunk = Some dat ->
  exists ns d1,
    Cache.store_schedule_index tm dat d = (Ok (ns, 0), d1) /\
    get_table d' "scheduleindex" = get_table d1 "scheduleindex".
Proof.
  unfold Main.process_chunk. intros Hrun Hdat.
  apply bind_ok in Hrun as ([] & d0 & Ha & Hrun).
  assert (d0 = d) by (unfold py_assert in Ha; destruct (_ <=? _); inversion Ha; auto).
  subst d0. clear Ha.
  rewrite Hdat in Hrun. apply bind_ok in Hrun as (dat' & d0 & Hr & Hrun).
  inversion Hr; subst dat' d0. clear Hr.
  apply bind_ok in Hrun as ([ns c] & d1 & Hidx & Hrun).
  apply bind_ok in Hrun as ([] & d2 & Hc & Htail).
  destruct (c =? 0) eqn:Ec; simpl in Hc; [|discriminate].
  inversion Hc; subst d2. clear Hc. apply Z.eqb_eq in Ec. subst c.
  exists ns, d1. split; [exact Hidx|].
  match type of Htail with
  | ?m d1 = _ => assert (K : keeps_index m)
  end.
  { destruct (0 <? length ns)%nat; [|apply keeps_ret].
    apply keeps_bind; [apply keeps_assert|]. intros _.
    apply keeps_bind; [apply keeps_received|]. intros sched.
    apply keeps_bind; [apply keeps_store_schedules|]. intros progs.
    destruct (0 <? length progs)%nat; [|apply keeps_ret].
    apply keeps_bind; [apply keeps_lift|]. intros chunks.
    apply keeps_bind.
    { apply keeps_for_each. intros acc x. unfold Main.fetch_artwork.
      apply keeps_bind; [apply keeps_received|]. intros. apply keeps_ret. }
    intros art. apply keeps_bind; [apply keeps_lift|]. intros info.
    apply keeps_bind; [apply keeps_lift|]. intros chunks2.
    apply keeps_for_each. intros [] x. unfold Main.fetch_programs.
    apply keeps_bind; [apply keeps_assert|]. intros _.
    apply keeps_bind; [apply keeps_received|]. intros progdat.
    apply keeps_store_programs. }
  specialize (K d1). rewrite Htail in K. exact K.
Qed.

End FrameFacts.

(** ** A second run *)

Section SecondRunFacts.

Variable tm : string -> result Z.

Import Spec.

Lemma index_row_table (d1 d2 : db) (s : string) (o : option Z) :
  get_table d1 "scheduleindex" = get_table d2 "scheduleindex" ->
  index_row d1 s o = index_row d2 s o.
Proof. unfold index_row. intros ->. reflexivity. Qed.

Lemma stored_md5_table (d1 d2 : db) (s : string) (o : option Z) :
  get_table d1 "scheduleindex" = get_table d2 "scheduleindex" ->
  stored_md5 d1 s o = stored_md5 d2 s o.
Proof. unfold stored_md5. intros H. rewrite (index_row_table d1 d2 s o H). reflexivity. Qed.

Lemma process_chunk_ok (r : Main.remote) (now : Z) (chunk : list string) (d d' : db) :
  Main.process_chunk tm r now tt chunk d = (Ok tt, d') ->
  (Z.of_nat (length chunk) <=? Main.MAX_STATIONS_IDS) = true /\
  exists dat, Main.get_schedules_md5 r chunk = Some dat.
Proof.
  unfold Main.process_chunk. intros Hrun.
  apply bind_ok in Hrun as ([] & d0 & Ha & Hrun).
  unfold py_assert in Ha. destruct (_ <=? _); [|discriminate]. split; [reflexivity|].
  apply bind_ok in Hrun as (dat & d1 & Hr & _).
  destruct (Main.get_schedules_md5 r chunk) as [dat'|]; [eauto | discriminate].
Qed.

Lemma stored_md5_some (d : db) (s : string) (o : option Z) (v : sqlval) :
  stored_md5 d s o = Some v <-> exists r, index_row d s o = Some r /\ row_get r "md5" = v.
Proof.
  unfold stored_md5. destruct (index_row d s o) as [r|]; simpl; split.
  - intros H; inversion H. eauto.
  - intros (r' & H & <-). inversion H. reflexivity.
  - discriminate.
  - intros (r' & H & _). discriminate.
Qed.

(** The fingerprint requests of a run that ends well leave every fetched
    day with its fetched fingerprint. *)
Lemma chunks_settle (r : Main.remote) (now : Z) (chunks : list (list string)) :
  forall d d',
    for_each chunks (Main.process_chunk tm r now) tt d = (Ok tt, d') ->
    rowids_unique d "scheduleindex" ->
    NoDup (run_keys r chunks) ->
    Forall proper_key (run_keys r chunks) ->
    rowids_unique d' "scheduleindex" /\
    (forall s2 o2, ~ In (s2, Ok o2) (run_keys r chunks) ->
                   stored_md5 d' s2 o2 = stored_md5 d s2 o2) /\
    (forall chunk dat, In chunk chunks -> Main.get_schedules_md5 r chunk = Some dat ->
                       fingerprints_unchanged d' dat /\ count_sentinel dat = 0).
Proof.
  induction chunks as [|chunk chunks IH]; intros d d' Hrun Hu Hnd Hok.
  - inversion Hrun; subst. split; [exact Hu|]. split; [reflexivity|]. intros ? ? [].
  - rewrite for_each_cons in Hrun.
    destruct (Main.process_chunk tm r now tt chunk d) as [[[]|x] d1] eqn:Hc; [|discriminate].
    destruct (process_chunk_ok _ _ _ _ _ Hc) as (_ & dat & Hdat).
    destruct (process_chunk_index tm _ _ _ _ _ _ Hc Hdat) as (ns & d0 & Hidx & Htab).
    assert (Hkeys : run_keys r (chunk :: chunks)
                    = map day_key (days_of dat) ++ run_keys r chunks).
    { unfold run_keys, responses. simpl flat_map. rewrite Hdat. reflexivity. }
    rewrite Hkeys in Hnd, Hok.
    pose proof Hidx as Hcount.
    unfold Cache.store_schedule_index in Hidx, Hcount.
    apply stations_counter in Hcount as [Hcount _].
    rewrite store_schedule_index_flat in Hidx.
    destruct (days_settle tm _ _ _ _ _ Hidx Hu) as (Hu0 & _ & Hfr0 & Hset0).
    assert (Hu1 : rowids_unique d1 "scheduleindex").
    { unfold rowids_unique. rewrite Htab. exact Hu0. }
    apply Forall_app in Hok as [Hok1 Hok2].
    destruct (IH _ _ Hrun Hu1 (NoDup_app_remove_l _ _ Hnd) Hok2) as (Hu' & Hfr' & Hall').
    split; [exact Hu'|]. split; [|].
    + intros s2 o2 Hnot. rewrite Hkeys in Hnot.
      rewrite Hfr' by (intros H; apply Hnot, in_or_app; right; exact H).
      rewrite (stored_md5_table d1 d0 s2 o2 Htab).
      apply Hfr0. intros H. apply Hnot, in_or_app. left. exact H.
    + intros chunk' dat' [<-|Hin] Hdat'; [|apply (Hall' chunk' dat' Hin Hdat')].
      rewrite Hdat in Hdat'. inversion Hdat'; subst dat'. split; [|lia].
      intros s days day e ord Hs Hday Hne Hd.
      assert (Hin : In (s, (day, e)) (days_of dat)) by (apply in_days_of; eauto).
      assert (Hkey : In (s, Ok ord) (map day_key (days_of dat))).
      { apply in_map_iff. exists (s, (day, e)). split; [|exact Hin].
        unfold day_key. simpl. rewrite Hd. reflexivity. }
      rewrite Forall_forall in Hok1. destruct (Hok1 _ Hkey) as (o & Ho).
      simpl in Ho. inversion Ho; subst ord.
      apply stored_md5_some. rewrite Hfr'.
      * rewrite (stored_md5_table d1 d0 s (Some o) Htab).
        apply (Hset0 _ eq_refl (NoDup_app_remove_r _ _ Hnd) s day e o Hin Hne Hd).
      * intros H. apply NoDup_app_remove_l in Hnd as Hnd2.
        clear - Hnd Hkey H. induction (map day_key (days_of dat)) as [|k ks IHk];
          simpl in *; [tauto|].
        inversion Hnd as [|? ? Hnotin Hrest]; subst. destruct Hkey as [->|Hk].
        -- apply Hnotin, in_or_app. right. exact H.
        -- apply IHk; assumption.
Qed.

Lemma unchanged_days_ok (d : db) (l : list (string * (string * Md5.entry))) :
  (forall x, In x l -> day_unchanged d (fst x) (snd x) /\
                       exists o, Util.date_to_int (fst (snd x)) = Ok o) ->
  forall ns c, exists c', for_each l (day_round tm) (ns, c) d = (Ok (ns, c'), d).
Proof.
  induction l as [|[s [day e]] l IH]; intros H ns c.
  - exists c. reflexivity.
  - rewrite for_each_cons. unfold day_round at 1. simpl fst. simpl snd.
    destruct (H _ (or_introl eq_refl)) as (Hun & o & Ho). simpl in Hun, Ho.
    destruct (unchanged_day_step tm s ns c (day, e) d Hun) as (res & Hres & Hns).
    rewrite Hres. destruct res as [[ns1 c1]|x].
    + rewrite (Hns ns1 c1 eq_refl). apply IH. intros y Hy. apply H. right. exact Hy.
    + rewrite store_schedule_day_eq, Ho in Hres.
      destruct (String.eqb (Md5.md5 e) Cache.sentinel) eqn:Hs; [discriminate|].
      assert (Hne : Md5.md5 e <> Cache.sentinel) by (apply String.eqb_neq; exact Hs).
      destruct (Hun Hne o Ho) as (r & Hr & Hm).
      rewrite Hr in Hres. unfold py_eq in Hres. rewrite Hm, sqlval_eqb_refl in Hres.
      discriminate.
Qed.

End SecondRunFacts.

Section SecondRun.

Variable tm : string -> result Z.

Import Spec.

Lemma process_chunk_second (r : Main.remote) (now : Z) (chunk : list string)
    (dat : Md5.response) (d : db) :
  (Z.of_nat (length chunk) <=? Main.MAX_STATIONS_IDS) = true ->
  Main.get_schedules_md5 r chunk = Some dat ->
  fingerprints_unchanged d dat ->
  Forall proper_key (map day_key (days_of dat)) ->
  count_sentinel dat = 0 ->
  Main.process_chunk tm r now tt chunk d = (Ok tt, d).
Proof.
  intros Hlen Hdat Hun Hok Hcount.
  assert (Hdays : forall x, In x (days_of dat) ->
            day_unchanged d (fst x) (snd x) /\
            exists o, Util.date_to_int (fst (snd x)) = Ok o).
  { intros [s [day e]] Hin. split.
    - intros Hne ord Hd. simpl in *. apply in_days_of in Hin as (days & H1 & H2).
      apply (Hun s days day e ord H1 H2 Hne Hd).
    - rewrite Forall_forall in Hok.
      destruct (Hok (day_key (s, (day, e))) (in_map _ _ _ Hin)) as (o & Ho).
      simpl in Ho. eauto. }
  destruct (unchanged_days_ok tm d _ Hdays [] 0) as (c' & Hrun).
  rewrite <- store_schedule_index_flat in Hrun.
  pose proof Hrun as Hc. apply stations_counter in Hc as [Hc _].
  rewrite Hcount in Hc. change (0 + 0) with 0 in Hc. subst c'.
  unfold Main.process_chunk.
  erewrite bind_eq; [|unfold py_assert; rewrite Hlen; reflexivity].
  erewrite bind_eq; [|rewrite Hdat; reflexivity].
  erewrite bind_eq; [|exact Hrun].
  reflexivity.
Qed.

Lemma chunks_second (r : Main.remote) (now : Z) (d : db) (chunks : list (list string)) :
  (forall chunk, In chunk chunks ->
     (Z.of_nat (length chunk) <=? Main.MAX_STATIONS_IDS) = true /\
     exists dat, Main.get_schedules_md5 r chunk = Some dat /\
                 fingerprints_unchanged d dat /\
                 Forall proper_key (map day_key (days_of dat)) /\
                 count_sentinel dat = 0) ->
  for_each chunks (Main.process_chunk tm r now) tt d = (Ok tt, d).
Proof.
  induction chunks as [|chunk chunks IH]; intros H; [reflexivity|].
  rewrite for_each_cons.
  destruct (H chunk (or_introl eq_refl)) as (Hlen & dat & Hdat & Hun & Hok & Hc).
  rewrite (process_chunk_second r now chunk dat d Hlen Hdat Hun Hok Hc).
  apply IH. intros c Hin. apply H. right. exact Hin.
Qed.

Lemma chunks_ok (r : Main.remote) (now : Z) (chunks : list (list string)) :
  forall d d',
    for_each chunks (Main.process_chunk tm r now) tt d = (Ok tt, d') ->
    forall chunk, In chunk chunks ->
      (Z.of_nat (length chunk) <=? Main.MAX_STATIONS_IDS) = true /\
      exists dat, Main.get_schedules_md5 r chunk = Some dat.
Proof.
  induction chunks as [|c chunks IH]; intros d d' Hrun chunk Hin; [destruct Hin|].
  rewrite for_each_cons in Hrun.
  destruct (Main.process_chunk tm r now tt c d) as [[[]|x] d1] eqn:Hc; [|discriminate].
  destruct Hin as [<-|Hin].
  - apply (process_chunk_ok tm _ _ _ _ _ Hc).
  - apply (IH _ _ Hrun chunk Hin).
Qed.

Lemma proper_keys_of_response (r : Main.remote) (chunks : list (list string))
    (chunk : list string) (dat : Md5.response) :
  In chunk chunks -> Main.get_schedules_md5 r chunk = Some dat ->
  Forall proper_key (run_keys r chunks) ->
  Forall proper_key (map day_key (days_of dat)).
Proof.
  intros Hin Hdat Hall. rewrite Forall_forall in *. intros k Hk. apply Hall.
  unfold run_keys, responses. apply in_flat_map. exists dat. split; [|exact Hk].
  apply in_flat_map. exists chunk. split; [exact Hin|]. rewrite Hdat. left. reflexivity.
Qed.

Lemma second_run_writes_nothing (r : Main.remote) (now now' : Z)
    (stations : list string) (d0 d1 : db) :
  rowids_unique d0 "scheduleindex" ->
  (forall chunks, Util.chunker stations Main.MAX_STATIONS_IDS = Ok chunks ->
                  NoDup (run_keys r chunks) /\ Forall proper_key (run_keys r chunks)) ->
  Main.stage_b_to_d tm r now stations d0 = (Ok tt, d1) ->
  Main.stage_b_to_d tm r now' stations d1 = (Ok tt, d1).
Proof.
  unfold Main.stage_b_to_d. intros Hu Hkeys Hrun.
  destruct stations as [|s stations]; [reflexivity|].
  unfold bind, lift in *.
  destruct (Util.chunker (s :: stations) Main.MAX_STATIONS_IDS) as [chunks|x];
    [|discriminate].
  destruct (Hkeys chunks eq_refl) as [Hnd Hok].
  destruct (chunks_settle tm r now chunks d0 d1 Hrun Hu Hnd Hok) as (_ & _ & Hall).
  apply chunks_second. intros chunk Hin.
  destruct (chunks_ok r now chunks d0 d1 Hrun chunk Hin) as (Hlen & dat & Hdat).
  split; [exact Hlen|]. exists dat. split; [exact Hdat|].
  destruct (Hall chunk dat Hin Hdat) as [Hun Hc].
  split; [exact Hun|]. split; [|exact Hc].
  apply (proper_keys_of_response r chunks chunk dat Hin Hdat Hok).
Qed.

End SecondRun.

(** C1. Unchanged fingerprints cause no write.
    - [store_schedule_index] on a response all of whose days (the sentinel
      apart) have a stored row with the fetched fingerprint executes no
      INSERT, UPDATE or DELETE: tables and journal are as before;
    - so does [store_programs] on programs that all have a stored row with
      the fetched fingerprint (not even [last_access] is written);
    - so do Stages B to D as a whole when the fingerprint replies to the
      chunks of the run are all of this kind; they then never reach
      [store_schedules] or [store_programs];
    - and when Stages B to D have run to their end, running them again on
      the resulting database against the same responses returns and leaves
      the database, journal included, exactly as the first run left it,
      provided that the fetched days have pairwise different keys (station
      and date, the date being read from the first ten characters of the
      day) which are dates of the calendar, and that the rowids of
      [scheduleindex] are pairwise different, as SQLite keeps them. *)
Theorem unchanged_fingerprints_write_nothing (tm : string -> result Z) :
  (forall data d,
     Spec.fingerprints_unchanged d data ->
     snd (Cache.store_schedule_index tm data d) = d) /\
  (forall now data artwork_info d,
     Spec.programs_unchanged d data ->
     snd (Cache.store_programs now data artwork_info d) = d) /\
  (forall r now stations d,
     (forall chunks chunk dat,
        Util.chunker stations Main.MAX_STATIONS_IDS = Ok chunks -> In chunk chunks ->
        Main.get_schedules_md5 r chunk = Some dat ->
        Spec.fingerprints_unchanged d dat) ->
     snd (Main.stage_b_to_d tm r now stations d) = d) /\
  (forall r now now' stations d0 d1,
     Spec.rowids_unique d0 "scheduleindex" ->
     (forall chunks, Util.chunker stations Main.MAX_STATIONS_IDS = Ok chunks ->
                     NoDup (Spec.run_keys r chunks) /\
                     Forall Spec.proper_key (Spec.run_keys r chunks)) ->
     Main.stage_b_to_d tm r now stations d0 = (Ok tt, d1) ->
     Main.stage_b_to_d tm r now' stations d1 = (Ok tt, d1)).
Proof.
  split; [|split; [|split]].
  - intros data d H.
    destruct (store_schedule_index_unchanged tm d data H) as (res & -> & _). reflexivity.
  - intros. apply store_programs_unchanged. assumption.
  - intros. apply stage_b_to_d_unchanged. assumption.
  - intros. eapply second_run_writes_nothing; eassumption.
Qed.

(** The claim C1 fails on the code when the service lists one date of a
    station under two keys with different fingerprints (the date is read
    from the first ten characters of a key): both keys are looked up in the
    same [scheduleindex] row, which ends each run with the fingerprint of the
    second key.  A second run against the same responses then deletes the
    entries of that day, updates the row twice and inserts the entries
    again, under new rowids. *)
Lemma same_date_twice_is_written_again :
  let r := Scenario.same_date_twice [Scenario.an_entry] in
  let stations := [Scenario.station_name 1; Scenario.station_name 2] in
  let first := Main.stage_b_to_d Scenario.clock r 0 stations (Scenario.fresh_cache 2 0) in
  let second := Main.stage_b_to_d Scenario.clock r 0 stations (snd first) in
  fst first = Ok tt /\ fst second = Ok tt /\
  journal (snd second)
  = journal (snd first)
    ++ [SDelete "schedule"; SUpdate "scheduleindex";
        SDelete "schedule"; SUpdate "scheduleindex"; SInsert "schedule"] /\
  map rowid (get_table (snd first) "schedule") = [1; 2] /\
  map rowid (get_table (snd second) "schedule") = [2; 3].
Proof.
  intros r stations first second. vm_compute. repeat split; reflexivity.
Qed.


(** ** The main program *)

Section MainFacts.

Variable tm : string -> result Z.
Variable refresh : Main.status_reply -> M bool.

Lemma upgrade_without_plan (files : string -> option (db -> db)) (current : Z) (d : db) :
  Main.upgrade_database_schema files current None d =
  (Ok (user_version d =? current), d).
Proof.
  unfold Main.upgrade_database_schema, bind, ret.
  destruct (user_version d =? current); reflexivity.
Qed.

Lemma upgrade_steps_missing (files : string -> option (db -> db)) (vers : Z)
    (plan : list (Z * string)) :
  (exists uvers ufnm, In (uvers, ufnm) plan /\ vers < uvers /\ files ufnm = None) ->
  forall d, fst (Main.upgrade_steps files vers plan d) = Ok false.
Proof.
  induction plan as [|[u f] plan IH]; intros (uvers & ufnm & Hin & Hlt & Hf) d.
  - destruct Hin.
  - simpl. destruct (vers <? u) eqn:E.
    + destruct (files f) as [script|] eqn:Ef.
      * unfold bind. apply IH. destruct Hin as [Heq|Hin].
        -- inversion Heq; subst. congruence.
        -- eauto.
      * reflexivity.
    + apply IH. destruct Hin as [Heq|Hin].
      * inversion Heq; subst. apply Z.ltb_ge in E. lia.
      * eauto.
Qed.

End MainFacts.

Lemma main_past_gate (tm : string -> result Z) (refresh : Main.status_reply -> M bool)
    (cfg : Main.config) (now : Z) (r : Main.remote) (d : db) :
  (negb (Main.waituntil cfg =? 0) && (now <? Main.waituntil cfg))%bool = false ->
  Main.exit_code (Main.main tm refresh cfg now r d) <> 10.
Proof.
  intros Hg. unfold Main.main. rewrite Hg.
  destruct (String.eqb (Main.username cfg) ""); [simpl; lia|].
  rewrite upgrade_without_plan.
  destruct (Main.get_token r); try (simpl; lia).
  destruct (Main.get_status r) as [st|]; [|simpl; lia].
  destruct (Main.has_expired tm now st) as [[|]|]; try (simpl; lia).
  destruct (negb (Main.check_status st)); [simpl; lia|].
  destruct (refresh st d) as [[b|x] d1]; [|simpl; lia].
  destruct (bind Main.get_active_query_stations (Main.stage_b_to_d tm r now) d1)
    as [[u|x] d2]; [|simpl; lia].
  destruct (Main.check_newer_version_available r); simpl; lia.
Qed.

(** C5, as the code has it.  When the status check fails in a run that got
    as far as the check, the statement that should store the retry stamp
    evaluates [int(time.time)] on the function object and raises
    [TypeError]: the run ends in the handler with exit status 100, the
    configuration on disk is the one the run started with, nothing has been
    written to the cache (the check comes before Stage A), and no later
    invocation is refused by the [waituntil] gate (exit status 10). *)
Theorem unhealthy_status_leaves_no_retry_stamp
    (tm : string -> result Z) (refresh : Main.status_reply -> M bool)
    (cfg : Main.config) (now : Z) (r : Main.remote) (d : db) (st : Main.status_reply) :
  (negb (Main.waituntil cfg =? 0) && (now <? Main.waituntil cfg))%bool = false ->
  Main.username cfg <> "" ->
  Main.get_token r = Main.TokenGranted ->
  Main.get_status r = Some st ->
  Main.has_expired tm now st = Ok false ->
  Main.check_status st = false ->
  let run := Main.main tm refresh cfg now r d in
  run = Main.mkRun 100 cfg d d /\
  (forall r' later,
     now <= later ->
     Main.exit_code (Main.main tm refresh (Main.config_file run) later r'
                               (Main.committed run)) <> 10).
Proof.
  intros Hg Hu Ht Hs He Hc.
  assert (Hrun : Main.main tm refresh cfg now r d = Main.mkRun 100 cfg d d).
  { unfold Main.main. rewrite Hg.
    destruct (String.eqb (Main.username cfg) "") eqn:E;
      [apply String.eqb_eq in E; contradiction|].
    rewrite upgrade_without_plan, Ht, Hs, He, Hc. reflexivity. }
  cbv zeta. rewrite Hrun. simpl. split; [reflexivity|].
  intros r' later Hl. apply main_past_gate.
  destruct (Main.waituntil cfg =? 0) eqn:E0; [reflexivity|]. simpl in *.
  apply Z.ltb_ge in Hg. apply Z.ltb_ge. lia.
Qed.

(** The claim C6 fails on the code: with a stored schema version below the
    required one and no upgrade plan (the main program passes none),
    [upgrade_database_schema] reports failure, and the run goes on all the
    same, writes to three cache tables, commits and ends with status 0. *)
Lemma failed_upgrade_does_not_stop_the_run :
  let d := Scenario.fresh_cache 1 (-1) in
  let r := Scenario.service Scenario.healthy Scenario.a_day [Scenario.an_entry] in
  let run := Main.main Scenario.clock Scenario.lineups_unchanged
                       Scenario.configured 0 r d in
  user_version d < Main.CURRENT_DATABASE_SCHEMA_VERSION /\
  fst (Main.upgrade_database_schema (fun _ => None)
         Main.CURRENT_DATABASE_SCHEMA_VERSION None d) = Ok false /\
  Main.exit_code run = 0 /\
  journal (Main.committed run)
  = [SInsert "scheduleindex"; SInsert "schedule"; SInsert "programdata"].
Proof. vm_compute. repeat split; reflexivity. Qed.

(** C6, as the code has it.  When the stored schema version is below the
    required one, [upgrade_database_schema] returns [False]
    - without a plan, leaving the database as it is, and
    - with a plan in which a script that is due (its version is above the
      stored one) does not exist;
    the main program does not look at the result: whatever the stored
    version, a configured run that is not held back by [waituntil] goes on
    to ask for a token, and its exit status is that of the token request
    when no token comes back (2) or the request is refused (1). *)
Theorem failed_upgrade_is_reported_not_enforced
    (tm : string -> result Z) (refresh : Main.status_reply -> M bool) :
  (forall files current d,
     user_version d < current ->
     Main.upgrade_database_schema files current None d = (Ok false, d)) /\
  (forall files current plan d,
     user_version d < current ->
     (exists uvers ufnm,
        In (uvers, ufnm) plan /\ user_version d < uvers /\ files ufnm = None) ->
     fst (Main.upgrade_database_schema files current (Some plan) d) = Ok false) /\
  (forall cfg now r d,
     (negb (Main.waituntil cfg =? 0) && (now <? Main.waituntil cfg))%bool = false ->
     Main.username cfg <> "" ->
     (Main.get_token r = Main.TokenMissing ->
      Main.main tm refresh cfg now r d = Main.mkRun 2 cfg d d) /\
     (Main.get_token r = Main.TokenRefused ->
      Main.main tm refresh cfg now r d = Main.mkRun 1 cfg d d)).
Proof.
  split; [|split].
  - intros files current d H. rewrite upgrade_without_plan.
    destruct (user_version d =? current) eqn:E; [apply Z.eqb_eq in E; lia | reflexivity].
  - intros files current plan d H Hmiss.
    unfold Main.upgrade_database_schema, bind.
    destruct (user_version d =? current) eqn:E; [apply Z.eqb_eq in E; lia|].
    apply upgrade_steps_missing. exact Hmiss.
  - intros cfg now r d Hg Hu.
    assert (E : String.eqb (Main.username cfg) "" = false)
      by (apply String.eqb_neq; exact Hu).
    split; intros Ht; unfold Main.main; rewrite Hg, E, upgrade_without_plan, Ht;
      reflexivity.
Qed.

(** C7, at an input that breaks it.  With 501 watched stations whose day is
    new, [store_schedule_index] returns 501 dirty stations and the main
    program hands them to [get_schedules] in one piece: the assertion of
    at most 500 stations fails, the run ends in the handler with status 100
    and the 501 index rows written so far are never committed.  With 500
    stations the same run ends well. *)
Theorem dirty_schedules_exceed_the_fetch_limit :
  let r := Scenario.service Scenario.healthy Scenario.a_day [] in
  let run n := Main.main Scenario.clock Scenario.lineups_unchanged
                         Scenario.configured 0 r (Scenario.fresh_cache n 0) in
  fst (Main.stage_b_to_d Scenario.clock r 0 (map Scenario.station_name (seq 1 501))
                         (Scenario.fresh_cache 501 0))
  = Raise AssertionError /\
  Main.exit_code (run 501%nat) = 100 /\
  length (get_table (Main.session (run 501%nat)) "scheduleindex") = 501%nat /\
  Main.committed (run 501%nat) = Scenario.fresh_cache 501 0 /\
  Main.exit_code (run 500%nat) = 0.
Proof. vm_compute. repeat split; reflexivity. Qed.

(** ** The statements at concrete inputs *)


Lemma artwork_resolver_witness :
  Artwork.select_best
    [("Cast Ensemble", [("Lg", [("u1", None, None, None)])]);
     ("Iconic", [("Md", [("u2", None, Some 240, Some 360)]);
                 ("Sm", [("u3", None, None, None)])])]
  = Ok (Some ("u2", None, Some 240, Some 360)).
Proof.
  apply (proj1 artwork_resolver_selects_and_is_deterministic
           ("u1", None, None, None) ("u2", None, Some 240, Some 360)
           ("u3", None, None, None)).
Defined.

Lemma artwork_without_category_or_size_witness :
  Artwork.proc_program_artwork_info
    [Artwork.mkProgramArt "EP01234567"
       (Artwork.ArtList [Artwork.mkItem None None (Some "Md") "assets/p1.jpg" None None])]
  = Raise IndexError.
Proof.
  apply (artwork_without_category_or_size_raises [] [] "EP01234567"
           [Artwork.mkItem None None (Some "Md") "assets/p1.jpg" None None]).
  - discriminate.
  - repeat constructor.
Defined.

Lemma sentinel_days_witness :
  Cache.store_schedule_index Scenario.clock
    (Spec.without_sentinel Scenario.two_days) (Scenario.fresh_cache 1 0)
  = (Ok ([("10021", ["2015-03-03"])], 0),
     snd (Cache.store_schedule_index Scenario.clock Scenario.two_days
            (Scenario.fresh_cache 1 0))) /\
  Spec.count_sentinel Scenario.two_days = 1 /\
  Cache.store_schedule_day Scenario.clock "10021" ([], 0)
    ("2015-03-02", Scenario.no_schedule) (Scenario.fresh_cache 1 0)
  = (Ok ([], 1), Scenario.fresh_cache 1 0) /\
  exists new_schedules d',
    Cache.store_schedule_index Scenario.clock Scenario.two_days (Scenario.fresh_cache 1 0)
    = (Ok (new_schedules, 1), d').
Proof.
  destruct (sentinel_days_skipped_and_counted Scenario.clock) as (Hday & Hcall & Hret).
  destruct (Hcall Scenario.two_days (Scenario.fresh_cache 1 0)
              [("10021", ["2015-03-03"])] 1
              (snd (Cache.store_schedule_index Scenario.clock Scenario.two_days
                      (Scenario.fresh_cache 1 0)))) as [Hc Hw].
  - vm_compute. reflexivity.
  - split; [exact Hw|]. split; [symmetry; exact Hc|]. split.
    + apply (Hday "10021" [] 0 "2015-03-02" Scenario.no_schedule
               (Scenario.fresh_cache 1 0)). reflexivity.
    + apply (Hret Scenario.two_days (Scenario.fresh_cache 1 0)).
      intros s days day e Hs Hd.
      destruct Hs as [Hs|[]]. inversion Hs; subst s days.
      destruct Hd as [Hd|[Hd|[]]]; inversion Hd; subst day e;
        (split; [eexists; vm_compute; reflexivity | eexists; reflexivity]).
Defined.

Lemma unhealthy_status_witness :
  Main.main Scenario.clock Scenario.lineups_unchanged Scenario.configured 0
            (Scenario.service Scenario.offline Scenario.a_day [])
            (Scenario.fresh_cache 1 0)
  = Main.mkRun 100 Scenario.configured (Scenario.fresh_cache 1 0)
               (Scenario.fresh_cache 1 0).
Proof.
  apply (unhealthy_status_leaves_no_retry_stamp Scenario.clock
           Scenario.lineups_unchanged Scenario.configured 0
           (Scenario.service Scenario.offline Scenario.a_day [])
           (Scenario.fresh_cache 1 0) Scenario.offline);
    try reflexivity.
  discriminate.
Defined.

Lemma failed_upgrade_witness :
  Main.upgrade_database_schema (fun _ => None) 0 None (Scenario.fresh_cache 1 (-1))
  = (Ok false, Scenario.fresh_cache 1 (-1)) /\
  fst (Main.upgrade_database_schema (fun _ => None) 2
         (Some [(1, "sql/upgrade1.sql"); (2, "sql/upgrade2.sql")])
         (Scenario.fresh_cache 1 0)) = Ok false /\
  Main.main Scenario.clock Scenario.lineups_unchanged Scenario.configured 0
            (Main.mkRemote Main.TokenMissing None (fun _ => None) (fun _ => None)
                           (fun _ => None) (fun _ => None) (Ok false))
            (Scenario.fresh_cache 1 (-1))
  = Main.mkRun 2 Scenario.configured (Scenario.fresh_cache 1 (-1))
               (Scenario.fresh_cache 1 (-1)).
Proof.
  destruct (failed_upgrade_is_reported_not_enforced Scenario.clock
              Scenario.lineups_unchanged) as (H1 & H2 & H3).
  split; [|split].
  - apply H1. simpl. lia.
  - apply H2; [simpl; lia|].
    exists 1, "sql/upgrade1.sql". split; [left; reflexivity|]. split; [simpl; lia|].
    reflexivity.
  - apply (H3 Scenario.configured 0); [reflexivity | discriminate | reflexivity].
Defined.

Lemma unchanged_fingerprints_witness :
  let r := Scenario.service Scenario.healthy Scenario.a_day [Scenario.an_entry] in
  let d0 := Scenario.fresh_cache 1 0 in
  let d1 := snd (Main.stage_b_to_d Scenario.clock r 0 [Scenario.station_name 1] d0) in
  snd (Cache.store_schedule_index Scenario.clock (Scenario.one_day Scenario.a_day)
         Scenario.settled_cache) = Scenario.settled_cache /\
  snd (Cache.store_programs 9 [Scenario.a_program] None Scenario.settled_cache)
  = Scenario.settled_cache /\
  snd (Main.stage_b_to_d Scenario.clock r 5 ["10021"] Scenario.settled_cache)
  = Scenario.settled_cache /\
  Main.stage_b_to_d Scenario.clock r 5 [Scenario.station_name 1] d1 = (Ok tt, d1) /\
  length (journal d1) = 3%nat.
Proof.
  intros r d0 d1.
  destruct (unchanged_fingerprints_write_nothing Scenario.clock) as (H1 & H2 & H3 & H4).
  assert (Hday : Spec.fingerprints_unchanged Scenario.settled_cache
                   (Scenario.one_day Scenario.a_day)).
  { intros s days day e ord Hs Hd Hne Ho.
    destruct Hs as [Hs|[]]. inversion Hs; subst s days.
    destruct Hd as [Hd|[]]. inversion Hd; subst day e.
    vm_compute in Ho. inversion Ho; subst ord.
    eexists. split; vm_compute; reflexivity. }
  split; [|split; [|split; [|split]]].
  - apply H1. exact Hday.
  - apply H2. intros item [<-|[]]. eexists. split; vm_compute; reflexivity.
  - apply H3. intros chunks chunk dat Hc Hin Hdat.
    vm_compute in Hc. inversion Hc; subst chunks.
    destruct Hin as [<-|[]]. vm_compute in Hdat. inversion Hdat; subst dat.
    exact Hday.
  - apply (H4 r 0 5 [Scenario.station_name 1] d0 d1).
    + unfold Spec.rowids_unique. vm_compute. constructor.
    + intros chunks Hc. vm_compute in Hc. inversion Hc; subst chunks.
      vm_compute. split; repeat constructor.
      * intros [].
      * exists 735659. reflexivity.
    + vm_compute. reflexivity.
  - vm_compute. reflexivity.
Defined.

Lemma changed_day_entries_replaced_witness :
  let d := Scenario.stale_cache in
  let d1 := snd (Cache.store_schedule_index Scenario.clock
                   (Scenario.one_day Scenario.a_day) d) in
  let d2 := snd (Cache.store_schedules Scenario.clock Scenario.new_schedule d1) in
  length (Spec.owned d 1) = 1%nat /\
  Spec.owned d1 1 = [] /\
  journal d1 = [SDelete "schedule"; SUpdate "scheduleindex"] /\
  Spec.stored_md5 d1 "10021" (Some 735659) = Some (VText "90OhzuWDRZ/3pDA8kiD/3Q") /\
  Forall2 (Spec.entry_row Scenario.clock d1) (Spec.owned d2 1)
          [(Sched.mkItem "10021" "2015-03-02" [Scenario.an_entry], Scenario.an_entry)].
Proof.
  intros d d1 d2.
  destruct (changed_day_entries_replaced Scenario.clock) as [Hround Hcalls].
  destruct (Hround "10021" [] 0 "2015-03-02" Scenario.a_day d (Some 735659)
              Scenario.stale_index_row 0) as (Hstep & Hj & _);
    try reflexivity; try discriminate.
  destruct (Hcalls (Scenario.one_day Scenario.a_day) d
              [("10021", ["2015-03-02"])] 0 d1 Scenario.new_schedule
              ["EP012345670001"] d2 "10021" [("2015-03-02", Scenario.a_day)]
              "2015-03-02" Scenario.a_day 735659 Scenario.stale_index_row)
    as (Hempty & _ & Hmd5 & Hall).
  - unfold Spec.rowids_unique. vm_compute. repeat constructor. intros [].
  - vm_compute. reflexivity.
  - vm_compute. reflexivity.
  - left. reflexivity.
  - left. reflexivity.
  - discriminate.
  - reflexivity.
  - reflexivity.
  - discriminate.
  - split; [reflexivity|]. split; [exact Hempty|]. split; [|split].
    + vm_compute. reflexivity.
    + apply Hmd5. vm_compute. repeat constructor. intros [].
    + exact Hall.
Defined.

(** ** Text helpers *)

Section TextFacts.

Lemma string_app_assoc (a b c : string) :
  ((a ++ b) ++ c = a ++ (b ++ c))%string.
Proof. induction a as [|x a IH]; simpl; [reflexivity|]. now rewrite IH. Qed.

Lemma replace_app (old : ascii) (new a b : string) :
  Text.replace old new (a ++ b)%string
  = (Text.replace old new a ++ Text.replace old new b)%string.
Proof.
  induction a as [|c a IH]; simpl; [reflexivity|].
  destruct (Ascii.eqb c old); simpl; rewrite IH; [|reflexivity].
  symmetry. apply string_app_assoc.
Qed.

Lemma xml_escape_nil : Text.xml_escape "" = "".
Proof. reflexivity. Qed.

Lemma replace_cons (old : ascii) (new : string) (c : ascii) (s : string) :
  Text.replace old new (String c s)
  = if Ascii.eqb c old then (new ++ Text.replace old new s)%string
    else String c (Text.replace old new s).
Proof. reflexivity. Qed.

(** The three replacements in a row rewrite each character once: the
    ampersand of an entity is not escaped again. *)
Lemma xml_escape_cons (c : ascii) (s : string) :
  Text.xml_escape (String c s) = (Text.entity c ++ Text.xml_escape s)%string.
Proof.
  unfold Text.xml_escape, Text.entity. rewrite replace_cons.
  destruct (Ascii.eqb c "&") eqn:Ha.
  - rewrite !replace_app. reflexivity.
  - rewrite replace_cons. destruct (Ascii.eqb c "<") eqn:Hl.
    + rewrite !replace_app. reflexivity.
    + rewrite replace_cons. destruct (Ascii.eqb c ">"); reflexivity.
Qed.

Lemma occurs_app (c : ascii) (a b : string) :
  Text.occurs c (a ++ b)%string = (Text.occurs c a || Text.occurs c b)%bool.
Proof.
  induction a as [|x a IH]; simpl; [reflexivity|]. rewrite IH. apply orb_assoc.
Qed.

Lemma split_plain (sep : ascii) (s : string) :
  Text.occurs sep s = false -> Text.split sep s = [s].
Proof.
  induction s as [|c s IH]; simpl; [reflexivity|].
  intros H. apply orb_false_iff in H as [Hc Hs]. rewrite Hc, (IH Hs). reflexivity.
Qed.

Lemma split_app (sep : ascii) (a b : string) :
  Text.occurs sep a = false ->
  Text.split sep (a ++ String sep b)%string = a :: Text.split sep b.
Proof.
  induction a as [|c a IH]; simpl.
  - intros _. rewrite Ascii.eqb_refl. reflexivity.
  - intros H. apply orb_false_iff in H as [Hc Ha]. rewrite Hc, (IH Ha). reflexivity.
Qed.

Lemma split_join (sep : ascii) (l : list string) :
  l <> [] -> Forall (fun s => Text.occurs sep s = false) l ->
  Text.split sep (Text.join sep l) = l.
Proof.
  induction l as [|a l IH]; [congruence|]. intros _ Hall.
  inversion Hall as [|? ? Ha Hl]; subst.
  destruct l as [|b l].
  - simpl. apply split_plain, Ha.
  - unfold Text.join in *. change (String.concat (String sep "") (a :: b :: l))
      with (a ++ String sep (String.concat (String sep "") (b :: l)))%string.
    rewrite split_app by exact Ha. f_equal. apply IH; [discriminate|exact Hl].
Qed.

Lemma split_nonempty (sep : ascii) (s : string) : Text.split sep s <> [].
Proof.
  destruct s as [|c s]; simpl; [discriminate|].
  destruct (Ascii.eqb c sep); [discriminate|].
  destruct (Text.split sep s); discriminate.
Qed.

Lemma splitter_item_ok (b : bool) (item : string) :
  exists p, Text.splitter_item b item = Ok p.
Proof.
  unfold Text.splitter_item. pose proof (split_nonempty Text.bar item) as Hne.
  destruct (Text.split Text.bar item) as [|y0 [|y1 r]]; [congruence|eauto|].
  destruct b; eauto.
Qed.

Lemma splitter_items_map (b : bool) (dat : list string) (f : string -> Text.piece) :
  Forall (fun item => Text.splitter_item b item = Ok (f item)) dat ->
  Text.splitter_items b dat = Ok (map f dat).
Proof.
  induction 1 as [|item dat Hi _ IH]; simpl; [reflexivity|].
  rewrite Hi, IH. reflexivity.
Qed.

End TextFacts.

(** The splitter returns a list for every string: no index is out of
    range. *)
Lemma tab_and_vertical_splitter_returns (basestring : string) (make_single : bool) :
  exists res, Text.tab_and_vertical_splitter basestring make_single = Ok res.
Proof.
  unfold Text.tab_and_vertical_splitter.
  induction (Text.split Text.tab basestring) as [|item dat [res IH]]; simpl; [eauto|].
  destruct (splitter_item_ok make_single item) as [p Hp]. rewrite Hp, IH. simpl. eauto.
Qed.

(** X1. [xml_escape] leaves no raw markup: the result holds neither [<] nor
    [>], and each of its ampersands starts one of the entities [&amp;],
    [&lt;] and [&gt;]; this holds for every input, ampersands and entities
    in the input included. *)
Theorem xml_escape_leaves_no_markup (s : string) :
  Text.occurs "<" (Text.xml_escape s) = false /\
  Text.occurs ">" (Text.xml_escape s) = false /\
  Text.ampersands_start_entities (Text.xml_escape s) = true.
Proof.
  assert (Hp : forall x, String.prefix "" x = true) by (intros []; reflexivity).
  induction s as [|c s (IH1 & IH2 & IH3)]; [repeat split|].
  rewrite xml_escape_cons. unfold Text.entity.
  destruct (Ascii.eqb c "&") eqn:Ha; [|destruct (Ascii.eqb c "<") eqn:Hl;
    [|destruct (Ascii.eqb c ">") eqn:Hg]].
  - simpl. rewrite IH1, IH2, IH3, Hp. repeat split.
  - simpl. rewrite IH1, IH2, IH3, Hp. repeat split.
  - simpl. rewrite IH1, IH2, IH3, Hp. repeat split.
  - simpl. rewrite Hl, Hg, Ha, IH1, IH2, IH3. repeat split.
Qed.

(** X2. [xml_escape] loses nothing: two texts with the same escaped form are
    the same text. *)
Theorem xml_escape_injective (s1 s2 : string) :
  Text.xml_escape s1 = Text.xml_escape s2 -> s1 = s2.
Proof.
  revert s2. induction s1 as [|c1 s1 IH]; intros [|c2 s2].
  - reflexivity.
  - rewrite xml_escape_cons, xml_escape_nil. unfold Text.entity.
    destruct (Ascii.eqb c2 "&"); [discriminate|].
    destruct (Ascii.eqb c2 "<"); [discriminate|].
    destruct (Ascii.eqb c2 ">"); discriminate.
  - rewrite xml_escape_cons, xml_escape_nil. unfold Text.entity.
    destruct (Ascii.eqb c1 "&"); [discriminate|].
    destruct (Ascii.eqb c1 "<"); [discriminate|].
    destruct (Ascii.eqb c1 ">"); discriminate.
  - rewrite !xml_escape_cons. unfold Text.entity.
    destruct (Ascii.eqb c1 "&") eqn:Ha1; [|destruct (Ascii.eqb c1 "<") eqn:Hl1;
      [|destruct (Ascii.eqb c1 ">") eqn:Hg1]];
    (destruct (Ascii.eqb c2 "&") eqn:Ha2; [|destruct (Ascii.eqb c2 "<") eqn:Hl2;
      [|destruct (Ascii.eqb c2 ">") eqn:Hg2]]);
    simpl; intros H;
    repeat match goal with
           | E : Ascii.eqb _ _ = true |- _ => apply Ascii.eqb_eq in E; subst
           end;
    try discriminate H;
    inversion H; subst;
    try discriminate;
    try (f_equal; apply IH; assumption).
Qed.

(** ** Cast and crew: what is stored is read back *)

Section PeopleFacts.

Variables name_key role_key : string.

Lemma clist_encoded (l : list (dict string)) :
  Forall (People.plain_item name_key role_key) l ->
  People.clist l name_key role_key = Ok (map (People.encoded name_key role_key) l).
Proof.
  induction 1 as [|item l [(name & Hn & _) _] _ IH]; simpl; [reflexivity|].
  unfold People.encoded. rewrite Hn, IH. reflexivity.
Qed.

Lemma encoded_without_tab (item : dict string) :
  People.plain_item name_key role_key item ->
  Text.occurs Text.tab (People.encoded name_key role_key item) = false.
Proof.
  intros [(name & Hn & Hpn) Hr]. unfold People.encoded. rewrite Hn.
  destruct (dict_get item role_key) as [role|]; [|apply Hpn].
  destruct (Hr role eq_refl) as [Ht _]. destruct Hpn as [Hnt _].
  rewrite occurs_app, Hnt. simpl. exact Ht.
Qed.

Lemma encoded_decoded (b : bool) (item : dict string) :
  People.plain_item name_key role_key item ->
  Text.splitter_item b (People.encoded name_key role_key item)
  = Ok (People.decoded b name_key role_key item).
Proof.
  intros [(name & Hn & Hpn) Hr]. unfold People.encoded, People.decoded, Text.splitter_item.
  rewrite Hn. destruct (dict_get item role_key) as [role|].
  - destruct (Hr role eq_refl) as [_ Hb]. destruct Hpn as [_ Hnb].
    change (name ++ "|" ++ role)%string with (name ++ String Text.bar role)%string.
    rewrite split_app by exact Hnb. rewrite split_plain by exact Hb.
    destruct b; reflexivity.
  - destruct Hpn as [_ Hnb]. rewrite split_plain by exact Hnb. reflexivity.
Qed.

End PeopleFacts.

(** X3. The compact cast and crew strings round-trip: for a non-empty list of
    people whose names and roles hold neither a tab nor a bar,
    [_get_cast_crew_string] returns a string from which
    [tab_and_vertical_splitter] gives back the people in order, as
    ["name (role)"] with [make_single] and as the pair of name and role
    without it; a person without role comes back as the bare name. *)
Theorem cast_crew_round_trip (name_key role_key : string) (l : list (dict string))
    (make_single : bool) :
  l <> [] ->
  Forall (People.plain_item name_key role_key) l ->
  exists s,
    People._get_cast_crew_string (Some l) name_key role_key = Ok (Some s) /\
    Text.tab_and_vertical_splitter s make_single
    = Ok (map (People.decoded make_single name_key role_key) l).
Proof.
  intros Hne Hall.
  exists (Text.join Text.tab (map (People.encoded name_key role_key) l)). split.
  - unfold People._get_cast_crew_string. rewrite (clist_encoded _ _ _ Hall). simpl.
    destruct l; [congruence|reflexivity].
  - unfold Text.tab_and_vertical_splitter. rewrite split_join.
    + rewrite (splitter_items_map make_single _
                 (fun e => match Text.splitter_item make_single e with
                           | Ok p => p
                           | Raise _ => Text.Str ""
                           end)).
      * rewrite map_map. f_equal. apply map_ext_in. intros item Hin.
        rewrite Forall_forall in Hall.
        rewrite (encoded_decoded _ _ _ _ (Hall _ Hin)). reflexivity.
      * apply Forall_forall. intros e _.
        destruct (splitter_item_ok make_single e) as [p Hp]. rewrite Hp. reflexivity.
    + destruct l; [congruence|discriminate].
    + apply Forall_forall. intros e He. apply in_map_iff in He as (item & <- & Hin).
      rewrite Forall_forall in Hall. apply encoded_without_tab, Hall, Hin.
Qed.

(** X4. The tab-joined lists (genres, audio and video properties) round-trip
    through the splitter for a non-empty list of strings without tab and
    bar; the empty list does not: it is stored as the empty string, which
    comes back as one empty item. *)
Theorem stringlist_round_trip (stringlist : list string) (make_single : bool) :
  Forall People.plain stringlist ->
  exists s,
    Cache.calc_string_from_stringlist stringlist = VText s /\
    Text.tab_and_vertical_splitter s make_single
    = Ok (map Text.Str (match stringlist with [] => [""] | _ => stringlist end)).
Proof.
  intros Hall. eexists. split; [reflexivity|].
  destruct stringlist as [|a l]; [reflexivity|].
  unfold Text.tab_and_vertical_splitter.
  change (String.concat (String (ascii_of_nat 9) "") (a :: l))
    with (Text.join Text.tab (a :: l)).
  rewrite split_join; [|discriminate|].
  - apply splitter_items_map. apply Forall_forall. intros e He.
    rewrite Forall_forall in Hall. destruct (Hall e He) as [_ Hb].
    unfold Text.splitter_item. rewrite split_plain by exact Hb. reflexivity.
  - apply Forall_forall. intros e He. rewrite Forall_forall in Hall.
    apply (Hall e He).
Qed.

(** ** Dates as keys *)

Section DateFacts.

Lemma is_digit_range (c : ascii) :
  Util.is_digit c = true -> 0 <= Util.digit c <= 9.
Proof.
  unfold Util.is_digit, Util.digit. intros H.
  apply andb_true_iff in H as [H1 H2].
  apply Nat.leb_le in H1. apply Nat.leb_le in H2. lia.
Qed.

Lemma digit_injective (c c' : ascii) : Util.digit c = Util.digit c' -> c = c'.
Proof.
  unfold Util.digit. intros H.
  rewrite <- (ascii_nat_embedding c), <- (ascii_nat_embedding c').
  f_equal. lia.
Qed.

Lemma days_before_year_succ (y : Z) :
  Util.days_before_year (y + 1)
  = Util.days_before_year y + (if Util.is_leap y then 366 else 365).
Proof.
  unfold Util.days_before_year, Util.is_leap.
  replace (y + 1 - 1) with y by lia.
  destruct (y mod 4 =? 0) eqn:H4; destruct (y mod 100 =? 0) eqn:H100;
    destruct (y mod 400 =? 0) eqn:H400; simpl;
    rewrite ?Z.eqb_eq, ?Z.eqb_neq in *; Z.div_mod_to_equations; lia.
Qed.

Lemma days_before_year_mono (y y' : Z) :
  y <= y' -> Util.days_before_year y <= Util.days_before_year y'.
Proof. unfold Util.days_before_year. intros H. Z.div_mod_to_equations. lia. Qed.

(** Evaluation of the month tables at a month that is a numeral. *)
Ltac months :=
  unfold Util.days_before_month, Util.days_in_month;
  repeat match goal with
         | |- context [Z.to_nat ?e] =>
             let n := eval vm_compute in (Z.to_nat e) in change (Z.to_nat e) with n
         end;
  cbn [seq map fold_right];
  repeat match goal with
         | |- context [Z.of_nat ?e] =>
             let n := eval vm_compute in (Z.of_nat e) in change (Z.of_nat e) with n
         end;
  cbn [Z.eqb Pos.eqb orb].

(** The day of the year of a date of the calendar lies within the year. *)
Lemma day_of_year_range (y m d : Z) :
  1 <= m <= 12 -> 1 <= d <= Util.days_in_month y m ->
  1 <= Util.days_before_month y m + d <= (if Util.is_leap y then 366 else 365).
Proof.
  intros Hm Hd.
  assert (Hc : m = 1 \/ m = 2 \/ m = 3 \/ m = 4 \/ m = 5 \/ m = 6 \/ m = 7 \/
               m = 8 \/ m = 9 \/ m = 10 \/ m = 11 \/ m = 12) by lia.
  repeat (destruct Hc as [Hc|Hc]); subst m; revert Hd; months;
    destruct (Util.is_leap y); lia.
Qed.

(** Within a year, the later date has the greater day of the year. *)
Lemma day_of_year_mono (y m d m' d' : Z) :
  1 <= m <= 12 -> 1 <= d <= Util.days_in_month y m ->
  1 <= m' <= 12 -> 1 <= d' <= Util.days_in_month y m' ->
  m < m' \/ (m = m' /\ d < d') ->
  Util.days_before_month y m + d < Util.days_before_month y m' + d'.
Proof.
  intros Hm Hd Hm' Hd' Hlt.
  assert (Hc : m = 1 \/ m = 2 \/ m = 3 \/ m = 4 \/ m = 5 \/ m = 6 \/ m = 7 \/
               m = 8 \/ m = 9 \/ m = 10 \/ m = 11 \/ m = 12) by lia.
  assert (Hc' : m' = 1 \/ m' = 2 \/ m' = 3 \/ m' = 4 \/ m' = 5 \/ m' = 6 \/ m' = 7 \/
                m' = 8 \/ m' = 9 \/ m' = 10 \/ m' = 11 \/ m' = 12) by lia.
  repeat (destruct Hc as [Hc|Hc]); subst m;
    repeat (destruct Hc' as [Hc'|Hc']); subst m';
    revert Hd Hd'; months; destruct (Util.is_leap y); lia.
Qed.

Lemma date_toordinal_ok (y m d o : Z) :
  Util.date_toordinal y m d = Ok o ->
  1 <= y /\ 1 <= m <= 12 /\ 1 <= d <= Util.days_in_month y m /\
  o = Util.days_before_year y + Util.days_before_month y m + d.
Proof.
  unfold Util.date_toordinal.
  destruct (_ && _)%bool eqn:H; [|discriminate].
  intros [= <-]. rewrite !andb_true_iff, !Z.leb_le in H. lia.
Qed.

(** The ordinal grows with the date. *)
Lemma date_toordinal_mono (y m d o y' m' d' o' : Z) :
  Util.date_toordinal y m d = Ok o ->
  Util.date_toordinal y' m' d' = Ok o' ->
  y < y' \/ (y = y' /\ (m < m' \/ (m = m' /\ d < d'))) ->
  o < o'.
Proof.
  intros H H' Hlt.
  apply date_toordinal_ok in H as (Hy & Hm & Hd & ->).
  apply date_toordinal_ok in H' as (Hy' & Hm' & Hd' & ->).
  destruct Hlt as [Hlt|[<- Hlt]].
  - pose proof (day_of_year_range y m d Hm Hd) as R.
    pose proof (day_of_year_range y' m' d' Hm' Hd') as R'.
    pose proof (days_before_year_succ y) as S.
    pose proof (days_before_year_mono (y + 1) y' ltac:(lia)) as Mo.
    lia.
  - pose proof (day_of_year_mono y m d m' d' Hm Hd Hm' Hd' Hlt). lia.
Qed.

Lemma date_toordinal_injective (y m d y' m' d' o : Z) :
  Util.date_toordinal y m d = Ok o ->
  Util.date_toordinal y' m' d' = Ok o ->
  y = y' /\ m = m' /\ d = d'.
Proof.
  intros H H'.
  destruct (Z.lt_trichotomy y y') as [L|[E|L]];
    [pose proof (date_toordinal_mono _ _ _ _ _ _ _ _ H H' (or_introl L)); lia| |
     pose proof (date_toordinal_mono _ _ _ _ _ _ _ _ H' H (or_introl L)); lia].
  subst y'. split; [reflexivity|].
  destruct (Z.lt_trichotomy m m') as [L|[E|L]];
    [pose proof (date_toordinal_mono _ _ _ _ _ _ _ _ H H'
                   (or_intror (conj eq_refl (or_introl L)))); lia| |
     pose proof (date_toordinal_mono _ _ _ _ _ _ _ _ H' H
                   (or_intror (conj eq_refl (or_introl L)))); lia].
  subst m'. split; [reflexivity|].
  destruct (Z.lt_trichotomy d d') as [L|[E|L]];
    [pose proof (date_toordinal_mono _ _ _ _ _ _ _ _ H H'
                   (or_intror (conj eq_refl (or_intror (conj eq_refl L))))); lia|
     exact E|
     pose proof (date_toordinal_mono _ _ _ _ _ _ _ _ H' H
                   (or_intror (conj eq_refl (or_intror (conj eq_refl L))))); lia].
Qed.

(** What [date_to_int] makes of a string that it accepts. *)
Lemma date_to_int_some (s : string) (o : Z) :
  Util.date_to_int s = Ok (Some o) ->
  exists y1 y2 y3 y4 m1 m2 d1 d2 rest,
    s = String y1 (String y2 (String y3 (String y4 (String "-"
          (String m1 (String m2 (String "-" (String d1 (String d2 rest))))))))) /\
    Forall (fun c => Util.is_digit c = true) [y1; y2; y3; y4; m1; m2; d1; d2] /\
    Util.date_toordinal
      (Util.digit y1 * 1000 + Util.digit y2 * 100 + Util.digit y3 * 10 + Util.digit y4)
      (Util.digit m1 * 10 + Util.digit m2) (Util.digit d1 * 10 + Util.digit d2) = Ok o.
Proof.
  intros H.
  do 10 (destruct s as [|? s]; [discriminate H|]).
  unfold Util.date_to_int in H.
  destruct (_ && _)%bool eqn:Hc in H; [|discriminate H].
  apply andb_true_iff in Hc as [Hc Hs2]. apply andb_true_iff in Hc as [Hdig Hs1].
  apply Ascii.eqb_eq in Hs1, Hs2. subst.
  destruct (Util.date_toordinal _ _ _) as [o'|e] eqn:Ho in H; [|discriminate H].
  injection H as ->.
  do 9 eexists. split; [reflexivity|]. split; [|exact Ho].
  apply Forall_forall. intros c Hin. rewrite forallb_forall in Hdig. apply Hdig, Hin.
Qed.

End DateFacts.

(** [date_to_int] reads the first ten characters and nothing else: what
    follows a date (a time, any text) is ignored, and a string shorter than
    a date is no date. *)
Theorem date_to_int_reads_ten_characters (daystring : string) :
  Util.date_to_int daystring = Util.date_to_int (String.substring 0 10 daystring) /\
  ((String.length daystring < 10)%nat -> Util.date_to_int daystring = Ok None).
Proof.
  split.
  - do 10 (destruct daystring as [|? daystring]; [reflexivity|]).
    destruct daystring; reflexivity.
  - do 10 (destruct daystring as [|? daystring]; [reflexivity|]).
    simpl. lia.
Qed.

(** X5. Different days have different ordinals: two strings whose first
    ten characters are ASCII and that [date_to_int] turns into the same
    number carry the same date in those ten characters.  The ordinal is at
    least 1. *)
Theorem date_to_int_injective (s1 s2 : string) (o : Z) :
  Text.is_ascii (String.substring 0 10 s1) = true ->
  Text.is_ascii (String.substring 0 10 s2) = true ->
  Util.date_to_int s1 = Ok (Some o) ->
  Util.date_to_int s2 = Ok (Some o) ->
  String.substring 0 10 s1 = String.substring 0 10 s2 /\ 1 <= o.
Proof.
  intros _ _ H1 H2.
  apply date_to_int_some in H1 as (a1 & a2 & a3 & a4 & a5 & a6 & a7 & a8 & r1 & -> & Hd1 & Ho1).
  apply date_to_int_some in H2 as (b1 & b2 & b3 & b4 & b5 & b6 & b7 & b8 & r2 & -> & Hd2 & Ho2).
  destruct (date_toordinal_injective _ _ _ _ _ _ _ Ho1 Ho2) as (Hy & Hm & Hd).
  split.
  - repeat match goal with
           | H : Forall _ (_ :: _) |- _ => inversion H; clear H; subst
           | H : Util.is_digit _ = true |- _ => apply is_digit_range in H
           end.
    assert (Util.digit a1 = Util.digit b1) by lia.
    assert (Util.digit a2 = Util.digit b2) by lia.
    assert (Util.digit a3 = Util.digit b3) by lia.
    assert (Util.digit a4 = Util.digit b4) by lia.
    assert (Util.digit a5 = Util.digit b5) by lia.
    assert (Util.digit a6 = Util.digit b6) by lia.
    assert (Util.digit a7 = Util.digit b7) by lia.
    assert (Util.digit a8 = Util.digit b8) by lia.
    repeat match goal with
           | H : Util.digit _ = Util.digit _ |- _ => apply digit_injective in H; subst
           end.
    destruct r1, r2; reflexivity.
  - apply date_toordinal_ok in Ho1 as (Hy1 & Hm1 & Hdd & ->).
    pose proof (day_of_year_range _ _ _ Hm1 Hdd).
    pose proof (days_before_year_mono 1 _ Hy1) as Mo.
    change (Util.days_before_year 1) with 0 in Mo. lia.
Qed.

(** ** The builder as an object *)

Section BuiltFacts.

Lemma index_none (l : list string) (x : string) :
  Qb.index l x = None <-> ~ In x l.
Proof.
  induction l as [|y l IH]; simpl; [tauto|].
  destruct (String.eqb y x) eqn:E.
  - apply String.eqb_eq in E. subst. split; [discriminate|]. intros H. exfalso. auto.
  - apply String.eqb_neq in E. destruct (Qb.index l x) as [k|] eqn:E2.
    + split; [discriminate|]. intros H.
      assert (Hx : ~ In x l) by (intros Hin; apply H; right; exact Hin).
      apply IH in Hx. discriminate.
    + split; [|reflexivity]. intros _ [H|H]; [contradiction|].
      destruct IH as [IH _]. exact (IH eq_refl H).
Qed.

Lemma index_some (l : list string) (x : string) (po : nat) :
  Qb.index l x = Some po -> nth_error l po = Some x /\ (po < length l)%nat.
Proof.
  revert po. induction l as [|y l IH]; intros po; simpl; [discriminate|].
  destruct (String.eqb y x) eqn:E.
  - apply String.eqb_eq in E. subst. intros [= <-]. simpl. split; [reflexivity|lia].
  - destruct (Qb.index l x) as [n|]; [|discriminate]. intros [= <-].
    destruct (IH n eq_refl). simpl. split; [assumption|lia].
Qed.

Lemma pop_length (A : Type) (l : list A) (po : nat) :
  (po < length l)%nat -> S (length (Qb.pop l po)) = length l.
Proof.
  revert po. induction l as [|x l IH]; intros po; simpl; [lia|].
  destruct po; [reflexivity|]. simpl. intros H. rewrite IH by lia. reflexivity.
Qed.

Lemma pop_in (A : Type) (l : list A) (po : nat) (x : A) :
  In x (Qb.pop l po) -> In x l.
Proof.
  revert po. induction l as [|y l IH]; intros po; simpl; [tauto|].
  destruct po; simpl; [auto|]. intros [H|H]; [auto|eauto].
Qed.

Lemma pop_nodup (l : list string) (po : nat) (x : string) :
  NoDup l -> nth_error l po = Some x ->
  NoDup (Qb.pop l po) /\ ~ In x (Qb.pop l po).
Proof.
  revert po. induction l as [|y l IH]; intros po Hnd; simpl.
  - destruct po; discriminate.
  - inversion Hnd as [|? ? Hy Hl]; subst. destruct po; simpl.
    + intros [= <-]. auto.
    + intros Hn. destruct (IH po Hl Hn) as [N1 N2]. split.
      * constructor; [|exact N1]. intros Hin. apply Hy. eapply pop_in, Hin.
      * intros [H|H]; [|auto]. subst. apply Hy. eapply nth_error_In, Hn.
Qed.

Lemma nodup_snoc (l : list string) (x : string) :
  NoDup l -> ~ In x l -> NoDup (l ++ [x]).
Proof.
  intros Hl Hx. apply NoDup_app; [exact Hl|repeat constructor; auto|].
  intros y Hy [<-|[]]. auto.
Qed.

(** A builder holds no field twice and as many values as fields. *)
Lemma built_wf (qb : Query_builder) :
  Builder.built qb ->
  NoDup (fields qb) /\ length (fields qb) = length (values qb).
Proof.
  induction 1 as [t|qb qb' f v o _ [Hnd Hlen] Hadd]; [split; [constructor|reflexivity]|].
  unfold Qb.add in Hadd. destruct (Qb.index (fields qb) f) as [po|] eqn:E.
  - destruct o; [|discriminate]. injection Hadd as <-. simpl.
    apply index_some in E as [Hn Hlt].
    destruct (pop_nodup _ _ _ Hnd Hn) as [N1 N2]. split.
    + apply nodup_snoc; assumption.
    + rewrite !length_app. simpl.
      pose proof (pop_length _ (fields qb) po Hlt).
      pose proof (pop_length _ (values qb) po ltac:(lia)). lia.
  - injection Hadd as <-. simpl. apply index_none in E. split.
    + apply nodup_snoc; assumption.
    + rewrite !length_app. simpl. lia.
Qed.

(** With as many values as fields, the value of a field is the one paired
    with it. *)
Lemma value_of_pairs (qb : Query_builder) (k : string) :
  length (fields qb) = length (values qb) ->
  Qb.value_of qb k = match dict_get (Qb.pairs qb) k with
                     | Some v => Ok v
                     | None => Raise ValueError
                     end.
Proof.
  unfold Qb.value_of, Qb.pairs. generalize (values qb) as vs.
  induction (fields qb) as [|f fs IH]; intros vs Hlen; simpl; [reflexivity|].
  destruct vs as [|v vs]; [discriminate|]. simpl.
  destruct (String.eqb f k); [reflexivity|].
  specialize (IH vs ltac:(simpl in Hlen; lia)).
  destruct (Qb.index fs k); simpl; exact IH.
Qed.

Lemma pairs_keys (fs : list string) (vs : list sqlval) :
  length fs = length vs -> map fst (combine fs vs) = fs.
Proof.
  revert vs. induction fs as [|f fs IH]; intros [|v vs]; simpl; try discriminate;
    [reflexivity|]. intros H. rewrite IH by lia. reflexivity.
Qed.

Lemma pop_combine (fs : list string) (vs : list sqlval) (po : nat) :
  length fs = length vs ->
  combine (Qb.pop fs po) (Qb.pop vs po) = Qb.pop (combine fs vs) po.
Proof.
  revert vs po. induction fs as [|f fs IH]; intros [|v vs] po; simpl; try discriminate;
    [reflexivity|].
  intros H. destruct po; [reflexivity|]. simpl. rewrite IH by lia. reflexivity.
Qed.

Lemma combine_snoc (fs : list string) (vs : list sqlval) (f : string) (v : sqlval) :
  length fs = length vs -> combine (fs ++ [f]) (vs ++ [v]) = combine fs vs ++ [(f, v)].
Proof.
  revert vs. induction fs as [|x fs IH]; intros [|y vs]; simpl; try discriminate;
    [reflexivity|]. intros H. rewrite IH by lia. reflexivity.
Qed.

Lemma dict_get_app (V : Type) (a b : dict V) (k : string) :
  dict_get (a ++ b) k = match dict_get a k with
                        | Some v => Some v
                        | None => dict_get b k
                        end.
Proof.
  induction a as [|[k' v'] a IH]; simpl; [reflexivity|].
  destruct (String.eqb k' k); [reflexivity|exact IH].
Qed.

Lemma dict_get_pop (V : Type) (d : dict V) (po : nat) (f g : string) :
  nth_error (dict_keys d) po = Some f -> g <> f ->
  dict_get (Qb.pop d po) g = dict_get d g.
Proof.
  revert po. induction d as [|[k v] d IH]; intros po; simpl.
  - destruct po; discriminate.
  - destruct po; simpl.
    + intros [= ->] Hne. destruct (String.eqb f g) eqn:E; [|reflexivity].
      apply String.eqb_eq in E. congruence.
    + intros Hn Hne. rewrite (IH po Hn Hne). reflexivity.
Qed.

Lemma dict_get_none (V : Type) (d : dict V) (k : string) :
  ~ In k (dict_keys d) -> dict_get d k = None.
Proof.
  intros H. destruct (dict_get d k) eqn:E; [|reflexivity].
  exfalso. apply H. eapply dict_get_in, E.
Qed.

End BuiltFacts.

(** The builder never holds a field twice: however the calls of [add] went
    (with or without [override], failed calls included), the field names
    are pairwise different and there are as many values as fields. *)
Theorem built_fields_distinct (qb : Query_builder) :
  Builder.built qb ->
  NoDup (fields qb) /\ length (fields qb) = length (values qb).
Proof. apply built_wf. Qed.

(** X6. [add] with [override=True] never raises on a builder: afterwards the
    field carries the new value, every other field carries the value it
    had, and the field is the last one. *)
Theorem add_override_replaces (qb : Query_builder) (f : string) (v : sqlval) :
  Builder.built qb ->
  exists qb',
    Qb.add qb f v true = Ok qb' /\
    Qb.value_of qb' f = Ok v /\
    (forall g, g <> f -> Qb.value_of qb' g = Qb.value_of qb g) /\
    last (fields qb') "" = f.
Proof.
  intros Hb. destruct (built_wf qb Hb) as [Hnd Hlen].
  destruct (Qb.add qb f v true) as [qb'|e] eqn:Hadd;
    [|unfold Qb.add in Hadd; destruct (Qb.index (fields qb) f); discriminate].
  exists qb'. split; [reflexivity|].
  assert (Hb' : Builder.built qb') by (eapply Builder.built_add; eauto).
  destruct (built_wf qb' Hb') as [Hnd' Hlen'].
  rewrite (value_of_pairs qb' f Hlen').
  assert (Hg : forall g, Qb.value_of qb' g
                         = match dict_get (Qb.pairs qb') g with
                           | Some x => Ok x
                           | None => Raise ValueError
                           end)
    by (intros g; apply value_of_pairs, Hlen').
  unfold Qb.add in Hadd. unfold Qb.pairs in *.
  destruct (Qb.index (fields qb) f) as [po|] eqn:E.
  - injection Hadd as <-. simpl in *.
    apply index_some in E as [Hn Hlt].
    destruct (pop_nodup _ _ _ Hnd Hn) as [N1 N2].
    assert (Hl : length (Qb.pop (fields qb) po) = length (Qb.pop (values qb) po)).
    { pose proof (pop_length _ (fields qb) po Hlt).
      pose proof (pop_length _ (values qb) po ltac:(lia)). lia. }
    rewrite combine_snoc in * by exact Hl.
    split; [|split].
    + rewrite dict_get_app, dict_get_none; [simpl; rewrite String.eqb_refl; reflexivity|].
      unfold dict_keys. rewrite pairs_keys by exact Hl. exact N2.
    + intros g Hne. rewrite Hg, dict_get_app, (value_of_pairs qb g Hlen). unfold Qb.pairs.
      rewrite pop_combine by exact Hlen. rewrite (dict_get_pop _ _ po f g); [| |exact Hne].
      * destruct (dict_get (combine (fields qb) (values qb)) g); [reflexivity|].
        simpl. destruct (String.eqb f g) eqn:E; [|reflexivity].
        apply String.eqb_eq in E. congruence.
      * unfold dict_keys. rewrite pairs_keys by exact Hlen. exact Hn.
    + apply last_last.
  - injection Hadd as <-. simpl in *. apply index_none in E.
    rewrite combine_snoc in * by exact Hlen.
    split; [|split].
    + rewrite dict_get_app, dict_get_none; [simpl; rewrite String.eqb_refl; reflexivity|].
      unfold dict_keys. rewrite pairs_keys by exact Hlen. exact E.
    + intros g Hne. rewrite Hg, dict_get_app, (value_of_pairs qb g Hlen). unfold Qb.pairs.
      destruct (dict_get (combine (fields qb) (values qb)) g); [reflexivity|].
      simpl. destruct (String.eqb f g) eqn:E'; [|reflexivity].
      apply String.eqb_eq in E'. congruence.
    + apply last_last.
Qed.

(** ** What an INSERT or UPDATE of a builder leaves in the row *)

Section RowFacts.

Lemma row_get_set_id (r : row) (v : sqlval) (f : string) :
  f <> "id" -> row_get (row_set r "id" v) f = row_get r f.
Proof.
  intros Hf. unfold row_get, row_set, id_column. simpl.
  destruct (String.eqb f "id") eqn:E; [apply String.eqb_eq in E; contradiction|].
  destruct v; reflexivity.
Qed.

Lemma row_get_set_frame (r : row) (k f : string) (v : sqlval) :
  k <> f -> f <> "id" -> row_get (row_set r k v) f = row_get r f.
Proof.
  intros Hk Hf. destruct (string_dec k "id") as [->|Hid].
  - apply row_get_set_id, Hf.
  - unfold row_get, row_set, id_column.
    destruct (String.eqb k "id") eqn:E; [apply String.eqb_eq in E; contradiction|].
    simpl. destruct (String.eqb f "id"); [reflexivity|].
    rewrite dict_get_set_other by exact Hk. reflexivity.
Qed.

Lemma row_set_all_cons (r : row) (k : string) (v : sqlval) (fv : list (string * sqlval)) :
  row_set_all r ((k, v) :: fv) = row_set_all (row_set r k v) fv.
Proof. reflexivity. Qed.

Lemma row_set_all_untouched (fv : list (string * sqlval)) (r : row) (f : string) :
  ~ In f (map fst fv) -> f <> "id" -> row_get (row_set_all r fv) f = row_get r f.
Proof.
  revert r. induction fv as [|[k v] fv IH]; intros r Hn Hf; [reflexivity|].
  rewrite row_set_all_cons, IH; [|intros H; apply Hn; right; exact H|exact Hf].
  apply row_get_set_frame; [|exact Hf]. intros ->. apply Hn. left. reflexivity.
Qed.

Lemma row_set_all_in (fv : list (string * sqlval)) (r : row) (f : string) (v : sqlval) :
  NoDup (map fst fv) -> In (f, v) fv -> f <> "id" ->
  row_get (row_set_all r fv) f = v.
Proof.
  revert r. induction fv as [|[k x] fv IH]; intros r Hnd Hin Hf; [destruct Hin|].
  inversion Hnd as [|? ? Hk Hrest]; subst. rewrite row_set_all_cons.
  destruct Hin as [[= -> ->]|Hin].
  - rewrite row_set_all_untouched by assumption.
    unfold row_get, row_set, id_column.
    destruct (String.eqb f "id") eqn:E; [apply String.eqb_eq in E; contradiction|].
    simpl. rewrite dict_get_set_same. reflexivity.
  - apply IH; assumption.
Qed.

Lemma dict_get_pair (V : Type) (d : dict V) (k : string) (v : V) :
  dict_get d k = Some v -> In (k, v) d.
Proof.
  induction d as [|[k' v'] d IH]; simpl; [discriminate|].
  destruct (String.eqb k' k) eqn:E.
  - apply String.eqb_eq in E. intros [= ->]. left. congruence.
  - intros H. right. apply IH, H.
Qed.

(** The row written from a builder reads back, field by field, the value
    the builder holds. *)
Lemma row_reads_back (qb : Query_builder) (r : row) (f : string) (v : sqlval) :
  Builder.built qb -> Qb.value_of qb f = Ok v -> f <> "id" ->
  row_get (row_set_all r (Qb.pairs qb)) f = v.
Proof.
  intros Hb Hv Hf. destruct (built_wf qb Hb) as [Hnd Hlen].
  rewrite (value_of_pairs qb f Hlen) in Hv.
  destruct (dict_get (Qb.pairs qb) f) as [x|] eqn:E; [|discriminate].
  injection Hv as ->. apply row_set_all_in; [|apply dict_get_pair, E|exact Hf].
  unfold Qb.pairs. rewrite pairs_keys by exact Hlen. exact Hnd.
Qed.

Lemma sql_match_refl (v : sqlval) : v <> VNull -> sql_match v v = true.
Proof.
  destruct v; simpl; [congruence| |]; intros _;
    [apply Z.eqb_refl|apply String.eqb_refl].
Qed.

Lemma value_of_member (qb : Query_builder) (f : string) (v : sqlval) :
  Qb.value_of qb f = Ok v -> In f (fields qb).
Proof.
  unfold Qb.value_of. destruct (Qb.index (fields qb) f) as [ix|] eqn:E; [|discriminate].
  intros _. apply index_some in E as [Hn _]. eapply nth_error_In, Hn.
Qed.

End RowFacts.

(** What the INSERT of a builder leaves: one more row in its table, which
    reads back the builder's value in every field. *)
Lemma insert_row_read (qb : Query_builder) (d : db) :
  Builder.built qb ->
  exists r,
    fst (Qb.execute_insert qb d) = Ok tt /\
    get_table (snd (Qb.execute_insert qb d)) (table qb) = get_table d (table qb) ++ [r] /\
    (forall f v, Qb.value_of qb f = Ok v -> f <> "id" -> row_get r f = v) /\
    (forall f, ~ In f (fields qb) -> f <> "id" -> row_get r f = VNull) /\
    (forall t, t <> table qb ->
               get_table (snd (Qb.execute_insert qb d)) t = get_table d t).
Proof.
  intros Hb. unfold Qb.execute_insert, Sql.insert. simpl.
  eexists. split; [reflexivity|]. split; [apply get_set_table_same|]. split; [|split].
  - intros f v Hv Hf. apply row_reads_back; assumption.
  - intros f Hn Hf. destruct (built_wf qb Hb) as [_ Hlen].
    rewrite row_set_all_untouched; [| |exact Hf].
    + unfold row_get, id_column.
      destruct (String.eqb f "id") eqn:E; [apply String.eqb_eq in E; contradiction|].
      reflexivity.
    + unfold Qb.pairs. rewrite pairs_keys by exact Hlen. exact Hn.
  - intros t Ht. apply get_set_table_other. congruence.
Qed.

(** On values that can be bound: after one merge the same merge writes
    nothing. *)
Lemma merge_twice (qb : Query_builder) (sel cmp : string)
    (selval compval : sqlval) (d : db) :
  Builder.built qb ->
  Qb.value_of qb sel = Ok selval -> selval <> VNull -> sel <> "id" ->
  Qb.value_of qb cmp = Ok compval -> cmp <> "id" ->
  exists b d1,
    Qb.insert_or_update qb sel (Some cmp) d = (Ok b, d1) /\
    Qb.insert_or_update qb sel (Some cmp) d1 = (Ok false, d1).
Proof.
  intros Hb Hs Hnn Hsid Hc Hcid.
  assert (Hm : forall x, Sql.col_eq sel selval (row_set_all x (Qb.pairs qb)) = true).
  { intros x. unfold Sql.col_eq. rewrite (row_reads_back qb x sel selval Hb Hs Hsid).
    apply sql_match_refl, Hnn. }
  destruct (find (Sql.col_eq sel selval) (get_table d (table qb))) as [r|] eqn:Hf.
  - destruct (py_eq (row_get r cmp) compval) eqn:Hsame.
    + exists false, d.
      assert (E : Qb.insert_or_update qb sel (Some cmp) d = (Ok false, d)).
      { apply (insert_or_update_same qb sel cmp selval compval r d Hs Hc Hf).
        apply sqlval_eqb_eq, Hsame. }
      split; exact E.
    + eexists true, _. split.
      * unfold Qb.insert_or_update, bind, lift, Sql.select_first.
        rewrite Hs, Hc, Hf, Hsame. reflexivity.
      * apply (insert_or_update_same qb sel cmp selval compval
                 (row_set_all r (Qb.pairs qb)) _ Hs Hc).
        -- pose proof (find_some _ _ Hf) as [_ Hr].
           rewrite get_set_table_same, find_map_stable, Hf; [simpl; rewrite Hr; reflexivity|].
           intros x _. destruct (Sql.col_eq sel selval x) eqn:Ex; [apply Hm|exact Ex].
        -- apply row_reads_back; assumption.
  - eexists true, _. split.
    + unfold Qb.insert_or_update, bind, lift, Sql.select_first.
      rewrite Hs, Hc, Hf. reflexivity.
    + eapply (insert_or_update_same qb sel cmp selval compval _ _ Hs Hc).
      * rewrite get_set_table_same, find_app, Hf. simpl. rewrite Hm. reflexivity.
      * apply row_reads_back; assumption.
Qed.

(** A NULL identity value finds no row. *)
Lemma merge_null_identity (qb : Query_builder) (sel : string)
    (cmp : option string) (d : db) :
  Qb.value_of qb sel = Ok VNull ->
  (forall c, cmp = Some c -> exists v, Qb.value_of qb c = Ok v) ->
  Qb.insert_or_update qb sel cmp d
  = (Ok true, Spec.row_inserted d (table qb) (Qb.pairs qb)).
Proof.
  intros Hs Hc. unfold Qb.insert_or_update, bind, lift, Sql.select_first.
  rewrite Hs.
  assert (Hf : find (Sql.col_eq sel VNull) (get_table d (table qb)) = None).
  { induction (get_table d (table qb)) as [|x l IH]; [reflexivity|]. simpl.
    unfold Sql.col_eq at 1. rewrite sql_match_null. exact IH. }
  destruct cmp as [c|].
  - destruct (Hc c eq_refl) as [v Hv]. rewrite Hv, Hf. reflexivity.
  - rewrite Hf. reflexivity.
Qed.

(** *** The methods in full *)

Section FullMerge.

Lemma value_of_surplus (qb : Query_builder) (extra : list sqlval) (k : string)
    (v : sqlval) :
  Qb.value_of qb k = Ok v ->
  Qb.value_of (mkQb (fields qb) (values qb ++ extra) (table qb)) k = Ok v.
Proof.
  unfold Qb.value_of. simpl. destruct (Qb.index (fields qb) k) as [ix|]; [|discriminate].
  destruct (nth_error (values qb) ix) as [x|] eqn:N; [|discriminate].
  intros H. rewrite nth_error_app1 by (apply nth_error_Some; congruence).
  rewrite N. exact H.
Qed.

(** The run of [insert_or_update] on a builder with as many values as
    fields. *)
Lemma insert_or_update_run (qb : Query_builder) (sel : string) (cmp : option string)
    (selval compval : sqlval) (d : db) :
  length (fields qb) = length (values qb) ->
  Qb.value_of qb sel = Ok selval ->
  match cmp with Some c => Qb.value_of qb c | None => Ok VNull end = Ok compval ->
  Builder.insert_or_update sel cmp qb d =
  if negb (Builder.bindable selval) then ((Raise OverflowError, qb), d)
  else
    match find (Sql.col_eq sel selval) (get_table d (table qb)) with
    | None =>
        if forallb Builder.bindable (values qb)
        then ((Ok true, qb), snd (Qb.execute_insert qb d))
        else ((Raise OverflowError, qb), d)
    | Some r =>
        if match cmp with Some c => py_eq (row_get r c) compval | None => false end
        then ((Ok false, qb), d)
        else
          if forallb Builder.bindable (values qb)
          then ((Ok true, mkQb (fields qb) (values qb ++ [selval]) (table qb)),
                snd (Qb.execute_update qb (Sql.col_eq sel selval) d))
          else ((Raise OverflowError,
                 mkQb (fields qb) (values qb ++ [selval]) (table qb)), d)
    end.
Proof.
  intros Hlen Hs Hc. destruct (value_of_in _ _ _ Hs) as [Hin Hpos].
  unfold Builder.insert_or_update. rewrite Hs, Hc.
  unfold Builder.cursor_execute at 1. cbn [negb length Nat.eqb forallb].
  rewrite andb_true_r.
  destruct (Builder.bindable selval) eqn:Hbs; cbn [negb raise ret]; [|reflexivity].
  destruct (find (Sql.col_eq sel selval) (get_table d (table qb))) as [r|].
  - destruct (match cmp with Some c => py_eq (row_get r c) compval | None => false end);
      [reflexivity|].
    destruct (forallb Builder.bindable (values qb)) eqn:Hb.
    + rewrite execute_update_bound by assumption. reflexivity.
    + unfold Builder.execute_update, Builder.get_update.
      rewrite (proj2 (Nat.ltb_lt _ _) Hpos).
      rewrite cursor_execute_overflow; [reflexivity| |].
      * rewrite length_app. simpl. lia.
      * rewrite forallb_app, Hb. reflexivity.
  - destruct (forallb Builder.bindable (values qb)) eqn:Hb.
    + rewrite execute_insert_bound by assumption. reflexivity.
    + unfold Builder.execute_insert, Builder.get_insert. cbn [snd].
      rewrite (proj2 (Nat.ltb_lt _ _) Hpos), <- Hlen, Nat.eqb_refl. cbn [andb].
      rewrite cursor_execute_overflow; [reflexivity|symmetry; exact Hlen|exact Hb].
Qed.

(** The merge that finds the row with the compare value it brings: no
    statement but the SELECT, whatever the builder holds besides. *)
Lemma insert_or_update_skip (q : Query_builder) (sel c : string)
    (selval compval : sqlval) (r : row) (d : db) :
  Qb.value_of q sel = Ok selval -> Qb.value_of q c = Ok compval ->
  Builder.bindable selval = true ->
  find (Sql.col_eq sel selval) (get_table d (table q)) = Some r ->
  row_get r c = compval ->
  Builder.insert_or_update sel (Some c) q d = ((Ok false, q), d).
Proof.
  intros Hs Hc Hbs Hf Hr. unfold Builder.insert_or_update. rewrite Hs, Hc.
  rewrite cursor_execute_ok by (simpl; rewrite ?Hbs; reflexivity).
  unfold ret. rewrite Hf, Hr. unfold py_eq. rewrite sqlval_eqb_refl. reflexivity.
Qed.

End FullMerge.

(** X7. INSERT and lookup round-trip: for a builder filled by [add] with at
    least one field, none of them the rowid alias [id], and with values
    that SQLite can bind, [execute_insert] returns, leaves the builder as
    it is, appends one row to the table of the builder and changes no other
    row or table; the new row reads back the builder's value in every
    field. *)
Theorem insert_reads_back (qb : Query_builder) (d : db) :
  Builder.built qb -> fields qb <> [] -> ~ In id_column (fields qb) ->
  forallb Builder.bindable (values qb) = true ->
  exists r d',
    Builder.execute_insert qb d = ((Ok tt, qb), d') /\
    get_table d' (table qb) = get_table d (table qb) ++ [r] /\
    (forall f v, Qb.value_of qb f = Ok v -> row_get r f = v) /\
    (forall t, t <> table qb -> get_table d' t = get_table d t).
Proof.
  intros Hb Hne Hid Hbind. destruct (built_wf qb Hb) as [_ Hlen].
  assert (Hpos : (0 < length (fields qb))%nat).
  { destruct (fields qb); [contradiction|simpl; lia]. }
  destruct (insert_row_read qb d Hb) as (r & _ & Htab & Hread & _ & Hother).
  exists r, (snd (Qb.execute_insert qb d)).
  split; [apply execute_insert_bound; assumption|].
  split; [exact Htab|]. split; [|exact Hother].
  intros f v Hv. apply Hread; [exact Hv|].
  intros ->. apply Hid. eapply value_of_member, Hv.
Qed.

(** X8. The merge is idempotent: for a builder filled by [add] without a
    field [id] and with an identity value that is not NULL, once
    [insert_or_update] with a compare field has returned, the same call on
    the same builder (as the first call left it) finds the row, sees the
    compare value the first call wrote, writes nothing and returns
    [False]. *)
Theorem insert_or_update_idempotent (qb qb1 : Query_builder) (sel cmp : string)
    (selval compval : sqlval) (d d1 : db) (b : bool) :
  Builder.built qb -> ~ In id_column (fields qb) ->
  Qb.value_of qb sel = Ok selval -> selval <> VNull ->
  Qb.value_of qb cmp = Ok compval ->
  Builder.insert_or_update sel (Some cmp) qb d = ((Ok b, qb1), d1) ->
  Builder.insert_or_update sel (Some cmp) qb1 d1 = ((Ok false, qb1), d1).
Proof.
  intros Hb Hid Hs Hnn Hc Hfirst. destruct (built_wf qb Hb) as [_ Hlen].
  assert (Hsid : sel <> "id").
  { intros ->. apply Hid. eapply value_of_member, Hs. }
  assert (Hcid : cmp <> "id").
  { intros ->. apply Hid. eapply value_of_member, Hc. }
  assert (Hm : forall x, Sql.col_eq sel selval (row_set_all x (Qb.pairs qb)) = true).
  { intros x. unfold Sql.col_eq. rewrite (row_reads_back qb x sel selval Hb Hs Hsid).
    apply sql_match_refl, Hnn. }
  rewrite (insert_or_update_run qb sel (Some cmp) selval compval d Hlen Hs Hc) in Hfirst.
  destruct (Builder.bindable selval) eqn:Hbs; cbn [negb] in Hfirst; [|discriminate].
  destruct (find (Sql.col_eq sel selval) (get_table d (table qb))) as [r|] eqn:Hf.
  - destruct (py_eq (row_get r cmp) compval) eqn:Hsame.
    + inversion Hfirst; subst b qb1 d1.
      apply (insert_or_update_skip qb sel cmp selval compval r d Hs Hc Hbs Hf).
      apply sqlval_eqb_eq, Hsame.
    + destruct (forallb Builder.bindable (values qb)); [|discriminate].
      inversion Hfirst; subst b qb1 d1.
      apply (insert_or_update_skip _ sel cmp selval compval
               (row_set_all r (Qb.pairs qb))).
      * apply value_of_surplus, Hs.
      * apply value_of_surplus, Hc.
      * exact Hbs.
      * pose proof (find_some _ _ Hf) as [_ Hr].
        unfold Qb.execute_update, Sql.update. cbn [snd table].
        rewrite get_set_table_same, find_map_stable, Hf; [simpl; rewrite Hr; reflexivity|].
        intros x _. destruct (Sql.col_eq sel selval x) eqn:Ex; [apply Hm|exact Ex].
      * apply row_reads_back; assumption.
  - destruct (forallb Builder.bindable (values qb)); [|discriminate].
    inversion Hfirst; subst b qb1 d1.
    eapply (insert_or_update_skip qb sel cmp selval compval _ _ Hs Hc Hbs).
    + unfold Qb.execute_insert, Sql.insert. cbn [snd].
      rewrite get_set_table_same, find_app, Hf. simpl. rewrite Hm. reflexivity.
    + apply row_reads_back; assumption.
Qed.

(** X9. A NULL identity value finds no row, whatever is stored: for a
    builder filled by [add] without a field [id] and with values that
    SQLite can bind, every call of [insert_or_update] inserts one more row
    and returns [True]; the builder is as before. *)
Theorem insert_or_update_null_identity (qb : Query_builder) (sel : string)
    (cmp : option string) (d : db) :
  Builder.built qb -> ~ In id_column (fields qb) ->
  forallb Builder.bindable (values qb) = true ->
  Qb.value_of qb sel = Ok VNull ->
  (forall c, cmp = Some c -> exists v, Qb.value_of qb c = Ok v) ->
  Builder.insert_or_update sel cmp qb d
  = ((Ok true, qb), Spec.row_inserted d (table qb) (Qb.pairs qb)).
Proof.
  intros Hb _ Hbind Hs Hc. destruct (built_wf qb Hb) as [_ Hlen].
  assert (Hcv : exists compval,
            match cmp with Some c => Qb.value_of qb c | None => Ok VNull end
            = Ok compval).
  { destruct cmp as [c|]; [|eauto]. destruct (Hc c eq_refl) as [v Hv]. eauto. }
  destruct Hcv as [compval Hcv].
  rewrite (insert_or_update_run qb sel cmp VNull compval d Hlen Hs Hcv).
  assert (Hf : find (Sql.col_eq sel VNull) (get_table d (table qb)) = None).
  { induction (get_table d (table qb)) as [|x l IH]; [reflexivity|]. simpl.
    unfold Sql.col_eq at 1. rewrite sql_match_null. exact IH. }
  cbn [Builder.bindable negb]. rewrite Hf, Hbind. reflexivity.
Qed.

(** ** Statements and their parameters *)

Section StatementFacts.

Lemma placeholders_app (a b : string) :
  Builder.placeholders (a ++ b)%string
  = (Builder.placeholders a + Builder.placeholders b)%nat.
Proof.
  induction a as [|c a IH]; simpl; [reflexivity|]. rewrite IH. lia.
Qed.

Lemma placeholders_join (l : list string) :
  Builder.placeholders (Builder.comma_join l) = list_sum (map Builder.placeholders l).
Proof.
  unfold Builder.comma_join. induction l as [|a l IH]; [reflexivity|].
  destruct l as [|b l]; [simpl; lia|].
  change (String.concat ", " (a :: b :: l))
    with (a ++ ", " ++ String.concat ", " (b :: l))%string.
  rewrite !placeholders_app, IH. simpl. lia.
Qed.

Lemma placeholders_jokers (n : nat) :
  list_sum (map Builder.placeholders (repeat Builder.joker n)) = n.
Proof. induction n as [|n IH]; simpl; [reflexivity|]. rewrite IH. reflexivity. Qed.

Lemma placeholders_assignments (l : list string) :
  Forall (fun f => Builder.placeholders f = O) l ->
  list_sum (map Builder.placeholders (map (fun x => (x ++ "=" ++ Builder.joker)%string) l))
  = length l.
Proof.
  induction 1 as [|f l Hf _ IH]; [reflexivity|]. simpl. simpl in IH.
  rewrite placeholders_app, Hf, IH. reflexivity.
Qed.

Lemma placeholders_names (l : list string) :
  Forall (fun f => Builder.placeholders f = O) l ->
  list_sum (map Builder.placeholders l) = O.
Proof.
  induction 1 as [|f l Hf _ IH]; simpl; [reflexivity|]. simpl in IH.
  rewrite Hf, IH. reflexivity.
Qed.

Lemma get_insert_placeholders (qb : Query_builder) :
  Builder.placeholders (table qb) = O ->
  Forall (fun f => Builder.placeholders f = O) (fields qb) ->
  Builder.placeholders (fst (Builder.get_insert None qb)) = length (values qb).
Proof.
  intros Ht Hf. unfold Builder.get_insert. cbn [fst].
  rewrite !placeholders_app, !placeholders_join, placeholders_jokers,
    (placeholders_names _ Hf), Ht. simpl. lia.
Qed.

Lemma get_update_placeholders (qb : Query_builder) (w : string)
    (p : option (list sqlval)) :
  Builder.placeholders (table qb) = O ->
  Forall (fun f => Builder.placeholders f = O) (fields qb) ->
  exists s ps,
    Builder.get_update w p qb
    = (Ok (s, ps), mkQb (fields qb) ps (table qb)) /\
    ps = (values qb ++ match p with Some l => l | None => [] end) /\
    Builder.placeholders s = (length (fields qb) + Builder.placeholders w)%nat.
Proof.
  intros Ht Hf. unfold Builder.get_update. do 2 eexists. split; [reflexivity|]. split.
  - destruct p; [reflexivity|]. symmetry. apply app_nil_r.
  - rewrite !placeholders_app, placeholders_join, (placeholders_assignments _ Hf), Ht.
    simpl. lia.
Qed.

End StatementFacts.

(** X10. The statements carry as many placeholders as parameters: for a
    builder whose table and field names hold no question mark, the INSERT
    statement of [get_insert] has one placeholder per field and one
    parameter per placeholder, and so has the UPDATE statement of
    [get_update] when the where clause has one placeholder per where
    parameter. *)
Theorem statement_parameters_agree (qb : Query_builder) (whereclause : string)
    (whereparam : list sqlval) :
  Builder.built qb ->
  Builder.placeholders (table qb) = O ->
  Forall (fun f => Builder.placeholders f = O) (fields qb) ->
  Builder.placeholders whereclause = length whereparam ->
  (Builder.placeholders (fst (Builder.get_insert None qb)) = length (fields qb) /\
   length (snd (Builder.get_insert None qb)) = length (fields qb)) /\
  exists s ps qb1,
    Builder.get_update whereclause (Some whereparam) qb = (Ok (s, ps), qb1) /\
    Builder.placeholders s = length ps.
Proof.
  intros Hb Ht Hf Hw. destruct (built_wf qb Hb) as [_ Hlen]. split.
  - rewrite get_insert_placeholders by assumption. simpl. lia.
  - destruct (get_update_placeholders qb whereclause (Some whereparam) Ht Hf)
      as (s & ps & E & -> & Hs).
    do 3 eexists. split; [exact E|]. rewrite Hs, length_app. lia.
Qed.

(** X11. A builder serves one UPDATE only: [get_update] appends the where
    parameters to the values of the builder, so a second [get_update] on
    the same builder returns the same statement with the where parameters
    twice (more parameters than placeholders), and [get_insert] then names
    fewer columns than it has placeholders. *)
Theorem builder_serves_one_update (qb : Query_builder) (whereclause : string)
    (whereparam : list sqlval) :
  Builder.built qb ->
  Builder.placeholders (table qb) = O ->
  Forall (fun f => Builder.placeholders f = O) (fields qb) ->
  Builder.placeholders whereclause = length whereparam ->
  whereparam <> [] ->
  exists s ps qb1 ps2 qb2,
    Builder.get_update whereclause (Some whereparam) qb = (Ok (s, ps), qb1) /\
    Builder.get_update whereclause (Some whereparam) qb1 = (Ok (s, ps2), qb2) /\
    ps2 = ps ++ whereparam /\
    (Builder.placeholders s < length ps2)%nat /\
    (length (fields qb1) < Builder.placeholders (fst (Builder.get_insert None qb1)))%nat.
Proof.
  intros Hb Ht Hf Hw Hne. destruct (built_wf qb Hb) as [_ Hlen].
  destruct (get_update_placeholders qb whereclause (Some whereparam) Ht Hf)
    as (s & ps & E & Hps & Hs).
  destruct (get_update_placeholders (mkQb (fields qb) ps (table qb)) whereclause
              (Some whereparam) Ht Hf) as (s2 & ps2 & E2 & Hps2 & Hs2).
  assert (s2 = s).
  { unfold Builder.get_update in E, E2. cbn [fields table] in E2.
    inversion E. inversion E2. reflexivity. }
  subst s2. cbn [fields values table] in *.
  assert (0 < length whereparam)%nat by (destruct whereparam; [congruence|simpl; lia]).
  exists s, ps, (mkQb (fields qb) ps (table qb)), ps2, (mkQb (fields qb) ps2 (table qb)).
  split; [exact E|]. split; [exact E2|]. split; [exact Hps2|]. split.
  - rewrite Hs, Hps2, Hps, !length_app. lia.
  - rewrite get_insert_placeholders by assumption. simpl. rewrite Hps, length_app. lia.
Qed.

(** ** Filling a builder from a dict *)

Section AddDictFacts.

Lemma add_snoc (qb : Query_builder) (f : string) (v : sqlval) :
  ~ In f (fields qb) ->
  Qb.add qb f v false = Ok (Builder.extended qb [(f, v)]).
Proof.
  intros H. unfold Qb.add. apply index_none in H. rewrite H. reflexivity.
Qed.

Lemma extended_nil (qb : Query_builder) : Builder.extended qb [] = qb.
Proof. destruct qb. unfold Builder.extended. simpl. rewrite !app_nil_r. reflexivity. Qed.

Lemma extended_app (qb : Query_builder) (a b : list (string * sqlval)) :
  Builder.extended (Builder.extended qb a) b = Builder.extended qb (a ++ b).
Proof.
  unfold Builder.extended. simpl. rewrite !map_app, !app_assoc. reflexivity.
Qed.

Lemma nodup_app_head (a : list string) (f : string) (b : list string) :
  NoDup (a ++ f :: b) -> ~ In f a /\ NoDup ((a ++ [f]) ++ b).
Proof.
  intros H. split.
  - apply NoDup_remove_2 in H. intros Hin. apply H, in_or_app. left. exact Hin.
  - rewrite <- app_assoc. exact H.
Qed.

Lemma add_dict_keys_extended (datadict : dict sqlval) (transfer : option (dict string))
    (items : dict sqlval) (qb : Query_builder) :
  (forall k v, In (k, v) items -> dict_get datadict k = Some v) ->
  NoDup (fields qb ++ map fst (Builder.transferred transfer items)) ->
  Builder.add_dict_keys (dict_keys items) datadict transfer qb
  = (Ok tt, Builder.extended qb (Builder.transferred transfer items)).
Proof.
  revert qb. induction items as [|[k v] items IH]; intros qb Hget Hnd.
  - simpl. destruct transfer; simpl; rewrite extended_nil; reflexivity.
  - assert (Hk : dict_get datadict k = Some v) by (apply Hget; left; reflexivity).
    assert (Hrest : forall k' v', In (k', v') items -> dict_get datadict k' = Some v')
      by (intros k' v' H; apply Hget; right; exact H).
    cbn [dict_keys map fst Builder.add_dict_keys].
    destruct transfer as [tr|].
    + cbn [Builder.transferred flat_map fst snd] in *.
      destruct (dict_get tr k) as [nkey|] eqn:Et.
      * cbn [app map fst] in Hnd. apply nodup_app_head in Hnd as [Hn Hnd].
        unfold Builder.add_item, Builder.add. rewrite Hk, (add_snoc _ _ _ Hn).
        fold (dict_keys items).
        rewrite (IH (Builder.extended qb [(nkey, v)]) Hrest Hnd), extended_app.
        reflexivity.
      * fold (dict_keys items). rewrite (IH qb Hrest Hnd). reflexivity.
    + cbn [Builder.transferred map fst] in *.
      apply nodup_app_head in Hnd as [Hn Hnd].
      unfold Builder.add_item, Builder.add. rewrite Hk, (add_snoc _ _ _ Hn).
      fold (dict_keys items).
      rewrite (IH (Builder.extended qb [(k, v)]) Hrest Hnd), extended_app.
      reflexivity.
Qed.

Lemma add_dict_filter_keys_extended (datadict : dict sqlval) (filter : list string)
    (rename : option (dict string)) (items : dict sqlval) (qb : Query_builder) :
  (forall k v, In (k, v) items -> dict_get datadict k = Some v) ->
  NoDup (fields qb ++ map fst (Builder.filtered filter rename items)) ->
  Builder.add_dict_filter_keys (dict_keys items) datadict filter rename qb
  = (Ok tt, Builder.extended qb (Builder.filtered filter rename items)).
Proof.
  revert qb. induction items as [|[k v] items IH]; intros qb Hget Hnd.
  - simpl. rewrite extended_nil. reflexivity.
  - assert (Hk : dict_get datadict k = Some v) by (apply Hget; left; reflexivity).
    assert (Hrest : forall k' v', In (k', v') items -> dict_get datadict k' = Some v')
      by (intros k' v' H; apply Hget; right; exact H).
    cbn [dict_keys map fst Builder.add_dict_filter_keys].
    unfold Builder.filtered in *. cbn [map List.filter fst snd] in *.
    set (sqlkey := match rename with
                   | Some rename0 => match dict_get rename0 k with
                                     | Some k0 => k0
                                     | None => k
                                     end
                   | None => k
                   end) in *.
    destruct (existsb (String.eqb sqlkey) filter) eqn:Ef.
    + cbn [app map fst] in Hnd. apply nodup_app_head in Hnd as [Hn Hnd].
      unfold Builder.add_item, Builder.add. rewrite Hk, (add_snoc _ _ _ Hn).
      fold (dict_keys items).
      rewrite (IH (Builder.extended qb [(sqlkey, v)]) Hrest Hnd), extended_app.
      reflexivity.
    + fold (dict_keys items). rewrite (IH qb Hrest Hnd). reflexivity.
Qed.

Lemma dict_items_get (V : Type) (d : dict V) :
  NoDup (dict_keys d) -> forall k v, In (k, v) d -> dict_get d k = Some v.
Proof.
  induction d as [|[k' v'] d IH]; intros Hnd k v Hin; [destruct Hin|].
  inversion Hnd as [|? ? Hk Hd]; subst. simpl.
  destruct Hin as [[= -> ->]|Hin]; [rewrite String.eqb_refl; reflexivity|].
  destruct (String.eqb k' k) eqn:E; [|apply IH; assumption].
  apply String.eqb_eq in E. subst. exfalso. apply Hk.
  apply in_map_iff. exists (k, v). split; [reflexivity|exact Hin].
Qed.

Lemma add_dict_keys_stops (whole pre : dict sqlval) (k : string) (v : sqlval)
    (rest : dict sqlval) (qb : Query_builder) :
  (forall k' v', In (k', v') pre -> dict_get whole k' = Some v') ->
  dict_get whole k = Some v ->
  NoDup (fields qb ++ dict_keys pre) ->
  In k (fields qb) ->
  Builder.add_dict_keys (dict_keys (pre ++ (k, v) :: rest)) whole None qb
  = (Raise IndexError, Builder.extended qb pre).
Proof.
  intros Hpre Hkv. revert qb.
  induction pre as [|[k0 v0] pre IH]; intros qb Hnd Hin.
  - cbn [app dict_keys map fst Builder.add_dict_keys].
    unfold Builder.add_item, Builder.add, Qb.add. rewrite Hkv.
    destruct (Qb.index (fields qb) k) as [po|] eqn:E.
    + rewrite extended_nil. reflexivity.
    + apply index_none in E. contradiction.
  - cbn [app dict_keys map fst Builder.add_dict_keys].
    cbn [dict_keys map fst] in Hnd.
    apply nodup_app_head in Hnd as [Hn Hnd].
    unfold Builder.add_item, Builder.add.
    rewrite (Hpre k0 v0 (or_introl eq_refl)), (add_snoc _ _ _ Hn).
    fold (dict_keys (pre ++ (k, v) :: rest)).
    rewrite (IH (fun k' v' H => Hpre k' v' (or_intror H))
                (Builder.extended qb [(k0, v0)])), extended_app; [reflexivity|exact Hnd|].
    simpl. apply in_or_app. left. exact Hin.
Qed.

End AddDictFacts.

(** X12. [add_dict] and [add_dict_filter] copy a dict into the builder in the
    order of the dict: when the names to add are pairwise different and
    none of them is a field already, [add_dict] appends the items renamed
    by [transfer] (all items without [transfer]; with it, only the keys it
    names) and [add_dict_filter] appends the renamed items whose name is in
    the filter; neither raises. *)
Theorem add_dict_copies_in_order (datadict : dict sqlval)
    (transfer rename : option (dict string)) (filter : list string)
    (qb : Query_builder) :
  NoDup (dict_keys datadict) ->
  (NoDup (fields qb ++ map fst (Builder.transferred transfer datadict)) ->
   Builder.add_dict datadict transfer qb
   = (Ok tt, Builder.extended qb (Builder.transferred transfer datadict))) /\
  (NoDup (fields qb ++ map fst (Builder.filtered filter rename datadict)) ->
   Builder.add_dict_filter datadict filter rename qb
   = (Ok tt, Builder.extended qb (Builder.filtered filter rename datadict))).
Proof.
  intros Hd. split; intros Hnd.
  - apply add_dict_keys_extended; [apply dict_items_get, Hd|exact Hnd].
  - apply add_dict_filter_keys_extended; [apply dict_items_get, Hd|exact Hnd].
Qed.

(** X13. A name that is a field already stops [add_dict]: it raises
    [IndexError], and the items added before it stay in the builder. *)
Theorem add_dict_stops_at_known_field (datadict : dict sqlval) (k : string) (v : sqlval)
    (rest : dict sqlval) (qb : Query_builder) :
  NoDup (dict_keys (datadict ++ (k, v) :: rest)) ->
  NoDup (fields qb ++ dict_keys datadict) ->
  In k (fields qb) ->
  Builder.add_dict (datadict ++ (k, v) :: rest) None qb
  = (Raise IndexError, Builder.extended qb datadict).
Proof.
  intros Hd Hnd Hin. unfold Builder.add_dict.
  pose proof (dict_items_get _ _ Hd) as Hget.
  apply add_dict_keys_stops; [| |exact Hnd|exact Hin].
  - intros k' v' H. apply Hget, in_or_app. left. exact H.
  - apply Hget, in_or_app. right. left. reflexivity.
Qed.

(** ** Stations and programs in the store *)

Section StoreAccessFacts.

Lemma watched_iff (d : db) (s : string) :
  Terms.watched d s <->
  exists r, In r (get_table d "stations") /\
            Store.query_active 1 1 r = true /\
            row_get r "station_id" = VText s.
Proof.
  unfold Terms.watched, Store.get_active_query_stations_withname, bind,
    Store.select_all, ret, Store.id_and_name. simpl.
  rewrite map_map. simpl. rewrite in_map_iff. split.
  - intros (r & Hr & Hin). apply filter_In in Hin as [Hin Hq]. eauto.
  - intros (r & Hin & Hq & Hr). exists r. split; [exact Hr|].
    apply filter_In. auto.
Qed.

Lemma is_station_iff (s : string) (r : row) :
  Terms.is_station s r = true <-> row_get r "station_id" = VText s.
Proof. unfold Terms.is_station, Sql.col_eq. apply sql_match_text. Qed.

Lemma column_map (d : db) (t col : string) (g : row -> row) (s : stmt) :
  (forall r, row_get (g r) col = row_get r col) ->
  Terms.column (set_table d t (map g (get_table d t)) s) t col = Terms.column d t col.
Proof.
  intros H. unfold Terms.column. rewrite get_set_table_same, map_map.
  apply map_ext. exact H.
Qed.

End StoreAccessFacts.

(** X14. [set_query_station] answers ["ok"] exactly when the station has a row,
    and writes nothing otherwise.  It changes the query flag of that
    station only: no station id and no [active] flag changes, every other
    station is watched afterwards exactly if it was before, and the station
    itself is watched afterwards exactly if the flag was set and the
    station is active. *)
Theorem set_query_station_sets_one_flag (station_id : string) (do_query : bool) (d : db) :
  let known := exists r, In r (get_table d "stations") /\
                         Terms.is_station station_id r = true in
  let d' := snd (Store.set_query_station station_id do_query d) in
  (known -> fst (Store.set_query_station station_id do_query d) = Ok "ok") /\
  (~ known ->
   Store.set_query_station station_id do_query d
   = (Ok ("station " ++ station_id ++ " not found")%string, d)) /\
  Terms.column d' "stations" "station_id" = Terms.column d "stations" "station_id" /\
  Terms.column d' "stations" "active" = Terms.column d "stations" "active" /\
  (forall s, s <> station_id -> (Terms.watched d' s <-> Terms.watched d s)) /\
  (Terms.watched d' station_id <->
   do_query = true /\
   exists r, In r (get_table d "stations") /\ Terms.is_station station_id r = true /\
             row_get r "active" = VInt 1).
Proof.
  intros known d'. subst known d'.
  unfold Store.set_query_station, bind, Sql.select_first.
  destruct (find (Sql.col_eq "station_id" (VText station_id)) (get_table d "stations"))
    as [r0|] eqn:Hf0.
  all: assert (Hf : find (Terms.is_station station_id) (get_table d "stations") = _)
         by exact Hf0; clear Hf0.
  - (* known *)
    unfold Sql.update, ret. cbn [fst snd].
    set (qv := if do_query then 1 else 0).
    set (g := fun r => if Sql.col_eq "station_id" (VText station_id) r
                       then row_set_all r [("query_from_sd", VInt qv)] else r).
    assert (Hg : forall r col, col <> "query_from_sd" -> row_get (g r) col = row_get r col).
    { intros r col Hc. unfold g. destruct (Sql.col_eq _ _ r); [|reflexivity].
      apply row_get_set_other; [intros E; apply Hc; symmetry; exact E|discriminate]. }
    assert (Hq : forall r, Terms.is_station station_id r = true ->
                           row_get (g r) "query_from_sd" = VInt qv).
    { intros r Hr. unfold g. fold (Terms.is_station station_id r). rewrite Hr.
      apply row_get_set_same. discriminate. }
    assert (Hn : forall r, Terms.is_station station_id r = false -> g r = r).
    { intros r Hr. unfold g. fold (Terms.is_station station_id r). rewrite Hr.
      reflexivity. }
    split; [reflexivity|]. split.
    { intros Hk. exfalso. apply Hk. apply find_some in Hf. exists r0. exact Hf. }
    split; [apply column_map; intros r; apply Hg; discriminate|].
    split; [apply column_map; intros r; apply Hg; discriminate|].
    split.
    + intros s Hs. rewrite !watched_iff, get_set_table_same. split.
      * intros (r' & Hin & Hqa & Hid). apply in_map_iff in Hin as (r & <- & Hin).
        rewrite Hg in Hid by discriminate.
        assert (Hr : Terms.is_station station_id r = false).
        { destruct (Terms.is_station station_id r) eqn:E; [|reflexivity].
          apply is_station_iff in E. congruence. }
        rewrite (Hn r Hr) in Hqa. eauto.
      * intros (r & Hin & Hqa & Hid).
        assert (Hr : Terms.is_station station_id r = false).
        { destruct (Terms.is_station station_id r) eqn:E; [|reflexivity].
          apply is_station_iff in E. congruence. }
        exists r. split; [|auto]. apply in_map_iff. exists r. split; [apply Hn, Hr|exact Hin].
    + rewrite watched_iff, get_set_table_same. split.
      * intros (r' & Hin & Hqa & Hid). apply in_map_iff in Hin as (r & <- & Hin).
        rewrite Hg in Hid by discriminate. apply is_station_iff in Hid.
        unfold Store.query_active in Hqa. rewrite (Hq r Hid) in Hqa.
        rewrite Hg in Hqa by discriminate.
        apply andb_true_iff in Hqa as [H1 H2]. apply sql_match_int in H2.
        split; [|eauto]. subst qv. destruct do_query; [reflexivity|discriminate H1].
      * intros (-> & r & Hin & Hid & Ha). exists (g r). split; [apply in_map, Hin|].
        split.
        -- unfold Store.query_active. rewrite (Hq r Hid), Hg by discriminate.
           rewrite Ha. reflexivity.
        -- rewrite Hg by discriminate. apply is_station_iff, Hid.
  - (* unknown *)
    unfold ret. cbn [fst snd].
    assert (Hno : forall r, In r (get_table d "stations") ->
                            Terms.is_station station_id r = false).
    { intros r Hin. apply (find_none _ _ Hf r Hin). }
    split.
    { intros (r & Hin & Hr). rewrite (Hno r Hin) in Hr. discriminate. }
    split; [reflexivity|]. split; [reflexivity|]. split; [reflexivity|].
    split; [tauto|]. rewrite watched_iff. split.
    + intros (r & Hin & _ & Hid). apply is_station_iff in Hid.
      rewrite (Hno r Hin) in Hid. discriminate.
    + intros (_ & r & Hin & Hid & _). rewrite (Hno r Hin) in Hid. discriminate.
Qed.

(** X15. [get_program] notes the access and nothing else: it returns the stored
    row of the program as it was before the call ([None] for a program that
    is not stored, and then nothing is written); afterwards every row of
    the program carries the clock reading in [last_access], no other column
    of any row and no other table has changed. *)
Theorem get_program_notes_last_access (curtime : Z) (program_id : string) (d : db) :
  let d' := snd (Store.get_program curtime (Some program_id) d) in
  fst (Store.get_program curtime (Some program_id) d)
  = Ok (Terms.program_row d program_id) /\
  (Terms.program_row d program_id = None -> d' = d) /\
  (forall r, In r (get_table d' "programdata") ->
             Sql.col_eq "program_id" (VText program_id) r = true ->
             Terms.program_row d program_id <> None ->
             row_get r "last_access" = VInt curtime) /\
  (forall col, col <> "last_access" ->
               Terms.column d' "programdata" col = Terms.column d "programdata" col) /\
  (forall t, t <> "programdata" -> get_table d' t = get_table d t).
Proof.
  intros d'. subst d'. unfold Store.get_program, bind, Sql.select_first, Terms.program_row.
  destruct (find _ (get_table d "programdata")) as [r0|] eqn:Hf.
  - unfold Sql.update, ret. cbn [fst snd].
    split; [reflexivity|]. split; [discriminate|]. split; [|split].
    + intros r Hin Hm _. rewrite get_set_table_same in Hin.
      apply in_map_iff in Hin as (x & <- & Hin).
      destruct (Sql.col_eq "program_id" (VText program_id) x) eqn:Ex.
      * apply row_get_set_same. discriminate.
      * rewrite Ex in Hm. discriminate.
    + intros col Hc. apply column_map. intros r.
      destruct (Sql.col_eq _ _ r); [|reflexivity].
      apply row_get_set_other; [intros E; apply Hc; symmetry; exact E|discriminate].
    + intros t Ht. apply get_set_table_other. intros E; apply Ht; symmetry; exact E.
  - unfold ret. cbn [fst snd]. repeat split; try reflexivity. congruence.
Qed.

(** ** What a merge leaves in the table *)

Section MergeFacts.

Lemma find_map_frame (p : row -> bool) (g : row -> row) (l : list row) :
  (forall x, p (g x) = p x) -> (forall x, p x = true -> g x = x) ->
  find p (map g l) = find p l.
Proof.
  intros H1 H2. induction l as [|x l IH]; simpl; [reflexivity|].
  rewrite H1. destruct (p x) eqn:E; [rewrite (H2 x E); reflexivity|exact IH].
Qed.

Lemma sql_match_other (a b c : sqlval) :
  sql_match a b = true -> b <> c -> sql_match a c = false.
Proof.
  intros Hab Hne. destruct (sql_match a c) eqn:E; [|reflexivity].
  apply sql_match_eq in Hab, E. congruence.
Qed.

(** After a merge with a compare field, the identity value finds a row
    that carries the compare value; a row found by another identity value
    is found as before, and the other tables are as before. *)
Lemma insert_or_update_effect (qb : Query_builder) (sel cmp : string)
    (selval compval : sqlval) (d : db) :
  Builder.built qb ->
  Qb.value_of qb sel = Ok selval -> selval <> VNull -> sel <> "id" ->
  Qb.value_of qb cmp = Ok compval -> cmp <> "id" ->
  exists b d1 r,
    Qb.insert_or_update qb sel (Some cmp) d = (Ok b, d1) /\
    find (Sql.col_eq sel selval) (get_table d1 (table qb)) = Some r /\
    row_get r cmp = compval /\
    (forall v2 r2, v2 <> selval ->
       find (Sql.col_eq sel v2) (get_table d (table qb)) = Some r2 ->
       find (Sql.col_eq sel v2) (get_table d1 (table qb)) = Some r2) /\
    (forall t, t <> table qb -> get_table d1 t = get_table d t).
Proof.
  intros Hb Hs Hnn Hsid Hc Hcid.
  assert (Hrb : forall x, row_get (row_set_all x (Qb.pairs qb)) sel = selval)
    by (intros x; apply row_reads_back; assumption).
  assert (Hm : forall x, Sql.col_eq sel selval (row_set_all x (Qb.pairs qb)) = true).
  { intros x. unfold Sql.col_eq. rewrite Hrb. apply sql_match_refl, Hnn. }
  unfold Qb.insert_or_update, bind, lift, Sql.select_first. rewrite Hs, Hc.
  destruct (find (Sql.col_eq sel selval) (get_table d (table qb))) as [r|] eqn:Hf.
  - destruct (py_eq (row_get r cmp) compval) eqn:Hsame.
    + exists false, d, r. split; [reflexivity|]. split; [exact Hf|].
      split; [apply sqlval_eqb_eq, Hsame|]. split; auto.
    + pose proof (find_some _ _ Hf) as [_ Hr].
      eexists true, _, (row_set_all r (Qb.pairs qb)).
      split; [reflexivity|]. unfold Qb.execute_update, Sql.update, ret. cbn [fst snd].
      split; [|split; [|split]].
      * rewrite get_set_table_same, find_map_stable, Hf; [simpl; rewrite Hr; reflexivity|].
        intros x _. destruct (Sql.col_eq sel selval x) eqn:Ex; [apply Hm|exact Ex].
      * apply row_reads_back; assumption.
      * intros v2 r2 Hv Hf2. rewrite get_set_table_same, find_map_frame; [exact Hf2| |].
        -- intros x. destruct (Sql.col_eq sel selval x) eqn:Ex; [|reflexivity].
           unfold Sql.col_eq in *. rewrite Hrb.
           rewrite (sql_match_other _ _ v2 Ex) by congruence.
           destruct (sql_match selval v2) eqn:E2; [|reflexivity].
           apply sql_match_eq in E2. congruence.
        -- intros x Hx. destruct (Sql.col_eq sel selval x) eqn:Ex; [|reflexivity].
           unfold Sql.col_eq in *. rewrite (sql_match_other _ _ selval Hx) in Ex by exact Hv.
           discriminate.
      * intros t Ht. apply get_set_table_other. congruence.
  - eexists true, _, _. split; [reflexivity|].
    unfold Qb.execute_insert, Sql.insert, ret. cbn [fst snd].
    split; [|split; [|split]].
    + rewrite get_set_table_same, find_app, Hf. simpl. rewrite Hm. reflexivity.
    + apply row_reads_back; assumption.
    + intros v2 r2 Hv Hf2. rewrite get_set_table_same, find_app, Hf2. reflexivity.
    + intros t Ht. apply get_set_table_other. congruence.
Qed.

Lemma add_built (f : string) (v : sqlval) (qb qb' : Query_builder) :
  Builder.built qb -> Cache.add f v qb = Ok qb' -> Builder.built qb'.
Proof. intros Hb H. eapply Builder.built_add; [exact Hb|exact H]. Qed.

Lemma add_all_built (fv : list (string * sqlval)) (qb qb' : Query_builder) :
  Builder.built qb -> Cache.add_all fv qb = Ok qb' -> Builder.built qb'.
Proof.
  revert qb. induction fv as [|[f v] fv IH]; intros qb Hb; simpl.
  - intros [= <-]. exact Hb.
  - destruct (Qb.add qb f v false) as [qb1|x] eqn:E; simpl; [|discriminate].
    apply IH. eapply Builder.built_add; [exact Hb|exact E].
Qed.

Lemma program_fields_built (now : Z) (art : option (dict Artwork.asset))
    (item : Prog.item) (qb : Query_builder) :
  Cache.program_fields now art item = Ok qb -> Builder.built qb.
Proof.
  unfold Cache.program_fields.
  destruct (Cache.add "md5" _ _) as [q1|] eqn:E1; simpl; [|discriminate].
  destruct (Cache.add "program_id" _ q1) as [q2|] eqn:E2; simpl; [|discriminate].
  destruct (Cache.add "last_access" _ q2) as [q3|] eqn:E3; simpl; [|discriminate].
  destruct (Cache.add_all _ q3) as [q4|] eqn:E4; simpl; [|discriminate].
  assert (B4 : Builder.built q4).
  { eapply add_all_built; [|exact E4]. eapply add_built; [|exact E3].
    eapply add_built; [|exact E2]. eapply add_built; [|exact E1].
    apply Builder.built_new. }
  destruct art as [art|]; [|intros [= <-]; exact B4].
  destruct (Artwork.calc_program_artwork_info _ art) as [[[[u cap] w] h]|];
    [|intros [= <-]; exact B4].
  destruct (Cache.add "artwork_uri" _ q4) as [q5|] eqn:E5; simpl; [|discriminate].
  destruct (Cache.add "artwort_caption" _ q5) as [q6|] eqn:E6; simpl; [|discriminate].
  destruct (Cache.add "artwork_width" _ q6) as [q7|] eqn:E7; simpl; [|discriminate].
  intros E8. eapply add_built; [|exact E8]. eapply add_built; [|exact E7].
  eapply add_built; [|exact E6]. eapply add_built; [|exact E5]. exact B4.
Qed.

(** One round of [store_programs]: the program is stored under its
    fingerprint afterwards, and the other programs are found as before. *)
Lemma store_program_effect (now : Z) (art : option (dict Artwork.asset))
    (item : Prog.item) (d d' : db) :
  Cache.store_program now art tt item d = (Ok tt, d') ->
  (exists r, Terms.program_row d' (Prog.programID item) = Some r /\
             row_get r "md5" = VText (Prog.md5 item)) /\
  (forall p r, p <> Prog.programID item ->
     Terms.program_row d p = Some r -> Terms.program_row d' p = Some r).
Proof.
  unfold Cache.store_program, bind, lift.
  destruct (Cache.program_fields now art item) as [qb|x] eqn:E; [|discriminate].
  pose proof (program_fields_built _ _ _ _ E) as Hb.
  apply program_fields_keep in E as (T & Vp & Vm).
  destruct (insert_or_update_effect qb "program_id" "md5" _ _ d Hb Vp
              ltac:(discriminate) ltac:(discriminate) Vm ltac:(discriminate))
    as (b & d1 & r & Hrun & Hf & Hr & Hframe & _).
  rewrite Hrun. unfold ret. intros [= <-]. rewrite T in *. split.
  - exists r. split; [exact Hf|exact Hr].
  - intros p r2 Hp. apply Hframe. congruence.
Qed.

Lemma store_program_frame (now : Z) (art : option (dict Artwork.asset))
    (item : Prog.item) (d : db) (p : string) (r : row) :
  p <> Prog.programID item ->
  Terms.program_row d p = Some r ->
  Terms.program_row (snd (Cache.store_program now art tt item d)) p = Some r.
Proof.
  intros Hp Hr. unfold Cache.store_program, bind, lift.
  destruct (Cache.program_fields now art item) as [qb|x] eqn:E; [|exact Hr].
  pose proof (program_fields_built _ _ _ _ E) as Hb.
  apply program_fields_keep in E as (T & Vp & Vm).
  destruct (insert_or_update_effect qb "program_id" "md5" _ _ d Hb Vp
              ltac:(discriminate) ltac:(discriminate) Vm ltac:(discriminate))
    as (b & d1 & r1 & Hrun & _ & _ & Hframe & _).
  rewrite Hrun. unfold ret. cbn [snd]. rewrite T in *.
  apply Hframe; [congruence|exact Hr].
Qed.

Lemma store_programs_stored (now : Z) (art : option (dict Artwork.asset))
    (data : list Prog.item) :
  NoDup (map Prog.programID data) ->
  forall d d', Cache.store_programs now data art d = (Ok tt, d') ->
  forall item, In item data ->
    exists r, Terms.program_row d' (Prog.programID item) = Some r /\
              row_get r "md5" = VText (Prog.md5 item).
Proof.
  unfold Cache.store_programs.
  induction data as [|x data IH]; intros Hnd d d' Hrun item Hin; [destruct Hin|].
  inversion Hnd as [|? ? Hx Hrest]; subst.
  rewrite for_each_cons in Hrun.
  destruct (Cache.store_program now art tt x d) as [[[]|e] d1] eqn:Hstep; [|discriminate].
  destruct Hin as [<-|Hin]; [|eapply IH; eauto].
  destruct (store_program_effect _ _ _ _ _ Hstep) as [(r & Hr & Hm) _].
  exists r. split; [|exact Hm].
  pose proof (for_each_invariant _ _
                (fun d0 => Terms.program_row d0 (Prog.programID x) = Some r)
                (Cache.store_program now art) data) as Hinv.
  specialize (Hinv (fun acc y d0 Hy H0 => ltac:(
    destruct acc; apply store_program_frame;
      [intros E; apply Hx; rewrite E; apply in_map; exact Hy | exact H0])) tt d1 Hr).
  rewrite Hrun in Hinv. exact Hinv.
Qed.

End MergeFacts.

(** X16. Store and lookup round-trip for programs: after [store_programs] has
    returned for a batch of pairwise different programs, [get_program]
    finds each of them, and the row it returns carries the fetched
    fingerprint. *)
Theorem stored_programs_are_found (now curtime : Z) (art : option (dict Artwork.asset))
    (data : list Prog.item) (d d' : db) :
  NoDup (map Prog.programID data) ->
  Cache.store_programs now data art d = (Ok tt, d') ->
  forall item, In item data ->
    exists r,
      fst (Store.get_program curtime (Some (Prog.programID item)) d') = Ok (Some r) /\
      row_get r "program_id" = VText (Prog.programID item) /\
      row_get r "md5" = VText (Prog.md5 item).
Proof.
  intros Hnd Hrun item Hin.
  destruct (store_programs_stored now art data Hnd d d' Hrun item Hin) as (r & Hr & Hm).
  exists r. split; [|split; [|exact Hm]].
  - unfold Store.get_program, bind, Sql.select_first.
    unfold Terms.program_row in Hr. rewrite Hr. reflexivity.
  - apply find_some in Hr as [_ Hr]. apply sql_match_text in Hr. exact Hr.
Qed.

(** ** The programs still to download *)

Section SeenFacts.

Lemma note_seen_nodup (l : list string) :
  forall seen, NoDup seen -> NoDup (fold_left Terms.note_seen l seen).
Proof.
  induction l as [|x l IH]; intros seen Hs; [exact Hs|]. simpl. apply IH.
  unfold Terms.note_seen. destruct (existsb (String.eqb x) seen) eqn:E; [exact Hs|].
  apply nodup_snoc; [exact Hs|]. intros Hin.
  assert (existsb (String.eqb x) seen = true)
    by (apply existsb_exists; exists x; split; [exact Hin|apply String.eqb_refl]).
  congruence.
Qed.

Lemma note_seen_members (l : list string) :
  forall seen x, In x (fold_left Terms.note_seen l seen) <-> In x seen \/ In x l.
Proof.
  induction l as [|y l IH]; intros seen x; simpl; [tauto|].
  rewrite IH. unfold Terms.note_seen.
  destruct (existsb (String.eqb y) seen) eqn:E.
  - apply existsb_exists in E as (z & Hz & Ez). apply String.eqb_eq in Ez. subst z.
    split; [tauto|]. intros [H|[<-|H]]; auto.
  - rewrite in_app_iff. simpl. tauto.
Qed.

End SeenFacts.

Section WorklistFacts.

Variable tm : string -> result Z.

Lemma stale_table (d1 d2 : db) (p : Sched.program) :
  get_table d1 "programdata" = get_table d2 "programdata" ->
  Terms.stale d1 p = Terms.stale d2 p.
Proof. unfold Terms.stale, Terms.program_row. intros ->. reflexivity. Qed.

(** One round of the inner loop of [store_schedules], with the list it
    returns. *)
Lemma store_schedule_entry_worklist (s : string) (i : sqlval) (ups : list string)
    (p : Sched.program) (d : db) :
  Cache.store_schedule_entry tm s i ups p d =
  match tm (Sched.airDateTime p) with
  | Ok t =>
      (Ok (if Terms.stale d p then Terms.note_seen ups (Sched.programID p) else ups),
       Spec.row_inserted d "schedule" (Spec.entry_pairs s i t p))
  | Raise x => (Raise x, d)
  end.
Proof.
  unfold Cache.store_schedule_entry, bind, lift. rewrite schedule_fields_eq.
  destruct (tm (Sched.airDateTime p)) as [t|x]; [|reflexivity].
  unfold Qb.execute_insert, Sql.insert. rewrite pairs_of_pairs. simpl table.
  fold (Spec.row_inserted d "schedule" (Spec.entry_pairs s i t p)).
  unfold Cache.fetchone, bind, Sql.select_first.
  rewrite table_row_inserted_other by discriminate.
  unfold Terms.stale, Terms.program_row, Terms.note_seen.
  destruct (find _ _) as [r|]; unfold ret.
  - destruct (row_get r "md5") as [|z|s0] eqn:E; simpl;
      try destruct (String.eqb s0 (Sched.md5 p)); simpl;
      destruct (existsb (String.eqb (Sched.programID p)) ups); reflexivity.
  - simpl. destruct (existsb (String.eqb (Sched.programID p)) ups); reflexivity.
Qed.

Lemma entries_worklist (s : string) (i : sqlval) (progs : list Sched.program) :
  forall ups d ups' d',
    for_each progs (Cache.store_schedule_entry tm s i) ups d = (Ok ups', d') ->
    ups' = fold_left Terms.note_seen
             (map Sched.programID (filter (Terms.stale d) progs)) ups /\
    get_table d' "programdata" = get_table d "programdata".
Proof.
  induction progs as [|p progs IH]; intros ups d ups' d' Hrun.
  - inversion Hrun; subst. split; reflexivity.
  - rewrite for_each_cons, store_schedule_entry_worklist in Hrun.
    destruct (tm (Sched.airDateTime p)) as [t|x]; [|discriminate].
    apply IH in Hrun as [Hups Htab].
    assert (Hpd : get_table (Spec.row_inserted d "schedule"
                               (Spec.entry_pairs s i t p)) "programdata"
                  = get_table d "programdata")
      by (apply table_row_inserted_other; discriminate).
    split; [|congruence]. subst ups'. simpl filter.
    rewrite (filter_ext _ _ (fun q => stale_table _ d q Hpd)).
    destruct (Terms.stale d p); reflexivity.
Qed.

Lemma items_worklist (dat : list Sched.item) :
  forall ups d ups' d',
    for_each dat (Cache.store_schedule_item tm) ups d = (Ok ups', d') ->
    ups' = fold_left Terms.note_seen
             (map Sched.programID
                  (filter (Terms.stale d) (map snd (Spec.fetched_entries dat)))) ups /\
    get_table d' "programdata" = get_table d "programdata".
Proof.
  induction dat as [|item dat IH]; intros ups d ups' d' Hrun.
  - inversion Hrun; subst. split; reflexivity.
  - rewrite for_each_cons in Hrun. unfold Cache.store_schedule_item at 1 in Hrun.
    unfold bind at 1 in Hrun. rewrite get_schedule_index_eq in Hrun.
    destruct (Util.date_to_int (Sched.startDate item)) as [ord|x]; [|discriminate].
    destruct (Spec.index_row d (Sched.stationID item) ord) as [r|]; simpl in Hrun;
      [|discriminate].
    destruct (for_each (Sched.programs item) _ ups d) as [[ups1|x] d1] eqn:Hent;
      [|discriminate].
    apply entries_worklist in Hent as [Hups1 Htab1].
    apply IH in Hrun as [Hups Htab]. split; [|congruence].
    subst ups' ups1. unfold Spec.fetched_entries. simpl flat_map.
    rewrite map_app, filter_app, map_app, fold_left_app, map_map. simpl.
    rewrite map_id.
    rewrite (filter_ext _ _ (fun q => stale_table _ d q Htab1)). reflexivity.
Qed.

End WorklistFacts.

(** X17. The worklist that [store_schedules] returns is the list of the
    programs that the fetched entries name and that the cache does not hold
    under the entry's fingerprint (no row, no fingerprint, or another one),
    each once, in the order in which the entries first name them; the
    stored programs are not touched. *)
Theorem open_programs_are_the_stale_ones (tm : string -> result Z)
    (data : list Sched.item) (d d' : db) (open_programs : list string) :
  Cache.store_schedules tm data d = (Ok open_programs, d') ->
  open_programs
  = Terms.first_seen
      (map Sched.programID
           (filter (Terms.stale d) (map snd (Spec.fetched_entries data)))) /\
  NoDup open_programs /\
  (forall x, In x open_programs <->
     exists item p, In item data /\ In p (Sched.programs item) /\
                    Terms.stale d p = true /\ Sched.programID p = x) /\
  get_table d' "programdata" = get_table d "programdata".
Proof.
  intros Hrun. unfold Cache.store_schedules in Hrun.
  apply items_worklist in Hrun as [Hups Htab].
  split; [exact Hups|]. split; [|split; [|exact Htab]].
  - rewrite Hups. apply note_seen_nodup. constructor.
  - intros x. rewrite Hups, note_seen_members. simpl. rewrite in_map_iff. split.
    + intros [[]|(p & Hp & Hin)]. apply filter_In in Hin as [Hin Hst].
      apply in_map_iff in Hin as ([item q] & <- & Hin). unfold Spec.fetched_entries in Hin.
      apply in_flat_map in Hin as (it & Hit & Hin).
      apply in_map_iff in Hin as (q' & [= <- <-] & Hq). exists it, q'.
      repeat split; assumption.
    + intros (item & p & Hi & Hp & Hst & <-). right. exists p. split; [reflexivity|].
      apply filter_In. split; [|exact Hst]. apply in_map_iff. exists (item, p).
      split; [reflexivity|]. unfold Spec.fetched_entries. apply in_flat_map.
      exists item. split; [exact Hi|]. apply in_map, Hp.
Qed.

(** X18. [store_schedules] needs the index row of every item: when the items
    before one have been stored and that one names a station and day
    without [scheduleindex] row, the call raises [AssertionError]; the
    entries of the items before it have been inserted by then. *)
Theorem store_schedules_needs_the_index_row (tm : string -> result Z)
    (pre post : list Sched.item) (item : Sched.item) (d d1 : db)
    (ups : list string) (ord : option Z) :
  Cache.store_schedules tm pre d = (Ok ups, d1) ->
  Util.date_to_int (Sched.startDate item) = Ok ord ->
  Spec.index_row d (Sched.stationID item) ord = None ->
  Cache.store_schedules tm (pre ++ item :: post) d = (Raise AssertionError, d1).
Proof.
  intros Hpre Hd Hnone. unfold Cache.store_schedules in *.
  rewrite for_each_app, Hpre, for_each_cons.
  unfold Cache.store_schedule_item, bind. rewrite get_schedule_index_eq, Hd.
  destruct (items_loop tm pre [] d (Ok ups) d1 Hpre) as [Hix _].
  unfold Spec.index_row in *. rewrite Hix, Hnone. reflexivity.
Qed.

(** ** The days still to download *)

Section DirtyFacts.

Variable tm : string -> result Z.

Lemma days_listed_note (ns : dict (list string)) (s day s2 : string) :
  Terms.days_listed (Cache.note_schedule ns s day) s2
  = if String.eqb s2 s then Terms.days_listed ns s ++ [day]
    else Terms.days_listed ns s2.
Proof.
  unfold Cache.note_schedule, Terms.days_listed, dict_mem.
  destruct (String.eqb s2 s) eqn:E.
  - apply String.eqb_eq in E. subst s2. rewrite dict_get_set_same.
    destruct (dict_get ns s) as [l|] eqn:G; [rewrite G; reflexivity|].
    rewrite dict_get_set_same. reflexivity.
  - apply String.eqb_neq in E.
    rewrite dict_get_set_other by congruence.
    destruct (dict_get ns s) as [l|] eqn:G; [reflexivity|].
    rewrite dict_get_set_other by congruence. reflexivity.
Qed.

Lemma dict_keys_set (V : Type) (d : dict V) (k : string) (v : V) (x : string) :
  In x (dict_keys (dict_set d k v)) <-> x = k \/ In x (dict_keys d).
Proof.
  induction d as [|[k' v'] d IH]; simpl; [intuition|].
  destruct (String.eqb k' k) eqn:E; simpl.
  - apply String.eqb_eq in E. subst. intuition.
  - rewrite IH. intuition.
Qed.

Lemma keys_note (ns : dict (list string)) (s day x : string) :
  In x (dict_keys (Cache.note_schedule ns s day)) <-> x = s \/ In x (dict_keys ns).
Proof.
  unfold Cache.note_schedule, dict_mem.
  rewrite dict_keys_set. destruct (dict_get ns s) eqn:G; [tauto|].
  rewrite dict_keys_set. tauto.
Qed.

(** What one round returns. *)
Lemma day_round_listed (s : string) (ns : dict (list string)) (c : Z)
    (day : string * Md5.entry) (d d1 : db) (ns1 : dict (list string)) (c1 : Z) :
  Cache.store_schedule_day tm s (ns, c) day d = (Ok (ns1, c1), d1) ->
  ns1 = if Terms.dirty d s day then Cache.note_schedule ns s (fst day) else ns.
Proof.
  destruct day as [day e]. rewrite store_schedule_day_eq.
  unfold Terms.dirty, Spec.stored_md5. simpl fst. simpl snd.
  destruct (Util.date_to_int day) as [ord|x]; [|discriminate].
  destruct (String.eqb (Md5.md5 e) Cache.sentinel); [intros [= <- <-]; reflexivity|].
  simpl. destruct (Spec.index_row d s ord) as [r|]; simpl.
  - destruct (py_eq (row_get r "md5") (VText (Md5.md5 e)));
      [intros [= <- <-]; reflexivity|].
    destruct (tm (Md5.lastModified e)); [|discriminate]. intros [= <- <-]. reflexivity.
  - destruct (tm (Md5.lastModified e)); [|discriminate]. intros [= <- <-]. reflexivity.
Qed.

Lemma dirty_frame (d d1 : db) (s2 : string) (day2 : string * Md5.entry) :
  (forall o2, Util.date_to_int (fst day2) = Ok o2 ->
              Spec.stored_md5 d1 s2 o2 = Spec.stored_md5 d s2 o2) ->
  Terms.dirty d1 s2 day2 = Terms.dirty d s2 day2.
Proof.
  intros H. unfold Terms.dirty.
  destruct (Util.date_to_int (fst day2)) as [o2|x]; [|reflexivity].
  rewrite (H o2 eq_refl). reflexivity.
Qed.

Lemma days_listed_loop (l : list (string * (string * Md5.entry))) :
  forall ns c d ns' c' d',
    for_each l (Spec.day_round tm) (ns, c) d = (Ok (ns', c'), d') ->
    Spec.rowids_unique d "scheduleindex" ->
    NoDup (map Spec.day_key l) ->
    (forall s day,
       In day (Terms.days_listed ns' s) <->
       In day (Terms.days_listed ns s) \/
       exists e, In (s, (day, e)) l /\ Terms.dirty d s (day, e) = true) /\
    (forall s,
       In s (dict_keys ns') <->
       In s (dict_keys ns) \/
       exists day e, In (s, (day, e)) l /\ Terms.dirty d s (day, e) = true).
Proof.
  induction l as [|[s [day e]] l IH]; intros ns c d ns' c' d' Hrun Hu Hnd.
  - inversion Hrun; subst. split; intros; split; try tauto.
    + intros [H|(e & [] & _)]. exact H.
    + intros [H|(day & e & [] & _)]. exact H.
  - rewrite for_each_cons in Hrun. unfold Spec.day_round at 1 in Hrun.
    simpl fst in Hrun. simpl snd in Hrun.
    destruct (Cache.store_schedule_day tm s (ns, c) (day, e) d) as [[[ns1 c1]|x] d1]
      eqn:Hstep; [|discriminate].
    destruct (day_step_index tm _ _ _ _ _ _ _ _ Hstep Hu) as (Hu1 & Hk1 & _).
    pose proof (day_round_listed _ _ _ _ _ _ _ _ Hstep) as Hns1. simpl fst in Hns1.
    inversion Hnd as [|? ? Hnotin Hnd']; subst.
    destruct (IH _ _ _ _ _ _ Hrun Hu1 Hnd') as [IHd IHk].
    assert (Hfr : forall s2 day2 e2, In (s2, (day2, e2)) l ->
                    Terms.dirty d1 s2 (day2, e2) = Terms.dirty d s2 (day2, e2)).
    { intros s2 day2 e2 Hin. apply dirty_frame. simpl fst. intros o2 Ho2.
      apply (key_fares_frame _ _ _ _ _ _ _ (Hk1 s2 o2)).
      intros E. apply Hnotin. apply in_map_iff. exists (s2, (day2, e2)).
      split; [|exact Hin]. unfold Spec.day_key. simpl. rewrite Ho2. exact E. }
    split.
    + intros s0 day0. rewrite IHd. split.
      * intros [H|(e0 & Hin & Hdirty)].
        -- destruct (Terms.dirty d s (day, e)) eqn:Hdt; [|auto].
           rewrite days_listed_note in H.
           destruct (String.eqb s0 s) eqn:E; [|auto].
           apply String.eqb_eq in E. subst s0.
           apply in_app_or in H as [H|[<-|[]]]; [auto|].
           right. exists e. split; [left; reflexivity|exact Hdt].
        -- right. exists e0. split; [right; exact Hin|].
           rewrite <- (Hfr _ _ _ Hin). exact Hdirty.
      * intros [H|(e0 & [Heq|Hin] & Hdirty)].
        -- left. destruct (Terms.dirty d s (day, e)); [|exact H].
           rewrite days_listed_note. destruct (String.eqb s0 s) eqn:E; [|exact H].
           apply String.eqb_eq in E. subst s0. apply in_or_app. left. exact H.
        -- inversion Heq; subst. left. rewrite Hdirty, days_listed_note, String.eqb_refl.
           apply in_or_app. right. left. reflexivity.
        -- right. exists e0. split; [exact Hin|]. rewrite (Hfr _ _ _ Hin). exact Hdirty.
    + intros s0. rewrite IHk. split.
      * intros [H|(day0 & e0 & Hin & Hdirty)].
        -- destruct (Terms.dirty d s (day, e)) eqn:Hdt; [|auto].
           apply keys_note in H as [->|H]; [|auto].
           right. exists day, e. split; [left; reflexivity|exact Hdt].
        -- right. exists day0, e0. split; [right; exact Hin|].
           rewrite <- (Hfr _ _ _ Hin). exact Hdirty.
      * intros [H|(day0 & e0 & [Heq|Hin] & Hdirty)].
        -- left. destruct (Terms.dirty d s (day, e)); [|exact H].
           apply keys_note. right. exact H.
        -- inversion Heq; subst. left. rewrite Hdirty. apply keys_note. left. reflexivity.
        -- right. exists day0, e0. split; [exact Hin|].
           rewrite (Hfr _ _ _ Hin). exact Hdirty.
Qed.

End DirtyFacts.

(** X19. The days that [store_schedule_index] reports are the dirty ones.
    For a response in which no two days of a station give the same
    [date_to_int] result (the date read from the first ten characters of
    the day, or [None]), on an index whose rowids are pairwise different,
    as SQLite keeps them: when the call returns, a day is listed
    under a station exactly if it was fetched for that station with a
    fingerprint other than the reserved one and the index held no row for
    the station and day, or a row with another fingerprint; and a station
    is a key of the dict exactly if at least one of its days is listed. *)
Theorem new_schedules_are_the_dirty_days (tm : string -> result Z)
    (data : Md5.response) (d d' : db) (new_schedules : dict (list string))
    (count_invalid_schedules : Z) :
  Cache.store_schedule_index tm data d
  = (Ok (new_schedules, count_invalid_schedules), d') ->
  Spec.rowids_unique d "scheduleindex" ->
  NoDup (map Spec.day_key (Spec.days_of data)) ->
  (forall s day,
     In day (Terms.days_listed new_schedules s) <->
     exists e, In (s, (day, e)) (Spec.days_of data) /\
               Terms.dirty d s (day, e) = true) /\
  (forall s,
     In s (dict_keys new_schedules) <->
     exists day, In day (Terms.days_listed new_schedules s)).
Proof.
  intros Hrun Hu Hnd. unfold Cache.store_schedule_index in Hrun.
  rewrite store_schedule_index_flat in Hrun.
  destruct (days_listed_loop tm _ _ _ _ _ _ _ Hrun Hu Hnd) as [Hd Hk].
  assert (Hdays : forall s day,
     In day (Terms.days_listed new_schedules s) <->
     exists e, In (s, (day, e)) (Spec.days_of data) /\
               Terms.dirty d s (day, e) = true).
  { intros s day. rewrite Hd. split; [intros [[]|H]; exact H|auto]. }
  split; [exact Hdays|].
  intros s. rewrite Hk. split.
  - intros [[]|(day & e & Hin & Hdt)]. exists day. apply Hdays. eauto.
  - intros (day & Hin). apply Hdays in Hin as (e & Hin & Hdt). right. eauto.
Qed.

(** ** Stage A: sets of lineup names *)

Section SetFacts.

Lemma mem_in (x : sqlval) (s : list sqlval) : StageA.mem x s = true <-> In x s.
Proof.
  unfold StageA.mem. rewrite existsb_exists. split.
  - intros (y & Hy & E). apply sqlval_eqb_eq in E. subst. exact Hy.
  - intros H. exists x. split; [exact H|apply sqlval_eqb_refl].
Qed.

Lemma in_to_set_from (l : list sqlval) :
  forall acc x,
    In x (fold_left (fun s y => if StageA.mem y s then s else s ++ [y]) l acc)
    <-> In x acc \/ In x l.
Proof.
  induction l as [|y l IH]; intros acc x; simpl; [tauto|].
  rewrite IH. destruct (StageA.mem y acc) eqn:E.
  - apply mem_in in E. split; [tauto|]. intros [H|[<-|H]]; auto.
  - rewrite in_app_iff. simpl. tauto.
Qed.

Lemma in_to_set (l : list sqlval) (x : sqlval) : In x (StageA.to_set l) <-> In x l.
Proof. unfold StageA.to_set. rewrite in_to_set_from. simpl. tauto. Qed.

Lemma filter_nil (A : Type) (p : A -> bool) (l : list A) :
  filter p l = [] <-> forall x, In x l -> p x = false.
Proof.
  induction l as [|y l IH]; simpl; [split; [intros _ x []|reflexivity]|].
  destruct (p y) eqn:E.
  - split; [discriminate|]. intros H. specialize (H y (or_introl eq_refl)). congruence.
  - rewrite IH. split.
    + intros H x [<-|Hx]; auto.
    + intros H x Hx. apply H. right. exact Hx.
Qed.

Lemma difference_nil (a b : list sqlval) :
  StageA.difference a b = [] <-> forall x, In x a -> In x b.
Proof.
  unfold StageA.difference. rewrite filter_nil. split.
  - intros H x Hx. specialize (H x Hx). apply negb_false_iff in H. apply mem_in, H.
  - intros H x Hx. apply negb_false_iff, mem_in, H, Hx.
Qed.

Lemma in_difference (a b : list sqlval) (x : sqlval) :
  In x (StageA.difference a b) <-> In x a /\ ~ In x b.
Proof.
  unfold StageA.difference. rewrite filter_In, negb_true_iff. split.
  - intros [Ha Hb]. split; [exact Ha|]. intros Hin. apply mem_in in Hin. congruence.
  - intros [Ha Hb]. split; [exact Ha|].
    destruct (StageA.mem x b) eqn:E; [|reflexivity]. apply mem_in in E. contradiction.
Qed.

Lemma in_intersection (a b : list sqlval) (x : sqlval) :
  In x (StageA.intersection a b) <-> In x a /\ In x b.
Proof. unfold StageA.intersection. rewrite filter_In, mem_in. tauto. Qed.

Lemma filter_all (A : Type) (l : list A) : filter (fun _ => true) l = l.
Proof. induction l as [|x l IH]; simpl; [reflexivity|]. rewrite IH. reflexivity. Qed.

Lemma find_map_pre (A B : Type) (p : B -> bool) (f : A -> B) (l : list A) :
  find p (map f l) = option_map f (find (fun x => p (f x)) l).
Proof.
  induction l as [|x l IH]; simpl; [reflexivity|].
  destruct (p (f x)); [reflexivity|exact IH].
Qed.

Lemma find_pointwise (A : Type) (p q : A -> bool) (l : list A) :
  (forall x, p x = q x) -> find p l = find q l.
Proof.
  intros H. induction l as [|x l IH]; simpl; [reflexivity|].
  rewrite H, IH. reflexivity.
Qed.

Lemma py_eq_text (a : sqlval) (n : string) :
  py_eq a (VText n) = sql_match a (VText n).
Proof. destruct a; reflexivity. Qed.

End SetFacts.

(** ** Stage A: the comparison of the stored lineups with the status *)

Section LineupFacts.

Variable tm : string -> result Z.

Lemma calc_stamped (l : list Lineup.entry) (nd : list (string * Z)) :
  StageA.calc_lineups_and_modified_date_from_status tm l = Ok nd <->
  Forall2 (Terms.lineup_stamped tm) l nd.
Proof.
  revert nd. induction l as [|x l IH]; intros nd; simpl.
  - split; [intros [= <-]; constructor|intros H; inversion H; reflexivity].
  - destruct (tm (Lineup.modified x)) as [m|e] eqn:Hm; simpl.
    + destruct (StageA.calc_lineups_and_modified_date_from_status tm l) as [res|e] eqn:Hc;
        simpl.
      * split.
        -- intros [= <-]. constructor; [split; [reflexivity|exact Hm]|]. apply IH.
           reflexivity.
        -- intros H. inversion H as [|? p ? nd' [Hn Ht] Hrest]; subst.
           apply IH in Hrest. injection Hrest as <-. destruct p as [n m'].
           simpl in *. subst n. rewrite Hm in Ht. injection Ht as <-. reflexivity.
      * split; [discriminate|]. intros H. inversion H as [|? p ? nd' _ Hrest]; subst.
        apply IH in Hrest. discriminate.
    + split; [discriminate|]. intros H. inversion H as [|? p ? nd' [_ Ht] _]; subst.
      rewrite Hm in Ht. discriminate.
Qed.

Lemma calc_returns (l : list Lineup.entry) :
  (forall x, In x l -> exists m, tm (Lineup.modified x) = Ok m) ->
  exists nd, StageA.calc_lineups_and_modified_date_from_status tm l = Ok nd.
Proof.
  induction l as [|x l IH]; intros H; simpl; [eauto|].
  destruct (H x (or_introl eq_refl)) as [m Hm]. rewrite Hm. simpl.
  destruct IH as [nd Hnd]; [intros y Hy; apply H; right; exact Hy|].
  rewrite Hnd. simpl. eauto.
Qed.

Lemma stamped_names (l : list Lineup.entry) (nd : list (string * Z)) :
  Forall2 (Terms.lineup_stamped tm) l nd ->
  map (fun x => VText (fst x)) nd = map (fun x => VText (Lineup.lineup x)) l.
Proof.
  induction 1 as [|x p l nd [Hn _] _ IH]; simpl; [reflexivity|].
  rewrite Hn, IH. reflexivity.
Qed.

Lemma stamped_length (l : list Lineup.entry) (nd : list (string * Z)) :
  Forall2 (Terms.lineup_stamped tm) l nd -> length nd = length l.
Proof. induction 1; simpl; congruence. Qed.

Lemma get_lineups_eq (d : db) :
  Store.get_lineups_and_modified_date d = (Ok (Terms.stored_lineups d), d).
Proof.
  unfold Store.get_lineups_and_modified_date, bind, Store.select_all, ret,
    Terms.stored_lineups. rewrite filter_all. reflexivity.
Qed.

Lemma stamp_of_stored (d : db) (n : string) :
  StageA.stamp_of (Terms.stored_lineups d) (VText n)
  = match Terms.lineup_row d n with
    | Some r => Ok (row_get r "modified")
    | None => Raise IndexError
    end.
Proof.
  unfold StageA.stamp_of, Terms.stored_lineups, Terms.lineup_row.
  rewrite find_map_pre. simpl.
  rewrite (find_pointwise _ _ (Sql.col_eq "lineupname" (VText n)))
    by (intros x; apply py_eq_text).
  destruct (find _ _); reflexivity.
Qed.

Lemma stamp_of_status (l : list Lineup.entry) (nd : list (string * Z)) (n : string) :
  Forall2 (Terms.lineup_stamped tm) l nd ->
  StageA.stamp_of (map StageA.as_values nd) (VText n)
  = match Terms.first_lineup l n with
    | Some x => match tm (Lineup.modified x) with
                | Ok m => Ok (VInt m)
                | Raise _ => Raise IndexError
                end
    | None => Raise IndexError
    end.
Proof.
  unfold StageA.stamp_of, Terms.first_lineup.
  induction 1 as [|x p l nd [Hn Ht] _ IH]; [reflexivity|].
  simpl. rewrite Hn. destruct (String.eqb (Lineup.lineup x) n); [|exact IH].
  rewrite Ht. reflexivity.
Qed.

Lemma first_lineup_some (l : list Lineup.entry) (x : Lineup.entry) :
  In x l ->
  exists x1, Terms.first_lineup l (Lineup.lineup x) = Some x1 /\
             In x1 l /\ Lineup.lineup x1 = Lineup.lineup x.
Proof.
  intros Hin. unfold Terms.first_lineup.
  destruct (find _ l) as [x1|] eqn:E.
  - apply find_some in E as [H1 H2]. apply String.eqb_eq in H2. eauto.
  - pose proof (find_none _ _ E x Hin) as H. simpl in H.
    rewrite String.eqb_refl in H. discriminate.
Qed.

Lemma stored_names (d : db) :
  map fst (Terms.stored_lineups d) = Terms.column d "lineups" "lineupname".
Proof. unfold Terms.stored_lineups, Terms.column. rewrite map_map. reflexivity. Qed.

Lemma in_column (d : db) (t col : string) (v : sqlval) :
  In v (Terms.column d t col) <-> exists r, In r (get_table d t) /\ row_get r col = v.
Proof.
  unfold Terms.column. rewrite in_map_iff. split; intros (r & H1 & H2); eauto.
Qed.

Lemma in_status_names (l : list Lineup.entry) (v : sqlval) :
  In v (map (fun x => VText (Lineup.lineup x)) l) <->
  exists x, In x l /\ v = VText (Lineup.lineup x).
Proof. rewrite in_map_iff. split; intros (x & H1 & H2); eauto. Qed.

Lemma lineup_row_some (d : db) (n : string) (r : row) :
  Terms.lineup_row d n = Some r ->
  In r (get_table d "lineups") /\ row_get r "lineupname" = VText n.
Proof.
  unfold Terms.lineup_row. intros H. apply find_some in H as [H1 H2].
  split; [exact H1|]. apply sql_match_text, H2.
Qed.

Lemma modified_loop_none (same : list sqlval) (old new : list (sqlval * sqlval))
    (acc : list sqlval) :
  (forall s, In s same ->
     exists t, StageA.stamp_of old s = Ok t /\ StageA.stamp_of new s = Ok t) ->
  StageA.modified_loop same old new acc = Ok acc.
Proof.
  induction same as [|s same IH]; intros H; simpl; [reflexivity|].
  destruct (H s (or_introl eq_refl)) as (t & -> & ->). simpl.
  unfold py_eq. rewrite sqlval_eqb_refl. simpl.
  apply IH. intros s' Hs'. apply H. right. exact Hs'.
Qed.

(** What the refresh finds when the stored lineups are those of the
    status: nothing to delete, nothing new, nothing modified. *)
Lemma in_step_compared (d : db) (lineups : list Lineup.entry) (nd : list (string * Z)) :
  Terms.lineups_in_step tm d lineups ->
  Forall2 (Terms.lineup_stamped tm) lineups nd ->
  let old_set := StageA.to_set (map fst (Terms.stored_lineups d)) in
  let new_set := StageA.to_set (map (fun x => VText (fst x)) nd) in
  StageA.difference old_set new_set = [] /\
  StageA.difference new_set old_set = [] /\
  StageA.modified_loop (StageA.intersection old_set new_set) (Terms.stored_lineups d)
    (map StageA.as_values nd) [] = Ok [].
Proof.
  intros [H1 H2] Hnd old_set new_set. subst old_set new_set.
  rewrite (stamped_names _ _ Hnd), stored_names.
  split; [|split].
  - apply difference_nil. intros v Hv. apply (proj1 (in_to_set _ _)) in Hv.
    apply (proj2 (in_to_set _ _)).
    apply (proj1 (in_column _ _ _ _)) in Hv as (r & Hr & <-).
    apply (proj2 (in_status_names _ _)).
    destruct (H1 r Hr) as (x & Hx & E). eauto.
  - apply difference_nil. intros v Hv. apply (proj1 (in_to_set _ _)) in Hv.
    apply (proj2 (in_to_set _ _)).
    apply (proj1 (in_status_names _ _)) in Hv as (x & Hx & ->).
    destruct (H2 x Hx) as (r & m & Hr & _ & _).
    apply lineup_row_some in Hr as [Hin Hn]. apply (proj2 (in_column _ _ _ _)). eauto.
  - apply modified_loop_none. intros s Hs.
    apply (proj1 (in_intersection _ _ _)) in Hs as [_ Hs].
    apply (proj1 (in_to_set _ _)) in Hs.
    apply (proj1 (in_status_names _ _)) in Hs as (x & Hx & ->).
    destruct (first_lineup_some _ _ Hx) as (x1 & Hf & Hx1 & Hn1).
    destruct (H2 x1 Hx1) as (r & m & Hr & Hm & Hrm). rewrite Hn1 in Hr.
    exists (VInt m). rewrite stamp_of_stored, Hr, (stamp_of_status _ _ _ Hnd), Hf, Hm, Hrm.
    split; reflexivity.
Qed.

Lemma in_step_refresh (now : nat -> Z) (lineups : list Lineup.entry)
    (get : option string -> option Station.reply) (d : db) :
  Terms.lineups_in_step tm d lineups ->
  StageA.refresh_lineups_and_stations_if_needed tm now lineups get d = (Ok false, d).
Proof.
  intros Hstep.
  destruct (calc_returns lineups) as [nd Hcalc].
  { intros x Hx. destruct Hstep as [_ H2]. destruct (H2 x Hx) as (r & m & _ & Hm & _).
    eauto. }
  pose proof (proj1 (calc_stamped _ _) Hcalc) as Hnd.
  destruct (in_step_compared d lineups nd Hstep Hnd) as (Hdel & Hnew & Hmod).
  unfold StageA.refresh_lineups_and_stations_if_needed, bind, lift.
  rewrite get_lineups_eq, Hcalc. cbv zeta. rewrite Hmod, Hdel, Hnew. reflexivity.
Qed.

End LineupFacts.

(** X20. The lineup gate: when the stored lineups are those of the status (each
    stored name is in the status, and each lineup of the status is stored
    under the stamp that the status gives), the refresh reports no change
    and writes nothing, whatever the service would answer for the
    stations. *)
Theorem refresh_skips_lineups_in_step (tm : string -> result Z) (now : nat -> Z)
    (lineups : list Lineup.entry) (get_lineup_stations : option string -> option Station.reply)
    (d : db) :
  Terms.lineups_in_step tm d lineups ->
  StageA.refresh_lineups_and_stations_if_needed tm now lineups get_lineup_stations d
  = (Ok false, d).
Proof. apply in_step_refresh. Qed.

(** ** Properties kept by a computation *)

Section PreservesFacts.

Variable P : db -> Prop.

Lemma preserves_ret (A : Type) (a : A) : Terms.preserves P (ret a).
Proof. intros d H. exact H. Qed.

Lemma preserves_raise (A : Type) (e : exn) : Terms.preserves P (@raise A e).
Proof. intros d H. exact H. Qed.

Lemma preserves_lift (A : Type) (r : result A) : Terms.preserves P (lift r).
Proof. intros d H. exact H. Qed.

Lemma preserves_received (A : Type) (payload : option A) (e : exn) :
  Terms.preserves P (Main.received payload e).
Proof. destruct payload; intros d H; exact H. Qed.

Lemma preserves_bind (A B : Type) (m : M A) (k : A -> M B) :
  Terms.preserves P m -> (forall a, Terms.preserves P (k a)) ->
  Terms.preserves P (bind m k).
Proof.
  intros Hm Hk d H. unfold bind. specialize (Hm d H).
  destruct (m d) as [[a|e] d1]; simpl in *; [apply Hk, Hm|exact Hm].
Qed.

Lemma preserves_for_each (X S : Type) (xs : list X) (body : S -> X -> M S) :
  (forall acc x, In x xs -> Terms.preserves P (body acc x)) ->
  forall acc, Terms.preserves P (for_each xs body acc).
Proof.
  intros H acc d Hd. apply (for_each_invariant X S P body xs); [|exact Hd].
  intros a x d0 Hx H0. apply (H a x Hx d0 H0).
Qed.

Lemma preserves_select_first (t : string) (cond : row -> bool) :
  Terms.preserves P (Sql.select_first t cond).
Proof. intros d H. exact H. Qed.

End PreservesFacts.

(** A loop whose rounds each establish a property for their element, and
    keep the properties established before, ends with the property for every
    element. *)
Lemma for_each_establishes (X S : Type) (Q : X -> db -> Prop) (body : S -> X -> M S)
    (xs : list X) :
  (forall acc x d acc' d', In x xs -> body acc x d = (Ok acc', d') -> Q x d') ->
  (forall y acc x d, In x xs -> Q y d -> Q y (snd (body acc x d))) ->
  forall acc d acc' d',
    for_each xs body acc d = (Ok acc', d') -> forall x, In x xs -> Q x d'.
Proof.
  induction xs as [|x0 xs IH]; intros Hest Hkeep acc d acc' d' Hrun x Hx; [destruct Hx|].
  rewrite for_each_cons in Hrun.
  destruct (body acc x0 d) as [[a|e] d1] eqn:Hstep; [|discriminate].
  destruct Hx as [<-|Hx].
  - pose proof (Hest _ _ _ _ _ (or_introl eq_refl) Hstep) as Hq.
    pose proof (for_each_invariant X S (Q x0) body xs) as Hinv.
    specialize (Hinv (fun a0 y d0 Hy H0 => Hkeep x0 a0 y d0 (or_intror Hy) H0) a d1 Hq).
    rewrite Hrun in Hinv. exact Hinv.
  - apply (IH (fun a0 y d0 a1 d2 Hy => Hest a0 y d0 a1 d2 (or_intror Hy))
              (fun y a0 z d0 Hz => Hkeep y a0 z d0 (or_intror Hz))
              a d1 acc' d' Hrun x Hx).
Qed.

(** ** Stage A: the stations *)

Section StationFacts.

Lemma insert_or_update_frame (qb : Query_builder) (sel : string) (cmp : option string)
    (t : string) (d : db) :
  t <> table qb ->
  get_table (snd (Qb.insert_or_update qb sel cmp d)) t = get_table d t.
Proof.
  intros Ht. unfold Qb.insert_or_update, bind, lift, Sql.select_first.
  destruct (Qb.value_of qb sel); [|reflexivity].
  destruct (match cmp with Some c => Qb.value_of qb c | None => Ok VNull end);
    [|reflexivity].
  destruct (find _ _) as [r|].
  - match goal with |- context [if ?b then _ else _] => destruct b end; [reflexivity|].
    unfold Qb.execute_update, Sql.update, ret. simpl.
    apply get_set_table_other. congruence.
  - unfold Qb.execute_insert, Sql.insert, ret. simpl.
    apply get_set_table_other. congruence.
Qed.

(** A merge without compare field: the INSERT or the UPDATE. *)
Lemma insert_or_update_always (t : string) (fv : list (string * sqlval)) (sel : string)
    (selval : sqlval) (d : db) :
  dict_get fv sel = Some selval ->
  Qb.insert_or_update (Qb.of_pairs t fv) sel None d =
  (Ok true,
   match find (Sql.col_eq sel selval) (get_table d t) with
   | None => Spec.row_inserted d t fv
   | Some _ =>
       set_table d t
         (map (fun r => if Sql.col_eq sel selval r then row_set_all r fv else r)
              (get_table d t))
         (SUpdate t)
   end).
Proof.
  intros Hs. unfold Qb.insert_or_update, bind, lift, Sql.select_first.
  rewrite value_of_of_pairs, Hs. simpl table.
  destruct (find _ _) as [r|].
  - unfold Qb.execute_update, Sql.update, ret. rewrite pairs_of_pairs. reflexivity.
  - unfold Qb.execute_insert, Sql.insert, ret. rewrite pairs_of_pairs. reflexivity.
Qed.

Lemma station_fields_eq (now : Z) (item : Station.station) :
  StageA.station_fields now item
  = Ok (Qb.of_pairs "stations" (Terms.station_pairs now item)).
Proof.
  unfold StageA.station_fields, Terms.station_pairs, Cache.add, Qb.add, Qb.new. simpl.
  destruct (Station.logo_of item); reflexivity.
Qed.

Lemma station_pairs_nodup (now : Z) (item : Station.station) :
  NoDup (map fst (Terms.station_pairs now item)).
Proof.
  unfold Terms.station_pairs. destruct (Station.logo_of item); simpl;
    repeat constructor; simpl; intuition discriminate.
Qed.

(** What a row written for a station holds. *)
Lemma station_row_read (now : Z) (item : Station.station) (r : row) :
  let r' := row_set_all r (Terms.station_pairs now item) in
  row_get r' "station_id" = VText (Station.stationID item) /\
  row_get r' "active" = VInt 1 /\
  row_get r' "query_from_sd" = row_get r "query_from_sd".
Proof.
  pose proof (station_pairs_nodup now item) as Hnd.
  split; [|split].
  - apply row_set_all_in; [exact Hnd| |discriminate].
    unfold Terms.station_pairs. simpl. auto.
  - apply row_set_all_in; [exact Hnd| |discriminate].
    unfold Terms.station_pairs. simpl. auto 10.
  - apply row_set_all_untouched; [|discriminate].
    unfold Terms.station_pairs. destruct (Station.logo_of item); simpl;
      intuition discriminate.
Qed.

(** One round of [store_lineup_station] on a dict. *)
Lemma store_station_eq (now : Z) (item : Station.station) (d : db) :
  StageA.store_station now tt (Station.Dict item) d =
  (Ok tt,
   match find (Terms.is_station (Station.stationID item)) (get_table d "stations") with
   | None => Spec.row_inserted d "stations" (Terms.station_pairs now item)
   | Some _ =>
       set_table d "stations"
         (map (fun r => if Terms.is_station (Station.stationID item) r
                        then row_set_all r (Terms.station_pairs now item) else r)
              (get_table d "stations"))
         (SUpdate "stations")
   end).
Proof.
  unfold StageA.store_station, bind, lift. rewrite station_fields_eq.
  rewrite (insert_or_update_always "stations" _ "station_id"
             (VText (Station.stationID item))) by reflexivity.
  reflexivity.
Qed.

Lemma stations_kept_refl (d : db) : Terms.stations_kept d d.
Proof. exists []. simpl. rewrite !app_nil_r. split; reflexivity. Qed.

Lemma stations_kept_trans (a b c : db) :
  Terms.stations_kept a b -> Terms.stations_kept b c -> Terms.stations_kept a c.
Proof.
  intros (x & Hx1 & Hx2) (y & Hy1 & Hy2). exists (x ++ y).
  rewrite Hy1, Hx1, Hy2, Hx2, length_app, repeat_app, !app_assoc. split; reflexivity.
Qed.

Lemma stations_kept_same (d d' : db) :
  get_table d' "stations" = get_table d "stations" -> Terms.stations_kept d d'.
Proof.
  intros H. exists []. unfold Terms.column. rewrite H. simpl. rewrite !app_nil_r.
  split; reflexivity.
Qed.

Lemma store_station_kept (now : Z) (item : Station.item) (d : db) :
  Terms.stations_kept d (snd (StageA.store_station now tt item d)).
Proof.
  destruct item as [item|]; [|apply stations_kept_refl].
  rewrite store_station_eq. cbn [snd].
  destruct (find _ _) as [r0|].
  - exists []. cbn [length repeat]. rewrite !app_nil_r.
    split; apply column_map; intros r; cbv beta.
    + destruct (Terms.is_station _ r) eqn:E; [|reflexivity].
      destruct (station_row_read now item r) as (H1 & _ & _). rewrite H1.
      symmetry. apply is_station_iff, E.
    + destruct (Terms.is_station _ r) eqn:E; [|reflexivity].
      apply (station_row_read now item r).
  - exists [VText (Station.stationID item)]. unfold Terms.column, Spec.row_inserted.
    rewrite get_set_table_same, !map_app. cbn [map length repeat].
    destruct (station_row_read now item
                (mkRow (next_rowid (get_table d "stations")) [])) as (H1 & _ & H3).
    rewrite H1, H3. split; reflexivity.
Qed.

Lemma deactivate_kept (d : db) :
  Terms.stations_kept d (snd (Store.deactivate_all_stations d)).
Proof.
  unfold Store.deactivate_all_stations, Sql.update. cbn [snd].
  exists []. cbn [length repeat]. rewrite !app_nil_r.
  split; apply column_map; intros r; cbv beta; apply row_get_set_other; discriminate.
Qed.

End StationFacts.

Section StationRounds.

Lemma is_station_unique (s s' : string) (r : row) :
  Terms.is_station s r = true -> Terms.is_station s' r = true -> s = s'.
Proof.
  intros H H'. apply is_station_iff in H, H'. congruence.
Qed.

Lemma store_station_settles (now : Z) (item : Station.station) (d : db) :
  Terms.station_settled (Station.stationID item)
    (snd (StageA.store_station now tt (Station.Dict item) d)).
Proof.
  rewrite store_station_eq. cbn [snd]. set (s := Station.stationID item).
  destruct (find (Terms.is_station s) (get_table d "stations")) as [r0|] eqn:Hf.
  - apply find_some in Hf as [Hin Hr0].
    unfold Terms.station_settled. rewrite get_set_table_same. split.
    + exists (row_set_all r0 (Terms.station_pairs now item)). split.
      * apply in_map_iff. exists r0. rewrite Hr0. auto.
      * apply is_station_iff. apply (station_row_read now item r0).
    + intros r' Hr' Hs. apply in_map_iff in Hr' as (r & <- & Hr).
      destruct (Terms.is_station s r) eqn:E; [|congruence].
      apply (station_row_read now item r).
  - unfold Terms.station_settled, Spec.row_inserted.
    rewrite get_set_table_same.
    destruct (station_row_read now item
                (mkRow (next_rowid (get_table d "stations")) [])) as (H1 & H2 & _).
    split.
    + eexists. split; [apply in_or_app; right; left; reflexivity|].
      apply is_station_iff, H1.
    + intros r' Hr' Hs. apply in_app_or in Hr' as [Hr'|[<-|[]]]; [|exact H2].
      pose proof (find_none _ _ Hf r' Hr'). congruence.
Qed.

Lemma store_station_keeps_settled (s : string) (now : Z) (item : Station.item) (d : db) :
  Terms.station_settled s d ->
  Terms.station_settled s (snd (StageA.store_station now tt item d)).
Proof.
  intros [(r1 & Hin1 & Hs1) Hall]. destruct item as [item|]; [|split; eauto].
  rewrite store_station_eq. cbn [snd]. set (s' := Station.stationID item).
  destruct (find (Terms.is_station s') (get_table d "stations")) as [r0|] eqn:Hf.
  - unfold Terms.station_settled. rewrite get_set_table_same. split.
    + eexists. split; [apply in_map, Hin1|]. cbv beta.
      destruct (Terms.is_station s' r1) eqn:E; [|exact Hs1].
      rewrite (is_station_unique _ _ _ Hs1 E).
      apply is_station_iff. apply (station_row_read now item r1).
    + intros r' Hr' Hs. apply in_map_iff in Hr' as (r & <- & Hr).
      destruct (Terms.is_station s' r) eqn:E.
      * apply (station_row_read now item r).
      * apply Hall; assumption.
  - unfold Terms.station_settled, Spec.row_inserted. rewrite get_set_table_same. split.
    + exists r1. split; [apply in_or_app; left; exact Hin1|exact Hs1].
    + intros r' Hr' Hs. apply in_app_or in Hr' as [Hr'|[<-|[]]]; [apply Hall; assumption|].
      apply (station_row_read now item
               (mkRow (next_rowid (get_table d "stations")) [])).
Qed.

Lemma store_station_sound (ids : list string) (now : Z) (item : Station.item) (d : db) :
  (forall st, item = Station.Dict st -> In (Station.stationID st) ids) ->
  Terms.stations_sound ids d ->
  Terms.stations_sound ids (snd (StageA.store_station now tt item d)).
Proof.
  intros Hid Hs. destruct item as [item|]; [|exact Hs].
  specialize (Hid item eq_refl).
  rewrite store_station_eq. cbn [snd].
  assert (Hnew : forall r, let r' := row_set_all r (Terms.station_pairs now item) in
            row_get r' "active" = VInt 1 /\
            exists s, In s ids /\ row_get r' "station_id" = VText s).
  { intros r. destruct (station_row_read now item r) as (H1 & H2 & _). eauto. }
  destruct (find _ _) as [r0|].
  - intros r' Hr'. rewrite get_set_table_same in Hr'.
    apply in_map_iff in Hr' as (r & <- & Hr).
    destruct (Terms.is_station _ r); [right; apply Hnew|apply Hs, Hr].
  - intros r' Hr'. unfold Spec.row_inserted in Hr'. rewrite get_set_table_same in Hr'.
    apply in_app_or in Hr' as [Hr'|[<-|[]]]; [apply Hs, Hr'|right; apply Hnew].
Qed.

Lemma deactivate_sound (ids : list string) (d : db) :
  Terms.stations_sound ids (snd (Store.deactivate_all_stations d)).
Proof.
  unfold Store.deactivate_all_stations, Sql.update. cbn [snd].
  intros r' Hr'. rewrite get_set_table_same in Hr'.
  apply in_map_iff in Hr' as (r & <- & Hr). left. cbv beta.
  apply row_get_set_same. discriminate.
Qed.

End StationRounds.

(** ** Stage A: the stages of a refresh *)

Section RefreshFacts.

Variable tm : string -> result Z.
Variable now : nat -> Z.
Variable lineups : list Lineup.entry.
Variable get : option string -> option Station.reply.

Lemma refresh_stages (d d' : db) (b : bool) :
  StageA.refresh_lineups_and_stations_if_needed tm now lineups get d = (Ok b, d') ->
  exists nd modified,
    Forall2 (Terms.lineup_stamped tm) lineups nd /\
    let old_set := StageA.to_set (map fst (Terms.stored_lineups d)) in
    let new_set := StageA.to_set (map (fun x => VText (fst x)) nd) in
    let deleted := StageA.difference old_set new_set in
    let d1 := snd (for_each deleted
                     (fun _ lineupID => Store.delete_lineup_from_db lineupID) tt d) in
    StageA.modified_loop (StageA.intersection old_set new_set) (Terms.stored_lineups d)
      (map StageA.as_values nd) [] = Ok modified /\
    b = (negb (StageA.is_empty (StageA.difference new_set old_set))
         || negb (StageA.is_empty deleted) || negb (StageA.is_empty modified))%bool /\
    if b then
      exists nl d2,
        StageA.store_lineups_from_status tm lineups d1 = (Ok nl, d2) /\
        for_each (combine (seq 0 (length nd)) nd)
                 (StageA.refresh_stations now lineups get) tt
                 (snd (Store.deactivate_all_stations d2)) = (Ok tt, d')
    else d' = d1.
Proof.
  unfold StageA.refresh_lineups_and_stations_if_needed, bind, lift.
  rewrite get_lineups_eq.
  destruct (StageA.calc_lineups_and_modified_date_from_status tm lineups) as [nd|e] eqn:Hc;
    [|discriminate].
  cbv zeta.
  destruct (StageA.modified_loop _ _ _ _) as [modified|e] eqn:Hm; [|discriminate].
  destruct (for_each _ _ tt d) as [[[]|e] d1] eqn:Hdel; [|discriminate].
  intros Hrun. exists nd, modified. split; [apply calc_stamped, Hc|].
  cbv zeta. split; [exact Hm|]. rewrite Hdel. cbn [snd].
  revert Hrun. destruct (negb _ || negb _ || negb _)%bool eqn:Hflag; intros Hrun.
  - destruct (StageA.store_lineups_from_status tm lineups d1) as [[nl|e] d2] eqn:Hst;
      [|discriminate].
    destruct (Store.deactivate_all_stations d2) as [[[]|e] d3] eqn:Hde;
      [|discriminate].
    apply (f_equal snd) in Hde. cbn [snd] in Hde. subst d3.
    destruct (for_each (combine _ _) _ tt _) as [[[]|e] d4] eqn:Hloop; [|discriminate].
    unfold ret in Hrun. injection Hrun as <- <-. split; [reflexivity|].
    exists nl, d2. split; [reflexivity|exact Hloop].
  - unfold ret in Hrun. injection Hrun as <- <-. split; reflexivity.
Qed.

Lemma stamped_in (l : list Lineup.entry) (nd : list (string * Z)) (p : string * Z) :
  Forall2 (Terms.lineup_stamped tm) l nd -> In p nd ->
  exists x, In x l /\ Terms.lineup_stamped tm x p.
Proof.
  induction 1 as [|x q l nd Hq _ IH]; intros Hin; [destruct Hin|].
  destruct Hin as [<-|Hin]; [exists x; split; [left; reflexivity|exact Hq]|].
  destruct (IH Hin) as (y & Hy & Hs). exists y. split; [right; exact Hy|exact Hs].
Qed.

Lemma stamped_of (l : list Lineup.entry) (nd : list (string * Z)) (x : Lineup.entry) :
  Forall2 (Terms.lineup_stamped tm) l nd -> In x l ->
  exists p, In p nd /\ Terms.lineup_stamped tm x p.
Proof.
  induction 1 as [|y q l nd Hq _ IH]; intros Hin; [destruct Hin|].
  destruct Hin as [<-|Hin]; [exists q; split; [left; reflexivity|exact Hq]|].
  destruct (IH Hin) as (p & Hp & Hs). exists p. split; [right; exact Hp|exact Hs].
Qed.

Lemma in_combine_seq (A : Type) (l : list A) (p : A) (k : nat) :
  In p l -> exists i, In (i, p) (combine (seq k (length l)) l).
Proof.
  revert k. induction l as [|q l IH]; intros k Hin; [destruct Hin|].
  destruct Hin as [<-|Hin]; [exists k; left; reflexivity|].
  destruct (IH (S k) Hin) as [i Hi]. exists i. right. exact Hi.
Qed.

Lemma in_fetched (x : Lineup.entry) (reply : Station.reply) (s : string) :
  In x lineups ->
  get (StageA.get_lineup_mapping lineups (Lineup.lineup x)) = Some reply ->
  In s (Terms.station_ids reply) ->
  In s (Terms.fetched_station_ids lineups get).
Proof.
  intros Hx Hr Hs. unfold Terms.fetched_station_ids. apply in_flat_map.
  exists x. split; [exact Hx|]. rewrite Hr. exact Hs.
Qed.

Lemma in_station_ids (reply : Station.reply) (s : string) :
  In s (Terms.station_ids reply) <->
  exists st, In (Station.Dict st) (Station.stations reply) /\ Station.stationID st = s.
Proof.
  unfold Terms.station_ids. rewrite in_flat_map. split.
  - intros ([st|] & Hin & Hs); [|destruct Hs]. destruct Hs as [<-|[]]. eauto.
  - intros (st & Hin & <-). exists (Station.Dict st). split; [exact Hin|left; reflexivity].
Qed.

(** The loop over the lineups keeps the soundness of the active flags. *)
Lemma refresh_stations_sound (nd : list (string * Z)) (k : nat) (d : db) :
  Forall2 (Terms.lineup_stamped tm) lineups nd ->
  Terms.stations_sound (Terms.fetched_station_ids lineups get) d ->
  Terms.stations_sound (Terms.fetched_station_ids lineups get)
    (snd (for_each (combine (seq k (length nd)) nd)
                   (StageA.refresh_stations now lineups get) tt d)).
Proof.
  intros Hnd. apply preserves_for_each. intros [] [i p] Hin.
  apply in_combine_r in Hin. destruct (stamped_in _ _ _ Hnd Hin) as (x & Hx & Hn & _).
  unfold StageA.refresh_stations. cbn [fst snd]. rewrite Hn.
  destruct (get (StageA.get_lineup_mapping lineups (Lineup.lineup x))) as [reply|] eqn:Hr;
    [|intros d0 H0; exact H0].
  intros d0 H0. unfold bind, Main.received, ret. unfold StageA.store_lineup_station.
  apply (preserves_for_each _ _ _ _ (StageA.store_station (now i))); [|exact H0].
  intros [] item Hitem d1 H1. apply store_station_sound; [|exact H1].
  intros st ->. apply (in_fetched x reply); [exact Hx|exact Hr|].
  apply in_station_ids. eauto.
Qed.

Lemma store_lineup_station_settles (t : Z) (reply : Station.reply) (d d' : db) :
  StageA.store_lineup_station t reply d = (Ok tt, d') ->
  forall s, In s (Terms.station_ids reply) -> Terms.station_settled s d'.
Proof.
  intros Hrun s Hs. apply in_station_ids in Hs as (st & Hin & <-).
  unfold StageA.store_lineup_station in Hrun.
  apply (for_each_establishes _ _
           (fun item d0 => forall st0, item = Station.Dict st0 ->
                                       Terms.station_settled (Station.stationID st0) d0)
           (StageA.store_station t) (Station.stations reply)
           ltac:(intros [] item d0 [] d1 _ Hstep st0 ->;
                 pose proof (store_station_settles t st0 d0) as H;
                 rewrite Hstep in H; exact H)
           ltac:(intros y [] item d0 _ Hq st0 Hy;
                 apply store_station_keeps_settled, Hq, Hy)
           tt d tt d' Hrun (Station.Dict st) Hin st eq_refl).
Qed.

Lemma store_lineup_station_keeps_settled (s : string) (t : Z) (reply : Station.reply)
    (d : db) :
  Terms.station_settled s d ->
  Terms.station_settled s (snd (StageA.store_lineup_station t reply d)).
Proof.
  unfold StageA.store_lineup_station.
  apply (preserves_for_each (Terms.station_settled s)).
  intros [] item _ d0 H0. apply store_station_keeps_settled, H0.
Qed.

Lemma refresh_stations_settles (nd : list (string * Z)) (k : nat) (d d' : db) :
  for_each (combine (seq k (length nd)) nd)
           (StageA.refresh_stations now lineups get) tt d = (Ok tt, d') ->
  forall p reply s,
    In p nd -> get (StageA.get_lineup_mapping lineups (fst p)) = Some reply ->
    In s (Terms.station_ids reply) -> Terms.station_settled s d'.
Proof.
  intros Hrun p reply s Hp Hr Hs.
  destruct (in_combine_seq _ nd p k Hp) as [i Hi].
  apply (for_each_establishes _ _
           (fun (ip : nat * (string * Z)) d0 =>
              forall reply0 s0,
                get (StageA.get_lineup_mapping lineups (fst (snd ip))) = Some reply0 ->
                In s0 (Terms.station_ids reply0) -> Terms.station_settled s0 d0)
           (StageA.refresh_stations now lineups get) _
           ltac:(intros [] [j q] d0 [] d1 _ Hstep reply0 s0 Hr0 Hs0;
                 unfold StageA.refresh_stations, bind, Main.received in Hstep;
                 cbn [fst snd] in Hstep, Hr0; rewrite Hr0 in Hstep;
                 unfold ret in Hstep;
                 apply (store_lineup_station_settles _ _ _ _ Hstep s0 Hs0))
           ltac:(intros y [] [j q] d0 _ Hq reply0 s0 Hr0 Hs0;
                 unfold StageA.refresh_stations, bind, Main.received; cbn [fst snd];
                 destruct (get (StageA.get_lineup_mapping lineups (fst q)));
                 [apply store_lineup_station_keeps_settled, (Hq reply0 s0 Hr0 Hs0)
                 |apply (Hq reply0 s0 Hr0 Hs0)])
           tt d tt d' Hrun (i, p) Hi reply s Hr Hs).
Qed.

End RefreshFacts.

Section RefreshKeeps.

Variable tm : string -> result Z.

Lemma lineup_fields_eq (x : Lineup.entry) :
  StageA.lineup_fields tm x
  = match tm (Lineup.modified x) with
    | Ok m => Ok (Qb.of_pairs "lineups" (Terms.lineup_pairs x m))
    | Raise e => Raise e
    end.
Proof.
  unfold StageA.lineup_fields, Terms.lineup_pairs, Cache.add, Qb.add, Qb.new. simpl.
  destruct (tm (Lineup.modified x)); reflexivity.
Qed.

(** A round of [store_lineups_from_status] writes to [lineups] only. *)
Lemma store_lineup_frame (nl : list Lineup.entry) (x : Lineup.entry) (t : string) (d : db) :
  t <> "lineups" ->
  get_table (snd (StageA.store_lineup tm nl x d)) t = get_table d t.
Proof.
  intros Ht. unfold StageA.store_lineup, bind, lift. rewrite lineup_fields_eq.
  destruct (tm (Lineup.modified x)) as [m|e]; [|reflexivity].
  pose proof (insert_or_update_frame (Qb.of_pairs "lineups" (Terms.lineup_pairs x m))
                "lineupname" (Some "modified") t d Ht) as H.
  destruct (Qb.insert_or_update _ _ _ d) as [[b|e] d1]; exact H.
Qed.

Lemma delete_lineup_frame (v : sqlval) (t : string) (d : db) :
  t <> "lineups" ->
  get_table (snd (Store.delete_lineup_from_db v d)) t = get_table d t.
Proof.
  intros Ht. unfold Store.delete_lineup_from_db, Sql.delete. cbn [snd].
  apply get_set_table_other. congruence.
Qed.

Lemma kept_step (A : Type) (m : M A) (d : db) :
  (forall d0, Terms.stations_kept d0 (snd (m d0))) ->
  Terms.preserves (Terms.stations_kept d) m.
Proof. intros H d0 H0. eapply stations_kept_trans; [exact H0|apply H]. Qed.

Lemma refresh_kept (now : nat -> Z) (lineups : list Lineup.entry)
    (get : option string -> option Station.reply) (d : db) :
  Terms.stations_kept d
    (snd (StageA.refresh_lineups_and_stations_if_needed tm now lineups get d)).
Proof.
  assert (H : Terms.preserves (Terms.stations_kept d)
                (StageA.refresh_lineups_and_stations_if_needed tm now lineups get));
    [|apply H, stations_kept_refl].
  unfold StageA.refresh_lineups_and_stations_if_needed.
  apply preserves_bind.
  { unfold Store.get_lineups_and_modified_date. apply preserves_bind.
    - intros d0 H0. exact H0.
    - intros a. apply preserves_ret. }
  intros old. apply preserves_bind; [apply preserves_lift|]. intros nd. cbv zeta.
  apply preserves_bind; [apply preserves_lift|]. intros modified.
  apply preserves_bind.
  { apply preserves_for_each. intros [] v _. apply kept_step. intros d0.
    apply stations_kept_same, delete_lineup_frame. discriminate. }
  intros _. apply preserves_bind; [|intros _; apply preserves_ret].
  match goal with |- context [if ?b then _ else _] => destruct b end;
    [|apply preserves_ret].
  apply preserves_bind.
  { unfold StageA.store_lineups_from_status. apply preserves_for_each.
    intros nl x _. apply kept_step. intros d0.
    apply stations_kept_same, store_lineup_frame. discriminate. }
  intros _. apply preserves_bind; [apply kept_step, deactivate_kept|]. intros _.
  apply preserves_for_each. intros [] [i p] _.
  unfold StageA.refresh_stations. apply preserves_bind; [apply preserves_received|].
  intros reply. unfold StageA.store_lineup_station. apply preserves_for_each.
  intros [] item _. apply kept_step. intros d0. apply store_station_kept.
Qed.

Lemma combine_columns (d : db) (t c1 c2 : string) :
  combine (Terms.column d t c1) (Terms.column d t c2)
  = map (fun r => (row_get r c1, row_get r c2)) (get_table d t).
Proof.
  unfold Terms.column. induction (get_table d t) as [|r l IH]; simpl; [reflexivity|].
  rewrite IH. reflexivity.
Qed.

Lemma combine_app_both (A B : Type) (a x : list A) (b y : list B) :
  length a = length b -> combine (a ++ x) (b ++ y) = combine a b ++ combine x y.
Proof.
  revert b. induction a as [|u a IH]; intros [|v b] H; simpl in *; try discriminate;
    [reflexivity|]. rewrite IH by lia. reflexivity.
Qed.

Lemma in_combine_repeat (A B : Type) (x : list A) (v : B) (n : nat) (a : A) (b : B) :
  In (a, b) (combine x (repeat v n)) -> b = v.
Proof.
  intros H. apply in_combine_r in H. apply repeat_spec in H. exact H.
Qed.

End RefreshKeeps.

(** X21. The refresh rebuilds the active flags: when it reports a change, every
    station that the fetched lineups list has a row, and a row of
    [stations] is active afterwards exactly if it is the row of one of the
    fetched stations; a station that no lineup lists any more is
    inactive. *)
Theorem refresh_rebuilds_active_flags (tm : string -> result Z) (now : nat -> Z)
    (lineups : list Lineup.entry) (get_lineup_stations : option string -> option Station.reply)
    (d d' : db) :
  StageA.refresh_lineups_and_stations_if_needed tm now lineups get_lineup_stations d
  = (Ok true, d') ->
  let ids := Terms.fetched_station_ids lineups get_lineup_stations in
  (forall s, In s ids ->
     exists r, In r (get_table d' "stations") /\ Terms.is_station s r = true) /\
  (forall r, In r (get_table d' "stations") ->
     row_get r "active"
     = VInt (if existsb (fun s => Terms.is_station s r) ids then 1 else 0)).
Proof.
  intros Hrun ids.
  destruct (refresh_stages tm now lineups get_lineup_stations d d' true Hrun)
    as (nd & modified & Hnd & _ & _ & nl & d2 & _ & Hloop).
  assert (Hsound : Terms.stations_sound ids d').
  { pose proof (refresh_stations_sound tm now lineups get_lineup_stations nd 0
                  (snd (Store.deactivate_all_stations d2)) Hnd
                  (deactivate_sound ids d2)) as H.
    rewrite Hloop in H. exact H. }
  assert (Hsettled : forall s, In s ids -> Terms.station_settled s d').
  { intros s Hs. unfold ids, Terms.fetched_station_ids in Hs.
    apply in_flat_map in Hs as (x & Hx & Hs).
    destruct (get_lineup_stations (StageA.get_lineup_mapping lineups (Lineup.lineup x)))
      as [reply|] eqn:Hr; [|destruct Hs].
    destruct (stamped_of tm _ _ x Hnd Hx) as (p & Hp & Hn & _).
    apply (refresh_stations_settles now lineups get_lineup_stations nd 0 _ d' Hloop
             p reply s Hp); [rewrite Hn; exact Hr|exact Hs]. }
  split.
  - intros s Hs. apply (Hsettled s Hs).
  - intros r Hr. destruct (existsb (fun s => Terms.is_station s r) ids) eqn:E.
    + apply existsb_exists in E as (s & Hs & Hm).
      destruct (Hsettled s Hs) as [_ Hall]. apply Hall; assumption.
    + destruct (Hsound r Hr) as [H0|(_ & s & Hs & Hid)]; [exact H0|].
      assert (existsb (fun s0 => Terms.is_station s0 r) ids = true).
      { apply existsb_exists. exists s. split; [exact Hs|]. apply is_station_iff, Hid. }
      congruence.
Qed.

(** X22. The refresh leaves the choice of stations to the user: however it
    ends, the stations stored before keep their id and their query flag,
    the stations it adds have no query flag, and so no station is watched
    afterwards whose query flag was not set before. *)
Theorem refresh_keeps_query_flags (tm : string -> result Z) (now : nat -> Z)
    (lineups : list Lineup.entry) (get_lineup_stations : option string -> option Station.reply)
    (d : db) :
  let d' := snd (StageA.refresh_lineups_and_stations_if_needed tm now lineups
                   get_lineup_stations d) in
  Terms.stations_kept d d' /\
  (forall s, Terms.watched d' s ->
     exists r, In r (get_table d "stations") /\
               row_get r "station_id" = VText s /\
               row_get r "query_from_sd" = VInt 1).
Proof.
  intros d'. pose proof (refresh_kept tm now lineups get_lineup_stations d) as Hk.
  fold d' in Hk. split; [exact Hk|].
  intros s Hw. apply watched_iff in Hw as (r' & Hin & Hq & Hid).
  unfold Store.query_active in Hq. apply andb_true_iff in Hq as [Hq _].
  apply sql_match_int in Hq.
  assert (Hpair : In (VText s, VInt 1)
                     (combine (Terms.column d' "stations" "station_id")
                              (Terms.column d' "stations" "query_from_sd"))).
  { rewrite combine_columns. apply in_map_iff. exists r'. rewrite Hid, Hq. auto. }
  destruct Hk as (added & H1 & H2). rewrite H1, H2 in Hpair.
  rewrite combine_app_both in Hpair by (unfold Terms.column; rewrite !length_map; reflexivity).
  apply in_app_or in Hpair as [Hpair|Hpair].
  - rewrite combine_columns in Hpair. apply in_map_iff in Hpair as (r & [= E1 E2] & Hr).
    eauto.
  - apply in_combine_repeat in Hpair. discriminate.
Qed.

(** ** Stage A: a refresh settles the lineups *)

Section RefreshSettles.

Variable tm : string -> result Z.

Lemma built_of_pairs (t : string) (fv : list (string * sqlval)) :
  NoDup (map fst fv) -> Builder.built (Qb.of_pairs t fv).
Proof.
  induction fv as [|[f v] fv IH] using rev_ind; intros Hnd; [apply Builder.built_new|].
  rewrite map_app in Hnd. simpl in Hnd.
  assert (Hfv : NoDup (map fst fv)) by (eapply NoDup_app_remove_r, Hnd).
  assert (Hf : ~ In f (map fst fv)).
  { apply NoDup_remove_2 in Hnd. rewrite app_nil_r in Hnd. exact Hnd. }
  eapply Builder.built_add; [apply IH, Hfv|].
  rewrite (add_snoc (Qb.of_pairs t fv) f v Hf).
  unfold Builder.extended, Qb.of_pairs. simpl. rewrite !map_app. reflexivity.
Qed.

Lemma find_exists (A : Type) (p : A -> bool) (l : list A) (x : A) :
  In x l -> p x = true -> exists y, find p l = Some y.
Proof.
  intros Hin Hp. destruct (find p l) as [y|] eqn:E; [eauto|].
  pose proof (find_none _ _ E x Hin). congruence.
Qed.

Lemma first_lineup_unique (l : list Lineup.entry) (x : Lineup.entry) :
  NoDup (map Lineup.lineup l) -> In x l ->
  Terms.first_lineup l (Lineup.lineup x) = Some x.
Proof.
  unfold Terms.first_lineup. induction l as [|y l IH]; intros Hnd Hin; [destruct Hin|].
  inversion Hnd as [|? ? Hy Hl]; subst. simpl.
  destruct (String.eqb (Lineup.lineup y) (Lineup.lineup x)) eqn:E.
  - apply String.eqb_eq in E. destruct Hin as [->|Hin]; [reflexivity|].
    exfalso. apply Hy. rewrite E. apply in_map, Hin.
  - destruct Hin as [->|Hin]; [rewrite String.eqb_refl in E; discriminate|].
    apply IH; assumption.
Qed.

Lemma same_name_same_lineup (l : list Lineup.entry) (x y : Lineup.entry) :
  NoDup (map Lineup.lineup l) -> In x l -> In y l ->
  Lineup.lineup x = Lineup.lineup y -> x = y.
Proof.
  intros Hnd Hx Hy E. pose proof (first_lineup_unique l x Hnd Hx) as H1.
  pose proof (first_lineup_unique l y Hnd Hy) as H2. rewrite E in H1. congruence.
Qed.

(** What the loop over the same lineups leaves out of its result had equal
    stamps. *)
Lemma modified_loop_spec (same : list sqlval) (old new : list (sqlval * sqlval)) :
  forall acc m,
    StageA.modified_loop same old new acc = Ok m ->
    (forall s, In s acc -> In s m) /\
    (forall s, In s same ->
       exists t1 t2, StageA.stamp_of old s = Ok t1 /\ StageA.stamp_of new s = Ok t2 /\
                     (py_eq t1 t2 = false -> In s m)).
Proof.
  induction same as [|s0 same IH]; intros acc m; simpl.
  - intros [= <-]. split; [auto|intros s []].
  - destruct (StageA.stamp_of old s0) as [t1|] eqn:E1; simpl; [|discriminate].
    destruct (StageA.stamp_of new s0) as [t2|] eqn:E2; simpl; [|discriminate].
    intros Hrun. apply IH in Hrun as [Hacc Hsame]. split.
    + intros s Hs. apply Hacc. destruct (negb (py_eq t1 t2)); [|exact Hs].
      apply in_or_app. left. exact Hs.
    + intros s [<-|Hs]; [|apply Hsame, Hs].
      exists t1, t2. split; [exact E1|]. split; [exact E2|].
      intros Hne. apply Hacc. rewrite Hne. simpl. apply in_or_app. right. left.
      reflexivity.
Qed.

Lemma is_empty_nil (A : Type) (l : list A) : StageA.is_empty l = true -> l = [].
Proof. destruct l; [reflexivity|discriminate]. Qed.

(** A refresh that finds nothing to do found the lineups in step. *)
Lemma compared_in_step (d : db) (lineups : list Lineup.entry) (nd : list (string * Z)) :
  NoDup (map Lineup.lineup lineups) ->
  Forall2 (Terms.lineup_stamped tm) lineups nd ->
  let old_set := StageA.to_set (map fst (Terms.stored_lineups d)) in
  let new_set := StageA.to_set (map (fun x => VText (fst x)) nd) in
  StageA.difference old_set new_set = [] ->
  StageA.difference new_set old_set = [] ->
  StageA.modified_loop (StageA.intersection old_set new_set) (Terms.stored_lineups d)
    (map StageA.as_values nd) [] = Ok [] ->
  Terms.lineups_in_step tm d lineups.
Proof.
  intros Hnodup Hnd old_set new_set Hdel Hnew Hmod. subst old_set new_set.
  rewrite (stamped_names _ _ _ Hnd), stored_names in *.
  pose proof (proj1 (difference_nil _ _) Hdel) as Hd.
  pose proof (proj1 (difference_nil _ _) Hnew) as Hn.
  split.
  - intros r Hr.
    assert (Hin : In (row_get r "lineupname")
                     (StageA.to_set (Terms.column d "lineups" "lineupname"))).
    { apply (proj2 (in_to_set _ _)), (proj2 (in_column _ _ _ _)). eauto. }
    apply Hd in Hin. apply (proj1 (in_to_set _ _)) in Hin.
    apply (proj1 (in_status_names _ _)) in Hin as (x & Hx & E). eauto.
  - intros x Hx.
    assert (Hin : In (VText (Lineup.lineup x))
                     (StageA.to_set (map (fun y => VText (Lineup.lineup y)) lineups))).
    { apply (proj2 (in_to_set _ _)), (proj2 (in_status_names _ _)). eauto. }
    pose proof (Hn _ Hin) as Hold. apply (proj1 (in_to_set _ _)) in Hold.
    apply (proj1 (in_column _ _ _ _)) in Hold as (r0 & Hr0 & Hname).
    destruct (find_exists _ (Sql.col_eq "lineupname" (VText (Lineup.lineup x)))
                _ r0 Hr0) as [r Hr].
    { unfold Sql.col_eq. rewrite Hname. apply String.eqb_refl. }
    destruct (stamped_of tm _ _ x Hnd Hx) as (p & Hp & _ & Hm).
    destruct (modified_loop_spec _ _ _ _ _ Hmod) as [_ Hsame].
    destruct (Hsame (VText (Lineup.lineup x))) as (t1 & t2 & E1 & E2 & Hdiff).
    { apply (proj2 (in_intersection _ _ _)). split; [|exact Hin].
      apply (proj2 (in_to_set _ _)), (proj2 (in_column _ _ _ _)). eauto. }
    rewrite stamp_of_stored in E1. fold (Terms.lineup_row d (Lineup.lineup x)) in Hr.
    rewrite Hr in E1. injection E1 as <-.
    rewrite (stamp_of_status tm _ _ _ Hnd), (first_lineup_unique _ _ Hnodup Hx), Hm in E2.
    injection E2 as <-.
    exists r, (snd p). split; [exact Hr|]. split; [exact Hm|].
    destruct (py_eq (row_get r "modified") (VInt (snd p))) eqn:E.
    + apply sqlval_eqb_eq in E. exact E.
    + destruct (Hdiff eq_refl).
Qed.

(** The rows that the DELETEs of a refresh leave. *)
Lemma deletes_rows (l : list sqlval) :
  forall d,
    get_table (snd (for_each l (fun _ v => Store.delete_lineup_from_db v) tt d)) "lineups"
    = filter (fun r => negb (existsb (fun v => Sql.col_eq "lineupname" v r) l))
             (get_table d "lineups").
Proof.
  induction l as [|v l IH]; intros d.
  - simpl. induction (get_table d "lineups") as [|r rows IHr]; simpl; [reflexivity|].
    rewrite <- IHr. reflexivity.
  - rewrite for_each_cons. unfold Store.delete_lineup_from_db at 1, Sql.delete at 1.
    rewrite IH, get_set_table_same.
    induction (get_table d "lineups") as [|r rows IHr]; simpl; [reflexivity|].
    destruct (Sql.col_eq "lineupname" v r); simpl; [exact IHr|].
    destruct (existsb _ l); simpl; [exact IHr|]. rewrite IHr. reflexivity.
Qed.

Lemma lineup_row_read (x : Lineup.entry) (m : Z) (r : row) :
  row_get (row_set_all r (Terms.lineup_pairs x m)) "lineupname" = VText (Lineup.lineup x).
Proof.
  apply row_set_all_in; [|left; reflexivity|discriminate].
  simpl. repeat constructor; simpl; intuition discriminate.
Qed.

(** The rows of the table after a merge: rows that were there, or rows
    written from the fields. *)
Lemma insert_or_update_rows (t : string) (fv : list (string * sqlval)) (sel : string)
    (cmp : option string) (d : db) (r' : row) :
  In r' (get_table (snd (Qb.insert_or_update (Qb.of_pairs t fv) sel cmp d)) t) ->
  In r' (get_table d t) \/ exists r0, r' = row_set_all r0 fv.
Proof.
  unfold Qb.insert_or_update, bind, lift, Sql.select_first.
  destruct (Qb.value_of _ sel); [|auto].
  destruct (match cmp with Some c => Qb.value_of _ c | None => Ok VNull end); [|auto].
  simpl table. destruct (find _ _) as [r|].
  - match goal with |- context [if ?b then _ else _] => destruct b end; [auto|].
    unfold Qb.execute_update, Sql.update, ret. rewrite pairs_of_pairs. simpl.
    rewrite get_set_table_same. intros H. apply in_map_iff in H as (r0 & <- & Hr0).
    destruct (Sql.col_eq _ _ r0); eauto.
  - unfold Qb.execute_insert, Sql.insert, ret. rewrite pairs_of_pairs. simpl.
    rewrite get_set_table_same. intros H. apply in_app_or in H as [H|[<-|[]]]; eauto.
Qed.

End RefreshSettles.

Section RefreshLineups.

Variable tm : string -> result Z.
Variable lineups : list Lineup.entry.

Lemma lineup_pairs_built (x : Lineup.entry) (m : Z) :
  Builder.built (Qb.of_pairs "lineups" (Terms.lineup_pairs x m)).
Proof.
  apply built_of_pairs. simpl. repeat constructor; simpl; intuition discriminate.
Qed.

(** One round of [store_lineups_from_status], when the stamp converts. *)
Lemma store_lineup_effect (nl : list Lineup.entry) (x : Lineup.entry) (m : Z) (d : db) :
  tm (Lineup.modified x) = Ok m ->
  exists nl' d1 r,
    StageA.store_lineup tm nl x d = (Ok nl', d1) /\
    Terms.lineup_row d1 (Lineup.lineup x) = Some r /\
    row_get r "modified" = VInt m /\
    (forall n r2, n <> Lineup.lineup x ->
       Terms.lineup_row d n = Some r2 -> Terms.lineup_row d1 n = Some r2).
Proof.
  intros Hm. unfold StageA.store_lineup, bind, lift. rewrite lineup_fields_eq, Hm.
  destruct (insert_or_update_effect (Qb.of_pairs "lineups" (Terms.lineup_pairs x m))
              "lineupname" "modified" (VText (Lineup.lineup x)) (VInt m) d
              (lineup_pairs_built x m) eq_refl ltac:(discriminate) ltac:(discriminate)
              eq_refl ltac:(discriminate))
    as (b & d1 & r & Hrun & Hf & Hr & Hframe & _).
  rewrite Hrun. unfold ret. do 3 eexists. split; [reflexivity|].
  split; [exact Hf|]. split; [exact Hr|].
  intros n r2 Hn. apply Hframe. congruence.
Qed.

Lemma store_lineup_named (nl : list Lineup.entry) (x : Lineup.entry) :
  In x lineups ->
  Terms.preserves (Terms.named_in_status lineups) (StageA.store_lineup tm nl x).
Proof.
  intros Hx d Hd r' Hr'. revert Hr'.
  unfold StageA.store_lineup, bind, lift. rewrite lineup_fields_eq.
  destruct (tm (Lineup.modified x)) as [m|e]; [|apply Hd].
  pose proof (insert_or_update_rows "lineups" (Terms.lineup_pairs x m) "lineupname"
                (Some "modified") d r') as Hrows.
  destruct (Qb.insert_or_update _ _ _ d) as [[b|e] d1]; cbn [snd] in *; unfold ret;
    cbn [snd]; intros Hr'; (destruct (Hrows Hr') as [Hold|(r0 & ->)];
      [apply Hd, Hold|exists x; split; [exact Hx|apply lineup_row_read]]).
Qed.

Lemma store_lineup_keeps_settled (y : Lineup.entry) (nl : list Lineup.entry)
    (x : Lineup.entry) (d : db) :
  NoDup (map Lineup.lineup lineups) -> In x lineups ->
  Terms.lineup_settled tm lineups y d ->
  Terms.lineup_settled tm lineups y (snd (StageA.store_lineup tm nl x d)).
Proof.
  intros Hnd Hx Hy Hyin. destruct (Hy Hyin) as (r & m & Hr & Hm & Hrm).
  destruct (tm (Lineup.modified x)) as [mx|e] eqn:Hmx.
  - destruct (store_lineup_effect nl x mx d Hmx) as (nl' & d1 & r1 & Hrun & Hr1 & Hrm1 & Hfr).
    rewrite Hrun. cbn [snd].
    destruct (string_dec (Lineup.lineup y) (Lineup.lineup x)) as [E|E].
    + assert (y = x) by (apply (same_name_same_lineup lineups); assumption). subst y.
      exists r1, mx. auto.
    + exists r, m. split; [apply Hfr; assumption|auto].
  - unfold StageA.store_lineup, bind, lift. rewrite lineup_fields_eq, Hmx. cbn [snd].
    exists r, m. auto.
Qed.

Lemma store_lineups_settle (d d' : db) (nl : list Lineup.entry) :
  NoDup (map Lineup.lineup lineups) ->
  Terms.named_in_status lineups d ->
  StageA.store_lineups_from_status tm lineups d = (Ok nl, d') ->
  Terms.lineups_in_step tm d' lineups.
Proof.
  intros Hnd Hnamed Hrun. unfold StageA.store_lineups_from_status in Hrun. split.
  - pose proof (preserves_for_each (Terms.named_in_status lineups) _ _ lineups
                  (StageA.store_lineup tm)
                  (fun acc x Hx => store_lineup_named acc x Hx) [] d Hnamed) as H.
    rewrite Hrun in H. exact H.
  - intros x Hx.
    apply (for_each_establishes _ _ (Terms.lineup_settled tm lineups)
             (StageA.store_lineup tm) lineups
             ltac:(intros acc x0 d0 acc' d1 Hx0 Hstep _;
                   destruct (tm (Lineup.modified x0)) as [m|e] eqn:Hm;
                   [destruct (store_lineup_effect acc x0 m d0 Hm)
                      as (nl' & d2 & r & Hrun' & Hr & Hrm & _);
                    rewrite Hrun' in Hstep; injection Hstep as <- <-; eauto
                   |unfold StageA.store_lineup, bind, lift in Hstep;
                    rewrite lineup_fields_eq, Hm in Hstep; discriminate])
             ltac:(intros y acc x0 d0 Hx0 Hq;
                   apply store_lineup_keeps_settled; assumption)
             [] d nl d' Hrun x Hx Hx).
Qed.

(** The stages after the lineups are stored leave the table [lineups] as
    it is. *)
Lemma stations_stage_lineups (now : nat -> Z) (get : option string -> option Station.reply)
    (l : list (nat * (string * Z))) (d : db) :
  get_table (snd (for_each l (StageA.refresh_stations now lineups get) tt
                    (snd (Store.deactivate_all_stations d)))) "lineups"
  = get_table d "lineups".
Proof.
  apply (preserves_for_each (fun d0 => get_table d0 "lineups" = get_table d "lineups")).
  - intros [] [i p] _. unfold StageA.refresh_stations.
    apply preserves_bind; [apply preserves_received|]. intros reply.
    unfold StageA.store_lineup_station. apply preserves_for_each.
    intros [] [item|] _ d0 H0; [|exact H0].
    unfold StageA.store_station, bind, lift. rewrite station_fields_eq.
    pose proof (insert_or_update_frame
                  (Qb.of_pairs "stations" (Terms.station_pairs (now i) item))
                  "station_id" None "lineups" d0 ltac:(discriminate)) as H.
    destruct (Qb.insert_or_update _ _ _ d0) as [[b|e] d1]; unfold ret; cbn [snd] in *;
      congruence.
  - unfold Store.deactivate_all_stations, Sql.update. cbn [snd].
    apply get_set_table_other. discriminate.
Qed.

Lemma in_step_table (d d' : db) :
  get_table d' "lineups" = get_table d "lineups" ->
  Terms.lineups_in_step tm d lineups -> Terms.lineups_in_step tm d' lineups.
Proof.
  unfold Terms.lineups_in_step, Terms.lineup_row. intros ->. auto.
Qed.

End RefreshLineups.

(** After a refresh that returned, the stored lineups are those of the
    status. *)
Lemma refresh_settles (tm : string -> result Z) (now : nat -> Z)
    (lineups : list Lineup.entry)
    (get_lineup_stations : option string -> option Station.reply)
    (d d' : db) (b : bool) :
  NoDup (map Lineup.lineup lineups) ->
  (forall r, In r (get_table d "lineups") -> row_get r "lineupname" <> VNull) ->
  StageA.refresh_lineups_and_stations_if_needed tm now lineups get_lineup_stations d
  = (Ok b, d') ->
  Terms.lineups_in_step tm d' lineups.
Proof.
  intros Hnodup Hnn Hrun.
  destruct (refresh_stages tm now lineups get_lineup_stations d d' b Hrun)
    as (nd & modified & Hnd & Hmod & Hb & Hrest).
  cbv zeta in *.
  set (old_set := StageA.to_set (map fst (Terms.stored_lineups d))) in *.
  set (new_set := StageA.to_set (map (fun x => VText (fst x)) nd)) in *.
  destruct b.
  - destruct Hrest as (nl & d2 & Hst & Hloop).
    apply (in_step_table tm lineups d2).
    { pose proof (stations_stage_lineups lineups now get_lineup_stations
                    (combine (seq 0 (length nd)) nd) d2) as H.
      rewrite Hloop in H. exact H. }
    pose proof (fun H => store_lineups_settle tm lineups _ d2 nl Hnodup H Hst) as Hs.
    apply Hs. clear Hs.
    intros r Hr. rewrite deletes_rows in Hr. apply filter_In in Hr as [Hr Hkeep].
    apply negb_true_iff in Hkeep.
    assert (Hold : In (row_get r "lineupname") old_set).
    { apply (proj2 (in_to_set _ _)). rewrite stored_names.
      apply (proj2 (in_column _ _ _ _)). eauto. }
    assert (Hnew : In (row_get r "lineupname") new_set).
    { destruct (StageA.mem (row_get r "lineupname") new_set) eqn:Em;
        [apply mem_in, Em|].
      assert (n : ~ In (row_get r "lineupname") new_set)
        by (intros Hin; apply mem_in in Hin; congruence).
      exfalso.
      assert (Hdel : In (row_get r "lineupname") (StageA.difference old_set new_set))
        by (apply (proj2 (in_difference _ _ _)); auto).
      assert (existsb (fun v => Sql.col_eq "lineupname" v r)
                (StageA.difference old_set new_set) = true).
      { apply existsb_exists. eexists. split; [exact Hdel|].
        unfold Sql.col_eq. apply sql_match_refl, Hnn, Hr. }
      congruence. }
    apply (proj1 (in_to_set _ _)) in Hnew. rewrite (stamped_names tm _ _ Hnd) in Hnew.
    apply (proj1 (in_status_names _ _)) in Hnew as (x & Hx & E). eauto.
  - symmetry in Hb. apply orb_false_iff in Hb as [Hb H3].
    apply orb_false_iff in Hb as [H1 H2].
    apply negb_false_iff, is_empty_nil in H1, H2, H3. subst modified.
    rewrite H2 in Hrest. simpl in Hrest. subst d'.
    apply (compared_in_step tm d lineups nd Hnodup Hnd H2 H1 Hmod).
Qed.


(** X23. The refresh is idempotent: once it has returned (for a status whose
    lineup names are pairwise different, on a table without NULL names), a
    second refresh against the same status finds every lineup under its
    stamp, reports no change and writes nothing, whatever the clock and the
    service do in between. *)
Theorem refresh_is_idempotent (tm : string -> result Z) (now now2 : nat -> Z)
    (lineups : list Lineup.entry)
    (get_lineup_stations get_lineup_stations2 : option string -> option Station.reply)
    (d d' : db) (b : bool) :
  NoDup (map Lineup.lineup lineups) ->
  (forall r, In r (get_table d "lineups") -> row_get r "lineupname" <> VNull) ->
  StageA.refresh_lineups_and_stations_if_needed tm now lineups get_lineup_stations d
  = (Ok b, d') ->
  Terms.lineups_in_step tm d' lineups /\
  StageA.refresh_lineups_and_stations_if_needed tm now2 lineups get_lineup_stations2 d'
  = (Ok false, d').
Proof.
  intros Hnodup Hnn Hrun.
  pose proof (refresh_settles tm now lineups get_lineup_stations d d' b Hnodup Hnn Hrun)
    as Hstep.
  split; [exact Hstep|apply in_step_refresh, Hstep].
Qed.

(** ** Which tables a stage writes to *)

Section TableFrames.

Variable tm : string -> result Z.

Lemma preserves_assert (P : db -> Prop) (b : bool) : Terms.preserves P (py_assert b).
Proof. intros d H. destruct b; exact H. Qed.

Lemma frame_step (A : Type) (m : M A) (t : string) (d : db) :
  (forall d0, get_table (snd (m d0)) t = get_table d0 t) ->
  Terms.preserves (Terms.same_table t d) m.
Proof. intros H d0 H0. unfold Terms.same_table in *. rewrite H. exact H0. Qed.

Lemma store_schedule_day_frame (s : string) (acc : dict (list string) * Z)
    (day : string * Md5.entry) (t : string) (d : db) :
  t <> "scheduleindex" -> t <> "schedule" ->
  get_table (snd (Cache.store_schedule_day tm s acc day d)) t = get_table d t.
Proof.
  intros H1 H2. destruct acc as [ns c]. destruct day as [day e].
  rewrite store_schedule_day_eq.
  destruct (Util.date_to_int day) as [ord|x]; [|reflexivity].
  destruct (String.eqb (Md5.md5 e) Cache.sentinel); [reflexivity|].
  assert (Hdel : forall r, get_table (Spec.entries_deleted d r) t = get_table d t).
  { intros r. unfold Spec.entries_deleted. apply get_set_table_other. congruence. }
  destruct (Spec.index_row d s ord) as [r|].
  - destruct (py_eq _ _); [reflexivity|].
    destruct (tm (Md5.lastModified e)); cbn [snd]; [|apply Hdel].
    unfold Spec.index_updated. rewrite get_set_table_other by congruence. apply Hdel.
  - destruct (tm (Md5.lastModified e)); cbn [snd]; [|reflexivity].
    unfold Spec.row_inserted. apply get_set_table_other. congruence.
Qed.

Lemma store_schedule_index_frame (data : Md5.response) (t : string) (d : db) :
  t <> "scheduleindex" -> t <> "schedule" ->
  Terms.preserves (Terms.same_table t d) (Cache.store_schedule_index tm data).
Proof.
  intros H1 H2. unfold Cache.store_schedule_index. apply preserves_for_each.
  intros acc [s days] _. unfold Cache.store_schedule_station. apply preserves_for_each.
  intros acc' day _. apply frame_step. intros d0.
  apply store_schedule_day_frame; assumption.
Qed.

Lemma store_schedules_frame (data : list Sched.item) (t : string) (d : db) :
  t <> "schedule" ->
  Terms.preserves (Terms.same_table t d) (Cache.store_schedules tm data).
Proof.
  intros H1. unfold Cache.store_schedules. apply preserves_for_each.
  intros ups item _. unfold Cache.store_schedule_item. apply preserves_bind.
  - apply frame_step. intros d0. rewrite get_schedule_index_eq.
    destruct (Util.date_to_int _); reflexivity.
  - intros [ix|]; [|apply preserves_raise]. apply preserves_for_each.
    intros ups' p _. apply frame_step. intros d0.
    rewrite store_schedule_entry_worklist.
    destruct (tm (Sched.airDateTime p)); cbn [snd]; [|reflexivity].
    unfold Spec.row_inserted. apply get_set_table_other. congruence.
Qed.

Lemma store_programs_frame (now : Z) (data : list Prog.item)
    (art : option (dict Artwork.asset)) (t : string) (d : db) :
  t <> "programdata" ->
  Terms.preserves (Terms.same_table t d) (Cache.store_programs now data art).
Proof.
  intros H1. unfold Cache.store_programs. apply preserves_for_each.
  intros [] item _. apply frame_step. intros d0.
  unfold Cache.store_program, bind, lift.
  destruct (Cache.program_fields now art item) as [qb|x] eqn:E; [|reflexivity].
  apply program_fields_keep in E as (T & _ & _).
  pose proof (insert_or_update_frame qb "program_id" (Some "md5") t d0
                ltac:(rewrite T; exact H1)) as H.
  destruct (Qb.insert_or_update _ _ _ d0) as [[b|e] d1]; unfold ret; cbn [snd] in *;
    exact H.
Qed.

Lemma process_chunk_frame (r : Main.remote) (now : Z) (chunk : list string)
    (t : string) (d : db) :
  t <> "scheduleindex" -> t <> "schedule" -> t <> "programdata" ->
  Terms.preserves (Terms.same_table t d) (Main.process_chunk tm r now tt chunk).
Proof.
  intros H1 H2 H3. unfold Main.process_chunk.
  apply preserves_bind; [apply preserves_assert|]. intros _.
  apply preserves_bind; [apply preserves_received|]. intros dat.
  apply preserves_bind; [apply store_schedule_index_frame; assumption|].
  intros [ns c].
  apply preserves_bind.
  { destruct (negb (c =? 0)); [apply preserves_raise|apply preserves_ret]. }
  intros _. destruct (0 <? length ns)%nat; [|apply preserves_ret].
  apply preserves_bind; [apply preserves_assert|]. intros _.
  apply preserves_bind; [apply preserves_received|]. intros sched.
  apply preserves_bind; [apply store_schedules_frame; assumption|]. intros progs.
  destruct (0 <? length progs)%nat; [|apply preserves_ret].
  apply preserves_bind; [apply preserves_lift|]. intros chunks.
  apply preserves_bind.
  { apply preserves_for_each. intros acc x _. unfold Main.fetch_artwork.
    apply preserves_bind; [apply preserves_received|]. intros. apply preserves_ret. }
  intros art. apply preserves_bind; [apply preserves_lift|]. intros info.
  apply preserves_bind; [apply preserves_lift|]. intros chunks2.
  apply preserves_for_each. intros [] x _. unfold Main.fetch_programs.
  apply preserves_bind; [apply preserves_assert|]. intros _.
  apply preserves_bind; [apply preserves_received|]. intros progdat.
  apply store_programs_frame; assumption.
Qed.

Lemma stage_b_to_d_frame (r : Main.remote) (now : Z) (stations : list string)
    (t : string) (d : db) :
  t <> "scheduleindex" -> t <> "schedule" -> t <> "programdata" ->
  get_table (snd (Main.stage_b_to_d tm r now stations d)) t = get_table d t.
Proof.
  intros H1 H2 H3.
  assert (H : Terms.preserves (Terms.same_table t d) (Main.stage_b_to_d tm r now stations));
    [|apply H; reflexivity].
  unfold Main.stage_b_to_d. destruct stations as [|s l]; [apply preserves_ret|].
  apply preserves_bind; [apply preserves_lift|]. intros chunks.
  apply preserves_for_each. intros [] chunk _. apply process_chunk_frame; assumption.
Qed.

Lemma refresh_frame (now : nat -> Z) (lineups : list Lineup.entry)
    (get : option string -> option Station.reply) (t : string) (d : db) :
  t <> "lineups" -> t <> "stations" ->
  get_table (snd (StageA.refresh_lineups_and_stations_if_needed tm now lineups get d)) t
  = get_table d t.
Proof.
  intros H1 H2.
  assert (H : Terms.preserves (Terms.same_table t d)
                (StageA.refresh_lineups_and_stations_if_needed tm now lineups get));
    [|apply H; reflexivity].
  unfold StageA.refresh_lineups_and_stations_if_needed.
  apply preserves_bind.
  { unfold Store.get_lineups_and_modified_date. apply preserves_bind.
    - intros d0 H0. exact H0.
    - intros a. apply preserves_ret. }
  intros old. apply preserves_bind; [apply preserves_lift|]. intros nd. cbv zeta.
  apply preserves_bind; [apply preserves_lift|]. intros modified.
  apply preserves_bind.
  { apply preserves_for_each. intros [] v _. apply frame_step. intros d0.
    apply delete_lineup_frame. exact H1. }
  intros _. apply preserves_bind; [|intros _; apply preserves_ret].
  match goal with |- context [if ?b then _ else _] => destruct b end;
    [|apply preserves_ret].
  apply preserves_bind.
  { unfold StageA.store_lineups_from_status. apply preserves_for_each.
    intros nl x _. apply frame_step. intros d0. apply store_lineup_frame. exact H1. }
  intros _. apply preserves_bind.
  { apply frame_step. intros d0. unfold Store.deactivate_all_stations, Sql.update.
    cbn [snd]. apply get_set_table_other. congruence. }
  intros _. apply preserves_for_each. intros [] [i p] _.
  unfold StageA.refresh_stations. apply preserves_bind; [apply preserves_received|].
  intros reply. unfold StageA.store_lineup_station. apply preserves_for_each.
  intros [] [item|] _; [|apply preserves_ret]. apply frame_step. intros d0.
  unfold StageA.store_station, bind, lift. rewrite station_fields_eq.
  pose proof (insert_or_update_frame
                (Qb.of_pairs "stations" (Terms.station_pairs (now i) item))
                "station_id" None t d0 ltac:(exact H2)) as H.
  destruct (Qb.insert_or_update _ _ _ d0) as [[b|e] d1]; unfold ret; cbn [snd] in *;
    exact H.
Qed.

End TableFrames.

(** X24. Each stage writes to its own tables, however it ends: the refresh of
    Stage A to [lineups] and [stations] only, Stages B to D to
    [scheduleindex], [schedule] and [programdata] only; in particular the
    schedule stages never touch the stations and the choice of watched
    stations. *)
Theorem stages_write_their_own_tables (tm : string -> result Z) (t : string) (d : db) :
  (forall now lineups get_lineup_stations,
     t <> "lineups" -> t <> "stations" ->
     get_table
       (snd (StageA.refresh_lineups_and_stations_if_needed tm now lineups
               get_lineup_stations d)) t
     = get_table d t) /\
  (forall r now stations,
     t <> "scheduleindex" -> t <> "schedule" -> t <> "programdata" ->
     get_table (snd (Main.stage_b_to_d tm r now stations d)) t = get_table d t).
Proof.
  split.
  - intros. apply refresh_frame; assumption.
  - intros. apply stage_b_to_d_frame; assumption.
Qed.

(** ** The main program, stage by stage *)

Section MainRuns.

Variable tm : string -> result Z.
Variable refresh : Main.status_reply -> M bool.

Lemma query_stations_eq (d : db) :
  Main.get_active_query_stations d = (Ok (Terms.query_stations d), d).
Proof. reflexivity. Qed.

Lemma query_stations_table (d d' : db) :
  get_table d' "stations" = get_table d "stations" ->
  Terms.query_stations d' = Terms.query_stations d.
Proof.
  unfold Terms.query_stations, Main.get_active_query_stations. intros ->. reflexivity.
Qed.

(** A run that ends with status 0 went through every stage. *)
Lemma main_zero_stages (cfg : Main.config) (now : Z) (r : Main.remote) (d : db) :
  Main.exit_code (Main.main tm refresh cfg now r d) = 0 ->
  (negb (Main.waituntil cfg =? 0) && (now <? Main.waituntil cfg))%bool = false /\
  String.eqb (Main.username cfg) "" = false /\
  Main.get_token r = Main.TokenGranted /\
  exists st b d1 d2 v,
    Main.get_status r = Some st /\
    Main.has_expired tm now st = Ok false /\
    Main.check_status st = true /\
    refresh st d = (Ok b, d1) /\
    Main.stage_b_to_d tm r now (Terms.query_stations d1) d1 = (Ok tt, d2) /\
    Main.check_newer_version_available r = Ok v /\
    Main.main tm refresh cfg now r d = Main.mkRun 0 cfg d2 d2.
Proof.
  unfold Main.main.
  destruct (negb (Main.waituntil cfg =? 0) && (now <? Main.waituntil cfg))%bool;
    [discriminate|].
  destruct (String.eqb (Main.username cfg) ""); [discriminate|].
  rewrite upgrade_without_plan.
  destruct (Main.get_token r); try discriminate.
  destruct (Main.get_status r) as [st|]; [|discriminate].
  destruct (Main.has_expired tm now st) as [[|]|] eqn:He; try discriminate.
  destruct (Main.check_status st) eqn:Hc; [|discriminate]. cbn [negb].
  destruct (refresh st d) as [[b|e] d1] eqn:Hr; [|discriminate].
  unfold bind. rewrite query_stations_eq.
  destruct (Main.stage_b_to_d tm r now (Terms.query_stations d1) d1) as [[[]|e] d2]
    eqn:Hbd; [|discriminate].
  destruct (Main.check_newer_version_available r) as [v|e]; [|discriminate].
  intros _. split; [reflexivity|]. split; [reflexivity|]. split; [reflexivity|].
  exists st, b, d1, d2, v. auto 10.
Qed.

Lemma main_zero_intro (cfg : Main.config) (now : Z) (r : Main.remote) (d : db)
    (st : Main.status_reply) (b : bool) (d1 d2 : db) (v : bool) :
  (negb (Main.waituntil cfg =? 0) && (now <? Main.waituntil cfg))%bool = false ->
  String.eqb (Main.username cfg) "" = false ->
  Main.get_token r = Main.TokenGranted ->
  Main.get_status r = Some st ->
  Main.has_expired tm now st = Ok false ->
  Main.check_status st = true ->
  refresh st d = (Ok b, d1) ->
  Main.stage_b_to_d tm r now (Terms.query_stations d1) d1 = (Ok tt, d2) ->
  Main.check_newer_version_available r = Ok v ->
  Main.main tm refresh cfg now r d = Main.mkRun 0 cfg d2 d2.
Proof.
  intros Hg Hu Ht Hs He Hc Hr Hbd Hv. unfold Main.main.
  rewrite Hg, Hu, upgrade_without_plan, Ht, Hs, He, Hc. cbn [negb]. rewrite Hr.
  unfold bind at 1. rewrite query_stations_eq, Hbd, Hv. reflexivity.
Qed.

End MainRuns.

(** X25. The two checkpoints of a run: whatever the service, the clock and the
    cache are, the database that a run leaves committed is the one it
    started with, or the one after a refresh of Stage A that returned (then
    Stages B to D failed and the run ended with status 100), or the one
    after Stages B to D returned; what a failing Stage B to D wrote is never
    committed.  The exit status is one of 0, 1, 2, 10, 12 and 100, and it is
    0 only when every stage returned and everything is committed. *)
Theorem main_commits_whole_stages (tm : string -> result Z)
    (refresh : Main.status_reply -> M bool) (cfg : Main.config) (now : Z)
    (r : Main.remote) (d : db) :
  let run := Main.main tm refresh cfg now r d in
  (Main.committed run = d \/
   exists st b d1,
     Main.get_status r = Some st /\ refresh st d = (Ok b, d1) /\
     ((Main.committed run = d1 /\ Main.exit_code run = 100 /\
       fst (Main.stage_b_to_d tm r now (Terms.query_stations d1) d1) <> Ok tt) \/
      (Main.stage_b_to_d tm r now (Terms.query_stations d1) d1
       = (Ok tt, Main.committed run) /\
       Main.session run = Main.committed run))) /\
  In (Main.exit_code run) [0; 1; 2; 10; 12; 100] /\
  (Main.exit_code run = 0 -> Main.session run = Main.committed run).
Proof.
  assert (Hcodes : forall c, In c [0; 1; 2; 10; 12; 100] ->
            forall cfg' d0,
              let run := Main.mkRun c cfg' d0 d in
              (Main.committed run = d \/
               exists st b d1,
                 Main.get_status r = Some st /\ refresh st d = (Ok b, d1) /\
                 ((Main.committed run = d1 /\ Main.exit_code run = 100 /\
                   fst (Main.stage_b_to_d tm r now (Terms.query_stations d1) d1)
                   <> Ok tt) \/
                  (Main.stage_b_to_d tm r now (Terms.query_stations d1) d1
                   = (Ok tt, Main.committed run) /\
                   Main.session run = Main.committed run))) /\
              In (Main.exit_code run) [0; 1; 2; 10; 12; 100]).
  { intros c Hc cfg' d0 run. split; [left; reflexivity|exact Hc]. }
  assert (Hstop : forall c, In c [1; 2; 10; 12; 100] ->
            forall cfg' d0,
              let run := Main.mkRun c cfg' d0 d in
              (Main.committed run = d \/
               exists st b d1,
                 Main.get_status r = Some st /\ refresh st d = (Ok b, d1) /\
                 ((Main.committed run = d1 /\ Main.exit_code run = 100 /\
                   fst (Main.stage_b_to_d tm r now (Terms.query_stations d1) d1)
                   <> Ok tt) \/
                  (Main.stage_b_to_d tm r now (Terms.query_stations d1) d1
                   = (Ok tt, Main.committed run) /\
                   Main.session run = Main.committed run))) /\
              In (Main.exit_code run) [0; 1; 2; 10; 12; 100] /\
              (Main.exit_code run = 0 -> Main.session run = Main.committed run)).
  { intros c Hc cfg' d0 run.
    destruct (Hcodes c ltac:(simpl in *; tauto) cfg' d0) as [H1 H2].
    split; [exact H1|]. split; [exact H2|]. simpl. intros ->.
    simpl in Hc. repeat (destruct Hc as [Hc|Hc]; [discriminate Hc|]). destruct Hc. }
  intros run. subst run. unfold Main.main.
  destruct (negb (Main.waituntil cfg =? 0) && (now <? Main.waituntil cfg))%bool;
    [apply Hstop; simpl; tauto|].
  destruct (String.eqb (Main.username cfg) ""); [apply Hstop; simpl; tauto|].
  rewrite upgrade_without_plan.
  destruct (Main.get_token r); try (apply Hstop; simpl; tauto).
  destruct (Main.get_status r) as [st|]; [|apply Hstop; simpl; tauto].
  destruct (Main.has_expired tm now st) as [[|]|]; try (apply Hstop; simpl; tauto).
  destruct (Main.check_status st); cbn [negb];
    [|cbn [Main.py_int Main.time_time]; apply Hstop; simpl; tauto].
  destruct (refresh st d) as [[b|e] d1] eqn:Hr; [|apply Hstop; simpl; tauto].
  unfold bind. rewrite query_stations_eq.
  destruct (Main.stage_b_to_d tm r now (Terms.query_stations d1) d1) as [[[]|e] d2]
    eqn:Hbd.
  - destruct (Main.check_newer_version_available r) as [v|e]; simpl;
      (split; [right; exists st, b, d1; split; [reflexivity|]; split; [exact Hr|];
               right; split; [exact Hbd|reflexivity]
              |split; [tauto|intros _; reflexivity]]).
  - simpl. split; [|split; [tauto|discriminate]].
    right. exists st, b, d1. split; [reflexivity|]. split; [exact Hr|].
    left. split; [reflexivity|]. split; [reflexivity|rewrite Hbd; discriminate].
Qed.

(** X26. A completed run is not repeated: when a run of the whole program
    (Stage A included) has ended with status 0, a second run on the
    committed database against the same service ends with status 0 too and
    writes nothing, neither to the lineups and stations nor to the schedules
    and programs; the statement journal is as the first run left it.  (The
    lineup names of the status are pairwise different, no stored lineup has
    a NULL name, the rowids of [scheduleindex] are pairwise different, the
    fetched days have pairwise different keys and dates of the calendar,
    and at the time of the second run the account has not expired and no
    wait is requested.) *)
Theorem completed_run_is_not_repeated (tm : string -> result Z) (clk clk2 : nat -> Z)
    (lineups : list Lineup.entry)
    (get_lineup_stations get_lineup_stations2 : option string -> option Station.reply)
    (cfg : Main.config) (now now2 : Z) (r : Main.remote) (d : db) :
  let run1 :=
    Main.main tm
      (fun _ => StageA.refresh_lineups_and_stations_if_needed tm clk lineups
                  get_lineup_stations) cfg now r d in
  Main.exit_code run1 = 0 ->
  NoDup (map Lineup.lineup lineups) ->
  (forall row, In row (get_table d "lineups") -> row_get row "lineupname" <> VNull) ->
  Spec.rowids_unique d "scheduleindex" ->
  (forall chunks,
     Util.chunker (Terms.query_stations (Main.committed run1)) Main.MAX_STATIONS_IDS
     = Ok chunks ->
     NoDup (Spec.run_keys r chunks) /\ Forall Spec.proper_key (Spec.run_keys r chunks)) ->
  (negb (Main.waituntil cfg =? 0) && (now2 <? Main.waituntil cfg))%bool = false ->
  (forall st, Main.get_status r = Some st -> Main.has_expired tm now2 st = Ok false) ->
  Main.main tm
    (fun _ => StageA.refresh_lineups_and_stations_if_needed tm clk2 lineups
                get_lineup_stations2) cfg now2 r (Main.committed run1)
  = Main.mkRun 0 cfg (Main.committed run1) (Main.committed run1).
Proof.
  intros run1 Hzero Hnodup Hnn Hu Hkeys Hgate Hexp. subst run1.
  destruct (main_zero_stages tm _ cfg now r d Hzero)
    as (_ & Huser & Htok & st & b & d1 & d2 & v & Hst & _ & Hchk & Hr & Hbd & Hv & Hmain).
  rewrite Hmain in *. cbn [Main.committed] in *.
  assert (Hlin : get_table d2 "lineups" = get_table d1 "lineups").
  { pose proof (stage_b_to_d_frame tm r now (Terms.query_stations d1) "lineups" d1
                  ltac:(discriminate) ltac:(discriminate) ltac:(discriminate)) as H.
    rewrite Hbd in H. exact H. }
  assert (Hsta : get_table d2 "stations" = get_table d1 "stations").
  { pose proof (stage_b_to_d_frame tm r now (Terms.query_stations d1) "stations" d1
                  ltac:(discriminate) ltac:(discriminate) ltac:(discriminate)) as H.
    rewrite Hbd in H. exact H. }
  assert (Hq : Terms.query_stations d2 = Terms.query_stations d1)
    by (apply query_stations_table, Hsta).
  assert (Hu1 : Spec.rowids_unique d1 "scheduleindex").
  { unfold Spec.rowids_unique.
    pose proof (refresh_frame tm clk lineups get_lineup_stations "scheduleindex" d
                  ltac:(discriminate) ltac:(discriminate)) as H.
    rewrite Hr in H. cbn [snd] in H. rewrite H. exact Hu. }
  apply (main_zero_intro tm _ cfg now2 r d2 st false d2 d2 v Hgate Huser Htok Hst
           (Hexp st Hst) Hchk).
  - apply in_step_refresh. apply (in_step_table tm lineups d1 d2 Hlin).
    apply (refresh_settles tm clk lineups get_lineup_stations d d1 b Hnodup Hnn Hr).
  - rewrite Hq.
    apply (second_run_writes_nothing tm r now now2 (Terms.query_stations d1) d1 d2 Hu1);
      [|exact Hbd].
    rewrite <- Hq. exact Hkeys.
  - exact Hv.
Qed.

(** ** The artwork resolver and the payload *)

Section DictFacts.

Variable V : Type.

Lemma dict_mem_keys (d : dict V) (k : string) :
  dict_mem d k = existsb (String.eqb k) (dict_keys d).
Proof.
  unfold dict_mem. induction d as [|[k' v'] d IH]; simpl; [reflexivity|].
  rewrite (String.eqb_sym k k'). destruct (String.eqb k' k); [reflexivity|exact IH].
Qed.

Lemma dict_keys_set_list (d : dict V) (k : string) (v : V) :
  dict_keys (dict_set d k v) = Terms.note_seen (dict_keys d) k.
Proof.
  unfold Terms.note_seen. induction d as [|[k' v'] d IH]; simpl; [reflexivity|].
  rewrite (String.eqb_sym k k'). destruct (String.eqb k' k); simpl; [reflexivity|].
  rewrite IH. destruct (existsb (String.eqb k) (dict_keys d)); reflexivity.
Qed.

Lemma ensure_keys (d : dict V) (k : string) (dv : V) :
  dict_keys (if dict_mem d k then d else dict_set d k dv)
  = Terms.note_seen (dict_keys d) k.
Proof.
  rewrite dict_mem_keys. unfold Terms.note_seen.
  destruct (existsb (String.eqb k) (dict_keys d)) eqn:E; [reflexivity|].
  rewrite dict_keys_set_list. unfold Terms.note_seen. rewrite E. reflexivity.
Qed.

Lemma ensure_get (d : dict V) (k : string) (dv : V) :
  dict_get (if dict_mem d k then d else dict_set d k dv) k
  = Some (match dict_get d k with Some v => v | None => dv end).
Proof.
  unfold dict_mem. destruct (dict_get d k) as [v|] eqn:E; [exact E|].
  apply dict_get_set_same.
Qed.

Lemma ensure_other (d : dict V) (k k2 : string) (dv : V) :
  k <> k2 ->
  dict_get (if dict_mem d k then d else dict_set d k dv) k2 = dict_get d k2.
Proof.
  intros H. destruct (dict_mem d k); [reflexivity|]. apply dict_get_set_other, H.
Qed.

End DictFacts.

Section SeenMore.

Lemma first_seen_snoc (l : list string) (x : string) :
  Terms.first_seen (l ++ [x]) = Terms.note_seen (Terms.first_seen l) x.
Proof. unfold Terms.first_seen. rewrite fold_left_app. reflexivity. Qed.

Lemma in_first_seen (l : list string) (x : string) :
  In x (Terms.first_seen l) <-> In x l.
Proof. unfold Terms.first_seen. rewrite note_seen_members. simpl. tauto. Qed.

Lemma note_seen_in (l : list string) (x y : string) :
  In y (Terms.note_seen l x) <-> In y l \/ y = x.
Proof.
  unfold Terms.note_seen. destruct (existsb (String.eqb x) l) eqn:E.
  - split; [auto|]. intros [H| ->]; [exact H|].
    apply existsb_exists in E as (z & Hz & Ez). apply String.eqb_eq in Ez. subst. exact Hz.
  - rewrite in_app_iff. simpl. intuition.
Qed.

Lemma note_seen_idem (l : list string) (x : string) :
  Terms.note_seen (Terms.note_seen l x) x = Terms.note_seen l x.
Proof.
  unfold Terms.note_seen at 1.
  assert (H : existsb (String.eqb x) (Terms.note_seen l x) = true).
  { apply existsb_exists. exists x. split; [|apply String.eqb_refl].
    apply note_seen_in. right. reflexivity. }
  rewrite H. reflexivity.
Qed.

End SeenMore.

Section ArtFacts.

Import Artwork.

Lemma in_bucket_iff (cat sz : string) (it : item) :
  Art.in_bucket cat sz it = true <-> category it = Some cat /\ size it = Some sz.
Proof.
  unfold Art.in_bucket. destruct (category it) as [c|], (size it) as [z|];
    try (split; [discriminate|intros [H1 H2]; discriminate]).
  rewrite andb_true_iff, !String.eqb_eq. split; intros [H1 H2]; split; congruence.
Qed.

Lemma in_category_list (dat : list item) (c : string) :
  In c (Art.category_list dat) <->
  exists it z, In it dat /\ Art.in_bucket c z it = true.
Proof.
  unfold Art.category_list. rewrite in_flat_map. split.
  - intros (it & Hin & Hc). destruct (category it) as [c'|] eqn:E1; [|destruct Hc].
    destruct (size it) as [z|] eqn:E2; [|destruct Hc]. destruct Hc as [<-|[]].
    exists it, z. split; [exact Hin|]. apply in_bucket_iff. auto.
  - intros (it & z & Hin & Hb). apply in_bucket_iff in Hb as [H1 H2].
    exists it. split; [exact Hin|]. rewrite H1, H2. left. reflexivity.
Qed.

Lemma in_size_list (dat : list item) (c z : string) :
  In z (Art.size_list c dat) <-> exists it, In it dat /\ Art.in_bucket c z it = true.
Proof.
  unfold Art.size_list. rewrite in_flat_map. split.
  - intros (it & Hin & Hz). destruct (category it) as [c'|] eqn:E1; [|destruct Hz].
    destruct (size it) as [z'|] eqn:E2; [|destruct Hz].
    destruct (String.eqb c' c) eqn:E; [|destruct Hz]. destruct Hz as [<-|[]].
    apply String.eqb_eq in E. subst c'.
    exists it. split; [exact Hin|]. apply in_bucket_iff. auto.
  - intros (it & Hin & Hb). apply in_bucket_iff in Hb as [H1 H2].
    exists it. split; [exact Hin|]. rewrite H1, H2, String.eqb_refl. left. reflexivity.
Qed.

Lemma bucket_without_size (dat : list item) (c z : string) :
  ~ In z (Art.sizes c dat) -> filter (Art.in_bucket c z) dat = [].
Proof.
  intros H. apply filter_nil. intros it Hin.
  destruct (Art.in_bucket c z it) eqn:E; [|reflexivity].
  exfalso. apply H. apply in_first_seen, in_size_list. eauto.
Qed.

Lemma sizes_without_category (dat : list item) (c : string) :
  ~ In c (Art.categories dat) -> Art.sizes c dat = [].
Proof.
  intros H. unfold Art.sizes.
  destruct (Art.size_list c dat) as [|z l] eqn:E; [reflexivity|].
  exfalso. apply H. apply in_first_seen, in_category_list.
  assert (Hz : In z (Art.size_list c dat)) by (rewrite E; left; reflexivity).
  apply in_size_list in Hz as (it & Hin & Hb). eauto.
Qed.

Lemma represents_nil : Art.represents [] [].
Proof. split; [reflexivity|]. intros cat []. Qed.

Lemma lists_snoc_skipped (dat : list item) (it : item) :
  Art.usable it = false ->
  Art.category_list (dat ++ [it]) = Art.category_list dat /\
  (forall c, Art.size_list c (dat ++ [it]) = Art.size_list c dat) /\
  (forall c z, filter (Art.in_bucket c z) (dat ++ [it]) = filter (Art.in_bucket c z) dat).
Proof.
  intros Hu. unfold Art.category_list, Art.size_list, Art.usable, Art.in_bucket in *.
  repeat split; intros; rewrite ?flat_map_app, ?filter_app; simpl;
    destruct (category it), (size it); try discriminate; rewrite app_nil_r; reflexivity.
Qed.

Lemma lists_snoc_usable (dat : list item) (it : item) (c z : string) :
  category it = Some c -> size it = Some z ->
  Art.categories (dat ++ [it]) = Terms.note_seen (Art.categories dat) c /\
  Art.sizes c (dat ++ [it]) = Terms.note_seen (Art.sizes c dat) z /\
  (forall c', c' <> c -> Art.sizes c' (dat ++ [it]) = Art.sizes c' dat) /\
  filter (Art.in_bucket c z) (dat ++ [it]) = filter (Art.in_bucket c z) dat ++ [it] /\
  (forall c' z', (c', z') <> (c, z) ->
     filter (Art.in_bucket c' z') (dat ++ [it]) = filter (Art.in_bucket c' z') dat).
Proof.
  intros Hc Hz.
  unfold Art.categories, Art.sizes, Art.category_list, Art.size_list, Art.in_bucket.
  split; [|split; [|split; [|split]]].
  - rewrite flat_map_app. simpl. rewrite Hc, Hz. simpl. apply first_seen_snoc.
  - rewrite flat_map_app. simpl. rewrite Hc, Hz, String.eqb_refl. simpl.
    apply first_seen_snoc.
  - intros c' Hne. rewrite flat_map_app. simpl. rewrite Hc, Hz.
    destruct (String.eqb c c') eqn:E; [apply String.eqb_eq in E; congruence|].
    simpl. rewrite app_nil_r. reflexivity.
  - rewrite filter_app. simpl. rewrite Hc, Hz, !String.eqb_refl. reflexivity.
  - intros c' z' Hne. rewrite filter_app. simpl. rewrite Hc, Hz.
    destruct (String.eqb c c' && String.eqb z z')%bool eqn:E.
    + apply andb_true_iff in E as [E1 E2]. apply String.eqb_eq in E1, E2. congruence.
    + apply app_nil_r.
Qed.

Lemma add_item_usable (assets : asset_map) (it : item) (c z : string) :
  category it = Some c -> size it = Some z ->
  add_item assets it =
  let assets1 := if dict_mem assets c then assets else dict_set assets c [] in
  let szs := match dict_get assets1 c with Some s => s | None => [] end in
  let szs1 := if dict_mem szs z then szs else dict_set szs z [] in
  let bucket := match dict_get szs1 z with Some b => b | None => [] end in
  dict_set assets1 c (dict_set szs1 z (bucket ++ [Art.asset_of it])).
Proof.
  intros Hc Hz. unfold add_item, Art.asset_of, Art.calc_artwork_uri. rewrite Hc, Hz.
  destruct (String.prefix "http:" (uri it) || String.prefix "https:" (uri it))%bool;
    reflexivity.
Qed.

Lemma represents_step (assets : asset_map) (dat : list item) (it : item) :
  Art.represents assets dat -> Art.represents (add_item assets it) (dat ++ [it]).
Proof.
  intros [Hk Hcats].
  destruct (Art.usable it) eqn:Hu.
  2:{ destruct (lists_snoc_skipped dat it Hu) as (H1 & H2 & H3).
      rewrite add_item_skipped
        by (unfold Art.usable in Hu; destruct (category it), (size it);
            auto; discriminate).
      unfold Art.represents, Art.categories, Art.sizes in *. rewrite H1.
      split; [exact Hk|]. intros cat Hcat. destruct (Hcats cat Hcat) as (szs & G & K & B).
      exists szs. rewrite H2. split; [exact G|]. split; [exact K|].
      intros sz Hsz. rewrite H3. apply B, Hsz. }
  unfold Art.usable in Hu.
  destruct (category it) as [c|] eqn:Hc; [|discriminate].
  destruct (size it) as [z|] eqn:Hz; [|discriminate]. clear Hu.
  destruct (lists_snoc_usable dat it c z Hc Hz) as (L1 & L2 & L3 & L4 & L5).
  rewrite (add_item_usable assets it c z Hc Hz). cbv zeta.
  rewrite ensure_get.
  (* the sizes of the category before this item *)
  assert (Hold : exists szs0,
            match dict_get assets c with Some v => v | None => [] end = szs0 /\
            dict_keys szs0 = Art.sizes c dat /\
            forall sz, In sz (Art.sizes c dat) ->
              dict_get szs0 sz = Some (map Art.asset_of (filter (Art.in_bucket c sz) dat))).
  { destruct (dict_get assets c) as [szs|] eqn:G.
    - assert (Hin : In c (Art.categories dat))
        by (rewrite <- Hk; eapply dict_get_in, G).
      destruct (Hcats c Hin) as (szs' & G' & K & B). rewrite G in G'.
      injection G' as <-. eauto.
    - assert (Hnot : ~ In c (Art.categories dat)).
      { rewrite <- Hk. intros Hin. apply in_dict_get in Hin as [v Hv]. congruence. }
      exists []. rewrite (sizes_without_category dat c Hnot).
      split; [reflexivity|]. split; [reflexivity|]. intros sz []. }
  destruct Hold as (szs0 & -> & K0 & B0).
  rewrite ensure_get.
  assert (Hbucket : match dict_get szs0 z with Some b => b | None => [] end
                    = map Art.asset_of (filter (Art.in_bucket c z) dat)).
  { destruct (dict_get szs0 z) as [b|] eqn:G.
    - assert (Hin : In z (Art.sizes c dat)) by (rewrite <- K0; eapply dict_get_in, G).
      rewrite (B0 z Hin) in G. congruence.
    - rewrite bucket_without_size; [reflexivity|].
      rewrite <- K0. intros Hin. apply in_dict_get in Hin as [v Hv]. congruence. }
  rewrite Hbucket.
  split.
  - rewrite dict_keys_set_list, ensure_keys, note_seen_idem, Hk. symmetry. exact L1.
  - intros cat Hcat. destruct (string_dec cat c) as [-> |Hne].
    + eexists. split; [apply dict_get_set_same|]. split.
      * rewrite dict_keys_set_list, ensure_keys, note_seen_idem, K0. symmetry. exact L2.
      * intros sz Hsz. destruct (string_dec sz z) as [-> |Hnz].
        -- rewrite dict_get_set_same, L4, map_app. reflexivity.
        -- rewrite dict_get_set_other by congruence.
           rewrite ensure_other by congruence.
           rewrite L5 by congruence. apply B0.
           rewrite L2 in Hsz. apply note_seen_in in Hsz as [H|H]; [exact H|congruence].
    + rewrite L1 in Hcat. apply note_seen_in in Hcat as [Hcat|Hcat]; [|congruence].
      destruct (Hcats cat Hcat) as (szs & G & K & B).
      exists szs. rewrite dict_get_set_other by congruence.
      rewrite ensure_other by congruence.
      rewrite (L3 cat Hne). split; [exact G|]. split; [exact K|].
      intros sz Hsz. rewrite L5 by congruence. apply B, Hsz.
Qed.

Lemma build_assets_represents (dat : list item) :
  Art.represents (build_assets dat) dat.
Proof.
  induction dat as [|it dat IH] using rev_ind; [apply represents_nil|].
  unfold build_assets in *. rewrite fold_left_app. simpl.
  apply represents_step, IH.
Qed.

End ArtFacts.

Section ChoiceFacts.

Import Artwork.

Lemma find_filter (A : Type) (p : A -> bool) (l : list A) :
  find p l = hd_error (filter p l).
Proof.
  induction l as [|a l IH]; simpl; [reflexivity|]. destruct (p a); [reflexivity|exact IH].
Qed.

Lemma best_match_some (current preferred : list string) (k : string) :
  In k current ->
  exists k', best_match current preferred = Ok (Some k') /\ In k' current.
Proof.
  intros Hin. destruct (best_match_cases current preferred) as [H|H]; [|exact H].
  exfalso. unfold best_match in H. simpl in H.
  destruct (find _ preferred); [discriminate|].
  destruct current; [destruct Hin | discriminate].
Qed.

Lemma usable_in_bucket (it : item) :
  Art.usable it = true <-> exists c z, Art.in_bucket c z it = true.
Proof.
  unfold Art.usable, Art.in_bucket. destruct (category it) as [c|], (size it) as [z|];
    try (split; [discriminate|intros (c' & z' & H); discriminate]).
  split; [|reflexivity]. intros _. exists c, z. rewrite !String.eqb_refl. reflexivity.
Qed.

Lemma chosen_some (dat : list item) :
  existsb Art.usable dat = true -> exists it, Art.chosen dat = Some it.
Proof.
  intros H. apply existsb_exists in H as (it0 & Hin0 & Hu).
  apply usable_in_bucket in Hu as (c0 & z0 & Hb0).
  assert (Hc0 : In c0 (Art.categories dat))
    by (apply in_first_seen, in_category_list; eauto).
  destruct (best_match_some _ category_preference _ Hc0) as (c & Ec & Hc).
  apply in_first_seen, in_category_list in Hc as (it1 & z1 & Hin1 & Hb1).
  assert (Hz1 : In z1 (Art.sizes c dat)) by (apply in_first_seen, in_size_list; eauto).
  destruct (best_match_some _ size_preference _ Hz1) as (z & Ez & Hz).
  apply in_first_seen, in_size_list in Hz as (it & Hin & Hb).
  unfold Art.chosen. rewrite Ec, Ez.
  destruct (find (Art.in_bucket c z) dat) as [it'|] eqn:F; [eauto|].
  exfalso. pose proof (find_none _ _ F it Hin) as Hn. congruence.
Qed.

Lemma chosen_none (dat : list item) :
  existsb Art.usable dat = false -> Art.chosen dat = None.
Proof.
  intros H. unfold Art.chosen, Art.categories.
  assert (E : Art.category_list dat = []).
  { destruct (Art.category_list dat) as [|c l] eqn:E; [reflexivity|]. exfalso.
    assert (Hc : In c (Art.category_list dat)) by (rewrite E; left; reflexivity).
    apply in_category_list in Hc as (it & z & Hin & Hb).
    assert (Hu : Art.usable it = true) by (apply usable_in_bucket; eauto).
    assert (Ht : existsb Art.usable dat = true) by (apply existsb_exists; eauto).
    congruence. }
  rewrite E. change (Terms.first_seen []) with (@nil string).
  rewrite best_match_nil. reflexivity.
Qed.

Lemma chosen_is_usable (dat : list item) (it : item) :
  Art.chosen dat = Some it -> In it dat /\ Art.usable it = true.
Proof.
  unfold Art.chosen. intros H.
  destruct (best_match _ category_preference) as [[c|]|]; try discriminate.
  destruct (best_match _ size_preference) as [[z|]|]; try discriminate.
  apply find_some in H as [Hin Hb]. split; [exact Hin|].
  apply usable_in_bucket. eauto.
Qed.

Lemma find_split (A : Type) (p : A -> bool) (l : list A) (x : A) :
  find p l = Some x ->
  exists before after, l = before ++ x :: after /\ p x = true /\
                       forall y, In y before -> p y = false.
Proof.
  induction l as [|a l IH]; simpl; [discriminate|].
  destruct (p a) eqn:E.
  - intros H; inversion H; subst. exists [], l. split; [reflexivity|].
    split; [exact E|]. intros y [].
  - intros H. destruct (IH H) as (before & after & -> & Hx & Hb).
    exists (a :: before), after. split; [reflexivity|]. split; [exact Hx|].
    intros y [<-|Hy]; [exact E|apply Hb, Hy].
Qed.

Lemma note_seen_keeps_head (l : list string) (a : string) (acc : list string) :
  exists rest, fold_left Terms.note_seen l (a :: acc) = a :: rest.
Proof.
  revert acc. induction l as [|x l IH]; intros acc; simpl; [eauto|].
  unfold Terms.note_seen at 2.
  destruct (existsb (String.eqb x) (a :: acc)); [apply IH|].
  change ((a :: acc) ++ [x]) with (a :: (acc ++ [x])). apply IH.
Qed.

Lemma first_seen_head (l : list string) (x : string) (rest : list string) :
  Terms.first_seen l = x :: rest -> exists rest', l = x :: rest'.
Proof.
  destruct l as [|a l]; [discriminate|]. unfold Terms.first_seen. simpl.
  unfold Terms.note_seen at 2. simpl.
  destruct (note_seen_keeps_head l a []) as [r ->].
  intros H; inversion H; subst. eauto.
Qed.

Lemma not_exists_not_in (l : list string) (y : string) :
  existsb (String.eqb y) l = false -> ~ In y l.
Proof.
  intros H Hin.
  assert (existsb (String.eqb y) l = true)
    by (apply existsb_exists; exists y; split; [exact Hin|apply String.eqb_refl]).
  congruence.
Qed.

(** What [best_match] returns on the keys of a dict is the best of the
    names from which the keys were collected. *)
Lemma best_match_best_of (l preferred : list string) (k : string) :
  best_match (Terms.first_seen l) preferred = Ok (Some k) ->
  Art.best_of l preferred k.
Proof.
  unfold best_match, keys_view_is_empty_list.
  destruct (find (fun item => existsb (String.eqb item) (Terms.first_seen l)) preferred)
    as [item|] eqn:F.
  - intros H; inversion H; subst item. left.
    destruct (find_split _ _ _ _ F) as (before & after & -> & Hk & Hb).
    exists before, after. split; [reflexivity|]. split.
    + apply existsb_exists in Hk as (x & Hx & E). apply String.eqb_eq in E. subst x.
      apply in_first_seen, Hx.
    + intros y Hy Hin. apply (not_exists_not_in _ _ (Hb y Hy)).
      apply in_first_seen, Hin.
  - destruct (Terms.first_seen l) as [|first rest] eqn:E; [discriminate|].
    intros H; inversion H; subst first. right. split.
    + intros y Hy Hin. pose proof (find_none _ _ F y Hy) as Hn. cbv beta in Hn.
      apply (not_exists_not_in _ _ Hn). rewrite <- E. apply in_first_seen, Hin.
    + eapply first_seen_head, E.
Qed.

Lemma chosen_best (dat : list item) (it : item) :
  Art.chosen dat = Some it ->
  exists c z,
    Art.best_of (Art.category_list dat) category_preference c /\
    Art.best_of (Art.size_list c dat) size_preference z /\
    find (Art.in_bucket c z) dat = Some it.
Proof.
  unfold Art.chosen, Art.categories, Art.sizes. intros H.
  destruct (best_match (Terms.first_seen (Art.category_list dat)) category_preference)
    as [[c|]|] eqn:Ec; try discriminate.
  destruct (best_match (Terms.first_seen (Art.size_list c dat)) size_preference)
    as [[z|]|] eqn:Ez; try discriminate.
  exists c, z. split; [apply best_match_best_of, Ec|].
  split; [apply best_match_best_of, Ez|exact H].
Qed.

End ChoiceFacts.

Section ResolverFacts.

Import Artwork.

Lemma select_best_chosen (dat : list item) :
  select_best (build_assets dat) =
  match Art.chosen dat with
  | Some it => Ok (Some (Art.asset_of it))
  | None => Raise IndexError
  end.
Proof.
  destruct (build_assets_represents dat) as [Hk Hcats].
  unfold select_best, keys_view_is_empty_list, Art.chosen.
  rewrite Hk.
  destruct (best_match_cases (Art.categories dat) category_preference)
    as [->|(c & -> & Hc)]; [reflexivity|]. cbn [rbind subscript].
  destruct (Hcats c Hc) as (szs & -> & K & B). cbn [rbind]. rewrite K.
  destruct (best_match_cases (Art.sizes c dat) size_preference)
    as [->|(z & -> & Hz)]; [reflexivity|]. cbn [rbind subscript].
  rewrite (B z Hz). cbn [rbind]. rewrite find_filter.
  destruct (filter (Art.in_bucket c z) dat); reflexivity.
Qed.

Lemma best_match_first (current : list string) (p : string) (rest : list string) :
  In p current -> best_match current (p :: rest) = Ok (Some p).
Proof.
  intros H. unfold best_match. simpl.
  assert (E : existsb (String.eqb p) current = true).
  { apply existsb_exists. exists p. split; [exact H|apply String.eqb_refl]. }
  rewrite E. reflexivity.
Qed.

Lemma proc_entry_chosen (res : dict asset) (e : program_art) :
  proc_entry res e =
  match data e with
  | ArtOther => Ok res
  | ArtList dat =>
      match Art.chosen dat with
      | Some it => Ok (dict_set res (programID e) (Art.asset_of it))
      | None => Raise IndexError
      end
  end.
Proof.
  unfold proc_entry. destruct (data e) as [dat|]; [|reflexivity].
  rewrite select_best_chosen. destruct (Art.chosen dat); reflexivity.
Qed.

Lemma proc_entries_app (res : dict asset) (a b : list program_art) :
  proc_entries res (a ++ b) = rbind (proc_entries res a) (fun r => proc_entries r b).
Proof.
  revert res. induction a as [|e a IH]; intros res; simpl; [reflexivity|].
  destruct (proc_entry res e) as [r|x]; simpl; [apply IH|reflexivity].
Qed.

Lemma proc_entries_resolvable (data : list program_art) :
  Forall Art.resolvable data -> forall res, exists res', proc_entries res data = Ok res'.
Proof.
  induction data as [|e data IH]; intros H res; [exists res; reflexivity|].
  inversion H as [|? ? He Hrest]; subst. simpl.
  rewrite proc_entry_chosen. unfold Art.resolvable in He.
  destruct (Artwork.data e) as [dat|].
  - destruct (chosen_some dat He) as (it & ->). simpl. apply IH, Hrest.
  - simpl. apply IH, Hrest.
Qed.

Lemma proc_entries_returned (data : list program_art) :
  forall res res', proc_entries res data = Ok res' -> Forall Art.resolvable data.
Proof.
  induction data as [|e data IH]; intros res res' H; [constructor|].
  simpl in H. rewrite proc_entry_chosen in H.
  destruct (Artwork.data e) as [dat|] eqn:D.
  - destruct (Art.chosen dat) as [it|] eqn:C; [|discriminate]. simpl in H.
    constructor; [|eapply IH, H]. unfold Art.resolvable. rewrite D.
    apply chosen_is_usable in C as [Hin Hu]. apply existsb_exists. eauto.
  - simpl in H. constructor; [|eapply IH, H]. unfold Art.resolvable. rewrite D. exact I.
Qed.

Lemma proc_entries_other_ids (post : list program_art) (pid : string) :
  (forall e, In e post -> data e = ArtOther \/ programID e <> pid) ->
  forall res res', proc_entries res post = Ok res' -> dict_get res' pid = dict_get res pid.
Proof.
  induction post as [|e post IH]; intros Hpost res res' H.
  - simpl in H. injection H as <-. reflexivity.
  - simpl in H. rewrite proc_entry_chosen in H.
    assert (Hrest : forall e', In e' post -> data e' = ArtOther \/ programID e' <> pid)
      by (intros e' He'; apply Hpost; right; exact He').
    destruct (Hpost e (or_introl eq_refl)) as [D|D].
    + rewrite D in H. simpl in H. apply (IH Hrest _ _ H).
    + destruct (data e) as [dat|]; [|apply (IH Hrest _ _ H)].
      destruct (Art.chosen dat) as [it|]; [|discriminate]. simpl in H.
      rewrite (IH Hrest _ _ H). apply dict_get_set_other. exact D.
Qed.

End ResolverFacts.

(** X27. The resolver of one payload entry picks the asset of one item of
    the payload.  When some item has a category and a size, the chosen
    item is the first item, in payload order, of the best category and,
    within that category, of the best size, where the best of the names
    that occur (among the items with a category and a size; for the sizes,
    among those of the category) is the first name of the preference list
    that occurs or, when none of them occurs, the name that occurs first in
    the payload; the asset carries the URI made absolute.  When no item has
    both a category and a size the resolver raises [IndexError]. *)
Theorem artwork_is_first_item_of_best_bucket (dat : list Artwork.item) :
  (existsb Art.usable dat = true ->
   exists it c z,
     Artwork.select_best (Artwork.build_assets dat) = Ok (Some (Art.asset_of it)) /\
     Art.best_of (Art.category_list dat) Artwork.category_preference c /\
     Art.best_of (Art.size_list c dat) Artwork.size_preference z /\
     find (Art.in_bucket c z) dat = Some it /\
     Art.chosen dat = Some it) /\
  (existsb Art.usable dat = false ->
   Artwork.select_best (Artwork.build_assets dat) = Raise IndexError /\
   Art.chosen dat = None).
Proof.
  split.
  - intros Hu. destruct (chosen_some dat Hu) as (it & Hit).
    destruct (chosen_best dat it Hit) as (c & z & Hc & Hz & Hf).
    exists it, c, z. rewrite select_best_chosen, Hit. auto.
  - intros Hu. rewrite select_best_chosen, (chosen_none dat Hu). auto.
Qed.

(** An item of category Iconic and size Md beats every other item,
    wherever it stands in the payload: the program gets the asset of the
    first such item, with its URI made absolute. *)
Theorem artwork_prefers_iconic_md (dat : list Artwork.item) (it : Artwork.item) :
  find (Art.in_bucket "Iconic" "Md") dat = Some it ->
  Artwork.select_best (Artwork.build_assets dat)
  = Ok (Some (Art.calc_artwork_uri (Artwork.uri it),
              match Artwork.caption it with Some c => c | None => None end,
              Artwork.width it, Artwork.height it)).
Proof.
  intros F. rewrite select_best_chosen. unfold Art.chosen.
  pose proof (find_some _ _ F) as [Hin Hb].
  assert (Hc : In "Iconic" (Art.categories dat))
    by (apply in_first_seen, in_category_list; eauto).
  assert (Hz : In "Md" (Art.sizes "Iconic" dat))
    by (apply in_first_seen, in_size_list; eauto).
  unfold Artwork.category_preference, Artwork.size_preference.
  rewrite (best_match_first _ _ _ Hc), (best_match_first _ _ _ Hz), F. reflexivity.
Qed.

(** X28. [proc_program_artwork_info] returns a dict exactly when every entry of
    the payload is an error entry or a list with at least one item that
    has a category and a size; otherwise it raises. *)
Theorem artwork_info_returns_iff_resolvable (data : list Artwork.program_art) :
  (exists res, Artwork.proc_program_artwork_info data = Ok res)
  <-> Forall Art.resolvable data.
Proof.
  unfold Artwork.proc_program_artwork_info. split.
  - intros (res & H). eapply proc_entries_returned, H.
  - intros H. apply proc_entries_resolvable, H.
Qed.

(** X29. When a payload names a program more than once, the last list entry for
    it decides: the returned dict maps the program id to the asset chosen
    from that entry. *)
Theorem artwork_info_last_entry_wins
    (pre post : list Artwork.program_art) (e : Artwork.program_art)
    (dat : list Artwork.item) (res : dict Artwork.asset) :
  Artwork.data e = Artwork.ArtList dat ->
  (forall e', In e' post ->
     Artwork.data e' = Artwork.ArtOther \/ Artwork.programID e' <> Artwork.programID e) ->
  Artwork.proc_program_artwork_info (pre ++ e :: post) = Ok res ->
  exists it, Art.chosen dat = Some it /\
             dict_get res (Artwork.programID e) = Some (Art.asset_of it).
Proof.
  intros D Hpost H. unfold Artwork.proc_program_artwork_info in H.
  rewrite proc_entries_app in H.
  destruct (Artwork.proc_entries [] pre) as [r0|]; [|discriminate].
  cbn [rbind Artwork.proc_entries] in H. rewrite proc_entry_chosen, D in H.
  destruct (Art.chosen dat) as [it|]; [|discriminate]. cbn [rbind] in H.
  exists it. split; [reflexivity|].
  rewrite (proc_entries_other_ids post _ Hpost _ _ H). apply dict_get_set_same.
Qed.

Section ShortIds.

Import Artwork.

Lemma calc_short_program_ids_eq (program_ids : list string) :
  calc_short_program_ids program_ids
  = Terms.first_seen (map shorten_program_id program_ids).
Proof.
  unfold calc_short_program_ids, Terms.first_seen.
  assert (H : forall acc,
            fold_left
              (fun shortend_progids item =>
                 if existsb (String.eqb (shorten_program_id item)) shortend_progids
                 then shortend_progids
                 else shortend_progids ++ [shorten_program_id item])
              program_ids acc
            = fold_left Terms.note_seen (map shorten_program_id program_ids) acc).
  { induction program_ids as [|p l IH]; intros acc; simpl; [reflexivity|].
    rewrite IH. reflexivity. }
  apply H.
Qed.

Lemma substring_length (n : nat) (s : string) :
  (String.length (String.substring 0 n s) <= n)%nat.
Proof.
  revert s. induction n as [|n IH]; intros [|c s]; simpl; try lia.
  specialize (IH s). lia.
Qed.

End ShortIds.

(** X30. The shortened ids sent to the artwork request: no id twice, each the
    first ten characters of a program id of the worklist, and the key under
    which any program of the worklist is later looked up is among them. *)
Theorem short_program_ids_cover_the_worklist (program_ids : list string) :
  let shorts := Artwork.calc_short_program_ids program_ids in
  NoDup shorts /\
  (forall s, In s shorts <->
     exists p, In p program_ids /\ s = Artwork.shorten_program_id p) /\
  (forall s, In s shorts -> (String.length s <= 10)%nat) /\
  (length shorts <= length program_ids)%nat.
Proof.
  cbv zeta. rewrite calc_short_program_ids_eq.
  assert (Hin : forall s, In s (Terms.first_seen (map Artwork.shorten_program_id program_ids))
                          <-> exists p, In p program_ids /\ s = Artwork.shorten_program_id p).
  { intros s. rewrite in_first_seen, in_map_iff. split.
    - intros (p & <- & Hp). eauto.
    - intros (p & Hp & ->). eauto. }
  assert (Hnd : NoDup (Terms.first_seen (map Artwork.shorten_program_id program_ids))).
  { unfold Terms.first_seen. apply note_seen_nodup. constructor. }
  split; [exact Hnd|]. split; [exact Hin|]. split.
  - intros s Hs. apply Hin in Hs as (p & _ & ->). apply substring_length.
  - rewrite <- (length_map Artwork.shorten_program_id program_ids).
    apply NoDup_incl_length; [exact Hnd|].
    intros s Hs. apply (proj1 (in_first_seen _ _)) in Hs. exact Hs.
Qed.

(** ** The further statements at concrete inputs *)

Lemma xml_escape_injective_witness : "a<b & c" = "a<b & c".
Proof. apply (xml_escape_injective "a<b & c" "a<b & c"). reflexivity. Defined.

Lemma cast_crew_round_trip_witness :
  exists s,
    People._get_cast_crew_string
      (Some [[("name", "Daniel Radcliffe"); ("characterName", "Harry Potter")];
             [("name", "Tom Magnus")]])
      "name" "characterName" = Ok (Some s) /\
    Text.tab_and_vertical_splitter s true
    = Ok (map (People.decoded true "name" "characterName")
              [[("name", "Daniel Radcliffe"); ("characterName", "Harry Potter")];
               [("name", "Tom Magnus")]]).
Proof.
  apply (cast_crew_round_trip "name" "characterName"
           [[("name", "Daniel Radcliffe"); ("characterName", "Harry Potter")];
            [("name", "Tom Magnus")]] true).
  - discriminate.
  - repeat constructor.
    + exists "Daniel Radcliffe". repeat split.
    + simpl in H. inversion H; subst. reflexivity.
    + simpl in H. inversion H; subst. reflexivity.
    + exists "Tom Magnus". repeat split.
    + simpl in H. discriminate H.
    + simpl in H. discriminate H.
Defined.

Lemma stringlist_round_trip_witness :
  exists s,
    Cache.calc_string_from_stringlist ["Drama"; "Fantasy"] = VText s /\
    Text.tab_and_vertical_splitter s true = Ok (map Text.Str ["Drama"; "Fantasy"]).
Proof.
  apply (stringlist_round_trip ["Drama"; "Fantasy"] true).
  repeat constructor.
Defined.

Lemma date_to_int_injective_witness :
  String.substring 0 10 "2015-03-02" = String.substring 0 10 "2015-03-02T15:54:58Z" /\
  1 <= 735659.
Proof.
  apply (date_to_int_injective "2015-03-02" "2015-03-02T15:54:58Z" 735659);
    reflexivity.
Defined.

Lemma built_fields_distinct_witness :
  NoDup (fields (mkQb ["a"] [VInt 1] "t")) /\
  length (fields (mkQb ["a"] [VInt 1] "t")) = length (values (mkQb ["a"] [VInt 1] "t")).
Proof.
  apply (built_fields_distinct (mkQb ["a"] [VInt 1] "t")).
  apply (@Builder.built_add (Qb.new "t") (mkQb ["a"] [VInt 1] "t") "a" (VInt 1) false).
  - apply Builder.built_new.
  - reflexivity.
Defined.

Lemma add_override_replaces_witness :
  exists qb',
    Qb.add (mkQb ["a"] [VInt 1] "t") "a" (VInt 2) true = Ok qb' /\
    Qb.value_of qb' "a" = Ok (VInt 2) /\
    (forall g, g <> "a" ->
               Qb.value_of qb' g = Qb.value_of (mkQb ["a"] [VInt 1] "t") g) /\
    last (fields qb') "" = "a".
Proof.
  apply (add_override_replaces (mkQb ["a"] [VInt 1] "t") "a" (VInt 2)).
  apply (@Builder.built_add (Qb.new "t") (mkQb ["a"] [VInt 1] "t") "a" (VInt 1) false).
  - apply Builder.built_new.
  - reflexivity.
Defined.

Lemma insert_reads_back_witness :
  let qb := mkQb ["a"] [VInt 1] "t" in
  exists r d',
    Builder.execute_insert qb (mkDb [] [] 0) = ((Ok tt, qb), d') /\
    get_table d' "t" = get_table (mkDb [] [] 0) "t" ++ [r] /\
    (forall f v, Qb.value_of qb f = Ok v -> row_get r f = v) /\
    (forall t, t <> "t" -> get_table d' t = get_table (mkDb [] [] 0) t).
Proof.
  apply (insert_reads_back (mkQb ["a"] [VInt 1] "t") (mkDb [] [] 0)).
  - apply (@Builder.built_add (Qb.new "t") (mkQb ["a"] [VInt 1] "t") "a" (VInt 1) false).
    + apply Builder.built_new.
    + reflexivity.
  - discriminate.
  - simpl. intuition discriminate.
  - reflexivity.
Defined.

Lemma insert_or_update_idempotent_witness :
  let qb := mkQb ["k"; "m"] [VText "x"; VInt 1] "t" in
  let qb1 := mkQb ["k"; "m"] [VText "x"; VInt 1; VText "x"] "t" in
  let d := mkDb [("t", [mkRow 1 [("k", VText "x"); ("m", VInt 0)]])] [] 0 in
  let d1 := mkDb [("t", [mkRow 1 [("k", VText "x"); ("m", VInt 1)]])] [SUpdate "t"] 0 in
  Builder.insert_or_update "k" (Some "m") qb d = ((Ok true, qb1), d1) /\
  Builder.insert_or_update "k" (Some "m") qb1 d1 = ((Ok false, qb1), d1).
Proof.
  intros qb qb1 d d1. split; [reflexivity|].
  apply (insert_or_update_idempotent qb qb1 "k" "m" (VText "x") (VInt 1) d d1 true).
  - apply (@Builder.built_add (mkQb ["k"] [VText "x"] "t") _ "m" (VInt 1) false).
    + apply (@Builder.built_add (Qb.new "t") _ "k" (VText "x") false).
      * apply Builder.built_new.
      * reflexivity.
    + reflexivity.
  - simpl. intuition discriminate.
  - reflexivity.
  - discriminate.
  - reflexivity.
  - reflexivity.
Defined.

Lemma insert_or_update_null_identity_witness :
  let qb := mkQb ["k"] [VNull] "t" in
  let d := mkDb [("t", [mkRow 1 [("k", VNull)]])] [] 0 in
  Builder.insert_or_update "k" None qb d
  = ((Ok true, qb), Spec.row_inserted d "t" (Qb.pairs qb)).
Proof.
  apply (insert_or_update_null_identity (mkQb ["k"] [VNull] "t") "k" None).
  - apply (@Builder.built_add (Qb.new "t") _ "k" VNull false).
    + apply Builder.built_new.
    + reflexivity.
  - simpl. intuition discriminate.
  - reflexivity.
  - reflexivity.
  - discriminate.
Defined.

Lemma statement_parameters_agree_witness :
  (Builder.placeholders (fst (Builder.get_insert None (mkQb ["a"] [VInt 1] "t")))
   = length ["a"] /\
   length (snd (Builder.get_insert None (mkQb ["a"] [VInt 1] "t"))) = length ["a"]) /\
  exists s ps qb1,
    Builder.get_update "k=?" (Some [VInt 7]) (mkQb ["a"] [VInt 1] "t") = (Ok (s, ps), qb1) /\
    Builder.placeholders s = length ps.
Proof.
  apply (statement_parameters_agree (mkQb ["a"] [VInt 1] "t") "k=?" [VInt 7]).
  - apply (@Builder.built_add (Qb.new "t") (mkQb ["a"] [VInt 1] "t") "a" (VInt 1) false).
    + apply Builder.built_new.
    + reflexivity.
  - reflexivity.
  - repeat constructor.
  - reflexivity.
Defined.

Lemma builder_serves_one_update_witness :
  exists s ps qb1 ps2 qb2,
    Builder.get_update "k=?" (Some [VInt 7]) (mkQb ["a"] [VInt 1] "t") = (Ok (s, ps), qb1) /\
    Builder.get_update "k=?" (Some [VInt 7]) qb1 = (Ok (s, ps2), qb2) /\
    ps2 = ps ++ [VInt 7] /\
    (Builder.placeholders s < length ps2)%nat /\
    (length (fields qb1) < Builder.placeholders (fst (Builder.get_insert None qb1)))%nat.
Proof.
  apply (builder_serves_one_update (mkQb ["a"] [VInt 1] "t") "k=?" [VInt 7]).
  - apply (@Builder.built_add (Qb.new "t") (mkQb ["a"] [VInt 1] "t") "a" (VInt 1) false).
    + apply Builder.built_new.
    + reflexivity.
  - reflexivity.
  - repeat constructor.
  - reflexivity.
  - discriminate.
Defined.

Lemma add_dict_copies_in_order_witness :
  Builder.add_dict [("lineup", VText "L1"); ("transport", VText "DVB-S")]
    (Some [("lineup", "lineupname")]) (Qb.new "lineups")
  = (Ok tt, mkQb ["lineupname"] [VText "L1"] "lineups") /\
  Builder.add_dict_filter [("lineup", VText "L1"); ("transport", VText "DVB-S")]
    ["lineupname"] (Some [("lineup", "lineupname")]) (Qb.new "lineups")
  = (Ok tt, mkQb ["lineupname"] [VText "L1"] "lineups").
Proof.
  destruct (add_dict_copies_in_order
              [("lineup", VText "L1"); ("transport", VText "DVB-S")]
              (Some [("lineup", "lineupname")]) (Some [("lineup", "lineupname")])
              ["lineupname"] (Qb.new "lineups")) as [H1 H2].
  - repeat constructor; simpl; intuition discriminate.
  - split; [apply H1|apply H2]; repeat constructor; simpl; tauto.
Defined.

Lemma add_dict_stops_at_known_field_witness :
  Builder.add_dict ([("a", VInt 1)] ++ ("k", VInt 2) :: [("b", VInt 3)]) None
    (mkQb ["k"] [VInt 0] "t")
  = (Raise IndexError, Builder.extended (mkQb ["k"] [VInt 0] "t") [("a", VInt 1)]).
Proof.
  apply (add_dict_stops_at_known_field [("a", VInt 1)] "k" (VInt 2) [("b", VInt 3)]
           (mkQb ["k"] [VInt 0] "t")).
  - repeat constructor; simpl; intuition discriminate.
  - repeat constructor; simpl; intuition discriminate.
  - left. reflexivity.
Defined.

Lemma stored_programs_are_found_witness :
  exists r,
    fst (Store.get_program 9 (Some (Prog.programID Scenario.a_program))
           (snd (Cache.store_programs 5 [Scenario.a_program] None (mkDb [] [] 0))))
    = Ok (Some r) /\
    row_get r "program_id" = VText (Prog.programID Scenario.a_program) /\
    row_get r "md5" = VText (Prog.md5 Scenario.a_program).
Proof.
  refine (stored_programs_are_found 5 9 None [Scenario.a_program] (mkDb [] [] 0)
            (snd (Cache.store_programs 5 [Scenario.a_program] None (mkDb [] [] 0)))
            _ _ Scenario.a_program _).
  - repeat constructor. simpl. tauto.
  - reflexivity.
  - left. reflexivity.
Defined.

Lemma open_programs_witness :
  ["EP012345670001"]
  = Terms.first_seen
      (map Sched.programID
           (filter (Terms.stale Scenario.settled_cache)
                   (map snd (Spec.fetched_entries
                               [Sched.mkItem "10021" "2015-03-02"
                                  [Sched.mkProgram "EP012345670001" "p2md5"
                                     "2015-03-02T20:00:00Z" 30 None None]])))) /\
  NoDup ["EP012345670001"] /\
  (forall x, In x ["EP012345670001"] <->
     exists item p,
       In item [Sched.mkItem "10021" "2015-03-02"
                  [Sched.mkProgram "EP012345670001" "p2md5"
                     "2015-03-02T20:00:00Z" 30 None None]] /\
       In p (Sched.programs item) /\
       Terms.stale Scenario.settled_cache p = true /\ Sched.programID p = x) /\
  get_table
    (snd (Cache.store_schedules Scenario.clock
            [Sched.mkItem "10021" "2015-03-02"
               [Sched.mkProgram "EP012345670001" "p2md5"
                  "2015-03-02T20:00:00Z" 30 None None]] Scenario.settled_cache))
    "programdata"
  = get_table Scenario.settled_cache "programdata".
Proof.
  apply (open_programs_are_the_stale_ones Scenario.clock
           [Sched.mkItem "10021" "2015-03-02"
              [Sched.mkProgram "EP012345670001" "p2md5"
                 "2015-03-02T20:00:00Z" 30 None None]]
           Scenario.settled_cache
           (snd (Cache.store_schedules Scenario.clock
                   [Sched.mkItem "10021" "2015-03-02"
                      [Sched.mkProgram "EP012345670001" "p2md5"
                         "2015-03-02T20:00:00Z" 30 None None]] Scenario.settled_cache))
           ["EP012345670001"]).
  reflexivity.
Defined.

Lemma store_schedules_needs_the_index_row_witness :
  Cache.store_schedules Scenario.clock
    ([] ++ Sched.mkItem "10021" "2015-03-02" [Scenario.an_entry] :: [])
    (mkDb [] [] 0)
  = (Raise AssertionError, mkDb [] [] 0).
Proof.
  apply (store_schedules_needs_the_index_row Scenario.clock [] []
           (Sched.mkItem "10021" "2015-03-02" [Scenario.an_entry])
           (mkDb [] [] 0) (mkDb [] [] 0) [] (Some 735659)); reflexivity.
Defined.

Lemma new_schedules_witness :
  (forall s day,
     In day (Terms.days_listed [("10021", ["2015-03-03"])] s) <->
     exists e, In (s, (day, e)) (Spec.days_of Scenario.two_days) /\
               Terms.dirty (mkDb [] [] 0) s (day, e) = true) /\
  (forall s,
     In s (dict_keys [("10021", ["2015-03-03"])]) <->
     exists day, In day (Terms.days_listed [("10021", ["2015-03-03"])] s)).
Proof.
  apply (new_schedules_are_the_dirty_days Scenario.clock Scenario.two_days (mkDb [] [] 0)
           (snd (Cache.store_schedule_index Scenario.clock Scenario.two_days (mkDb [] [] 0)))
           [("10021", ["2015-03-03"])] 1).
  - reflexivity.
  - constructor.
  - repeat constructor; simpl; intuition discriminate.
Defined.

Lemma refresh_skips_lineups_in_step_witness :
  StageA.refresh_lineups_and_stations_if_needed Scenario.clock Sample.at_zero
    Sample.lineups Sample.lineup_stations Sample.cache_in_step
  = (Ok false, Sample.cache_in_step).
Proof.
  apply (refresh_skips_lineups_in_step Scenario.clock Sample.at_zero Sample.lineups
           Sample.lineup_stations Sample.cache_in_step).
  split.
  - intros r [<-|[]]. eexists. split; [left; reflexivity|reflexivity].
  - intros x [<-|[]]. eexists. exists 0. repeat split; reflexivity.
Defined.

Lemma refresh_rebuilds_active_flags_witness :
  let d := Scenario.fresh_cache 1 0 in
  let run := StageA.refresh_lineups_and_stations_if_needed Scenario.clock Sample.at_zero
               Sample.lineups Sample.lineup_stations d in
  let ids := Terms.fetched_station_ids Sample.lineups Sample.lineup_stations in
  fst run = Ok true /\
  ids = [Scenario.station_name 1] /\
  (forall s, In s ids ->
     exists r, In r (get_table (snd run) "stations") /\ Terms.is_station s r = true) /\
  (forall r, In r (get_table (snd run) "stations") ->
     row_get r "active"
     = VInt (if existsb (fun s => Terms.is_station s r) ids then 1 else 0)).
Proof.
  intros d run ids. split; [vm_compute; reflexivity|]. split; [vm_compute; reflexivity|].
  apply (refresh_rebuilds_active_flags Scenario.clock Sample.at_zero Sample.lineups
           Sample.lineup_stations d (snd run)).
  vm_compute. reflexivity.
Defined.

Lemma refresh_is_idempotent_witness :
  let d := Scenario.fresh_cache 1 0 in
  let d' := snd (StageA.refresh_lineups_and_stations_if_needed Scenario.clock
                   Sample.at_zero Sample.lineups Sample.lineup_stations d) in
  d' <> d /\
  Terms.lineups_in_step Scenario.clock d' Sample.lineups /\
  StageA.refresh_lineups_and_stations_if_needed Scenario.clock (fun _ => 7)
    Sample.lineups (fun _ => None) d'
  = (Ok false, d').
Proof.
  intros d d'. split; [vm_compute; discriminate|].
  apply (refresh_is_idempotent Scenario.clock Sample.at_zero (fun _ => 7) Sample.lineups
           Sample.lineup_stations (fun _ => None) d d' true).
  - repeat constructor. intros [].
  - intros r [].
  - vm_compute. reflexivity.
Defined.

Lemma completed_run_is_not_repeated_witness :
  let r := Scenario.service Scenario.healthy Scenario.a_day [Scenario.an_entry] in
  let run1 :=
    Main.main Scenario.clock
      (fun _ => StageA.refresh_lineups_and_stations_if_needed Scenario.clock
                  Sample.at_zero Sample.lineups Sample.lineup_stations)
      Scenario.configured 0 r (Scenario.fresh_cache 1 0) in
  Main.exit_code run1 = 0 /\
  length (journal (Main.committed run1)) = 6%nat /\
  Main.main Scenario.clock
    (fun _ => StageA.refresh_lineups_and_stations_if_needed Scenario.clock
                (fun _ => 7) Sample.lineups (fun _ => None))
    Scenario.configured 0 r (Main.committed run1)
  = Main.mkRun 0 Scenario.configured (Main.committed run1) (Main.committed run1).
Proof.
  intros r run1. split; [vm_compute; reflexivity|]. split; [vm_compute; reflexivity|].
  apply (completed_run_is_not_repeated Scenario.clock Sample.at_zero (fun _ => 7)
           Sample.lineups Sample.lineup_stations (fun _ => None)
           Scenario.configured 0 0 r (Scenario.fresh_cache 1 0)).
  - vm_compute. reflexivity.
  - repeat constructor. intros [].
  - intros row [].
  - unfold Spec.rowids_unique. vm_compute. constructor.
  - intros chunks Hc. vm_compute in Hc. inversion Hc; subst chunks.
    vm_compute. split; repeat constructor.
    + intros [].
    + exists 735659. reflexivity.
  - reflexivity.
  - intros st Hst. vm_compute in Hst. inversion Hst; subst st. reflexivity.
Defined.

Lemma artwork_prefers_iconic_md_witness :
  Artwork.select_best (Artwork.build_assets Sample.artwork)
  = Ok (Some ("https://json.schedulesdirect.org/20141201/image/assets/p1_i_md.jpg",
              Some "Poster", Some 240, Some 360)).
Proof.
  apply (artwork_prefers_iconic_md Sample.artwork Sample.iconic_md). reflexivity.
Defined.

Lemma artwork_info_last_entry_wins_witness :
  exists it,
    Art.chosen Sample.artwork = Some it /\
    dict_get Sample.artwork_info "EP01234567" = Some (Art.asset_of it).
Proof.
  apply (artwork_info_last_entry_wins Sample.artwork_payload_before
           Sample.artwork_payload_after Sample.artwork_entry Sample.artwork
           Sample.artwork_info).
  - reflexivity.
  - intros e' [<-|[]]. left. reflexivity.
  - vm_compute. reflexivity.
Defined.
